(* ===== verification/_CoqProject ===== *)
-Q . S2P
Prelude.v
CString.v
RecordFile.v
Stdio.v
Inet.v
Network.v
Common.v
LoginRule.v
FailureLog.v
TallyLog.v
IpLock.v
PamLogin.v
PamSession.v
LdapUsers.v
UipUser.v
Password.v
LdapConfig.v
LdapServer.v
LdapGroups.v
LdapAuth.v
Memory.v
LdapBlocks.v
SearchBlocks.v
SessionMemory.v
SearchMemory.v
Tables.v
LdapMemory.v
KeyMemory.v
TextMemory.v
Lua.v
CliSessions.v
LuaLdap.v
LuaUsers.v
LuaBindings.v
LuaAccount.v
LuaTypes.v
Lockout.v
