(* ===== verification/Prelude.v ===== *)
(** * Verification of the native core of openUBMC account/IAM

    The repository (src/) holds the account and identity services of a baseboard management
    controller. The services are Lua; what they, sshd, vsftpd, the console and the IPMI daemon rely on
    to decide whether somebody may log in is a set of C libraries under src/libiam/lualib-src/, and
    that code is what this development models and proves correct. File names below are relative to
    that directory.

    ** The program

    - pam_tally_ext.c keeps, for each user, a file of the last failed logins;
      iam_core/ip_lock/ip_lock.c does the same for each address and decides when an address is locked.
    - iam_core/common/check_login_rule.c reads up to three login rules (time window, address range,
      MAC prefix) from a file and says whether a user may log in now from an address; it uses
      network.c (addresses, subnets, ARP table) and iam_core/common/common.c (D-Bus settings, users).
    - iam_core/pam_bmc_login is the PAM module of local users: it reads the user's line of the
      permission file, then asks for the privilege, the lock, the rules and, in account management, the
      login interface. iam_core/pam_bmc_session bounds the ssh sessions between chassis.
    - iam_core/uip/uip_user.c answers questions of other programs about users (interface, rules,
      privilege, lock) from the permission file or over D-Bus and keeps the table of the LDAP users
      on the command line.
    - password.c and comm_utils.c check passwords and handle key pairs;
      iam_core/ldap_auth_parse_info.c and iam_core/ldap_auth.c authenticate users against an LDAP
      directory and find the privilege their groups give.
    - iam_core/iam_lua_lib.c, iam_core/ip_lock/ip_lock_lua_lib.c and account_core/account_lua_lib.c bind
      these functions to Lua and add two of their own: the list of the sessions on the command line and
      the end of such a session.

    ** The files

    - Prelude: machine integers (a w-bit integer is a [Z] with its wrap-around), tactics, the hint
      database [iam], lemmas on lists.
    - CString: C strings as [list ascii] without the NUL, arrays as lists of their length; strtol,
      strsep, strtok, sscanf, the bounds-checked copies.
    - RecordFile: files that are arrays of C structures. The class [RecordCodec] is the interface: what
      the layout of a structure promises (fixed size, decoding inverts encoding); the lemmas on arrays
      are proved against it, the three structures of the code are its instances.
    - Stdio: the file system as the record files see it ([fs], [os_env]).
    - Inet: inet_pton for both families and the bits of an address.
    - Network: network.c. Common: iam_core/common/common.c. LoginRule:
      iam_core/common/check_login_rule.c.
    - FailureLog: abstract specification shared by the two failure logs.
    - TallyLog: pam_tally_ext.c. IpLock: iam_core/ip_lock/ip_lock.c.
    - PamLogin: iam_core/pam_bmc_login. PamSession: iam_core/pam_bmc_session.
    - LdapUsers, UipUser: iam_core/uip/uip_user.c.
    - Password: password.c, comm_utils.c. LdapConfig: iam_core/ldap_auth_parse_info.c.
    - LdapServer, LdapGroups, LdapAuth: iam_core/ldap_auth.c, in three layers: the handle of a
      connection (opening, TLS options, binds, SASL), the search for the groups of a user, and the
      authentication itself. A monad carries the session; its trace records every operation on the
      directory with its answer, and [openldap_lib] answers from the operations so far, so the directory
      may change while it is being asked. A weakest precondition ([wp]) and invariants of the trace
      ([in_phase], [bound_by]) carry the proofs.
    - Memory: malloc, load, store and free as a state monad over finite maps of blocks, and a linear separation logic
      for it (an instance of Iris' [bi]): a proof that a function runs must say what becomes of every block it had.
    - LdapBlocks, SearchBlocks: the functions of ldap_auth.c and ldap_auth_parse_info.c again, on the heap: session,
      configuration, SASL defaults, copies of passwords; search results, values, hash tables and their names.
      SessionMemory, SearchMemory, LdapMemory: they refine the functions of LdapServer, LdapGroups and LdapAuth
      ([refines], with the blocks owned before and after in [books]). GLib's hash tables are the class [GLib] with the
      laws [GLibLaws]; Tables is the implementation that shows the laws can hold.
    - KeyMemory: the functions of password.c and comm_utils.c that allocate OpenSSL objects, BIOs, buffers and
      compiled patterns. TextMemory: the parsers of pam_bmc_login.c, uip_user.c and check_login_rule.c, which cut
      copies of their text in place with strsep.
    - Lua: what a binding asks of Lua. [lua_api] is the part of the Lua C API that the bindings use, with
      the laws of the manual ([lua_manual]) and a concrete instance ([strict_lua]); a binding returns its
      results, raises an error or is undefined.
    - CliSessions, LuaLdap, LuaUsers, LuaBindings: iam_core/iam_lua_lib.c (sessions of the command line;
      the LDAP login; the LDAP users; the remaining bindings, with those of
      iam_core/ip_lock/ip_lock_lua_lib.c). LuaAccount: account_core/account_lua_lib.c. LuaTypes: signatures
      for the functions of the three modules (types, errors, parts of the state changed, what is needed to come
      back) and a weakest precondition ([lwp]) for showing that they are kept.
    - Lockout: the lock of a user across the bindings, pam_tally_ext.c and uip_user.c.

    Definitions keep the names of the C functions; a loop of a function is a Fixpoint named after it. A
    function is a Coq function of its arguments, of the state it changes and of an environment record
    with the answers of the code it calls outside the repository: [os_env], [bus_env], [login_env],
    [pam_env], [uip_env], [proc_env] (system calls, GLib's D-Bus, libpam, the tables of processes and
    sessions), [openssl], [openldap_lib], [lua_api]; [host] gathers those of the bindings. The numeric
    codes of libpam, OpenLDAP and OpenSSL are the classes [PamCodes], [LdapCodes] and [X509Codes],
    instantiated for the witnesses. Undefined behaviour (a NULL dereference, an access outside an array)
    is the result [None]; error codes of the C functions are values.

    ** What the theorems show

    - The login decision: authentication succeeds exactly when every check does
      ([authenticate_decides], [acct_mgmt_decides]); the ways around the file of the users are listed
      ([authenticate_needs_line]); the rules admit exactly the logins that an enabled rule of the user
      admits ([login_rule_decision], [mac_rule_decision]); a time rule admits the moments between its ends, a
      rule on dates up to the years modulo 256 ([time_rule_window]); their file survives printing and parsing ([rules_file_roundtrip]); the
      mirrored questions of uip_user.c agree ([readers_agree], [user_lock_status]).
    - The lock: the record files refine the abstract log ([increment_refines], [failures_are_counted],
      [get_user_info_counts]), never grow over their bound, recover from malformed content, and an
      address is locked after the configured failures ([lock_after_failures]). The addresses recorded are bounded, and
      their files but for those that cannot be removed ([recorded_ips_bounded]). Failures
      that the service reports through Lua lock the user for the programs that ask libuip
      ([lua_failures_lock_user]).
    - Addresses: membership in a subnet is equality of the leading bits, whatever way the code computes
      it ([ipv4_subnet_is_prefix], [ipv6_subnet_is_prefix]).
    - LDAP users: the table refines a finite map and uids are fresh ([ldap_table_refines],
      [allocated_uids_are_fresh]); names built in fixed buffers ([names_of_components]); their
      escaping, which cuts off what the buffer has no room for ([escape_roundtrip]).
    - The directory: whoever is authenticated was bound with the password that was typed, under a name
      that is his ([authenticated_with_password]), on a handle whose options follow the configured TLS
      policy; the client opens, binds, searches at most a fixed number of times, closes and always
      returns ([ldap_client_protocol]); a privilege comes from a group the directory says the user is in
      and is the highest of those ([privilege_is_earned], [privilege_is_highest]). Names are compared
      component by component without tags and case ([sentence_comparison]); an escaped name cannot leave
      its place in a filter and is read back as written ([filter_escape_safe]). A user without a group
      still succeeds, without a privilege ([nobody_found_still_succeeds]).
    - Lua: every function registered keeps its signature: called with arguments of its types and given what it
      needs it comes back, with results of its types or an error of its own ([bindings_are_typed]); a login through the binding needs
      the password as the service gave it ([lua_login_needs_password]), with the domain divided off at
      the last '@' ([name_divided_at_last_at]); failures recorded through Lua are those counted through
      Lua ([lua_failures_counted]); the sessions listed are those of the processes alive, as
      long as ps prints nothing but processes ([online_users_listed]), only such sessions are sent a signal ([only_sessions_are_killed]), the
      list of users logged in is the table ([authed_users_listed]); the VNC bindings stay inside their
      buffers ([vnc_bindings_bounds]).
    - Memory: an LDAP authentication on the heap computes what it computes on values, touches only blocks that are
      allocated, returns every search result, value, table and name, loses exactly the names of groups that share a
      slot and the passwords of refused SASL binds, and frees no block in which a password can be read
      ([authentication_memory]). The calls on keys and ciphers free what they allocate, but a decrypted text, and a
      private key when the public one cannot be written, stay readable in what is freed ([key_calls_spill]); the
      tests of patterns lose their matches, the VNC step the provider it loads ([vnc_and_patterns_leak]). The parsers in place agree with
      the parsers on lists on every text, are undefined on the same texts and free their copies, save the PAM module,
      which loses a copy for every line before the user's ([parsers_memory]).
    - Passwords and keys: the complexity rule and the round trip of key pairs ([password_policy],
      [key_pair_roundtrip]).
    - Limits of the code that the proofs brought out are theorems too ([oversized_rules_admit_all],
      [role_ids_stored], [lua_sizes_unchecked], [garbage_never_ends], [password_copy_lost]).

    ** Bounds and fuel

    Most loops are structural on the list they walk or on the remaining count the C code compares with
    (records, rules, slots). Where fuel is needed, what is given suffices, and the theorems say that a
    result is returned:

    - [escape_loop] of LdapConfig: each round consumes a character of the folder, so the 256 rounds given
      are more than its at most 255 characters.
    - [do_search_user_group] and [do_search_group_owner] of LdapGroups: the code gives up below depth 50
      ([MAX_TREE_DEPTH]), the fuel is 52; [owner_entries] gets the 3 rounds it can use at most. The set of
      names visited is bounded by 2000, which bounds the searches of an authentication by 4005.
    - [notty_loop] of CliSessions: the length of the text plus 23. Each round consumes text, or adds a session
      and the loop stops above 20, or changes nothing at all: what does not end within the fuel never ends
      ([notty_fuel_enough]), as in [garbage_never_ends]; on the output of ps it ends. [count_sessions] of
      PamSession is the same loop with a counter ([count_fuel_enough]).
    - [authed_loop] of LuaUsers: the number of structures plus one ([authed_comes] of LuaTypes).
    - [token_loop], [pam_lines], [uip_lines], [rule_lines] of TextMemory: two more than the length of the text; a text
      has at most one line or field more than characters ([tokens_length]). That the result is defined is part of
      [parsers_memory].

    ** Assumptions

    What the code relies on outside the repository are hypotheses, each with an instance that satisfies it:
    [well_behaved] (a failed ldap_initialize gives no handle; and, which no manual promises, strdup finds memory: what
    happens otherwise is [password_copy_lost]), [GLibLaws] (hash tables keep the keys they were given and free the
    others), [sized] (OpenSSL's answers are no longer than it announced), [ecb] (DES in ECB mode with padding), [Erases]
    (BIO_free and EVP_PKEY_free overwrite what they free), [lua_manual] (the C API of Lua). Definitions follow the code
    also where these fail; only theorems assume them.

    Where C leaves the platform a choice the models have it as an argument or say what they took: whether a plain char
    is signed is a field of [login_env] (it decides how check_login_rule.c prints a MAC address); the shift of a mask
    of length 1 in network.c, which overflows an int, is taken to wrap around. Arrays of utmp need not end with a NUL;
    [remove] may fail ([remove_ok] of [os_env]).

    ** Not modelled

    The Lua services themselves, and the helpers of a test build (ENABLE_TEST, LDAP_DEBUG). Logging leaves no trace.
    Memory is modelled for the LDAP login, for keys, ciphers and patterns and for the parsers; the record files,
    the bindings and the D-Bus calls are on values, and their messages and iterators are not followed. strdup and
    g_malloc are taken to succeed in the heap models where the code does not look at their result or only gives
    up; the result of a bind that ldap_parse_result frees is an answer of libldap. Threads: the libraries have no locks
    of their own except flock on the record files and the table, which serialises the operations that the models take
    as steps.

    ** Plan

    Every component of the C code is modelled. Next: more theorems on the interplay of the components,
    as in Lockout: the LDAP login over D-Bus from uip_user.c through the binding to the directory, the table of
    LDAP users between the allocation and the list, the rules of a local and of an LDAP user; and the memory of the
    remaining functions that allocate (real paths and buffers of files, D-Bus replies). *)
From Stdlib Require Export ZArith Lia Ascii String.
From stdpp Require Export base list gmap strings.

(** Integers of the C code: a w-bit machine integer is a [Z]; [u8 .. u64] are the
    conversions to the unsigned types ([guint8] .. [guint64]) and [s32], [s64] the
    two's complement conversions to [gint32] and [gint64]. *)
Declare Scope iam_scope.
Delimit Scope iam_scope with iam.
Open Scope Z_scope.

Definition u8 (z : Z) : Z := z mod 2 ^ 8.
Definition u16 (z : Z) : Z := z mod 2 ^ 16.
Definition u32 (z : Z) : Z := z mod 2 ^ 32.
Definition u64 (z : Z) : Z := z mod 2 ^ 64.
Definition s32 (z : Z) : Z := (z + 2 ^ 31) mod 2 ^ 32 - 2 ^ 31.
Definition s64 (z : Z) : Z := (z + 2 ^ 63) mod 2 ^ 64 - 2 ^ 63.

(** Status codes shared by every file of the C code. *)
Definition RET_OK : Z := 0.
Definition RET_ERR : Z := -1.
Definition FALSE : Z := 0.
Definition TRUE : Z := 1.

(** Undefined behaviour (an access out of bounds, a null dereference) is [None]. *)
Abbreviation UB := None (only parsing).

Create HintDb iam discriminated.
Create Rewrite HintDb iam_rw.

(** ** Tactics *)

(** Case analysis on the boolean tests of a goal or of the hypotheses. *)
Ltac bool_cases :=
  repeat match goal with
  | |- context [if ?b then _ else _] =>
      lazymatch b with
      | context [if _ then _ else _] => fail
      | _ => let E := fresh "E" in destruct b eqn:E
      end
  end.

Ltac bool_hyps :=
  repeat match goal with
  | H : (_ && _)%bool = true |- _ => apply andb_true_iff in H as [? ?]
  | H : (_ || _)%bool = false |- _ => apply orb_false_iff in H as [? ?]
  | H : negb _ = true |- _ => apply negb_true_iff in H
  | H : negb _ = false |- _ => apply negb_false_iff in H
  | H : Z.ltb _ _ = true |- _ => apply Z.ltb_lt in H
  | H : Z.ltb _ _ = false |- _ => apply Z.ltb_ge in H
  | H : Z.leb _ _ = true |- _ => apply Z.leb_le in H
  | H : Z.leb _ _ = false |- _ => apply Z.leb_gt in H
  | H : Z.eqb _ _ = true |- _ => apply Z.eqb_eq in H
  | H : Z.eqb _ _ = false |- _ => apply Z.eqb_neq in H
  end.

(** [lia] with the division and remainder equations made explicit. *)
Ltac dlia := Z.to_euclidean_division_equations; lia.

(** ** Machine integers *)

Lemma u8_small z : 0 <= z < 2 ^ 8 -> u8 z = z.
Proof. apply Z.mod_small. Qed.
Lemma u16_small z : 0 <= z < 2 ^ 16 -> u16 z = z.
Proof. apply Z.mod_small. Qed.
Lemma u32_small z : 0 <= z < 2 ^ 32 -> u32 z = z.
Proof. apply Z.mod_small. Qed.
Lemma u64_small z : 0 <= z < 2 ^ 64 -> u64 z = z.
Proof. apply Z.mod_small. Qed.
Lemma s32_small z : - 2 ^ 31 <= z < 2 ^ 31 -> s32 z = z.
Proof. intros H. unfold s32. rewrite Z.mod_small; lia. Qed.

Lemma u8_range z : 0 <= u8 z < 2 ^ 8.
Proof. apply Z.mod_pos_bound. lia. Qed.
Lemma u16_range z : 0 <= u16 z < 2 ^ 16.
Proof. apply Z.mod_pos_bound. lia. Qed.
Lemma u32_range z : 0 <= u32 z < 2 ^ 32.
Proof. apply Z.mod_pos_bound. lia. Qed.
Lemma u64_range z : 0 <= u64 z < 2 ^ 64.
Proof. apply Z.mod_pos_bound. lia. Qed.
Lemma s32_range z : - 2 ^ 31 <= s32 z < 2 ^ 31.
Proof. unfold s32. pose proof (Z.mod_pos_bound (z + 2 ^ 31) (2 ^ 32)). lia. Qed.

#[export] Hint Resolve u8_range u16_range u32_range u64_range s32_range : iam.

(** ** Lists *)

Lemma take_ge_all {A} (l : list A) n : (length l <= n)%nat -> take n l = l.
Proof. apply take_ge. Qed.

Lemma length_take_le {A} (l : list A) n : (n <= length l)%nat -> length (take n l) = n.
Proof. intros. rewrite length_take. lia. Qed.

Lemma Forall_insert_list {A} (P : A -> Prop) l i x :
  Forall P l -> P x -> Forall P (<[i := x]> l).
Proof. intros; by apply Forall_insert. Qed.
#[export] Hint Resolve Forall_insert_list : iam.

Lemma filter_none {A} (P : A -> Prop) `{forall x, Decision (P x)} (l : list A) :
  Forall (fun x => ~ P x) l -> filter P l = [].
Proof. induction 1; [done|]. by rewrite filter_cons_False. Qed.
