(* ===== verification/CString.v ===== *)
(** * The C library calls the code uses on strings

    C strings are [list ascii] without their terminating NUL; fixed character
    arrays are [list ascii] of the array's length, read as a string by [c_str].
    Modelled here: <ctype.h> in the "C" locale, [strtol] (LP64, base 10),
    [strsep] (GNU), [strchr], [strrchr], [strstr], [strncmp]/[strncasecmp] against a literal,
    [sscanf] for the conversions that occur, and the bounds-checked copies of
    C11 Annex K ([memcpy_s], [strcpy_s], [strncpy_s]). *)
From S2P Require Export Prelude.
From stdpp Require Import pretty.
Open Scope Z_scope.

Definition lit (s : string) : list ascii := list_ascii_of_string s.
Definition code (c : ascii) : Z := Z.of_N (N_of_ascii c).
Definition chr (z : Z) : ascii := ascii_of_N (Z.to_N (z mod 256)).
Definition NUL : ascii := "000"%char.
Definition NL : ascii := "010"%char.

(** ** <ctype.h> *)
Definition is_space (c : ascii) : bool := (code c =? 32) || ((9 <=? code c) && (code c <=? 13)).
Definition is_digit (c : ascii) : bool := (48 <=? code c) && (code c <=? 57).
Definition is_lower (c : ascii) : bool := (97 <=? code c) && (code c <=? 122).
Definition is_upper (c : ascii) : bool := (65 <=? code c) && (code c <=? 90).
Definition to_lower (c : ascii) : ascii := if is_upper c then chr (code c + 32) else c.

(** ** Searching and comparing *)
Definition char_eqb (a b : ascii) : bool := Ascii.eqb a b.

Fixpoint str_eqb (s t : list ascii) : bool :=
  match s, t with
  | [], [] => true
  | a :: s', b :: t' => char_eqb a b && str_eqb s' t'
  | _, _ => false
  end.

(** [strncmp(s, p, strlen(p)) == 0] *)
Fixpoint has_prefix (p s : list ascii) : bool :=
  match p, s with
  | [], _ => true
  | a :: p', b :: s' => char_eqb a b && has_prefix p' s'
  | _ :: _, [] => false
  end.

(** [strcasecmp(s, t) == 0] and [strncasecmp(s, p, strlen(p)) == 0] *)
Definition str_case_eqb (s t : list ascii) : bool := str_eqb (map to_lower s) (map to_lower t).
Definition has_case_prefix (p s : list ascii) : bool :=
  has_prefix (map to_lower p) (map to_lower s).

(** [strstr(s, p) != NULL] *)
Fixpoint contains (p s : list ascii) : bool :=
  has_prefix p s || match s with [] => false | _ :: s' => contains p s' end.

(** index of the first and of the last [c]: [strchr(s, c) - s], [strrchr(s, c) - s] *)
Fixpoint strchr (c : ascii) (s : list ascii) : option nat :=
  match s with
  | [] => None
  | a :: s' => if char_eqb a c then Some O else S <$> strchr c s'
  end.

Fixpoint strrchr (c : ascii) (s : list ascii) : option nat :=
  match s with
  | [] => None
  | a :: s' =>
      match strrchr c s' with
      | Some i => Some (S i)
      | None => if char_eqb a c then Some O else None
      end
  end.

(** The string held by an array: the characters before the first NUL. Without a
    NUL in the array the read runs past its end. *)
Fixpoint c_str (buf : list ascii) : option (list ascii) :=
  match buf with
  | [] => UB
  | a :: buf' => if char_eqb a NUL then Some [] else cons a <$> c_str buf'
  end.

Definition no_nul (s : list ascii) : Prop := NUL ∉ s.

(** ** [strsep] and the loop [while ((token = strsep(&s, delim)))] *)
Fixpoint strsep (d : ascii) (s : list ascii) : list ascii * option (list ascii) :=
  match s with
  | [] => ([], None)
  | a :: s' =>
      if char_eqb a d then ([], Some s')
      else let '(t, r) := strsep d s' in (a :: t, r)
  end.

Fixpoint tokens (d : ascii) (s : list ascii) : list (list ascii) :=
  match s with
  | [] => [[]]
  | a :: s' =>
      if char_eqb a d then [] :: tokens d s'
      else match tokens d s' with
           | [] => [[a]]
           | t :: ts => (a :: t) :: ts
           end
  end.

(** The tokens [strtok_s] gives: the fields that are not empty. *)
Definition strtok_tokens (d : ascii) (s : list ascii) : list (list ascii) := filter (fun t => t <> []) (tokens d s).

(** ** [strtol(s, &endptr, 10)] *)
Fixpoint skip_space (s : list ascii) : list ascii :=
  match s with
  | c :: s' => if is_space c then skip_space s' else s
  | [] => []
  end.

Fixpoint span (f : ascii -> bool) (s : list ascii) : list ascii * list ascii :=
  match s with
  | c :: s' => if f c then let '(a, b) := span f s' in (c :: a, b) else ([], s)
  | [] => ([], [])
  end.

Definition dec_value (ds : list ascii) : Z :=
  fold_left (fun acc c => acc * 10 + (code c - 48)) ds 0.

Definition LONG_MAX : Z := 2 ^ 63 - 1.
Definition LONG_MIN : Z := - 2 ^ 63.
Definition ERANGE : Z := 34.

Record strtol_result := {
  st_val : Z;              (* the returned long *)
  st_conv : bool;          (* endptr != s: something was converted *)
  st_range : bool;         (* errno was set to ERANGE *)
  st_rest : list ascii     (* the string at endptr *)
}.

Definition sign_of (s : list ascii) : bool * list ascii :=
  match s with
  | c :: s' =>
      if char_eqb c "-" then (true, s') else if char_eqb c "+" then (false, s') else (false, s)
  | [] => (false, [])
  end.

Definition strtol (s : list ascii) : strtol_result :=
  let '(neg, s2) := sign_of (skip_space s) in
  match span is_digit s2 with
  | ([], _) => {| st_val := 0; st_conv := false; st_range := false; st_rest := s |}
  | (ds, rest) =>
      let v := if neg then - dec_value ds else dec_value ds in
      {| st_val := Z.max LONG_MIN (Z.min LONG_MAX v);
         st_conv := true;
         st_range := (v <? LONG_MIN) || (LONG_MAX <? v);
         st_rest := rest |}
  end.

Definition ULONG_MAX : Z := 2 ^ 64 - 1.

(** [%u] converts as strtoul and keeps 32 bits; [inr] is the input behind a conversion that failed. *)
Definition scan_unsigned (s : list ascii) : (Z * list ascii) + list ascii :=
  let '(neg, s2) := sign_of (skip_space s) in
  match span is_digit s2 with
  | ([], rest) => inr rest
  | (ds, rest) =>
      let v := dec_value ds in
      inl (u32 (if ULONG_MAX <? v then ULONG_MAX else if neg then u64 (- v) else v), rest)
  end.

(** ** [sscanf]: the directives that occur in the code

    [%d] converts as [strtol] and is narrowed to [int] (C leaves a value out of
    range undefined); a literal character must match; a blank matches any white space;
    [%N[^c]] reads between one and N characters different from [c]. The result
    lists the converted values, so its length is the return value, with 0
    standing for [EOF] (-1) too: every caller tests [ret <= 0] or an exact count. *)
Inductive directive :=
| Dint
| Dset (width : nat) (stop : ascii)
| Dlit (c : ascii)
| Dspace.

Inductive scan_val := VInt (z : Z) | VStr (s : list ascii).

Fixpoint sscanf (fmt : list directive) (s : list ascii) : list scan_val :=
  match fmt with
  | [] => []
  | Dint :: fmt' =>
      let r := strtol s in
      if st_conv r then VInt (s32 (st_val r)) :: sscanf fmt' (st_rest r) else []
  | Dset w stop :: fmt' =>
      let t := fst (span (fun c => negb (char_eqb c stop)) (take w s)) in
      match t with
      | [] => []
      | _ => VStr t :: sscanf fmt' (drop (length t) s)
      end
  | Dlit c :: fmt' =>
      match s with
      | a :: s' => if char_eqb a c then sscanf fmt' s' else []
      | [] => []
      end
  | Dspace :: fmt' => sscanf fmt' (skip_space s)
  end.

(** ** C11 Annex K copies. A failed copy returns a non-zero [errno_t] and clears the
    destination; the callers only compare the code with [EOK]. *)
Definition EOK : Z := 0.
Definition ERANGE_S : Z := 34.

(** [memcpy_s(dest, sizeof dest, src, count)]: the array [dest] afterwards. *)
Definition memcpy_s (dest src : list ascii) (count : nat) : Z * list ascii :=
  if (count <=? length dest)%nat
  then (EOK, take count src ++ drop count dest)
  else (ERANGE_S, replicate (length dest) NUL).

(** [strncpy_s(dest, destMax, src, count)], [strcpy_s(dest, destMax, src)]: the string
    in [dest] afterwards. *)
Definition strncpy_s (destMax : nat) (src : list ascii) (count : nat) : Z * list ascii :=
  if (Nat.min (length src) count <? destMax)%nat
  then (EOK, take count src)
  else (ERANGE_S, []).

Definition strcpy_s (destMax : nat) (src : list ascii) : Z * list ascii :=
  if (length src <? destMax)%nat then (EOK, src) else (ERANGE_S, []).

(** ["%d"]; what [snprintf_s(dest, size, size - 1, ..)] leaves of the text; [strcasestr] as a test. *)
Definition show_int (z : Z) : list ascii := lit (pretty z).
Definition snprintf_s (size : nat) (text : list ascii) : list ascii := take (size - 1) text.
Definition strcasestr (s needle : list ascii) : bool := contains (map to_lower needle) (map to_lower s).

(** ** Lemmas *)

Lemma code_range c : 0 <= code c < 256.
Proof. unfold code. pose proof (N_ascii_bounded c). lia. Qed.
#[export] Hint Resolve code_range : iam.

Lemma chr_code c : chr (code c) = c.
Proof.
  unfold chr. rewrite Z.mod_small by apply code_range.
  unfold code. rewrite N2Z.id. apply ascii_N_embedding.
Qed.

Lemma code_chr z : code (chr z) = z mod 256.
Proof.
  unfold code, chr. pose proof (Z.mod_pos_bound z 256).
  rewrite N_ascii_embedding; lia.
Qed.

Lemma code_inj a b : code a = code b -> a = b.
Proof. intros H. by rewrite <- (chr_code a), <- (chr_code b), H. Qed.

Lemma char_eqb_eq a b : char_eqb a b = true <-> a = b.
Proof. apply Ascii.eqb_eq. Qed.

Lemma char_eqb_neq a b : char_eqb a b = false <-> a <> b.
Proof. apply Ascii.eqb_neq. Qed.

Lemma char_eqb_refl a : char_eqb a a = true.
Proof. by apply char_eqb_eq. Qed.

Lemma str_eqb_eq s t : str_eqb s t = true <-> s = t.
Proof.
  revert t; induction s as [|a s IH]; intros [|b t]; cbn; try done.
  rewrite andb_true_iff, char_eqb_eq, IH. naive_solver.
Qed.

Lemma str_eqb_neq s t : str_eqb s t = false <-> s <> t.
Proof. rewrite <- str_eqb_eq. by destruct (str_eqb s t). Qed.

Lemma str_eqb_refl s : str_eqb s s = true.
Proof. by apply str_eqb_eq. Qed.

Lemma has_prefix_spec p s : has_prefix p s = true <-> exists r, s = p ++ r.
Proof.
  revert s; induction p as [|a p IH]; intros s; cbn; [naive_solver|].
  destruct s as [|b s]; cbn; [naive_solver|].
  rewrite andb_true_iff, char_eqb_eq, IH. naive_solver.
Qed.

Lemma contains_spec p s : contains p s = true <-> exists a b, s = a ++ p ++ b.
Proof.
  induction s as [|c s IH]; cbn; rewrite orb_true_iff, has_prefix_spec.
  - split.
    + intros [[r H]|?]; [exists [], r; done|done].
    + intros (a & b & H). left. exists b. destruct a; [done|discriminate].
  - rewrite IH. split.
    + intros [[r ->]|(a & b & ->)]; [by exists [], r|by exists (c :: a), b].
    + intros ([|x a] & b & H); cbn in H; [left; by exists b|].
      right. simplify_eq. by exists a, b.
Qed.

Lemma strchr_None c s : strchr c s = None <-> c ∉ s.
Proof.
  induction s as [|a s IH]; cbn; [split; [intros _; apply not_elem_of_nil|done]|].
  destruct (char_eqb a c) eqn:E.
  - apply char_eqb_eq in E as ->. split; [done|]. intros H. destruct H. left.
  - apply char_eqb_neq in E. rewrite not_elem_of_cons, <- IH.
    destruct (strchr c s); naive_solver.
Qed.

Lemma strchr_Some c s i :
  strchr c s = Some i <-> exists b, s = take i s ++ c :: b /\ c ∉ take i s.
Proof.
  revert i; induction s as [|a s IH]; intros i; cbn.
  - split; [done|]. intros (b & H & _). destruct i; discriminate.
  - destruct (char_eqb a c) eqn:E.
    + apply char_eqb_eq in E as ->. split.
      * intros [= <-]. exists s. split; [done|apply not_elem_of_nil].
      * intros (b & H & Hn). destruct i as [|i]; [done|]. cbn in Hn. destruct Hn. left.
    + apply char_eqb_neq in E. rewrite fmap_Some. split.
      * intros (j & Hj & ->). apply IH in Hj as (b & Hb & Hn). exists b. cbn.
        rewrite not_elem_of_cons. split; [by f_equal|naive_solver].
      * intros (b & H & Hn). destruct i as [|i]; cbn in *; [congruence|].
        exists i. split; [|done]. apply IH. exists b.
        rewrite not_elem_of_cons in Hn. split; [congruence|naive_solver].
Qed.

Lemma c_str_app s r : no_nul s -> c_str (s ++ NUL :: r) = Some s.
Proof.
  unfold no_nul. induction s as [|a s IH]; intros H; cbn; [done|].
  rewrite not_elem_of_cons in H. destruct H as [Ha Hs].
  rewrite (proj2 (char_eqb_neq a NUL)) by congruence. by rewrite IH.
Qed.

Lemma c_str_none s : no_nul s -> c_str s = UB.
Proof.
  unfold no_nul. induction s as [|a s IH]; intros H; cbn; [done|].
  rewrite not_elem_of_cons in H. destruct H as [Ha Hs].
  rewrite (proj2 (char_eqb_neq a NUL)) by congruence. by rewrite IH.
Qed.

Lemma strsep_tokens d s :
  tokens d s = fst (strsep d s) :: match snd (strsep d s) with
                                   | Some r => tokens d r
                                   | None => []
                                   end.
Proof.
  induction s as [|a s IH]; cbn; [done|].
  destruct (char_eqb a d); [done|].
  destruct (strsep d s) as [t r]. cbn in *. by rewrite IH.
Qed.

Lemma tokens_clean d s : d ∉ s -> tokens d s = [s].
Proof.
  induction s as [|a s IH]; intros H; cbn; [done|].
  rewrite not_elem_of_cons in H. destruct H as [Ha Hs].
  rewrite (proj2 (char_eqb_neq a d)) by congruence. by rewrite IH.
Qed.

Lemma tokens_app d s r : d ∉ s -> tokens d (s ++ d :: r) = s :: tokens d r.
Proof.
  induction s as [|a s IH]; intros H; cbn.
  - by rewrite char_eqb_refl.
  - rewrite not_elem_of_cons in H. destruct H as [Ha Hs].
    rewrite (proj2 (char_eqb_neq a d)) by congruence. by rewrite IH.
Qed.

Lemma span_app f a b :
  Forall (fun c => f c = true) a ->
  match b with [] => True | c :: _ => f c = false end ->
  span f (a ++ b) = (a, b).
Proof.
  induction 1 as [|c a Hc Ha IH]; cbn; intros Hb.
  - destruct b as [|c b]; cbn; [done|]. by rewrite Hb.
  - by rewrite Hc, IH.
Qed.

Lemma span_spec f s :
  s = fst (span f s) ++ snd (span f s) /\ Forall (fun c => f c = true) (fst (span f s)).
Proof.
  induction s as [|c s [IH1 IH2]]; cbn; [by split|].
  destruct (f c) eqn:E; [|by split].
  destruct (span f s) as [a b]; cbn in *. subst. by split; [|constructor].
Qed.

Lemma length_memcpy_s dest src n :
  (n <= length src)%nat -> length (snd (memcpy_s dest src n)) = length dest.
Proof.
  intros H. unfold memcpy_s. destruct (Nat.leb_spec n (length dest)); cbn.
  - rewrite length_app, length_take, length_drop. lia.
  - apply length_replicate.
Qed.

Lemma is_digit_not_space c : is_digit c = true -> is_space c = false.
Proof. unfold is_digit, is_space. intros; bool_hyps. apply orb_false_iff; split; lia. Qed.

Lemma is_digit_not_sign c : is_digit c = true -> char_eqb c "-" = false /\ char_eqb c "+" = false.
Proof. intros H. split; apply char_eqb_neq; intros ->; discriminate. Qed.

Lemma dec_value_acc ds a :
  fold_left (fun acc c => acc * 10 + (code c - 48)) ds a = a * 10 ^ Z.of_nat (length ds) + dec_value ds.
Proof.
  unfold dec_value. revert a; induction ds as [|c ds IH]; intros a; cbn [fold_left length]; [lia|].
  rewrite (IH (a * 10 + _)), (IH (0 * 10 + _)), Nat2Z.inj_succ, Z.pow_succ_r by lia. lia.
Qed.

Lemma dec_value_range ds :
  Forall (fun c => is_digit c = true) ds -> 0 <= dec_value ds < 10 ^ Z.of_nat (length ds).
Proof.
  induction 1 as [|c ds Hc HF IH]; [cbn; lia|].
  unfold dec_value; cbn [fold_left length]. rewrite dec_value_acc, Nat2Z.inj_succ, Z.pow_succ_r by lia.
  unfold is_digit in Hc. bool_hyps. nia.
Qed.

Definition no_digit_first (s : list ascii) : Prop :=
  match s with [] => True | c :: _ => is_digit c = false end.

(** A run of digits is read up to its end. *)
Lemma strtol_digits ds rest :
  ds <> [] -> Forall (fun c => is_digit c = true) ds -> no_digit_first rest ->
  dec_value ds <= LONG_MAX ->
  strtol (ds ++ rest) = {| st_val := dec_value ds; st_conv := true; st_range := false; st_rest := rest |}.
Proof.
  intros Hne HF Hr Hm. pose proof (dec_value_range ds HF) as [H0 _].
  destruct ds as [|c ds]; [done|]. pose proof (Forall_inv HF) as Hc.
  destruct (is_digit_not_sign c Hc) as [Hm1 Hp1].
  unfold strtol. cbn [app skip_space]. rewrite is_digit_not_space by done.
  cbn [sign_of]. rewrite Hm1, Hp1. rewrite app_comm_cons, span_app by done.
  f_equal; unfold LONG_MIN, LONG_MAX in *; [lia|].
  apply orb_false_iff; split; lia.
Qed.

(** What is left behind a conversion is a suffix of the text, a proper one after a successful conversion. *)
Lemma skip_space_suffix s : skip_space s `suffix_of` s.
Proof. induction s as [|c s IH]; cbn [skip_space]; [done|]. destruct (is_space c); [by apply suffix_cons_r|done]. Qed.

Lemma sign_of_suffix s : snd (sign_of s) `suffix_of` s.
Proof. unfold sign_of. repeat case_match; cbn [snd]; try done; by apply suffix_cons_r. Qed.

Lemma scan_unsigned_suffix s :
  match scan_unsigned s with
  | inl (_, rest) => rest `suffix_of` s /\ (length rest < length s)%nat
  | inr rest => rest `suffix_of` s
  end.
Proof.
  unfold scan_unsigned. pose proof (sign_of_suffix (skip_space s)) as H1. destruct (sign_of (skip_space s)) as [neg s2].
  cbn [snd] in H1. pose proof (skip_space_suffix s) as H0. assert (H2 : s2 `suffix_of` s) by (by etrans).
  destruct (span_spec is_digit s2) as [E _]. destruct (span is_digit s2) as [ds rest]. cbn [fst snd] in E.
  assert (H3 : rest `suffix_of` s) by (etrans; [|exact H2]; by exists ds).
  destruct ds as [|d ds]; [done|]. split; [done|]. apply suffix_length in H2. subst s2. rewrite length_app in H2. cbn in H2. lia.
Qed.

Lemma sign_of_digit ds rest :
  ds <> [] -> Forall (fun c => is_digit c = true) ds -> sign_of (skip_space (ds ++ rest)) = (false, ds ++ rest).
Proof.
  intros Hne HF. destruct ds as [|c ds]; [done|]. pose proof (Forall_inv HF) as Hc. destruct (is_digit_not_sign c Hc) as [Hm Hp].
  cbn [app skip_space]. rewrite is_digit_not_space by done. cbn [sign_of]. by rewrite Hm, Hp.
Qed.

Lemma scan_unsigned_digits ds rest :
  ds <> [] -> Forall (fun c => is_digit c = true) ds -> no_digit_first rest -> dec_value ds < 2 ^ 32 ->
  scan_unsigned (ds ++ rest) = inl (dec_value ds, rest).
Proof.
  intros Hne HF Hr Hm. pose proof (dec_value_range ds HF) as [H0 _]. unfold scan_unsigned. rewrite sign_of_digit by done.
  rewrite span_app by done. destruct ds as [|c ds]; [done|].
  rewrite (proj2 (Z.ltb_ge ULONG_MAX _)) by (unfold ULONG_MAX; lia). by rewrite u32_small by lia.
Qed.

Lemma scan_unsigned_space c s : is_space c = true -> scan_unsigned (c :: s) = scan_unsigned s.
Proof. intros Hc. unfold scan_unsigned. cbn [skip_space]. by rewrite Hc. Qed.

(** ** Zero-padded decimal numbers of a fixed width ("%0wd") *)
Fixpoint pad_dec (w : nat) (z : Z) : list ascii :=
  match w with
  | O => []
  | S w' => pad_dec w' (z / 10) ++ [chr (48 + z mod 10)]
  end.

Lemma is_digit_chr d : 0 <= d < 10 -> is_digit (chr (48 + d)) = true.
Proof.
  intros. unfold is_digit. rewrite code_chr, Z.mod_small by lia.
  apply andb_true_iff; split; lia.
Qed.

Lemma pad_dec_length w z : length (pad_dec w z) = w.
Proof. revert z; induction w as [|w IH]; intros z; cbn; [done|]. rewrite length_app, IH. cbn. lia. Qed.

Lemma pad_dec_digits w z : Forall (fun c => is_digit c = true) (pad_dec w z).
Proof.
  revert z; induction w as [|w IH]; intros z; cbn; [constructor|].
  apply Forall_app_2; [done|]. constructor; [|constructor]. apply is_digit_chr, Z.mod_pos_bound. lia.
Qed.

Lemma dec_value_app a b : dec_value (a ++ b) = dec_value a * 10 ^ Z.of_nat (length b) + dec_value b.
Proof. unfold dec_value at 1. rewrite fold_left_app. apply dec_value_acc. Qed.

Lemma dec_value_pad w z : 0 <= z < 10 ^ Z.of_nat w -> dec_value (pad_dec w z) = z.
Proof.
  revert z; induction w as [|w IH]; intros z Hz; [cbn in *; lia|].
  rewrite Nat2Z.inj_succ, Z.pow_succ_r in Hz by lia. cbn [pad_dec].
  rewrite dec_value_app, IH by (split; [apply Z.div_pos; lia|apply Z.div_lt_upper_bound; lia]).
  unfold dec_value; cbn [fold_left length]. rewrite code_chr.
  pose proof (Z.mod_pos_bound z 10). rewrite (Z.mod_small (48 + _)) by lia. cbn. dlia.
Qed.

(** [%d] reads a run of digits. *)
Lemma sscanf_int fmt ds rest :
  ds <> [] -> Forall (fun c => is_digit c = true) ds -> no_digit_first rest -> dec_value ds < 2 ^ 31 ->
  sscanf (Dint :: fmt) (ds ++ rest) = VInt (dec_value ds) :: sscanf fmt rest.
Proof.
  intros Hd HF Hr Hv. pose proof (dec_value_range ds HF). cbn [sscanf].
  rewrite strtol_digits by (done || unfold LONG_MAX; lia). cbn [st_conv st_val st_rest].
  by rewrite s32_small by lia.
Qed.

Lemma sscanf_lit fmt c rest : sscanf (Dlit c :: fmt) (c :: rest) = sscanf fmt rest.
Proof. cbn [sscanf]. by rewrite char_eqb_refl. Qed.

Lemma sscanf_pad fmt w z rest :
  (0 < w)%nat -> 0 <= z < 10 ^ Z.of_nat w -> z < 2 ^ 31 -> no_digit_first rest ->
  sscanf (Dint :: fmt) (pad_dec w z ++ rest) = VInt z :: sscanf fmt rest.
Proof.
  intros Hw Hz Hm Hr. rewrite sscanf_int; rewrite ?dec_value_pad; try done.
  - intros He. apply (f_equal length) in He. rewrite pad_dec_length in He. cbn in He. lia.
  - apply pad_dec_digits.
Qed.

Lemma pad_dec_no (c : ascii) w z : is_digit c = false -> c ∉ pad_dec w z.
Proof.
  intros Hc Hin. pose proof (pad_dec_digits w z) as HF. rewrite Forall_forall in HF.
  apply HF in Hin. congruence.
Qed.

Lemma strchr_app c s t : c ∉ s -> strchr c (s ++ c :: t) = Some (length s).
Proof. intros Hs. apply strchr_Some. exists t. by rewrite take_app_length. Qed.

Lemma strrchr_None c s : c ∉ s -> strrchr c s = None.
Proof.
  induction s as [|a s IH]; intros H; cbn; [done|]. rewrite not_elem_of_cons in H. destruct H as [Ha Hs].
  rewrite IH by done. by rewrite (proj2 (char_eqb_neq a c)) by congruence.
Qed.

Lemma strrchr_app c s t : c ∉ t -> strrchr c (s ++ c :: t) = Some (length s).
Proof.
  intros Ht. induction s as [|a s IH]; cbn; [by rewrite strrchr_None, char_eqb_refl|]. by rewrite IH.
Qed.

Lemma has_prefix_char c s : has_prefix [c] s = true <-> exists r, s = c :: r.
Proof. apply has_prefix_spec. Qed.

(** ** Fields and lines *)

(** Fields separated by [d]; lines each ended by a newline. *)
Fixpoint join_fields (d : ascii) (ts : list (list ascii)) : list ascii :=
  match ts with
  | [] => []
  | [t] => t
  | t :: rest => t ++ d :: join_fields d rest
  end.

Fixpoint text_of (ls : list (list ascii)) : list ascii :=
  match ls with
  | [] => []
  | l :: rest => l ++ NL :: text_of rest
  end.

Lemma tokens_join d ts : ts <> [] -> Forall (fun t => d ∉ t) ts -> tokens d (join_fields d ts) = ts.
Proof.
  intros Hne HF. induction HF as [|t ts Ht HF IH]; [done|]. destruct ts as [|t' ts]; [by apply tokens_clean|].
  change (join_fields d (t :: t' :: ts)) with (t ++ d :: join_fields d (t' :: ts)).
  rewrite tokens_app by done. by rewrite IH.
Qed.

Lemma tokens_text ls : Forall (fun l => NL ∉ l) ls -> tokens NL (text_of ls) = ls ++ [[]].
Proof. induction 1 as [|l ls Hl HF IH]; cbn [text_of app]; [done|]. by rewrite tokens_app, IH. Qed.

Lemma strsep_join d t ts :
  d ∉ t -> strsep d (join_fields d (t :: ts)) = (t, match ts with [] => None | _ => Some (join_fields d ts) end).
Proof.
  intros Ht. assert (Happ : forall r, strsep d (t ++ d :: r) = (t, Some r)).
  { intros r. induction t as [|a t IH]; cbn; [by rewrite char_eqb_refl|].
    rewrite not_elem_of_cons in Ht. destruct Ht as [Ha Ht].
    rewrite (proj2 (char_eqb_neq a d)) by congruence. by rewrite IH. }
  assert (Hend : strsep d t = (t, None)).
  { clear Happ. induction t as [|a t IH]; cbn; [done|]. rewrite not_elem_of_cons in Ht. destruct Ht as [Ha Ht].
    rewrite (proj2 (char_eqb_neq a d)) by congruence. by rewrite IH. }
  destruct ts as [|t' ts]; [done|]. apply Happ.
Qed.

Lemma elem_of_join_fields c d ts : c ∈ join_fields d ts -> c = d \/ Exists (fun t => c ∈ t) ts.
Proof.
  induction ts as [|t ts IH]; intros Hin; [by apply elem_of_nil in Hin|].
  destruct ts as [|t' ts]; [right; by left|].
  change (join_fields d (t :: t' :: ts)) with (t ++ d :: join_fields d (t' :: ts)) in Hin.
  apply elem_of_app in Hin as [?|Hin]; [right; by left|].
  apply elem_of_cons in Hin as [->|Hin]; [by left|]. destruct (IH Hin); [by left|right; by right].
Qed.

Lemma no_nul_text ls : Forall no_nul ls -> no_nul (text_of ls).
Proof.
  unfold no_nul. induction 1 as [|l ls Hl HF IH]; cbn [text_of]; [apply not_elem_of_nil|].
  rewrite not_elem_of_app, not_elem_of_cons. split; [done|]. split; [by apply char_eqb_neq|done].
Qed.

(** ** Pairs of numbers, a line for each, as awk prints what ps lists *)

(** [fscanf_s(fp, "%u %u", &pid, &ppid)]: [None] is EOF; a number that is not there leaves its variable alone. *)
Definition scan_pids (s : list ascii) (pid ppid : Z) : option (Z * Z * list ascii) :=
  match skip_space s with
  | [] => None
  | s =>
      match scan_unsigned s with
      | inr rest => Some (pid, ppid, rest)
      | inl (p, rest) =>
          match scan_unsigned rest with
          | inr rest => Some (p, ppid, rest)
          | inl (q, rest) => Some (p, q, rest)
          end
      end
  end.

(** A number as a program prints it. *)
Definition digits (s : list ascii) (n : Z) : Prop :=
  s <> [] /\ Forall (fun c => is_digit c = true) s /\ dec_value s = n /\ n < 2 ^ 32.

(** What awk prints for a process: its pid and its parent's. *)
Definition ps_line (line : list ascii) (p : Z * Z) : Prop :=
  exists s t, line = s ++ " "%char :: t /\ digits s p.1 /\ digits t p.2.

Lemma scan_pids_skip c s p q : is_space c = true -> scan_pids (c :: s) p q = scan_pids s p q.
Proof. intros Hc. unfold scan_pids. cbn [skip_space]. by rewrite Hc. Qed.

Lemma scan_pids_line line pq rest p q :
  ps_line line pq -> scan_pids (line ++ NL :: rest) p q = Some (pq.1, pq.2, NL :: rest).
Proof.
  intros (s & t & -> & (Hs1 & Hs2 & <- & Hs4) & (Ht1 & Ht2 & <- & Ht4)). unfold scan_pids.
  assert (Hskip : skip_space ((s ++ " "%char :: t) ++ NL :: rest) = s ++ " "%char :: t ++ NL :: rest).
  { rewrite <- app_assoc. cbn [app]. destruct s as [|c s]; [done|]. cbn [app skip_space].
    by rewrite (is_digit_not_space c (Forall_inv Hs2)). }
  rewrite Hskip. destruct (s ++ _ :: t ++ NL :: rest) as [|c0 s0] eqn:E0; [by destruct s|]. rewrite <- E0.
  rewrite scan_unsigned_digits by done. by rewrite scan_unsigned_space, scan_unsigned_digits.
Qed.

Lemma length_text_of lines : (length lines <= length (text_of lines))%nat.
Proof. induction lines as [|l lines IH]; cbn; [lia|]. rewrite length_app. cbn. lia. Qed.

(** Text in which no number starts. *)
Definition no_number (s : list ascii) : Prop := s <> [] /\ skip_space s = s /\ scan_unsigned s = inr s.

Lemma scan_no_number text tail p q : no_number tail -> skip_space text = tail -> scan_pids text p q = Some (p, q, tail).
Proof. intros (Hne & _ & Hs) Ht. unfold scan_pids. rewrite Ht. destruct tail; [done|]. by rewrite Hs. Qed.

Lemma suffix_same {A} (l1 l2 : list A) : l1 `suffix_of` l2 -> length l1 = length l2 -> l1 = l2.
Proof. intros [k ->]. rewrite length_app. destruct k; cbn; [done|lia]. Qed.

(** A round consumes text or leaves everything as it was. *)
Lemma scan_pids_progress s p q p' q' s' :
  scan_pids s p q = Some (p', q', s') -> (length s' < length s)%nat \/ (p', q', s') = (p, q, s).
Proof.
  unfold scan_pids. pose proof (skip_space_suffix s) as H0. destruct (skip_space s) as [|c r]; [done|].
  pose proof (scan_unsigned_suffix (c :: r)) as H1. pose proof (suffix_length _ _ H0) as L0.
  destruct (scan_unsigned (c :: r)) as [[v rest]|rest].
  - destruct H1 as [_ L1]. pose proof (scan_unsigned_suffix rest) as H2.
    destruct (scan_unsigned rest) as [[w rest2]|rest2]; intros [= <- <- <-]; left; [destruct H2; lia|].
    apply suffix_length in H2. lia.
  - intros [= <- <- <-]. pose proof (suffix_length _ _ H1) as L1.
    destruct (decide (length rest = length s)) as [El|]; [|left; lia].
    right. f_equal. apply suffix_same; [by etrans|done].
Qed.
