(* ===== verification/RecordFile.v ===== *)
(** * Files that are arrays of fixed-size C structures

    The lock records (pam_tally_ext.c, ip_lock.c) and the LDAP user table
    (uip_user.c) are files holding an array of structures as the compiler lays them
    out. [RecordCodec] is what a structure's layout promises; the lemmas on arrays
    and on writes at an offset are proved once against it. *)
From S2P Require Export CString.

(** ** Little-endian integers (AArch64 and x86-64) *)
Fixpoint le_encode (n : nat) (z : Z) : list ascii :=
  match n with
  | O => []
  | S n' => chr z :: le_encode n' (z / 256)
  end.

Fixpoint le_decode (bs : list ascii) : Z :=
  match bs with
  | [] => 0
  | b :: bs' => code b + 256 * le_decode bs'
  end.

Lemma length_le_encode n z : length (le_encode n z) = n.
Proof. revert z; induction n; cbn; intros; f_equal; auto. Qed.

Lemma le_decode_range bs : 0 <= le_decode bs < 256 ^ Z.of_nat (length bs).
Proof.
  induction bs as [|b bs IH]; cbn [le_decode length]; [lia|].
  rewrite Nat2Z.inj_succ, Z.pow_succ_r by lia. pose proof (code_range b). lia.
Qed.

Lemma le_decode_encode n z : le_decode (le_encode n z) = z mod 256 ^ Z.of_nat n.
Proof.
  revert z; induction n as [|n IH]; intros z; cbn [le_encode le_decode].
  - by rewrite Z.mod_1_r.
  - rewrite IH, code_chr, Nat2Z.inj_succ, Z.pow_succ_r by lia.
    rewrite Z.rem_mul_r by lia. lia.
Qed.

Lemma le_encode_decode bs : le_encode (length bs) (le_decode bs) = bs.
Proof.
  induction bs as [|b bs IH]; cbn [le_encode le_decode length]; [done|].
  pose proof (code_range b). f_equal.
  - unfold chr. rewrite (Z.mul_comm 256), Z.mod_add, Z.mod_small by lia.
    rewrite <- (chr_code b) at 2. unfold chr. by rewrite Z.mod_small by lia.
  - rewrite (Z.mul_comm 256), Z.div_add, Z.div_small by lia. by rewrite Z.add_0_l.
Qed.

Lemma le_decode_encode_small n z :
  0 <= z < 256 ^ Z.of_nat n -> le_decode (le_encode n z) = z.
Proof. intros. by rewrite le_decode_encode, Z.mod_small. Qed.

(** ** The interface of a structure stored in a file *)
Class RecordCodec (R : Type) := {
  rec_size : nat;                     (* sizeof *)
  rec_enc : R -> list ascii;          (* the bytes of the structure *)
  rec_dec : list ascii -> R;
  rec_wf : R -> Prop;                 (* the values its fields can hold *)
  rec_size_pos : (0 < rec_size)%nat;
  rec_enc_length r : rec_wf r -> length (rec_enc r) = rec_size;
  rec_dec_enc r : rec_wf r -> rec_dec (rec_enc r) = r;
  rec_dec_wf bs : length bs = rec_size -> rec_wf (rec_dec bs)
}.
Arguments rec_size R {_}.
#[global] Hint Mode RecordCodec ! : typeclass_instances.

Section arrays.
Context {R : Type} `{RecordCodec R}.
Implicit Types (r : R) (rs : list R) (bs : list ascii) (n k : nat).

(** [fread(p, sizeof(R), n, fp)] of [n] whole structures, [fwrite] of [rs]. *)
Fixpoint decode_array (n : nat) (bs : list ascii) : list R :=
  match n with
  | O => []
  | S n' => rec_dec (take (rec_size R) bs) :: decode_array n' (drop (rec_size R) bs)
  end.

Fixpoint encode_array (rs : list R) : list ascii :=
  match rs with
  | [] => []
  | r :: rs' => rec_enc r ++ encode_array rs'
  end.

(** [fseek(fp, off, SEEK_SET)] then [fwrite]: a hole reads as zeros. *)
Definition write_at (off : nat) (data file : list ascii) : list ascii :=
  take off file ++ replicate (off - length file) NUL ++ data
    ++ drop (off + length data) file.

Lemma length_decode_array n bs : length (decode_array n bs) = n.
Proof. revert bs; induction n; cbn; intros; f_equal; auto. Qed.

Lemma length_encode_array rs :
  Forall rec_wf rs -> length (encode_array rs) = (length rs * (rec_size R))%nat.
Proof.
  induction 1 as [|r rs Hr Hrs IH]; cbn; [done|].
  rewrite length_app, IH, rec_enc_length; done.
Qed.

Lemma decode_encode_array rs rest :
  Forall rec_wf rs -> decode_array (length rs) (encode_array rs ++ rest) = rs.
Proof.
  induction 1 as [|r rs Hr Hrs IH]; cbn; [done|].
  rewrite <- app_assoc, take_app_length', drop_app_length' by (by rewrite rec_enc_length).
  by rewrite rec_dec_enc, IH.
Qed.

Lemma decode_array_wf n bs :
  (n * (rec_size R) <= length bs)%nat -> Forall rec_wf (decode_array n bs).
Proof.
  revert bs; induction n as [|n IH]; cbn; intros bs Hl; constructor.
  - apply rec_dec_wf. rewrite length_take. lia.
  - apply IH. rewrite length_drop. lia.
Qed.

Lemma decode_array_lookup n bs k :
  (k < n)%nat ->
  decode_array n bs !! k = Some (rec_dec (take (rec_size R) (drop (k * (rec_size R)) bs))).
Proof.
  revert bs k; induction n as [|n IH]; intros bs k Hk; [lia|].
  destruct k as [|k]; cbn; [by rewrite drop_0|].
  rewrite IH by lia. by rewrite drop_drop.
Qed.

Lemma length_write_at off data bs :
  length (write_at off data bs) = Nat.max (length bs) (off + length data).
Proof.
  unfold write_at. rewrite !length_app, length_take, length_replicate, length_drop. lia.
Qed.

(** A write of one structure at slot [k] is read back there ... *)
Lemma write_at_same k r bs :
  rec_wf r ->
  rec_dec (take (rec_size R) (drop (k * (rec_size R)) (write_at (k * (rec_size R)) (rec_enc r) bs))) = r.
Proof.
  intros Hr. unfold write_at. set (off := (k * (rec_size R))%nat).
  rewrite app_assoc, drop_app_length'.
  - rewrite take_app_length' by (by rewrite rec_enc_length). by apply rec_dec_enc.
  - rewrite length_app, length_take, length_replicate. lia.
Qed.

(** ... and every other slot of the file is unchanged. *)
Lemma write_at_other k j r bs :
  rec_wf r -> j <> k -> ((j + 1) * (rec_size R) <= length bs)%nat ->
  take (rec_size R) (drop (j * (rec_size R)) (write_at (k * (rec_size R)) (rec_enc r) bs))
  = take (rec_size R) (drop (j * (rec_size R)) bs).
Proof.
  intros Hr Hjk Hj. pose proof (rec_size_pos (R := R)) as Hp. unfold write_at.
  rewrite rec_enc_length by done.
  assert (j < k \/ k < j)%nat as [Hlt|Hlt] by lia.
  - assert (((j + 1) * (rec_size R) <= k * (rec_size R))%nat) by (apply Nat.mul_le_mono_r; lia).
    rewrite drop_app_le, take_app_le.
    + apply list_eq; intros i. destruct (decide (i < (rec_size R))%nat).
      * rewrite !lookup_take_lt, !lookup_drop, lookup_take_lt by lia. done.
      * rewrite !lookup_take_ge by lia. done.
    + rewrite length_drop, length_take. lia.
    + rewrite length_take. lia.
  - assert (((k + 1) * (rec_size R) <= j * (rec_size R))%nat) by (apply Nat.mul_le_mono_r; lia).
    replace (k * (rec_size R) - length bs)%nat with O by lia. cbn [replicate].
    rewrite drop_app_ge, drop_app_ge; rewrite ?length_take, ?rec_enc_length by done; cbn [app length]; [|lia..].
    rewrite Nat.min_l by lia.
    rewrite drop_app_ge; rewrite ?rec_enc_length by done; [|lia].
    rewrite drop_drop. do 2 f_equal. lia.
Qed.

(** Writing a structure over slot [k] of an array, or behind its end. *)
Lemma encode_array_app rs rs' : encode_array (rs ++ rs') = encode_array rs ++ encode_array rs'.
Proof. induction rs as [|r rs IH]; cbn; [done|]. by rewrite IH, app_assoc. Qed.

Lemma write_at_insert k r rs :
  rec_wf r -> Forall rec_wf rs -> (k < length rs)%nat ->
  write_at (k * (rec_size R)) (rec_enc r) (encode_array rs) = encode_array (<[k := r]> rs).
Proof.
  intros Hr HF Hk. destruct (lookup_lt_is_Some_2 rs k Hk) as [r0 Hr0].
  rewrite insert_take_drop by done. rewrite <- (take_drop_middle rs k r0 Hr0) at 1.
  rewrite Forall_lookup in HF. assert (HF' : Forall rec_wf (take k rs)).
  { apply Forall_take, Forall_lookup. exact HF. }
  assert (Ha : length (encode_array (take k rs)) = (k * rec_size R)%nat).
  { rewrite length_encode_array, length_take_le by (done || lia). done. }
  pose proof (rec_enc_length r Hr) as H1. pose proof (rec_enc_length r0 (HF k r0 Hr0)) as H2.
  rewrite !encode_array_app. cbn [encode_array]. unfold write_at.
  rewrite <- Ha, take_app_length, !length_app. replace (length _ - _)%nat with O by lia.
  cbn [replicate app]. do 2 f_equal. rewrite app_assoc, drop_app_ge by (rewrite length_app; lia).
  rewrite length_app, H1, H2, Nat.sub_diag. by rewrite drop_0.
Qed.

Lemma write_at_behind k r rs :
  Forall rec_wf rs -> (length rs <= k)%nat ->
  write_at (k * (rec_size R)) (rec_enc r) (encode_array rs)
  = encode_array rs ++ replicate ((k - length rs) * rec_size R) NUL ++ rec_enc r.
Proof.
  intros HF Hk. unfold write_at. rewrite length_encode_array by done.
  assert (length rs * rec_size R <= k * rec_size R)%nat by (apply Nat.mul_le_mono_r; lia).
  rewrite take_ge, drop_ge by (rewrite length_encode_array by done; lia). rewrite app_nil_r.
  by rewrite <- Nat.mul_sub_distr_r.
Qed.
End arrays.

Arguments decode_array : simpl never.
Arguments encode_array : simpl never.

(** ** The loop that looks for the record to overwrite: index of the oldest timestamp

    [loc], [oldest] are the loop's variables when it reaches index [i]. *)
Fixpoint oldest_from (i loc : nat) (oldest : Z) (ts : list Z) : nat :=
  match ts with
  | [] => loc
  | t :: ts' => if t <? oldest then oldest_from (S i) i t ts' else oldest_from (S i) loc oldest ts'
  end.

Lemma oldest_from_spec i loc oldest ts :
  let r := oldest_from i loc oldest ts in
  (r = loc /\ Forall (fun t => oldest <= t) ts) \/
  (exists k t, r = (i + k)%nat /\ ts !! k = Some t /\ t < oldest /\ Forall (fun u => t <= u) ts).
Proof.
  revert i loc oldest; induction ts as [|t ts IH]; intros i loc oldest; cbn; [by left|].
  destruct (Z.ltb_spec t oldest).
  - right. destruct (IH (S i) i t) as [[-> HF]|(k & u & -> & Hk & Hu & HF)].
    + exists O, t. repeat split; [lia|done|]. constructor; [lia|done].
    + exists (S k), u. repeat split; [lia|done|lia|]. constructor; [lia|done].
  - destruct (IH (S i) loc oldest) as [[-> HF]|(k & u & -> & Hk & Hu & HF)].
    + left. split; [done|]. by constructor.
    + right. exists (S k), u. repeat split; [lia|done|lia|]. constructor; [lia|done].
Qed.

(** Run from the first element, the loop returns the index of a minimum. *)
Lemma oldest_index_min t0 ts :
  exists t, (t0 :: ts) !! oldest_from 1 0 t0 ts = Some t /\ Forall (fun u => t <= u) (t0 :: ts).
Proof.
  destruct (oldest_from_spec 1 0 t0 ts) as [[-> HF]|(k & u & -> & Hk & Hu & HF)].
  - exists t0. split; [done|]. by constructor; [lia|].
  - exists u. split; [done|]. constructor; [lia|done].
Qed.

(** ** Fields of a structure *)
(** [strcpy_s] of a literal that fits: its characters and the NUL are written. *)
Definition set_name (s : string) (arr : list ascii) : list ascii :=
  let bytes := lit s ++ [NUL] in bytes ++ drop (length bytes) arr.

Lemma le_field_range off n (bs : list ascii) :
  (off + n <= length bs)%nat -> 0 <= le_decode (take n (drop off bs)) < 256 ^ Z.of_nat n.
Proof.
  intros Hl. pose proof (le_decode_range (take n (drop off bs))) as H.
  rewrite length_take, length_drop, Nat.min_l in H by lia. done.
Qed.

Lemma Forall_alter_list {A} (P : A -> Prop) (f : A -> A) l i :
  Forall P l -> (forall x, P x -> P (f x)) -> Forall P (alter f i l).
Proof. intros HP Hf. apply Forall_alter; [done|]. intros x _. apply Hf. Qed.

Lemma fmap_alter_insert {A B} (f : A -> B) (g : A -> A) (y : B) (i : nat) (l : list A) :
  (forall x, f (g x) = y) -> f <$> alter g i l = <[i := y]> (f <$> l).
Proof.
  intros Hfg. revert i; induction l as [|x l IH]; intros [|i]; cbn; [done..|by rewrite Hfg|].
  f_equal. apply IH.
Qed.
