(* ===== verification/Stdio.v ===== *)
(** * The operating system as the record files see it

    The functions on record files (pam_tally_ext.c, ip_lock.c) call stat, mkdir,
    chown, fopen, ftell, fread, ftruncate, fseek and fwrite. The state they act on is
    [fs]; whether a call succeeds is not theirs to decide, so the outcome of
    each call is a field of [os_env], the argument of every operation. *)
From S2P Require Export RecordFile.

Record fs := Fs {
  dirs : gset (list ascii);
  files : gmap (list ascii) (list ascii)
}.

Record os_env := {
  now : Z;                            (* time(NULL) *)
  mkdir_ok : bool;                    (* mkdir(..) >= 0 *)
  chown_ok : bool;                    (* chown_s(..) >= 0 *)
  fopen_ok : bool;                    (* fopen_s(..) != NULL *)
  ftell_ok : bool;                    (* ftell(..) >= 0 *)
  fread_ret : Z -> Z;                 (* structures read out of those asked for *)
  ftruncate_err : option Z;           (* errno when ftruncate fails *)
  fseek_ret : Z;
  fwrite_bytes : nat -> nat;          (* bytes that reach the file *)
  remove_ok : list ascii -> bool      (* remove(path) == 0 *)
}.

(** Every call succeeds and transfers all the data. *)
Definition nominal (t : Z) : os_env := {|
  now := t; mkdir_ok := true; chown_ok := true; fopen_ok := true; ftell_ok := true;
  fread_ret := fun n => n; ftruncate_err := None; fseek_ret := 0; fwrite_bytes := fun n => n;
  remove_ok := fun _ => true
|}.

Definition content (f : fs) (path : list ascii) : list ascii := default [] (files f !! path).
Definition set_file (f : fs) (path c : list ascii) : fs := Fs (dirs f) (<[path := c]> (files f)).
Definition make_dir (f : fs) (dir : list ascii) : fs := Fs ({[dir]} ∪ dirs f) (files f).

Definition remove_file (e : os_env) (f : fs) (path : list ascii) : fs :=
  if remove_ok e path then Fs (dirs f) (delete path (files f)) else f.

(** A successful [fopen(path, "a+")] creates a missing file. *)
Definition create (f : fs) (path : list ascii) : fs := set_file f path (content f path).

(** [ftruncate(fd, 0)]: the new content and the errno of a failure. *)
Definition ftruncate0 (e : os_env) (c : list ascii) : list ascii :=
  match ftruncate_err e with Some _ => c | None => [] end.

(** [fwrite] on an "a+" stream appends: the bytes written and the new content. *)
Definition fwrite_append (e : os_env) (data c : list ascii) : nat * list ascii :=
  let k := Nat.min (fwrite_bytes e (length data)) (length data) in
  (k, c ++ take k data).

Lemma content_set f p c : content (set_file f p c) p = c.
Proof. unfold content, set_file; cbn. by rewrite lookup_insert_eq. Qed.

Lemma content_set_ne f p q c : p <> q -> content (set_file f p c) q = content f q.
Proof. intros. unfold content, set_file; cbn. by rewrite lookup_insert_ne. Qed.

Lemma content_create f p q : content (create f p) q = content f q.
Proof.
  unfold create. destruct (decide (p = q)) as [->|]; [by rewrite content_set|].
  by rewrite content_set_ne.
Qed.

Lemma content_make_dir f d q : content (make_dir f d) q = content f q.
Proof. done. Qed.

Lemma set_file_twice f p c d : set_file (set_file f p c) p d = set_file f p d.
Proof. unfold set_file; cbn. by rewrite insert_insert_eq. Qed.

Lemma fwrite_append_nominal t data : fwrite_append (nominal t) data [] = (length data, data).
Proof. unfold fwrite_append; cbn. by rewrite Nat.min_id, take_ge. Qed.

Lemma fwrite_append_length e data :
  (length (snd (fwrite_append e data [])) <= length data)%nat.
Proof. unfold fwrite_append; cbn. rewrite length_take. lia. Qed.

#[export] Hint Rewrite content_set content_create content_make_dir set_file_twice
  fwrite_append_nominal : iam_rw.

(** ** Counting files *)
Lemma size_list_to_set_le `{Countable A} (l : list A) : (size (list_to_set l : gset A) <= length l)%nat.
Proof.
  induction l as [|x l IH]; cbn; [by rewrite size_empty|]. rewrite size_union_alt, size_singleton.
  apply le_n_S. etransitivity; [|exact IH]. apply subseteq_size. set_solver.
Qed.

Lemma size_set_map_le `{Countable A, Countable B} (f : A -> B) (X : gset A) :
  (size (set_map f X : gset B) <= size X)%nat.
Proof.
  unfold set_map. etransitivity; [apply size_list_to_set_le|]. rewrite length_fmap. done.
Qed.
