(* ===== verification/Inet.v ===== *)
(** * Internet addresses: [inet_pton] and the address bits

    [inet_pton] for both families, character by character as in glibc; an address is
    the list of its bytes in network order. [be_val] reads the bytes as one integer, most
    significant byte first, and the lemmas relate masks and shifts of that integer
    to the byte-wise and little-endian computations of the C code. *)
From S2P Require Export CString.

Definition byte_ok (b : Z) : Prop := 0 <= b < 256.

(** ** [inet_pton(AF_INET, s, dst)] *)
Definition digit_val (c : ascii) : Z := code c - 48.

(** [cur]: the octet being read, if a digit was seen; [acc]: the octets before it. *)
Fixpoint pton4_loop (cur : option Z) (acc : list Z) (s : list ascii) : option (list Z) :=
  match s with
  | [] =>
      match cur with
      | Some v => if (length acc =? 3)%nat then Some (acc ++ [v]) else None
      | None => None
      end
  | c :: s' =>
      if is_digit c then
        match cur with
        | Some v =>
            if v =? 0 then None
            else if 255 <? v * 10 + digit_val c then None
            else pton4_loop (Some (v * 10 + digit_val c)) acc s'
        | None => pton4_loop (Some (digit_val c)) acc s'
        end
      else if char_eqb c "." then
        match cur with
        | Some v => if (length acc =? 3)%nat then None else pton4_loop None (acc ++ [v]) s'
        | None => None
        end
      else None
  end.

Definition inet_pton4 (s : list ascii) : option (list Z) := pton4_loop None [] s.

(** ** [inet_pton(AF_INET6, s, dst)] *)
Definition hex_digit_value (c : ascii) : option Z :=
  if is_digit c then Some (code c - 48)
  else if (97 <=? code c) && (code c <=? 102) then Some (code c - 87)
  else if (65 <=? code c) && (code c <=? 70) then Some (code c - 55)
  else None.

Definition word_bytes (v : Z) : list Z := [v / 256; v mod 256].

(** Fill the place of "::" with zeros; 16 bytes are required. *)
Definition pton6_expand (tp : list Z) (colonp : option nat) : option (list Z) :=
  match colonp with
  | None => if (length tp =? 16)%nat then Some tp else None
  | Some p =>
      if (length tp <? 16)%nat
      then Some (take p tp ++ replicate (16 - length tp) 0 ++ drop p tp)
      else None
  end.

Definition pton6_finish (tp : list Z) (colonp : option nat) (seen : nat) (val : Z) : option (list Z) :=
  if (seen =? 0)%nat then pton6_expand tp colonp
  else if (16 <? length tp + 2)%nat then None
  else pton6_expand (tp ++ word_bytes val) colonp.

(** [tp]: the bytes written, [colonp]: the place of "::", [curtok]: the current group. *)
Fixpoint pton6_loop (tp : list Z) (colonp : option nat) (seen : nat) (val : Z)
    (curtok s : list ascii) : option (list Z) :=
  match s with
  | [] => pton6_finish tp colonp seen val
  | c :: s' =>
      match hex_digit_value c with
      | Some d =>
          if (seen =? 4)%nat then None
          else pton6_loop tp colonp (S seen) (val * 16 + d) curtok s'
      | None =>
          if char_eqb c ":" then
            if (seen =? 0)%nat then
              match colonp with
              | Some _ => None
              | None => pton6_loop tp (Some (length tp)) 0 0 s' s'
              end
            else
              match s' with
              | [] => None
              | _ =>
                  if (16 <? length tp + 2)%nat then None
                  else pton6_loop (tp ++ word_bytes val) colonp 0 0 s' s'
              end
          else if char_eqb c "." && (length tp + 4 <=? 16)%nat then
            match inet_pton4 curtok with
            | Some v4 => pton6_expand (tp ++ v4) colonp
            | None => None
            end
          else None
      end
  end.

Definition inet_pton6 (s : list ascii) : option (list Z) :=
  match s with
  | [] => None
  | c :: s' =>
      if char_eqb c ":" then
        match s' with
        | c' :: _ => if char_eqb c' ":" then pton6_loop [] None 0 0 s' s' else None
        | [] => None
        end
      else pton6_loop [] None 0 0 s s
  end.

(** ** An address as an integer *)
Definition be_val (bs : list Z) : Z := fold_left (fun acc b => acc * 256 + b) bs 0.

Fixpoint le_val (bs : list Z) : Z :=
  match bs with
  | [] => 0
  | b :: bs' => b + 256 * le_val bs'
  end.

(** the field [s_addr] of the address: the four bytes as a little-endian word *)
Definition s_addr (bs : list Z) : Z := le_val bs.

Definition be_bytes32 (x : Z) : list Z := [x / 2 ^ 24 mod 256; x / 2 ^ 16 mod 256; x / 2 ^ 8 mod 256; x mod 256].

(** [htonl] on a little-endian machine *)
Definition htonl (x : Z) : Z := le_val (be_bytes32 x).

Example pton4_ex : inet_pton4 (lit "192.168.2.100") = Some [192; 168; 2; 100].
Proof. reflexivity. Qed.
Example pton4_bad :
  map inet_pton4 (map lit ["1.2.3"; "1.2.3.256"; "01.2.3.4"; "1..2.3"; "1.2.3.4."; ""]%string)
  = replicate 6 None.
Proof. reflexivity. Qed.
Example pton6_ex :
  inet_pton6 (lit "fe80::1:A2") = Some [254; 128; 0; 0; 0; 0; 0; 0; 0; 0; 0; 0; 0; 1; 0; 162].
Proof. reflexivity. Qed.
Example pton6_v4 :
  inet_pton6 (lit "::ffff:1.2.3.4") = Some [0; 0; 0; 0; 0; 0; 0; 0; 0; 0; 255; 255; 1; 2; 3; 4].
Proof. reflexivity. Qed.
Example pton6_bad :
  map inet_pton6 (map lit ["1:2:3:4:5:6:7"; ":1"; "1::2::3"; "12345::"; "1:2:3:4:5:6:7::8"; "1:"; ""; "g::"]%string)
  = replicate 8 None.
Proof. reflexivity. Qed.

(** ** Well-formed addresses *)
Definition addr_ok (n : nat) (bs : list Z) : Prop := length bs = n /\ Forall byte_ok bs.

Lemma is_digit_range c : is_digit c = true -> 0 <= digit_val c <= 9.
Proof. unfold is_digit, digit_val. intros; bool_hyps. lia. Qed.

Lemma pton4_loop_ok cur acc s r :
  Forall byte_ok acc -> (length acc <= 3)%nat ->
  match cur with Some v => byte_ok v | None => True end ->
  pton4_loop cur acc s = Some r -> addr_ok 4 r.
Proof.
  revert cur acc; induction s as [|c s IH]; intros cur acc Ha Hl Hc; cbn [pton4_loop].
  - destruct cur as [v|]; [|done]. destruct (Nat.eqb_spec (length acc) 3); [|done].
    intros [= <-]. split; [rewrite length_app; cbn; lia|].
    apply Forall_app_2; [done|by constructor].
  - destruct (is_digit c) eqn:Hd.
    + apply is_digit_range in Hd. destruct cur as [v|].
      * destruct (Z.eqb_spec v 0); [done|]. destruct (Z.ltb_spec 255 (v * 10 + digit_val c)); [done|].
        apply IH; [done|done|]. unfold byte_ok in *. lia.
      * apply IH; [done|done|]. unfold byte_ok. lia.
    + destruct (char_eqb c "."); [|done]. destruct cur as [v|]; [|done].
      destruct (Nat.eqb_spec (length acc) 3); [done|]. apply IH; [|rewrite length_app; cbn; lia|done].
      apply Forall_app_2; [done|by constructor].
Qed.

Lemma inet_pton4_ok s r : inet_pton4 s = Some r -> addr_ok 4 r.
Proof. apply pton4_loop_ok; [constructor|cbn; lia|done]. Qed.

Lemma hex_digit_range c d : hex_digit_value c = Some d -> 0 <= d < 16.
Proof.
  unfold hex_digit_value, is_digit.
  repeat case_match; intros [= <-]; bool_hyps; lia.
Qed.

Lemma pton6_expand_ok tp colonp r :
  Forall byte_ok tp -> pton6_expand tp colonp = Some r -> addr_ok 16 r.
Proof.
  intros Ht. unfold pton6_expand. destruct colonp as [p|].
  - destruct (Nat.ltb_spec (length tp) 16); [|done]. intros [= <-]. split.
    + rewrite !length_app, length_take, length_replicate, length_drop. lia.
    + apply Forall_app_2; [by apply Forall_take|]. apply Forall_app_2; [|by apply Forall_drop].
      apply Forall_replicate. unfold byte_ok. lia.
  - destruct (Nat.eqb_spec (length tp) 16); [|done]. by intros [= <-].
Qed.

Lemma word_bytes_ok v : 0 <= v < 65536 -> Forall byte_ok (word_bytes v).
Proof. intros. unfold word_bytes, byte_ok. repeat constructor; dlia. Qed.

(** A group of [n] hexadecimal digits is below [16 ^ n]. *)
Lemma pton6_loop_ok tp colonp seen val curtok s r :
  Forall byte_ok tp -> (seen <= 4)%nat -> 0 <= val < 16 ^ Z.of_nat seen ->
  pton6_loop tp colonp seen val curtok s = Some r -> addr_ok 16 r.
Proof.
  assert (Hw : forall k v, (k <= 4)%nat -> 0 <= v < 16 ^ Z.of_nat k -> Forall byte_ok (word_bytes v)).
  { intros k v Hk Hv. apply word_bytes_ok.
    pose proof (Z.pow_le_mono_r 16 (Z.of_nat k) 4). lia. }
  revert tp colonp seen val curtok.
  induction s as [|c s IH]; intros tp colonp seen val curtok Ht Hs Hv; cbn [pton6_loop].
  - unfold pton6_finish. destruct (seen =? 0)%nat; [by apply pton6_expand_ok|].
    destruct (16 <? _)%nat; [done|]. apply pton6_expand_ok. apply Forall_app_2; eauto.
  - destruct (hex_digit_value c) as [d|] eqn:Hd.
    + apply hex_digit_range in Hd. destruct (Nat.eqb_spec seen 4); [done|].
      apply IH; [done|lia|]. rewrite Nat2Z.inj_succ, Z.pow_succ_r by lia. lia.
    + destruct (char_eqb c ":").
      * destruct (seen =? 0)%nat; [destruct colonp; [done|]; apply IH; [done|lia|cbn; lia]|].
        destruct s as [|c' s']; [done|]. destruct (16 <? _)%nat; [done|].
        apply IH; [|lia|cbn; lia]. apply Forall_app_2; eauto.
      * destruct (_ && _); [|done]. destruct (inet_pton4 curtok) as [v4|] eqn:E4; [|done].
        apply pton6_expand_ok. apply Forall_app_2; [done|]. by apply inet_pton4_ok in E4 as [_ ?].
Qed.

Lemma inet_pton6_ok s r : inet_pton6 s = Some r -> addr_ok 16 r.
Proof.
  unfold inet_pton6. destruct s as [|c s]; [done|].
  destruct (char_eqb c ":"); [destruct s as [|c' s]; [done|]; destruct (char_eqb c' ":"); [|done]|];
    (apply pton6_loop_ok; [constructor|lia|cbn; lia]).
Qed.
#[export] Hint Resolve inet_pton4_ok inet_pton6_ok : iam.

(** ** Masks and prefixes *)

Lemma be_val_acc bs a :
  fold_left (fun acc b => acc * 256 + b) bs a = a * 256 ^ Z.of_nat (length bs) + be_val bs.
Proof.
  unfold be_val. revert a; induction bs as [|b bs IH]; intros a; cbn [fold_left length]; [lia|].
  rewrite (IH (a * 256 + b)), (IH (0 * 256 + b)), Nat2Z.inj_succ, Z.pow_succ_r by lia. lia.
Qed.

Lemma be_val_app a b : be_val (a ++ b) = be_val a * 256 ^ Z.of_nat (length b) + be_val b.
Proof. unfold be_val at 1. rewrite fold_left_app. apply be_val_acc. Qed.

Lemma be_val_snoc a b : be_val (a ++ [b]) = be_val a * 256 + b.
Proof. unfold be_val. by rewrite fold_left_app. Qed.

Lemma be_val_range bs : Forall byte_ok bs -> 0 <= be_val bs < 256 ^ Z.of_nat (length bs).
Proof.
  induction bs as [|b bs IH] using rev_ind; intros HF; [cbn; lia|].
  apply Forall_app in HF as [Hbs Hb]. rewrite Forall_singleton in Hb. specialize (IH Hbs).
  rewrite be_val_snoc, length_app, Nat.add_1_r, Nat2Z.inj_succ, Z.pow_succ_r by lia. unfold byte_ok in Hb. lia.
Qed.

Lemma be_val_inj a b :
  length a = length b -> Forall byte_ok a -> Forall byte_ok b -> be_val a = be_val b -> a = b.
Proof.
  revert b; induction a as [|x a IH] using rev_ind; intros b Hl Ha Hb He.
  - by destruct b.
  - destruct b as [|y b _] using rev_ind; [rewrite length_app in Hl; cbn in Hl; lia|].
    rewrite !length_app in Hl; cbn in Hl. apply Forall_app in Ha as [Ha Hx], Hb as [Hb Hy].
    rewrite !be_val_snoc in He.
    rewrite Forall_singleton in Hx, Hy. unfold byte_ok in Hx, Hy.
    assert (be_val a = be_val b /\ x = y) as [? ->] by lia.
    f_equal. apply IH; auto; lia.
Qed.

Lemma land_low_shifted x y : 0 <= x < 2 ^ 8 -> Z.land x (Z.shiftl y 8) = 0.
Proof.
  intros Hx. apply Z.bits_inj'; intros i Hi. rewrite Z.land_spec, Z.bits_0.
  destruct (Z.ltb_spec i 8).
  - rewrite Z.shiftl_spec_low by lia. apply andb_false_r.
  - rewrite <- (Z.mod_small x (2 ^ 8)) by lia. by rewrite Z.mod_pow2_bits_high by lia.
Qed.

Lemma add_byte_lor x y : 0 <= x < 2 ^ 8 -> x + 256 * y = Z.lor x (Z.shiftl y 8).
Proof.
  intros Hx. pose proof (land_low_shifted x y Hx) as Hl.
  rewrite <- Z.lxor_lor, <- Z.add_nocarry_lxor by done.
  rewrite Z.shiftl_mul_pow2 by lia. lia.
Qed.

Lemma land_byte_range b c : byte_ok b -> 0 <= Z.land b c < 2 ^ 8.
Proof.
  unfold byte_ok; intros Hb. rewrite <- (Z.mod_small b (2 ^ 8)) by lia.
  rewrite <- Z.land_ones, <- Z.land_assoc, (Z.land_comm (Z.ones 8)), Z.land_assoc by lia.
  rewrite Z.land_ones by lia. apply Z.mod_pos_bound. lia.
Qed.

(** [&] of words is [&] of their bytes. *)
Lemma land_byte b c r s :
  byte_ok b -> byte_ok c -> Z.land (b + 256 * r) (c + 256 * s) = Z.land b c + 256 * Z.land r s.
Proof.
  intros Hb Hc. rewrite (add_byte_lor (Z.land b c)) by (by apply land_byte_range).
  unfold byte_ok in *. rewrite !add_byte_lor by lia.
  rewrite Z.land_lor_distr_l, !Z.land_lor_distr_r, (Z.land_comm (Z.shiftl r 8) c).
  rewrite !land_low_shifted by lia. rewrite Z.lor_0_r, Z.lor_0_l. f_equal.
  apply Z.bits_inj'; intros i Hi. rewrite Z.land_spec.
  destruct (Z.ltb_spec i 8); [by rewrite !Z.shiftl_spec_low by lia|].
  by rewrite !Z.shiftl_spec, Z.land_spec by lia.
Qed.

Fixpoint land_bytes (a m : list Z) : list Z :=
  match a, m with
  | x :: a', y :: m' => Z.land x y :: land_bytes a' m'
  | _, _ => []
  end.

Lemma land_bytes_ok a m :
  Forall byte_ok a -> length a = length m -> addr_ok (length a) (land_bytes a m).
Proof.
  intros Ha. revert m; induction Ha as [|x a Hx Ha IH]; intros [|y m] Hl; cbn; try done.
  destruct (IH m ltac:(cbn in *; lia)) as [IHl IHb]. split; cbn; [lia|].
  constructor; [by apply land_byte_range|done].
Qed.

Lemma le_val_land a m :
  Forall byte_ok a -> Forall byte_ok m -> length a = length m ->
  Z.land (le_val a) (le_val m) = le_val (land_bytes a m).
Proof.
  intros Ha. revert m; induction Ha as [|x a Hx Ha IH]; intros m Hm Hl.
  - destruct m; [done|discriminate].
  - destruct Hm as [|y m Hy Hm]; [discriminate|]. cbn [le_val land_bytes].
    rewrite land_byte by done. rewrite IH; [done|done|cbn in Hl; lia].
Qed.

Lemma le_val_inj a b :
  length a = length b -> Forall byte_ok a -> Forall byte_ok b -> le_val a = le_val b -> a = b.
Proof.
  intros Hl Ha. revert b Hl; induction Ha as [|x a Hx Ha IH]; intros b Hl Hb He.
  - by destruct b.
  - destruct Hb as [|y b Hy Hb]; [discriminate|]. cbn [le_val] in He. unfold byte_ok in *.
    assert (x = y /\ le_val a = le_val b) as [-> ?] by lia. f_equal. apply IH; [cbn in Hl; lia|done|done].
Qed.

Lemma le_val_rev bs : le_val (rev bs) = be_val bs.
Proof.
  induction bs as [|b bs IH] using rev_ind; [done|].
  rewrite rev_unit; cbn [le_val]. rewrite IH, be_val_snoc. lia.
Qed.

Lemma land_bytes_rev a m :
  length a = length m -> land_bytes (rev a) (rev m) = rev (land_bytes a m).
Proof.
  assert (Happ : forall a m x y, length a = length m ->
            land_bytes (a ++ [x]) (m ++ [y]) = land_bytes a m ++ [Z.land x y]).
  { clear. induction a as [|x a IH]; intros [|y m] x' y' Hl; cbn in *; try done; try lia.
    f_equal. apply IH. lia. }
  revert m; induction a as [|x a IH]; intros [|y m] Hl; cbn in *; try done.
  rewrite Happ, IH by (rewrite ?length_rev; lia). done.
Qed.

(** The comparison of masked network-order words is that of the masked numbers. *)
Lemma masked_eq a b m :
  addr_ok 4 a -> addr_ok 4 b -> addr_ok 4 m ->
  (Z.land (le_val a) (le_val m) = Z.land (le_val b) (le_val m) <->
   Z.land (be_val a) (be_val m) = Z.land (be_val b) (be_val m)).
Proof.
  intros [La Ha] [Lb Hb] [Lm Hm]. rewrite <- !le_val_rev.
  rewrite !le_val_land by (rewrite ?length_rev; first [by apply Forall_rev|lia|done]).
  rewrite !land_bytes_rev by lia.
  destruct (land_bytes_ok a m Ha ltac:(lia)) as [L1 H1].
  destruct (land_bytes_ok b m Hb ltac:(lia)) as [L2 H2].
  split; intros He; apply le_val_inj in He; rewrite ?length_rev; try lia; try done;
    try by apply Forall_rev.
  - by rewrite He.
  - apply (f_equal (rev (A := Z))) in He. rewrite !rev_involutive in He. by rewrite He.
Qed.

(** A prefix mask keeps the quotient by the host part. *)
Lemma prefix_mask x y n k :
  0 <= k <= n -> 0 <= x < 2 ^ n -> 0 <= y < 2 ^ n ->
  (Z.land x (2 ^ n - 2 ^ k) = Z.land y (2 ^ n - 2 ^ k) <-> x / 2 ^ k = y / 2 ^ k).
Proof.
  intros Hk Hx Hy.
  assert (Hland : forall z, 0 <= z < 2 ^ n -> Z.land z (2 ^ n - 2 ^ k) = (z / 2 ^ k) * 2 ^ k).
  { intros z Hz. replace (2 ^ n - 2 ^ k) with (Z.shiftl (Z.ones (n - k)) k).
    2: { rewrite Z.shiftl_mul_pow2, Z.ones_equiv by lia. unfold Z.pred.
         replace (2 ^ n) with (2 ^ (n - k) * 2 ^ k) by (rewrite <- Z.pow_add_r by lia; f_equal; lia). lia. }
    rewrite <- Z.shiftr_div_pow2, <- Z.shiftl_mul_pow2 by lia.
    apply Z.bits_inj'; intros i Hi. rewrite Z.land_spec.
    destruct (Z.ltb_spec i k); [by rewrite !Z.shiftl_spec_low, andb_false_r by lia|].
    rewrite !Z.shiftl_spec, Z.shiftr_spec by lia. replace (i - k + k) with i by lia.
    destruct (Z.ltb_spec i n).
    - rewrite Z.ones_spec_low by lia. apply andb_true_r.
    - rewrite Z.ones_spec_high by lia. rewrite <- (Z.mod_small z (2 ^ n)) by lia.
      by rewrite Z.mod_pow2_bits_high by lia. }
  rewrite !Hland by done. split; [|congruence]. intros He. nia.
Qed.

(** ** Prefixes *)

(** Two addresses of [n] bytes agree on their first [len] bits. *)
Definition same_prefix (n : nat) (len : Z) (a b : list Z) : Prop :=
  be_val a / 2 ^ (8 * Z.of_nat n - len) = be_val b / 2 ^ (8 * Z.of_nat n - len).

Lemma be_val_div a x r :
  Forall byte_ok (a ++ x :: r) ->
  be_val (a ++ x :: r) / 256 ^ Z.of_nat (length r) = be_val a * 256 + x.
Proof.
  intros HF. rewrite cons_middle, app_assoc, be_val_app, be_val_snoc.
  apply Forall_app in HF as [_ HF]. apply Forall_cons_1 in HF as [_ HF].
  pose proof (be_val_range r HF). rewrite Z.div_add_l, Z.div_small by lia. lia.
Qed.

Lemma same_prefix_bytes n r (a b : list Z) x y ra rb L :
  0 <= r < 8 -> length a = n -> length b = n -> length ra = length rb ->
  L = (n + 1 + length ra)%nat ->
  Forall byte_ok (a ++ x :: ra) -> Forall byte_ok (b ++ y :: rb) ->
  (same_prefix L (8 * Z.of_nat n + r) (a ++ x :: ra) (b ++ y :: rb) <->
   a = b /\ Z.shiftr x (8 - r) = Z.shiftr y (8 - r)).
Proof.
  intros Hr La Lb Lr -> Ha Hb. unfold same_prefix.
  replace (8 * Z.of_nat (n + 1 + length ra) - (8 * Z.of_nat n + r))
    with (8 * Z.of_nat (length ra) + (8 - r)) by lia.
  rewrite Z.pow_add_r, Z.pow_mul_r by lia. change (2 ^ 8) with 256.
  rewrite <- !Z.div_div by lia. rewrite be_val_div by done.
  rewrite Lr, be_val_div by done.
  apply Forall_app in Ha as [Ha Hx], Hb as [Hb Hy].
  apply Forall_cons_1 in Hx as [Hx _], Hy as [Hy _]. unfold byte_ok in Hx, Hy.
  rewrite !Z.shiftr_div_pow2 by lia.
  assert (H256 : 256 = 2 ^ r * 2 ^ (8 - r)) by (rewrite <- Z.pow_add_r by lia; by replace (r + (8 - r)) with 8 by lia).
  assert (Hdiv : forall q z, (q * 256 + z) / 2 ^ (8 - r) = q * 2 ^ r + z / 2 ^ (8 - r)).
  { intros q z. rewrite H256 at 1. rewrite Z.mul_assoc, Z.div_add_l by lia. done. }
  rewrite !Hdiv.
  assert (Hlt : forall z, 0 <= z < 256 -> 0 <= z / 2 ^ (8 - r) < 2 ^ r).
  { intros z Hz. split; [apply Z.div_pos; lia|]. apply Z.div_lt_upper_bound; lia. }
  specialize (Hlt x Hx) as Hlx. specialize (Hlt y Hy) as Hly. split.
  - intros He.
    assert (be_val a = be_val b /\ x / 2 ^ (8 - r) = y / 2 ^ (8 - r)) as [Hab ?].
    { assert (be_val a = be_val b) by nia. split; [done|nia]. }
    split; [|done]. apply be_val_inj; [lia|done|done|done].
  - by intros [-> ->].
Qed.
