(* ===== verification/Network.v ===== *)
(** * network.c: address checks, subnet membership, MAC lookup

    [is_ip_in_subnet] and [is_ipv6_in_subnet] appear with the same text in
    iam_core/common/common.c (the same names in Common). The ARP table of the kernel is the argument [arp] of
    [get_mac_by_socket]. *)
From S2P Require Export Inet.

(** ** Address checks: 0 for a valid address, 1 otherwise *)
Definition vos_ipv4_addr_valid_check (ipv4 : option (list ascii)) : Z :=
  match ipv4 with
  | None => 1
  | Some s =>
      match inet_pton4 s with
      | None => 1
      | Some ipaddr =>
          let isect1_low_thr := 1 in
          let isect1_high_thr := 223 in
          let iSect1 := Z.land (s_addr ipaddr) 255 in
          if (iSect1 <? isect1_low_thr) || (isect1_high_thr <? iSect1) || (iSect1 =? 127) then 1 else 0
      end
  end.

(** The IN6_IS_ADDR tests of <netinet/in.h> *)
Definition byte_at (buf : list Z) (i : nat) : Z := default 0 (buf !! i).
Definition IN6_IS_ADDR_UNSPECIFIED (buf : list Z) : bool := forallb (fun b => b =? 0) buf.
Definition IN6_IS_ADDR_LOOPBACK (buf : list Z) : bool :=
  forallb (fun b => b =? 0) (take 15 buf) && (byte_at buf 15 =? 1).
Definition IN6_IS_ADDR_LINKLOCAL (buf : list Z) : bool :=
  (byte_at buf 0 =? 254) && (Z.land (byte_at buf 1) 192 =? 128).
Definition IN6_IS_ADDR_MULTICAST (buf : list Z) : bool := byte_at buf 0 =? 255.

Definition vos_ipv6_addr_valid_check (ipv6Str : option (list ascii)) : Z :=
  match ipv6Str with
  | None => 1
  | Some s =>
      match inet_pton6 s with
      | None => 1
      | Some buf =>
          if IN6_IS_ADDR_UNSPECIFIED buf then 1
          else if IN6_IS_ADDR_LOOPBACK buf then 1
          else if IN6_IS_ADDR_LINKLOCAL buf then 1
          else if IN6_IS_ADDR_MULTICAST buf then 1
          else 0
      end
  end.

(** ** Subnets: [sscanf_s(subnet_str, "%w[^/]/%d$", subnet_ip, .., &mask_len)] *)
Definition scan_subnet (w : nat) (subnet_str : list ascii) (mask_len : Z) : option (list ascii * Z) :=
  match sscanf [Dset w "/"; Dlit "/"; Dint; Dlit "$"] subnet_str with
  | [VStr ip; VInt m] => Some (ip, m)
  | VStr ip :: _ => Some (ip, mask_len)
  | _ => None
  end.

(** [htonl(~((1 << (32 - mask_len)) - 1))] in 32-bit arithmetic that wraps around; for a length of 1 the int overflows,
    which C leaves to the compiler. *)
Definition subnet_mask (mask_len : Z) : Z :=
  htonl (u32 (Z.lnot (s32 (s32 (Z.shiftl 1 (32 - mask_len)) - 1)))).

Definition is_ip_in_subnet (ip_str subnet_str : list ascii) : Z :=
  match inet_pton4 ip_str with
  | None => RET_ERR
  | Some ip_addr =>
      match scan_subnet 15 subnet_str 32 with
      | None => RET_ERR
      | Some (subnet_ip, mask_len) =>
          if (32 <? mask_len) || (mask_len <? 1) then RET_ERR
          else
            match inet_pton4 subnet_ip with
            | None => RET_ERR
            | Some subnet_addr =>
                if Z.land (s_addr ip_addr) (subnet_mask mask_len)
                   =? Z.land (s_addr subnet_addr) (subnet_mask mask_len)
                then RET_OK else RET_ERR
            end
      end
  end.

(** The loop over the [byte_len] whole bytes; the bytes it has not reached. *)
Fixpoint whole_bytes (byte_len : nat) (subnet_addr ip_addr : list Z) : option (list Z * list Z) :=
  match byte_len, subnet_addr, ip_addr with
  | O, _, _ => Some (subnet_addr, ip_addr)
  | S n, s :: subnet_addr', i :: ip_addr' =>
      if negb (s =? i) then None else whole_bytes n subnet_addr' ip_addr'
  | S _, _, _ => None
  end.

Definition is_ipv6_in_subnet (ip_str subnet_str : list ascii) : Z :=
  match inet_pton6 ip_str with
  | None => RET_ERR
  | Some ip_addr =>
      match scan_subnet 45 subnet_str 128 with
      | None => RET_ERR
      | Some (subnet_ip, mask_len) =>
          if (128 <? mask_len) || (mask_len <? 1) then RET_ERR
          else
            match inet_pton6 subnet_ip with
            | None => RET_ERR
            | Some subnet_addr =>
                let byte_len := Z.to_nat (mask_len / 8) in
                let bit_len := 8 - mask_len mod 8 in
                match whole_bytes byte_len subnet_addr ip_addr with
                | None => RET_ERR
                | Some (s_rest, i_rest) =>
                    if (byte_len =? 16)%nat then RET_OK
                    else if Z.shiftr (byte_at s_rest 0) bit_len =? Z.shiftr (byte_at i_rest 0) bit_len
                    then RET_OK else RET_ERR
                end
            end
      end
  end.

(** ** MAC address of a neighbour *)
Definition MACADDRESS_LEN : nat := 64.
Definition IFNAMSIZ : nat := 16.
Definition ATF_COM : Z := 2.

Definition hex_char (d : Z) : ascii := chr (if d <? 10 then 48 + d else 87 + d).
Definition hex2 (b : Z) : list ascii := [hex_char (b / 16); hex_char (b mod 16)].

Fixpoint join_colon (parts : list (list ascii)) : list ascii :=
  match parts with
  | [] => []
  | [p] => p
  | p :: rest => p ++ lit ":" ++ join_colon rest
  end.

(** ioctl(SIOCGARP): the flags and the hardware address, [None] when socket or ioctl fail. *)
Definition get_mac_by_socket (arp : list Z -> list ascii -> option (Z * list Z))
    (ip eth : list ascii) : option (list ascii) :=
  let sin_addr := default [0; 0; 0; 0] (inet_pton4 ip) in
  let arp_dev := snd (strncpy_s IFNAMSIZ eth (IFNAMSIZ - 1)) in
  match arp sin_addr arp_dev with
  | None => None
  | Some (arp_flags, sa_data) =>
      if Z.land (u32 arp_flags) ATF_COM =? 0 then None
      else Some (take MACADDRESS_LEN (join_colon (map hex2 (take 6 sa_data)) ++ [NL]))
  end.

Example subnet4_ex :
  map (fun s => is_ip_in_subnet (lit "192.168.2.77") (lit s))
    ["192.168.2.0/24"; "192.168.3.0/24"; "128.0.0.0/1"; "192.168.2.77"; "192.168.2.76/31"; "192.168.2.0/0"; "/24"]%string
  = [RET_OK; RET_ERR; RET_OK; RET_OK; RET_OK; RET_ERR; RET_ERR].
Proof. reflexivity. Qed.
Example subnet6_ex :
  map (fun s => is_ipv6_in_subnet (lit "2001:db8::77") (lit s))
    ["2001:db8::/32"; "2001:db9::/31"; "2001:db9::/32"; "2001:db8::77"; "2001:db8::76/128"; "::/129"]%string
  = [RET_OK; RET_OK; RET_ERR; RET_OK; RET_ERR; RET_ERR].
Proof. reflexivity. Qed.
Example mac_ex :
  get_mac_by_socket (fun _ _ => Some (2, [0; 26; 43; 60; 77; 255; 9; 9])) (lit "10.0.0.1") (lit "eth0")
  = Some (lit "00:1a:2b:3c:4d:ff" ++ [NL]).
Proof. reflexivity. Qed.

(** ** Scanning *)

Definition no_slash (s : list ascii) : Prop := "/"%char ∉ s.

Lemma no_slash_span s :
  no_slash s -> Forall (fun c => negb (char_eqb c "/") = true) s.
Proof.
  unfold no_slash. induction s as [|c s IH]; intros H; [constructor|].
  rewrite not_elem_of_cons in H. destruct H. constructor; [|by apply IH].
  rewrite (proj2 (char_eqb_neq c "/")) by congruence. done.
Qed.

Lemma scan_addr_mask w addr ds m :
  addr <> [] -> no_slash addr -> (length addr <= w)%nat ->
  ds <> [] -> Forall (fun c => is_digit c = true) ds -> dec_value ds < 2 ^ 31 ->
  scan_subnet w (addr ++ "/"%char :: ds) m = Some (addr, dec_value ds).
Proof.
  intros Ha Hs Hw Hd HF Hv. unfold scan_subnet; cbn [sscanf].
  assert (Hspan : fst (span (fun c => negb (char_eqb c "/")) (take w (addr ++ "/"%char :: ds))) = addr).
  { rewrite take_app, take_ge by lia. rewrite span_app; [done|by apply no_slash_span|].
    by destruct (w - length addr)%nat. }
  rewrite Hspan. destruct addr as [|a addr]; [done|].
  rewrite (drop_app_length (a :: addr)), char_eqb_refl.
  pose proof (strtol_digits ds [] Hd HF I ltac:(unfold LONG_MAX; lia)) as Hst.
  rewrite app_nil_r in Hst. rewrite Hst.
  cbn [st_conv st_val st_rest]. rewrite s32_small; [done|].
  pose proof (dec_value_range ds HF). lia.
Qed.

Lemma scan_addr w addr m :
  addr <> [] -> no_slash addr -> (length addr <= w)%nat -> scan_subnet w addr m = Some (addr, m).
Proof.
  intros Ha Hs Hw. unfold scan_subnet; cbn [sscanf]. rewrite take_ge by lia.
  pose proof (span_app _ addr [] (no_slash_span addr Hs) I) as Hsp.
  rewrite app_nil_r in Hsp. rewrite Hsp. cbn [fst].
  destruct addr as [|a addr]; [done|]. by rewrite drop_ge.
Qed.

(** ** Subnet membership is agreement on a prefix *)

Lemma mask_value m :
  1 <= m <= 32 -> u32 (Z.lnot (s32 (s32 (Z.shiftl 1 (32 - m)) - 1))) = 2 ^ 32 - 2 ^ (32 - m).
Proof.
  intros Hm. rewrite Z.shiftl_mul_pow2, Z.mul_1_l by lia.
  assert (Hc : forall k : nat, (k < 32)%nat ->
    u32 (Z.lnot (s32 (s32 (2 ^ Z.of_nat k) - 1))) = 2 ^ 32 - 2 ^ Z.of_nat k).
  { intros k Hk. do 32 (destruct k as [|k]; [reflexivity|]). lia. }
  specialize (Hc (Z.to_nat (32 - m)) ltac:(lia)). rewrite Z2Nat.id in Hc by lia. done.
Qed.

Lemma be_bytes32_ok x : addr_ok 4 (be_bytes32 x).
Proof. split; [done|]. unfold be_bytes32, byte_ok. repeat constructor; dlia. Qed.

Lemma be_bytes32_val x : 0 <= x < 2 ^ 32 -> be_val (be_bytes32 x) = x.
Proof. intros. unfold be_val, be_bytes32; cbn [fold_left]. dlia. Qed.

Lemma masked_prefix a b m :
  addr_ok 4 a -> addr_ok 4 b -> 1 <= m <= 32 ->
  (Z.land (s_addr a) (subnet_mask m) = Z.land (s_addr b) (subnet_mask m) <-> same_prefix 4 m a b).
Proof.
  intros Ha Hb Hm. unfold subnet_mask, s_addr, htonl. rewrite mask_value by done.
  assert (H2 : 0 < 2 ^ (32 - m) <= 2 ^ 31) by (split; [lia|apply Z.pow_le_mono_r; lia]).
  rewrite masked_eq by (done || apply be_bytes32_ok). rewrite be_bytes32_val by lia.
  destruct Ha as [La Ha], Hb as [Lb Hb].
  pose proof (be_val_range a Ha) as Ra. pose proof (be_val_range b Hb) as Rb.
  rewrite La in Ra. rewrite Lb in Rb.
  rewrite (prefix_mask _ _ 32 (32 - m)) by (lia || exact Ra || exact Rb).
  reflexivity.
Qed.

Lemma is_ip_in_subnet_scan ip text addr m :
  scan_subnet 15 text 32 = Some (addr, m) ->
  (is_ip_in_subnet ip text = RET_OK <->
   1 <= m <= 32 /\ exists a s, inet_pton4 ip = Some a /\ inet_pton4 addr = Some s /\ same_prefix 4 m a s).
Proof.
  intros Hscan. unfold is_ip_in_subnet. rewrite Hscan.
  destruct (inet_pton4 ip) as [a|] eqn:Ea; [|split; [done|naive_solver]].
  destruct ((32 <? m) || (m <? 1)) eqn:Em.
  { split; [done|]. apply orb_true_iff in Em. lia. }
  bool_hyps. destruct (inet_pton4 addr) as [s|] eqn:Es; [|split; [done|naive_solver]].
  destruct (Z.eqb_spec (Z.land (s_addr a) (subnet_mask m)) (Z.land (s_addr s) (subnet_mask m))) as [He|He].
  - split; [|done]. intros _. split; [lia|]. exists a, s. split; [done|]. split; [done|].
    apply masked_prefix in He; eauto with iam; lia.
  - split; [done|]. intros (_ & a' & s' & [= <-] & [= <-] & Hp). destruct He.
    apply masked_prefix; eauto with iam; lia.
Qed.

Lemma same_prefix_full n a b :
  addr_ok n a -> addr_ok n b -> same_prefix n (8 * Z.of_nat n) a b -> a = b.
Proof.
  intros [La Ha] [Lb Hb]. unfold same_prefix. rewrite Z.sub_diag, Z.pow_0_r, !Z.div_1_r.
  intros. by apply be_val_inj; [lia|..].
Qed.

(** ** IPv6: the byte loop *)

Lemma whole_bytes_spec n s i :
  (n <= length s)%nat -> (n <= length i)%nat ->
  whole_bytes n s i = if bool_decide (take n s = take n i) then Some (drop n s, drop n i) else None.
Proof.
  revert s i; induction n as [|n IH]; intros s i Hs Hi; [by rewrite bool_decide_eq_true_2|].
  destruct s as [|x s], i as [|y i]; cbn in Hs, Hi; try lia. cbn [whole_bytes take drop].
  destruct (Z.eqb_spec x y) as [->|]; cbn [negb].
  - rewrite IH by lia. by do 2 case_bool_decide; try congruence.
  - case_bool_decide; congruence.
Qed.

Lemma split_at (l : list Z) n :
  (n < length l)%nat -> exists x r, l = take n l ++ x :: r /\ drop n l = x :: r /\ length r = (length l - n - 1)%nat.
Proof.
  intros Hn. destruct (drop n l) as [|x r] eqn:Ed.
  - apply (f_equal length) in Ed. rewrite length_drop in Ed. cbn in Ed. lia.
  - exists x, r. split; [|split; [done|]].
    + by rewrite <- Ed, take_drop.
    + apply (f_equal length) in Ed. rewrite length_drop in Ed. cbn in Ed. lia.
Qed.

(** What the loop and the last partial byte decide together. *)
Lemma ipv6_prefix_check s i m :
  addr_ok 16 s -> addr_ok 16 i -> 1 <= m <= 128 ->
  (match whole_bytes (Z.to_nat (m / 8)) s i with
   | None => RET_ERR
   | Some (s_rest, i_rest) =>
       if (Z.to_nat (m / 8) =? 16)%nat then RET_OK
       else if Z.shiftr (byte_at s_rest 0) (8 - m mod 8) =? Z.shiftr (byte_at i_rest 0) (8 - m mod 8)
       then RET_OK else RET_ERR
   end = RET_OK <-> same_prefix 16 m s i).
Proof.
  intros [Ls Hs] [Li Hi] Hm. set (n := Z.to_nat (m / 8)).
  assert (Hn : (n <= 16)%nat) by (unfold n; dlia).
  assert (Hmn : m = 8 * Z.of_nat n + m mod 8) by (unfold n; dlia).
  rewrite whole_bytes_spec by lia. destruct (Nat.eqb_spec n 16) as [Hn16|Hn16].
  - assert (m = 8 * Z.of_nat 16) as -> by dlia. rewrite Hn16.
    rewrite !(take_ge _ 16) by lia. case_bool_decide as He.
    + split; [intros _; by subst|done].
    + split; [done|]. intros Hp. destruct He. apply (same_prefix_full 16); done.
  - destruct (split_at s n ltac:(lia)) as (x & rs & Es & Ds & Lrs).
    destruct (split_at i n ltac:(lia)) as (y & ri & Ei & Di & Lri).
    rewrite Ds, Di.
    pose proof (same_prefix_bytes n (m mod 8) (take n s) (take n i) x y rs ri 16) as Hp.
    rewrite <- Hmn, <- Es, <- Ei in Hp.
    rewrite Hp; [|dlia|rewrite length_take; lia|rewrite length_take; lia|lia|lia|done|done].
    case_bool_decide as He.
    + change (byte_at (x :: rs) 0) with x. change (byte_at (y :: ri) 0) with y.
      destruct (Z.eqb_spec (Z.shiftr x (8 - m mod 8)) (Z.shiftr y (8 - m mod 8))) as [Hx|Hx].
      * split; [intros _; by split|done].
      * split; [done|]. by intros [_ ?].
    + split; [done|]. by intros [? _].
Qed.

Lemma is_ipv6_in_subnet_scan ip text addr m :
  scan_subnet 45 text 128 = Some (addr, m) ->
  (is_ipv6_in_subnet ip text = RET_OK <->
   1 <= m <= 128 /\ exists a s, inet_pton6 ip = Some a /\ inet_pton6 addr = Some s /\ same_prefix 16 m a s).
Proof.
  intros Hscan. unfold is_ipv6_in_subnet. rewrite Hscan.
  destruct (inet_pton6 ip) as [a|] eqn:Ea; [|split; [done|naive_solver]].
  destruct ((128 <? m) || (m <? 1)) eqn:Em.
  { split; [done|]. apply orb_true_iff in Em. lia. }
  bool_hyps. destruct (inet_pton6 addr) as [s|] eqn:Es; [|split; [done|naive_solver]].
  cbv zeta. rewrite ipv6_prefix_check by (eauto with iam || lia). unfold same_prefix. split.
  - intros Hp. split; [lia|]. by exists a, s.
  - by intros (_ & a' & s' & [= <-] & [= <-] & ->).
Qed.

(** ** The claims *)

(** C18: an IPv4 address belongs to the subnet written "addr/len" exactly when [len] is between 1
    and 32 and the two addresses agree on their first [len] bits; without a
    length the addresses must be equal. *)
Theorem ipv4_subnet_is_prefix ip addr ds :
  addr <> [] -> no_slash addr -> (length addr <= 15)%nat ->
  ds <> [] -> Forall (fun c => is_digit c = true) ds -> dec_value ds < 2 ^ 31 ->
  (is_ip_in_subnet ip (addr ++ "/"%char :: ds) = RET_OK <->
   1 <= dec_value ds <= 32 /\
   exists a s, inet_pton4 ip = Some a /\ inet_pton4 addr = Some s /\ same_prefix 4 (dec_value ds) a s) /\
  (is_ip_in_subnet ip addr = RET_OK <-> exists a, inet_pton4 ip = Some a /\ inet_pton4 addr = Some a).
Proof.
  intros Ha Hs Hl Hd HF Hv. split.
  - apply is_ip_in_subnet_scan. by apply scan_addr_mask.
  - rewrite (is_ip_in_subnet_scan ip addr addr 32) by (by apply scan_addr). split.
    + intros (_ & a & s & Ea & Es & Hp). exists a. split; [done|]. rewrite Es. f_equal. symmetry.
      apply (same_prefix_full 4); eauto with iam.
    + intros (a & Ea & Es). split; [lia|]. by exists a, a.
Qed.

(** C16: the same for IPv6, where the code compares whole bytes in a loop and then shifts
    the last one: membership in "addr/len" is agreement on the first [len] bits. *)
Theorem ipv6_subnet_is_prefix ip addr ds :
  addr <> [] -> no_slash addr -> (length addr <= 45)%nat ->
  ds <> [] -> Forall (fun c => is_digit c = true) ds -> dec_value ds < 2 ^ 31 ->
  (is_ipv6_in_subnet ip (addr ++ "/"%char :: ds) = RET_OK <->
   1 <= dec_value ds <= 128 /\
   exists a s, inet_pton6 ip = Some a /\ inet_pton6 addr = Some s /\ same_prefix 16 (dec_value ds) a s) /\
  (is_ipv6_in_subnet ip addr = RET_OK <-> exists a, inet_pton6 ip = Some a /\ inet_pton6 addr = Some a).
Proof.
  intros Ha Hs Hl Hd HF Hv. split.
  - apply is_ipv6_in_subnet_scan. by apply scan_addr_mask.
  - rewrite (is_ipv6_in_subnet_scan ip addr addr 128) by (by apply scan_addr). split.
    + intros (_ & a & s & Ea & Es & Hp). exists a. split; [done|]. rewrite Es. f_equal. symmetry.
      apply (same_prefix_full 16); eauto with iam.
    + intros (a & Ea & Es). split; [lia|]. by exists a, a.
Qed.

Lemma land_255 x : 0 <= x -> Z.land x 255 = x mod 256.
Proof. intros. change 255 with (Z.ones 8). by rewrite Z.land_ones. Qed.

Lemma all_zero_val a : Forall byte_ok a -> (forallb (fun b => b =? 0) a = true <-> be_val a = 0).
Proof.
  induction a as [|b a IH] using rev_ind; intros HF; [done|].
  apply Forall_app in HF as [Ha Hb]. rewrite Forall_singleton in Hb. unfold byte_ok in Hb.
  rewrite forallb_app, be_val_snoc. cbn [forallb]. rewrite andb_true_r, andb_true_iff, IH by done.
  pose proof (be_val_range a Ha). rewrite Z.eqb_eq. lia.
Qed.

Lemma unspecified_val a : addr_ok 16 a -> IN6_IS_ADDR_UNSPECIFIED a = true <-> be_val a = 0.
Proof. intros [_ Ha]. by apply all_zero_val. Qed.

Lemma loopback_val a : addr_ok 16 a -> IN6_IS_ADDR_LOOPBACK a = true <-> be_val a = 1.
Proof.
  intros [La Ha]. unfold IN6_IS_ADDR_LOOPBACK, byte_at.
  destruct a as [|b a _] using rev_ind; [discriminate|].
  rewrite length_app in La; cbn in La. rewrite take_app_length' by lia.
  rewrite lookup_app_r by lia. replace (15 - length a)%nat with O by lia. cbn [lookup list_lookup default].
  apply Forall_app in Ha as [Ha Hb]. rewrite Forall_singleton in Hb. unfold byte_ok in Hb.
  rewrite andb_true_iff, all_zero_val, be_val_snoc by done. pose proof (be_val_range a Ha).
  cbn. rewrite Z.eqb_eq. lia.
Qed.

Lemma linklocal_prefix a :
  addr_ok 16 a -> IN6_IS_ADDR_LINKLOCAL a = true <-> same_prefix 16 10 a (254 :: 128 :: replicate 14 0).
Proof.
  intros [La Ha]. destruct a as [|x [|y r]]; [discriminate..|].
  pose proof (same_prefix_bytes 1 2 [x] [254] y 128 r (replicate 14 0) 16) as Hp.
  cbn in La. change (8 * Z.of_nat 1 + 2) with 10 in Hp. cbn [app] in Hp.
  rewrite Hp; [|lia|done|done|rewrite length_replicate; lia|lia|done|].
  2: { repeat (constructor; [unfold byte_ok; lia|]). constructor. }
  apply Forall_cons_1 in Ha as [Hx Ha]. apply Forall_cons_1 in Ha as [Hy _]. unfold byte_ok in Hy.
  unfold IN6_IS_ADDR_LINKLOCAL, byte_at; cbn [lookup list_lookup default].
  rewrite andb_true_iff. pose proof (prefix_mask y 128 8 6 ltac:(lia) ltac:(lia) ltac:(lia)) as Hm.
  change (Z.land 128 (2 ^ 8 - 2 ^ 6)) with 128 in Hm. change (2 ^ 8 - 2 ^ 6) with 192 in Hm.
  rewrite !Z.shiftr_div_pow2 by lia. change (8 - 2) with 6. rewrite <- Hm.
  cbn. rewrite !Z.eqb_eq. naive_solver.
Qed.

Lemma multicast_prefix a :
  addr_ok 16 a -> IN6_IS_ADDR_MULTICAST a = true <-> same_prefix 16 8 a (255 :: replicate 15 0).
Proof.
  intros [La Ha]. destruct a as [|x [|y r]]; [discriminate..|].
  pose proof (same_prefix_bytes 1 0 [x] [255] y 0 r (replicate 14 0) 16) as Hp.
  cbn in La. change (8 * Z.of_nat 1 + 0) with 8 in Hp. cbn [app] in Hp.
  change (255 :: replicate 15 0) with (255 :: 0 :: replicate 14 0).
  rewrite Hp; [|lia|done|done|rewrite length_replicate; lia|lia|done|].
  2: { repeat (constructor; [unfold byte_ok; lia|]). constructor. }
  apply Forall_cons_1 in Ha as [Hx Ha]. apply Forall_cons_1 in Ha as [Hy _]. unfold byte_ok in Hy.
  unfold IN6_IS_ADDR_MULTICAST, byte_at; cbn. rewrite Z.eqb_eq.
  rewrite !Z.shiftr_div_pow2 by lia. rewrite !Z.div_small by lia. naive_solver.
Qed.

(** An IPv4 address is valid exactly when it parses and its first octet is between 1
    and 223 and not 127; an IPv6 address exactly when it parses and is none of: unspecified, loopback,
    in fe80::/10, in ff00::/8. *)
Theorem address_checks_spec s :
  (vos_ipv4_addr_valid_check (Some s) = 0 <->
   exists b0 b1 b2 b3, inet_pton4 s = Some [b0; b1; b2; b3] /\ 1 <= b0 <= 223 /\ b0 <> 127) /\
  (vos_ipv6_addr_valid_check (Some s) = 0 <->
   exists a, inet_pton6 s = Some a /\ be_val a <> 0 /\ be_val a <> 1 /\
     ~ same_prefix 16 10 a (254 :: 128 :: replicate 14 0) /\ ~ same_prefix 16 8 a (255 :: replicate 15 0)).
Proof.
  split.
  - unfold vos_ipv4_addr_valid_check. destruct (inet_pton4 s) as [a|] eqn:Ea; [|split; [done|naive_solver]].
    apply inet_pton4_ok in Ea as [La Ha]. do 4 (destruct a as [|? a]; [discriminate|]).
    destruct a; [|discriminate]. do 4 (apply Forall_cons_1 in Ha as [? Ha]). unfold byte_ok in *.
    unfold s_addr; cbn [le_val]. rewrite land_255 by lia. cbv zeta.
    assert (Hm : (z + 256 * (z0 + 256 * (z1 + 256 * (z2 + 256 * 0)))) mod 256 = z) by dlia.
    rewrite Hm. destruct (_ || _) eqn:E.
    + split; [done|]. intros (? & ? & ? & ? & [= -> -> -> ->] & ?). apply orb_true_iff in E as [E|E]; lia.
    + split; [|done]. intros _. bool_hyps. eexists _, _, _, _. split; [done|]. lia.
  - unfold vos_ipv6_addr_valid_check. destruct (inet_pton6 s) as [a|] eqn:Ea; [|split; [done|naive_solver]].
    apply inet_pton6_ok in Ea.
    pose proof (unspecified_val a Ea). pose proof (loopback_val a Ea).
    pose proof (linklocal_prefix a Ea). pose proof (multicast_prefix a Ea).
    destruct (IN6_IS_ADDR_UNSPECIFIED a), (IN6_IS_ADDR_LOOPBACK a), (IN6_IS_ADDR_LINKLOCAL a),
      (IN6_IS_ADDR_MULTICAST a);
      (split; [try done; intros _; exists a; intuition congruence|intros (a' & [= <-] & Hn); intuition congruence]).
Qed.

(** ** The theorems at concrete inputs *)

Lemma ipv4_subnet_is_prefix_witness :
  is_ip_in_subnet (lit "192.168.2.77") (lit "192.168.2.0/24") = RET_OK <->
  1 <= 24 <= 32 /\
  exists a s, inet_pton4 (lit "192.168.2.77") = Some a /\ inet_pton4 (lit "192.168.2.0") = Some s /\
    same_prefix 4 24 a s.
Proof.
  apply (ipv4_subnet_is_prefix (lit "192.168.2.77") (lit "192.168.2.0") (lit "24"));
    [discriminate|unfold no_slash; apply strchr_None; reflexivity
    |vm_compute; lia|discriminate|repeat constructor|vm_compute; reflexivity].
Defined.

Lemma ipv6_subnet_is_prefix_witness :
  is_ipv6_in_subnet (lit "2001:db8::77") (lit "2001:db9::/31") = RET_OK <->
  1 <= 31 <= 128 /\
  exists a s, inet_pton6 (lit "2001:db8::77") = Some a /\ inet_pton6 (lit "2001:db9::") = Some s /\
    same_prefix 16 31 a s.
Proof.
  apply (ipv6_subnet_is_prefix (lit "2001:db8::77") (lit "2001:db9::") (lit "31"));
    [discriminate|unfold no_slash; apply strchr_None; reflexivity|vm_compute; lia|discriminate
    |repeat constructor|vm_compute; reflexivity].
Defined.
