(* ===== verification/Common.v ===== *)
(** * common/common.c, common.h: helpers shared by the PAM modules and the login rules

    Besides the small parsers, this file holds the cached D-Bus connection through which
    the lockout configuration is read ([dbus_get_auth_lockout_conf]). The D-Bus
    daemon, the password database and the local time zone are arguments. *)
From S2P Require Export CString.
From S2P Require Network.

(** ** Constants of common.h *)
Definition USER_LOGIN_LIMITED : Z := 144.
Definition FTP_NAME : list ascii := lit "ftp".
Definition SSH_NAME : list ascii := lit "ssh".
Definition TELNET_NAME : list ascii := lit "/dev/pts".
Definition UART2_NAME : list ascii := lit "/dev/ttyS0".
Definition INVAILD_UID : Z := 1000.
Definition IMANA_UID_BASE : Z := 500.
Definition IMANA_UID_MIN : Z := 1.
Definition IMANA_UID_MAX : Z := 17.
Definition INTER_CHASSIS_UID : Z := 23.
Definition OEM_UID_MIN : Z := 101.
Definition OEM_UID_MAX : Z := 115.
Definition USER_NAME_MAX_LEN : nat := 16.

(** The user record; the fields of the structure no function of the C code reads or writes
    are left out. [user_name] is the array of 17 characters. *)
Record IPMI_USER_S := {
  user_id : Z;
  user_name : list ascii;
  user_enabled : Z;
  privilege1 : Z;                 (* privilege[1] *)
  user_lock_status : Z;
  user_login_rule : Z;
  user_login_interface : Z;
  is_exclude_user : Z;
  is_password_expired : Z;
  role_id : Z
}.

(** [IPMI_USER_S ipmi_user = {0};] *)
Definition zero_user : IPMI_USER_S := {|
  user_id := 0; user_name := replicate 17 NUL; user_enabled := 0; privilege1 := 0;
  user_lock_status := 0; user_login_rule := 0; user_login_interface := 0;
  is_exclude_user := 0; is_password_expired := 0; role_id := 0
|}.

(** ** A text file read whole into a zeroed buffer one byte larger *)
Record text_file := {
  tf_open : Z;                 (* open(): a descriptor or a negative value *)
  tf_stat : Z;                 (* fstat(): 0 or an error *)
  tf_bytes : list ascii;       (* st_size bytes *)
  tf_read : Z                  (* read(): bytes delivered or a negative value *)
}.

(** The string in the buffer after [read]. *)
Definition tf_text (f : text_file) : list ascii :=
  default [] (c_str (take (Z.to_nat (tf_read f)) (tf_bytes f) ++ [NUL])).

(** A file that opens and reads without error. *)
Definition good_file (s : list ascii) : text_file :=
  {| tf_open := 3; tf_stat := 0; tf_bytes := s; tf_read := Z.of_nat (length s) |}.

Lemma tf_text_good s : no_nul s -> tf_text (good_file s) = s.
Proof.
  intros Hs. unfold tf_text; cbn. rewrite Nat2Z.id, take_ge by lia. by rewrite c_str_app.
Qed.

(** ** Small parsers *)

(** [None] is [RET_ERR]. The test of the converted 8-bit value against [LONG_MAX] and
    [LONG_MIN] never succeeds, so an out-of-range number wraps. *)
Definition parse_line_token_to_uint8 (token : list ascii) : option Z :=
  let r := strtol token in
  let tmp_val := u8 (st_val r) in
  if (st_range r && ((tmp_val =? LONG_MAX) || (tmp_val =? LONG_MIN))) || negb (st_conv r)
  then None else Some tmp_val.

Record tm := { tm_year : Z; tm_mon : Z; tm_mday : Z; tm_hour : Z; tm_min : Z }.

(** [localtime] is localtime_r in the zone of the process; [None] for a null [p_tm]. *)
Definition get_localtime_r (localtime : Z -> option tm) (time0 : Z) (p_time_stamp : option Z)
    (p_tm : option tm) : Z * option tm :=
  match p_tm with
  | None => (RET_ERR, None)
  | Some old =>
      match localtime (default time0 p_time_stamp) with
      | None => (RET_ERR, Some old)
      | Some t => (RET_OK, Some t)
      end
  end.

(** [getpwnam_r] gives its return code and the uid and gid of the entry found; [out] is
    what [*uid] and [*gid] hold before the call. *)
Definition get_uid_gid_by_name (getpwnam_r : list ascii -> Z * option (Z * Z))
    (user_name : option (list ascii)) (out : option (Z * Z)) : Z * option (Z * Z) :=
  match user_name, out with
  | Some name, Some _ =>
      match getpwnam_r name with
      | (ret, None) => (if ret =? 0 then RET_ERR else ret, out)
      | (_, Some ids) => (RET_OK, Some ids)
      end
  | _, _ => (RET_ERR, out)
  end.

Definition check_uid_is_local_user (uid : Z) : Z :=
  if (IMANA_UID_BASE + IMANA_UID_MIN <? uid) && (uid <=? IMANA_UID_BASE + IMANA_UID_MAX) then TRUE
  else if uid =? IMANA_UID_BASE + INTER_CHASSIS_UID then TRUE
  else if (IMANA_UID_BASE + OEM_UID_MIN <=? uid) && (uid <=? IMANA_UID_BASE + OEM_UID_MAX) then TRUE
  else FALSE.

(** ** Subnets *)

(** The two functions have here, word for word, the text of network.c. The programs link one copy or the
    other: libuip and the PAM module this one. *)
Definition is_ip_in_subnet : list ascii -> list ascii -> Z := Network.is_ip_in_subnet.
Definition is_ipv6_in_subnet : list ascii -> list ascii -> Z := Network.is_ipv6_in_subnet.

(** ** The lockout configuration over D-Bus *)

(** What the process keeps between calls: the connection and the two variables of its
    environment that name the bus. *)
Record bus_state := { g_dbus_conn : bool; bus_address : option (list ascii); bus_pid : option (list ascii) }.

(** The answers of the outside: the file with the bus variables and the match of the
    pattern on it, the connection (none, or with the error flag set), the call. *)
Record bus_env := {
  env_file : option (list ascii);
  env_regex : list ascii -> option (list ascii * list ascii);
  bus_get : bool * bool;                        (* a connection came back; error is set *)
  call_built : bool;
  call_reply : option (list (list ascii * Z))   (* the properties in the reply *)
}.

Definition init_dbus_env (e : bus_env) (st : bus_state) : Z * bus_state :=
  match bus_address st, bus_pid st with
  | Some _, Some _ => (RET_OK, st)
  | _, _ =>
      match env_file e with
      | None => (RET_ERR, st)
      | Some env_content =>
          match env_regex e env_content with
          | None => (RET_ERR, st)
          | Some (address, pid) =>
              (RET_OK, {| g_dbus_conn := g_dbus_conn st; bus_address := Some address; bus_pid := Some pid |})
          end
      end
  end.

Definition init_dbus_connection (e : bus_env) (st : bus_state) : Z * bus_state :=
  if g_dbus_conn st then (RET_OK, st)
  else
    let '(ret, st1) := init_dbus_env e st in
    if negb (ret =? RET_OK) then (ret, st1)
    else
      let '(conn, error_set) := bus_get e in
      let st2 := {| g_dbus_conn := conn; bus_address := bus_address st1; bus_pid := bus_pid st1 |} in
      if negb conn || error_set then (RET_ERR, st2) else (RET_OK, st2).

Record lockout_conf := { duration : Z; threshold : Z; time_interval : Z }.

Definition PROPERTY_LOCKOUT_DURATION : list ascii := lit "AccountLockoutDuration".
Definition PROPERTY_LOCKOUT_THRESHOLD : list ascii := lit "AccountLockoutThreshold".
Definition PROPERTY_LOCKOUT_TIME_INTERVAL : list ascii := lit "AccountLockoutCounterResetAfter".

(** The loop over the entries of the reply. *)
Fixpoint read_lockout (entries : list (list ascii * Z)) (c : lockout_conf) : lockout_conf :=
  match entries with
  | [] => c
  | (prop_name, v) :: rest =>
      let c' :=
        if str_eqb prop_name PROPERTY_LOCKOUT_DURATION
        then {| duration := s32 v; threshold := threshold c; time_interval := time_interval c |}
        else if str_eqb prop_name PROPERTY_LOCKOUT_THRESHOLD
        then {| duration := duration c; threshold := s32 v; time_interval := time_interval c |}
        else if str_eqb prop_name PROPERTY_LOCKOUT_TIME_INTERVAL
        then {| duration := duration c; threshold := threshold c; time_interval := s32 v |}
        else c in
      read_lockout rest c'
  end.

Definition dbus_get_auth_lockout_conf (e : bus_env) (st : bus_state) (c : lockout_conf)
    : Z * lockout_conf * bus_state :=
  let '(ret, st1) := init_dbus_connection e st in
  if negb (ret =? RET_OK) then (ret, c, st1)
  else if negb (call_built e) then (RET_ERR, c, st1)
  else
    match call_reply e with
    | None => (RET_ERR, c, st1)
    | Some entries => (RET_OK, read_lockout entries c, st1)
    end.

Example uint8_ex :
  map parse_line_token_to_uint8 (map lit ["7"; " 12x"; "256"; "-1"; "99999999999999999999"; "x"; ""]%string)
  = [Some 7; Some 12; Some 0; Some 255; Some 255; None; None].
Proof. reflexivity. Qed.

Lemma parse_uint8_digits ds :
  ds <> [] -> Forall (fun c => is_digit c = true) ds -> dec_value ds < 256 ->
  parse_line_token_to_uint8 ds = Some (dec_value ds).
Proof.
  intros Hd HF Hv. pose proof (dec_value_range ds HF).
  pose proof (strtol_digits ds [] Hd HF I ltac:(unfold LONG_MAX; lia)) as Hs.
  rewrite app_nil_r in Hs. unfold parse_line_token_to_uint8. rewrite Hs. cbn.
  by rewrite u8_small by lia.
Qed.

Lemma parse_uint8_range s v : parse_line_token_to_uint8 s = Some v -> 0 <= v < 256.
Proof.
  unfold parse_line_token_to_uint8. case_match; [done|]. intros [= <-]. apply u8_range.
Qed.

Lemma check_uid_true uid :
  check_uid_is_local_user uid = TRUE <-> 502 <= uid <= 517 \/ uid = 523 \/ 601 <= uid <= 615.
Proof.
  unfold check_uid_is_local_user, TRUE, FALSE, IMANA_UID_BASE, IMANA_UID_MIN, IMANA_UID_MAX,
    INTER_CHASSIS_UID, OEM_UID_MIN, OEM_UID_MAX.
  repeat case_match; rewrite ?andb_true_iff, ?andb_false_iff in *; split; intros; try lia; try done.
Qed.

(** ** The lines of the permission file

    "id:name:x:1:5:0:enabled:1:1:0:0:privilege:x:lock:rule:interface:exclude:expired:role". The two
    readers (pam_bmc_login.c and uip/uip_user.c) assign the same fields by position. *)
Definition INDEX_LINE_USER : nat := 2.

Definition set_user_name (nm : list ascii) (u : IPMI_USER_S) : IPMI_USER_S := {|
  user_id := user_id u; user_name := nm; user_enabled := user_enabled u; privilege1 := privilege1 u;
  user_lock_status := user_lock_status u; user_login_rule := user_login_rule u;
  user_login_interface := user_login_interface u; is_exclude_user := is_exclude_user u;
  is_password_expired := is_password_expired u; role_id := role_id u
|}.

(** The numeric fields by position; the other positions are not used. *)
Definition set_numeric (pos : nat) (v : Z) (u : IPMI_USER_S) : option IPMI_USER_S :=
  let mk id en pr lk ru itf ex pe ro := Some {|
    user_id := id; user_name := user_name u; user_enabled := en; privilege1 := pr; user_lock_status := lk;
    user_login_rule := ru; user_login_interface := itf; is_exclude_user := ex; is_password_expired := pe;
    role_id := ro |} in
  let id := user_id u in let en := user_enabled u in let pr := privilege1 u in
  let lk := user_lock_status u in let ru := user_login_rule u in let itf := user_login_interface u in
  let ex := is_exclude_user u in let pe := is_password_expired u in let ro := role_id u in
  match pos with
  | 1%nat => mk v en pr lk ru itf ex pe ro
  | 7%nat => mk id v pr lk ru itf ex pe ro
  | 12%nat => mk id en v lk ru itf ex pe ro
  | 14%nat => mk id en pr v ru itf ex pe ro
  | 15%nat => mk id en pr lk v itf ex pe ro
  | 16%nat => mk id en pr lk ru v ex pe ro
  | 17%nat => mk id en pr lk ru itf v pe ro
  | 18%nat => mk id en pr lk ru itf ex v ro
  | 19%nat => mk id en pr lk ru itf ex pe v
  | _ => None
  end.

(** A field free of separators. *)
Definition clean_field (t : list ascii) : Prop := ":"%char ∉ t /\ NL ∉ t /\ no_nul t.

(** The 19 fields [ts] describe the user [u]. *)
Definition describes (ts : list (list ascii)) (u : IPMI_USER_S) : Prop :=
  length ts = 19%nat /\ Forall clean_field ts /\
  Forall (fun p => parse_line_token_to_uint8 (nth (fst p) ts []) = Some (snd p : Z))
    [(0%nat, user_id u); (6%nat, user_enabled u); (11%nat, privilege1 u); (13%nat, user_lock_status u);
     (14%nat, user_login_rule u); (15%nat, user_login_interface u); (16%nat, is_exclude_user u);
     (17%nat, is_password_expired u); (18%nat, role_id u)] /\
  (length (nth 1 ts []) <= 16)%nat /\ user_name u = nth 1 ts [] ++ replicate (17 - length (nth 1 ts [])) NUL.

Definition user_line (ts : list (list ascii)) : list ascii := join_fields ":"%char ts.

Lemma user_line_tokens ts : ts <> [] -> Forall clean_field ts -> tokens ":"%char (user_line ts) = ts.
Proof.
  intros Hne HF. apply tokens_join; [done|]. eapply Forall_impl; [exact HF|]. by intros t [? _].
Qed.

Lemma user_line_clean ts : Forall clean_field ts -> NL ∉ user_line ts /\ no_nul (user_line ts).
Proof.
  intros HF. split; intros Hin; apply elem_of_join_fields in Hin as [Hin|Hin];
    try (by apply char_eqb_neq in Hin); apply Exists_exists in Hin as (t & Ht & Hin);
    rewrite Forall_forall in HF; by destruct (HF t Ht) as (_ & ? & ?).
Qed.

Lemma described_name ts u : describes ts u -> c_str (user_name u) = Some (nth 1 ts []).
Proof.
  intros (Hl & HF & _ & Hn & ->). replace (17 - length (nth 1 ts []))%nat with (S (16 - length (nth 1 ts []))) by lia.
  cbn [replicate]. apply c_str_app.
  rewrite Forall_forall in HF. apply HF. apply list_elem_of_In, nth_In. lia.
Qed.

Definition OTHER_NAME : list ascii := lit "OTHER".

(** The loop over the lines of the file: the first line that satisfies [P], before any empty line. *)
Fixpoint find_line (P : list ascii -> bool) (ls : list (list ascii)) : option (list ascii) :=
  match ls with
  | [] => None
  | l :: rest => if (length l =? 0)%nat then None else if P l then Some l else find_line P rest
  end.

Lemma find_line_app P ls : find_line P (ls ++ [[]]) = find_line P ls.
Proof. induction ls as [|l ls IH]; cbn; [done|]. by repeat case_match. Qed.

Lemma find_line_Some P ls l : find_line P ls = Some l -> l ∈ ls /\ P l = true /\ l <> [].
Proof.
  induction ls as [|a ls IH]; cbn; [done|]. destruct (Nat.eqb_spec (length a) 0); [done|].
  destruct (P a) eqn:E.
  - intros [= <-]. split; [left|]. split; [done|]. by intros ->.
  - intros Hf. destruct (IH Hf) as (? & ? & ?). split; [by right|done].
Qed.
