(* ===== verification/LoginRule.v ===== *)
(** * common/check_login_rule.c: the login rules

    Up to three rules, each with a time window, an address range and a MAC prefix,
    are parsed from a text file into fixed arrays ([parse_rules]) and checked against
    the login ([check_rules]): it is admitted when one of the enabled rules of the user
    admits it, or when none of his rules is enabled. [login_env] holds what the
    functions ask of the system: the file, the clock and the network interfaces. *)
From S2P Require Export Common Network.

(** ** Constants and data *)
Definition MAX_RULE_COUNT : nat := 3.
Definition MAX_RULE_VALUE : Z := 7.
Definition MAX_RULE_LEN : nat := 64.
Definition MAX_RULE_LINE_LEN : nat := MAX_RULE_LEN * 4 + 3.
Definition TIME_YEAR_BASE : Z := 1900.
Definition YMDHM_TIME_RULE_LEN : Z := 33.
Definition YMD_TIME_RULE_LEN : Z := 21.
Definition HM_TIME_RULE_LEN : Z := 11.

Definition TYPE_YMDHM : Z := 0.
Definition TYPE_YMD : Z := 1.
Definition TYPE_HM : Z := 2.

(** The rules are arrays of [MAX_RULE_LEN + 1] characters. *)
Record LOGIN_RULE_INFO := {
  rule_id : Z;
  rule_enabled : Z;
  time_rule : list ascii;
  ip_rule : list ascii;
  mac_rule : list ascii;
  ipv6_rule : list ascii
}.

Record TIME_INFO := { t_year : Z (* guint16 *); t_mon : Z; t_mday : Z; t_hour : Z; t_min : Z (* guchar *) }.
Record TIME_RULE_INFO := { start_time : TIME_INFO; end_time : TIME_INFO }.

Definition zero_rule : LOGIN_RULE_INFO := {|
  rule_id := 0; rule_enabled := 0;
  time_rule := replicate 65 NUL; ip_rule := replicate 65 NUL;
  mac_rule := replicate 65 NUL; ipv6_rule := replicate 65 NUL
|}.

(** [LOGIN_RULE_INFO login_rules[MAX_RULE_COUNT] = {0};] *)
Definition zero_rules : list LOGIN_RULE_INFO := replicate MAX_RULE_COUNT zero_rule.

Record login_env := {
  rules_file : text_file;
  clock : option Z;                                     (* gettimeofday *)
  local_time : Z -> option tm;                          (* localtime_r *)
  socket_ok : bool;
  if_names : option (list (list ascii));                (* ioctl(SIOCGIFCONF) *)
  arp_lookup : list Z -> list ascii -> option (list Z); (* ioctl(SIOCGARP): the bytes of sa_data *)
  char_signed : bool                                    (* whether char is signed on the target *)
}.

(** ** Parsing the rules *)

(** The cases RULE_LINE_ID .. RULE_LINE_IPV6 of the switch on the field's position. *)
Definition set_rule_field (pos : nat) (token : list ascii) (r : LOGIN_RULE_INFO) : LOGIN_RULE_INFO :=
  let copy dest := snd (memcpy_s dest token (length token)) in
  match pos with
  | 1%nat =>
      {| rule_id := default (rule_id r) (parse_line_token_to_uint8 token); rule_enabled := rule_enabled r;
         time_rule := time_rule r; ip_rule := ip_rule r; mac_rule := mac_rule r; ipv6_rule := ipv6_rule r |}
  | 2%nat =>
      {| rule_id := rule_id r; rule_enabled := default (rule_enabled r) (parse_line_token_to_uint8 token);
         time_rule := time_rule r; ip_rule := ip_rule r; mac_rule := mac_rule r; ipv6_rule := ipv6_rule r |}
  | 3%nat =>
      {| rule_id := rule_id r; rule_enabled := rule_enabled r;
         time_rule := copy (time_rule r); ip_rule := ip_rule r; mac_rule := mac_rule r; ipv6_rule := ipv6_rule r |}
  | 4%nat =>
      {| rule_id := rule_id r; rule_enabled := rule_enabled r;
         time_rule := time_rule r; ip_rule := copy (ip_rule r); mac_rule := mac_rule r; ipv6_rule := ipv6_rule r |}
  | 5%nat =>
      {| rule_id := rule_id r; rule_enabled := rule_enabled r;
         time_rule := time_rule r; ip_rule := ip_rule r; mac_rule := copy (mac_rule r); ipv6_rule := ipv6_rule r |}
  | 6%nat =>
      {| rule_id := rule_id r; rule_enabled := rule_enabled r;
         time_rule := time_rule r; ip_rule := ip_rule r; mac_rule := mac_rule r; ipv6_rule := copy (ipv6_rule r) |}
  | _ => r
  end.

(** The loop of [parse_per_rule] over the fields of the line. *)
Fixpoint rule_fields_loop (pos : nat) (ts : list (list ascii)) (r : LOGIN_RULE_INFO) : LOGIN_RULE_INFO :=
  match ts with
  | [] => r
  | token :: rest => rule_fields_loop (S pos) rest (set_rule_field (S pos) token r)
  end.

Definition parse_per_rule (line : list ascii) (login_rule : LOGIN_RULE_INFO) : Z * LOGIN_RULE_INFO :=
  (RET_OK, rule_fields_loop 0 (tokens ","%char line) login_rule).

(** [strsep(&tmp_line, ",")] on the zeroed array that received the line: a line that fills
    the array and has no comma is read past its end. *)
Definition first_field (line : list ascii) : option (list ascii) :=
  match strchr ","%char line with
  | Some i => Some (take i line)
  | None => if (length line <? MAX_RULE_LINE_LEN)%nat then Some line else UB
  end.

(** The loop over the lines, up to the first empty one: the final [ret], and the rules. In a buffer that is [full] the line
    behind [ls] has no terminator: [strsep] leaves the buffer when it looks for its end. *)
Fixpoint rule_lines_loop (full : bool) (ls : list (list ascii)) (login_rules : list LOGIN_RULE_INFO)
    : option (Z * list LOGIN_RULE_INFO) :=
  match ls with
  | [] => if full then UB else Some (RET_OK, login_rules)
  | line :: rest =>
      if (length line =? 0)%nat then Some (RET_OK, login_rules)
      else if (MAX_RULE_LINE_LEN <? length line)%nat then Some (RET_ERR, login_rules)
      else
        match first_field line with
        | None => UB
        | Some token =>
            let id := u8 (st_val (strtol token)) in
            match (if id =? 0 then None else login_rules !! Z.to_nat (id - 1)) with
            | None => UB                 (* login_rules[id - 1] is out of the array *)
            | Some r =>
                let '(_, r') := parse_per_rule line r in
                rule_lines_loop full rest (<[Z.to_nat (id - 1) := r']> login_rules)
            end
        end
  end.

(** [strsep] takes the lines of [tmp_buf] off one after the other; a text that fills it has no terminator. *)
Definition parse_rules (filebuf : list ascii) (login_rules : list LOGIN_RULE_INFO)
    : option (Z * list LOGIN_RULE_INFO) :=
  if (MAX_RULE_LINE_LEN * 3 <? length filebuf)%nat then Some (RET_ERR, login_rules)
  else if (length filebuf =? MAX_RULE_LINE_LEN * 3)%nat
  then rule_lines_loop true (removelast (tokens NL filebuf)) login_rules
  else rule_lines_loop false (tokens NL filebuf) login_rules.

(** The result of [parse_rules] is ignored. *)
Definition get_login_rules (f : text_file) (login_rules : list LOGIN_RULE_INFO)
    : option (Z * list LOGIN_RULE_INFO) :=
  if tf_open f <? 0 then Some (RET_ERR, login_rules)
  else if negb (tf_stat f =? 0) then Some (RET_ERR, login_rules)
  else if (length (tf_bytes f) =? 0)%nat then Some (RET_ERR, login_rules)
  else if tf_read f <? 0 then Some (RET_ERR, login_rules)
  else
    match parse_rules (tf_text f) login_rules with
    | None => UB
    | Some (_, rules) => Some (RET_OK, rules)
    end.

(** ** Time rules *)
Definition time_format : list directive :=
  [Dint; Dlit "-"; Dint; Dlit "-"; Dint; Dspace; Dint; Dlit ":"; Dint; Dlit "/";
   Dint; Dlit "-"; Dint; Dlit "-"; Dint; Dspace; Dint; Dlit ":"; Dint].

Definition mk_time (y mo d h mi : Z) : TIME_INFO := {|
  t_year := Z.land (u32 y) 65535; t_mon := Z.land (u32 mo) 255; t_mday := Z.land (u32 d) 255;
  t_hour := Z.land (u32 h) 255; t_min := Z.land (u32 mi) 255
|}.

Definition timestr_to_numeric (time_string : list ascii) : option TIME_RULE_INFO :=
  match sscanf time_format time_string with
  | [VInt y1; VInt mo1; VInt d1; VInt h1; VInt mi1; VInt y2; VInt mo2; VInt d2; VInt h2; VInt mi2] =>
      Some {| start_time := mk_time y1 mo1 d1 h1 mi1; end_time := mk_time y2 mo2 d2 h2 mi2 |}
  | _ => None
  end.

Definition parse_time_ymdhm (mmon mday hour min : Z) : Z :=
  u32 (u32 (u32 (u32 (Z.shiftl (u8 mmon) 24) + u32 (Z.shiftl (u8 mday) 16)) + Z.shiftl (u8 hour) 8) + u8 min).

Definition parse_time_ymd (year mmon mday : Z) : Z :=
  u32 (u32 (Z.shiftl (u8 year) 16 + Z.shiftl (u8 mmon) 8) + u8 mday).

Definition parse_time_hm (hour min : Z) : Z := u32 (Z.shiftl (u8 hour) 8 + u8 min).

Definition check_ymdhm (now : tm) (time_info : TIME_RULE_INFO) : Z :=
  let s := start_time time_info in
  let e := end_time time_info in
  let now_tmp := parse_time_ymdhm (1 + tm_mon now) (tm_mday now) (tm_hour now) (tm_min now) in
  let start_tmp := parse_time_ymdhm (t_mon s) (t_mday s) (t_hour s) (t_min s) in
  let end_tmp := parse_time_ymdhm (t_mon e) (t_mday e) (t_hour e) (t_min e) in
  if (TIME_YEAR_BASE + tm_year now <? t_year s) || (t_year e <? TIME_YEAR_BASE + tm_year now) then RET_ERR
  else if (TIME_YEAR_BASE + tm_year now =? t_year s) && (now_tmp <? start_tmp) then RET_ERR
  else if (TIME_YEAR_BASE + tm_year now =? t_year e) && (end_tmp <? now_tmp) then RET_ERR
  else RET_OK.

Definition check_ymd (now : tm) (time_info : TIME_RULE_INFO) : Z :=
  let s := start_time time_info in
  let e := end_time time_info in
  let now_tmp := parse_time_ymd (TIME_YEAR_BASE + tm_year now) (1 + tm_mon now) (tm_mday now) in
  let start_tmp := parse_time_ymd (t_year s) (t_mon s) (t_mday s) in
  let end_tmp := parse_time_ymd (t_year e) (t_mon e) (t_mday e) in
  if (now_tmp <? start_tmp) || (end_tmp <? now_tmp) then RET_ERR else RET_OK.

Definition check_hm (now : tm) (time_info : TIME_RULE_INFO) : Z :=
  let now_tmp := parse_time_hm (tm_hour now) (tm_min now) in
  let start_tmp := parse_time_hm (t_hour (start_time time_info)) (t_min (start_time time_info)) in
  let end_tmp := parse_time_hm (t_hour (end_time time_info)) (t_min (end_time time_info)) in
  if (now_tmp <? start_tmp) || (end_tmp <? now_tmp) then RET_ERR else RET_OK.

Definition is_time_limited (now : tm) (time_info : TIME_RULE_INFO) (time_type_flag : Z) : Z :=
  if time_type_flag =? TYPE_YMDHM then check_ymdhm now time_info
  else if time_type_flag =? TYPE_YMD then check_ymd now time_info
  else if time_type_flag =? TYPE_HM then check_hm now time_info
  else RET_ERR.

(** The text the rule is completed to ("%s", " 255:255%s 255:255", "65535-255-255 %s")
    and its type; 255 for a rule of another length, whose [timeruleinfo] stays zero. *)
Definition complete_rule (rule : list ascii) : option (list ascii) * Z :=
  let rule_len := u8 (Z.of_nat (length rule)) in
  if rule_len =? YMDHM_TIME_RULE_LEN then (Some rule, TYPE_YMDHM)
  else if rule_len =? YMD_TIME_RULE_LEN
  then (Some (take 10 rule ++ lit " 255:255" ++ drop 10 rule ++ lit " 255:255"), TYPE_YMD)
  else if rule_len =? HM_TIME_RULE_LEN
  then (Some (take 20 (lit "65535-255-255 " ++ rule) ++ lit "65535-255-255 " ++ drop 6 rule), TYPE_HM)
  else (None, 255).

(** [time_rule] is the array; a [local_time_tm] that localtime_r did not fill is
    uninitialised. *)
Definition check_time_rule (env : login_env) (time_rule : list ascii) : option Z :=
  match c_str time_rule with
  | None => UB
  | Some rule =>
      if (length rule =? 0)%nat then Some RET_OK
      else
        match clock env with
        | None => Some RET_ERR
        | Some tv_sec =>
            match complete_rule rule with
            | (None, _) => Some RET_ERR
            | (Some real_time_info, time_type_flag) =>
                match timestr_to_numeric real_time_info with
                | None => Some RET_ERR
                | Some timeruleinfo =>
                    match local_time env tv_sec with
                    | None => UB
                    | Some local_time_tm => Some (is_time_limited local_time_tm timeruleinfo time_type_flag)
                    end
                end
            end
        end
  end.

(** ** IP rules *)
Definition verify_ipv4_address (str_ipv4 : option (list ascii)) : Z :=
  match str_ipv4 with
  | None => RET_ERR
  | Some s =>
      match inet_pton4 s with
      | None => RET_ERR
      | Some ipaddr =>
          let sect1 := Z.land (s_addr ipaddr) 255 in
          if (sect1 <? 1) || (223 <? sect1) || (sect1 =? 127) then RET_ERR else RET_OK
      end
  end.

Definition verify_ipv6_address (str_ipv6 : option (list ascii)) : Z :=
  match str_ipv6 with
  | None => RET_ERR
  | Some s =>
      match inet_pton6 s with
      | None => RET_ERR
      | Some ipaddr =>
          if IN6_IS_ADDR_UNSPECIFIED ipaddr then RET_ERR
          else if IN6_IS_ADDR_LOOPBACK ipaddr then RET_ERR
          else if IN6_IS_ADDR_LINKLOCAL ipaddr then RET_ERR
          else if IN6_IS_ADDR_MULTICAST ipaddr then RET_ERR
          else RET_OK
      end
  end.

Definition verify_ip_with_rule (ip_rule ip_info : list ascii) : Z :=
  match scan_subnet 45 ip_rule 0 with
  | None => RET_ERR
  | Some (subnet_ip, _) =>
      if verify_ipv4_address (Some subnet_ip) =? RET_OK then Common.is_ip_in_subnet ip_info ip_rule
      else if verify_ipv6_address (Some subnet_ip) =? RET_OK then Common.is_ipv6_in_subnet ip_info ip_rule
      else RET_ERR
  end.

(** [ip_rule] is the array; a null [ip_info] makes [strcpy_s] fail. *)
Definition check_ip_rule (ip_rule : list ascii) (ip_info : option (list ascii)) : option Z :=
  match c_str ip_rule with
  | None => UB
  | Some rule =>
      if (length rule =? 0)%nat then Some RET_OK
      else
        match ip_info with
        | None => Some RET_ERR
        | Some ip =>
            let '(ret, tmp_check_ip) := strcpy_s (MAX_RULE_LEN + 1) ip in
            if negb (ret =? RET_OK) then Some RET_ERR
            else Some (if verify_ip_with_rule rule tmp_check_ip =? RET_OK then RET_OK else RET_ERR)
        end
  end.

(** ** MAC rules *)

(** The hardware address ARP knows for the address on one interface. The
    addresses that reach [inet_aton] here have passed [inet_pton], and on those the two agree. *)
Definition get_mac_by_socket (env : login_env) (active_port_name ip_info : list ascii) : Z * list Z :=
  match inet_pton4 ip_info with
  | None => (RET_ERR, [])
  | Some sin_addr =>
      let arp_dev := snd (strncpy_s IFNAMSIZ active_port_name (IFNAMSIZ - 1)) in
      match arp_lookup env sin_addr arp_dev with
      | None => (RET_ERR, [])
      | Some sa_data => (EOK, sa_data)
      end
  end.

(** ["%02x"] of a plain char: where it is signed, a byte above 127 is a negative int of eight digits. *)
Definition char_hex (signed : bool) (b : Z) : list ascii :=
  if signed && (127 <? b) then lit "ffffff" ++ hex2 b else hex2 b.

Definition format_mac (signed : bool) (sa_data : list Z) : list ascii :=
  take MACADDRESS_LEN (join_colon (map (char_hex signed) (take 6 sa_data)) ++ [NL]).

(** The loop over the interfaces; [ret] is the variable it leaves behind. *)
Fixpoint mac_loop (env : login_env) (mac_rule ip_info : list ascii) (it : list (list ascii)) (ret : Z) : Z :=
  match it with
  | [] => ret
  | ifr_name :: rest =>
      if str_eqb ifr_name (lit "lo") then mac_loop env mac_rule ip_info rest ret
      else
        let '(ret, sa_data) := get_mac_by_socket env ifr_name ip_info in
        if negb (ret =? RET_OK) then mac_loop env mac_rule ip_info rest ret
        else
          let ret := if has_case_prefix mac_rule (format_mac (char_signed env) sa_data) then RET_OK else 1 in
          if ret =? RET_OK then ret else mac_loop env mac_rule ip_info rest ret
  end.

Definition check_mac (env : login_env) (mac_rule ip_info : list ascii) : Z :=
  if negb (socket_ok env) then RET_ERR
  else
    match if_names env with
    | None => RET_ERR
    | Some it => if mac_loop env mac_rule ip_info it 0 =? RET_OK then RET_OK else RET_ERR
    end.

Definition check_mac_rule (env : login_env) (mac_rule : list ascii) (ip_info : option (list ascii)) : option Z :=
  match c_str mac_rule with
  | None => UB
  | Some rule =>
      if (length rule =? 0)%nat then Some RET_OK
      else
        match ip_info with
        | None => UB                      (* strchr(NULL, ':') *)
        | Some ip =>
            match strchr ":"%char ip with
            | Some _ => Some (if verify_ipv6_address (Some ip) =? RET_OK then RET_OK else RET_ERR)
            | None =>
                if negb (verify_ipv4_address (Some ip) =? RET_OK) then Some RET_ERR
                else Some (if check_mac env rule ip =? RET_OK then RET_OK else RET_ERR)
            end
        end
  end.

(** ** All the rules *)

(** The IPv6 rule is taken when it is the only address rule. *)
Definition select_ip_rule (r : LOGIN_RULE_INFO) : option (list ascii) :=
  match c_str (ip_rule r) with
  | None => UB
  | Some ip4 =>
      if (length ip4 =? 0)%nat then
        match c_str (ipv6_rule r) with
        | None => UB
        | Some ip6 => Some (if negb (length ip6 =? 0)%nat then ipv6_rule r else ip_rule r)
        end
      else Some (ip_rule r)
  end.

(** One pass of the loop of [check_rules]: the checks of an enabled rule, in order. *)
Definition check_one_rule (env : login_env) (ip_addr : option (list ascii)) (r : LOGIN_RULE_INFO) : option Z :=
  match check_time_rule env (time_rule r) with
  | None => UB
  | Some ret =>
      if negb (ret =? RET_OK) then Some ret
      else
        match select_ip_rule r with
        | None => UB
        | Some rule =>
            match check_ip_rule rule ip_addr with
            | None => UB
            | Some ret =>
                if negb (ret =? RET_OK) then Some ret else check_mac_rule env (mac_rule r) ip_addr
            end
        end
  end.

Definition rule_applies (rule_ids : Z) (idx : nat) (r : LOGIN_RULE_INFO) : bool :=
  negb (rule_enabled r =? 0) && negb (Z.land (Z.shiftr rule_ids (Z.of_nat idx)) 1 =? 0).

Fixpoint rules_loop (env : login_env) (rule_ids : Z) (ip_addr : option (list ascii)) (idx : nat) (flag : Z)
    (login_rules : list LOGIN_RULE_INFO) : option Z :=
  match login_rules with
  | [] => Some (if flag =? MAX_RULE_VALUE then RET_OK else USER_LOGIN_LIMITED)
  | r :: rest =>
      if (rule_enabled r =? 0) || (Z.land (Z.shiftr rule_ids (Z.of_nat idx)) 1 =? 0) then
        rules_loop env rule_ids ip_addr (S idx) (u8 (flag + Z.land (Z.shiftl 1 (Z.of_nat idx)) 255)) rest
      else
        match check_one_rule env ip_addr r with
        | None => UB
        | Some ret =>
            if ret =? RET_OK then Some RET_OK else rules_loop env rule_ids ip_addr (S idx) flag rest
        end
  end.

(** [login_rules] has [MAX_RULE_COUNT] elements. *)
Definition check_rules (env : login_env) (rule_ids : Z) (ip_addr : option (list ascii))
    (login_rules : list LOGIN_RULE_INFO) : option Z :=
  rules_loop env (u8 rule_ids) ip_addr 0 0 login_rules.

Definition check_user_login_rule (env : login_env) (ipmi_user : IPMI_USER_S)
    (ip_addr tty_name : option (list ascii)) : option Z :=
  match tty_name with
  | None => UB
  | Some tty =>
      if has_prefix UART2_NAME tty || has_prefix FTP_NAME tty then Some RET_OK
      else if user_login_rule ipmi_user =? 0 then Some RET_OK
      else if is_exclude_user ipmi_user =? 1 then Some RET_OK
      else
        match get_login_rules (rules_file env) zero_rules with
        | None => UB
        | Some (ret, login_rules) =>
            if negb (ret =? RET_OK) then Some RET_ERR
            else check_rules env (user_login_rule ipmi_user) ip_addr login_rules
        end
  end.

Definition check_snmpv1v2_login_rule (env : login_env) (ruleids : Z) (ip_addr : option (list ascii)) : option Z :=
  match get_login_rules (rules_file env) zero_rules with
  | None => UB
  | Some (ret, login_rules) =>
      if negb (ret =? RET_OK) then Some RET_ERR else check_rules env ruleids ip_addr login_rules
  end.

(** ** Concrete runs *)
Definition demo_rules : list ascii :=
  lit "1,1,2023-05-11 00:00/2023-05-12 01:00,76.76.16.183,01:01:01,Fec0:75:1001::/48" ++ [NL] ++
  lit "2,1,08:00/12:30,,00:1A:2b,2001:db8::/32" ++ [NL] ++ lit "3,0,,,," ++ [NL].

Definition demo_env (rules : list ascii) (t : tm) : login_env := {|
  rules_file := good_file rules;
  clock := Some 0;
  local_time := fun _ => Some t;
  socket_ok := true;
  if_names := Some [lit "lo"; lit "eth2"];
  arp_lookup := fun _ _ => Some [0; 26; 43; 60; 77; 255];
  char_signed := false
|}.

Definition demo_user (rules : Z) : IPMI_USER_S := {|
  user_id := 2; user_name := lit "Administrator" ++ replicate 4 NUL; user_enabled := 1; privilege1 := 4;
  user_lock_status := 0; user_login_rule := rules; user_login_interface := 255; is_exclude_user := 0;
  is_password_expired := 0; role_id := 4
|}.

Example demo_checks :
  let at_ y mo d h mi := {| tm_year := y - 1900; tm_mon := mo - 1; tm_mday := d; tm_hour := h; tm_min := mi |} in
  let run t rules ip := check_user_login_rule (demo_env demo_rules t) (demo_user rules) (Some (lit ip)) (Some (lit "ssh")) in
  run (at_ 2024 1 1 8 0) 2 "2001:db8::9" = Some RET_OK /\
  run (at_ 2024 1 1 12 31) 2 "2001:db8::9" = Some USER_LOGIN_LIMITED /\
  run (at_ 2024 1 1 8 0) 2 "10.0.0.1" = Some USER_LOGIN_LIMITED /\
  run (at_ 2023 5 12 1 0) 1 "76.76.16.183" = Some USER_LOGIN_LIMITED /\
  run (at_ 2023 5 12 1 0) 4 "10.0.0.1" = Some RET_OK.
Proof. vm_compute. repeat split. Qed.

(** ** Arrays filled by [memcpy_s] *)

(** The array of a rule that holds [s]. *)
Definition rule_array (s : list ascii) : list ascii := s ++ replicate (65 - length s) NUL.

Definition rule_text (s : list ascii) : Prop := no_nul s /\ (length s <= 64)%nat.

Lemma c_str_rule_array s : rule_text s -> c_str (rule_array s) = Some s.
Proof.
  intros [Hs Hl]. unfold rule_array.
  destruct (65 - length s)%nat as [|k] eqn:E; [lia|]. cbn [replicate]. by apply c_str_app.
Qed.

Lemma memcpy_rule_array s :
  (length s <= 64)%nat -> snd (memcpy_s (replicate 65 NUL) s (length s)) = rule_array s.
Proof.
  intros Hl. unfold memcpy_s, rule_array. rewrite length_replicate.
  rewrite (proj2 (Nat.leb_le _ _)) by lia. cbn [snd].
  by rewrite take_ge, drop_replicate by lia.
Qed.

(** ** The texts of time rules *)

Definition number (ds : list ascii) (v : Z) : Prop :=
  ds <> [] /\ Forall (fun c => is_digit c = true) ds /\ dec_value ds = v /\ v < 2 ^ 31.

Lemma number_pad w z : (0 < w)%nat -> 0 <= z < 10 ^ Z.of_nat w -> z < 2 ^ 31 -> number (pad_dec w z) z.
Proof.
  intros Hw Hz Hm. split; [|split; [apply pad_dec_digits|split; [by apply dec_value_pad|done]]].
  intros He. apply (f_equal length) in He. rewrite pad_dec_length in He. cbn in He. lia.
Qed.

Lemma sscanf_number fmt ds v rest :
  number ds v -> no_digit_first rest -> sscanf (Dint :: fmt) (ds ++ rest) = VInt v :: sscanf fmt rest.
Proof. intros (Hn & HF & <- & Hm) Hr. by apply sscanf_int. Qed.

Lemma sscanf_space fmt ds v rest :
  number ds v -> sscanf (Dspace :: fmt) (" "%char :: ds ++ rest) = sscanf fmt (ds ++ rest).
Proof.
  intros (Hn & HF & _ & _). destruct ds as [|c ds]; [done|].
  pose proof (is_digit_not_space c (Forall_inv HF)) as Hc. cbn. by rewrite Hc.
Qed.

Lemma timestr_numbers y1 mo1 d1 h1 mi1 y2 mo2 d2 h2 mi2 (v : nat -> Z) :
  number y1 (v 0%nat) -> number mo1 (v 1%nat) -> number d1 (v 2%nat) -> number h1 (v 3%nat) ->
  number mi1 (v 4%nat) -> number y2 (v 5%nat) -> number mo2 (v 6%nat) -> number d2 (v 7%nat) ->
  number h2 (v 8%nat) -> number mi2 (v 9%nat) ->
  timestr_to_numeric
    (y1 ++ "-"%char :: mo1 ++ "-"%char :: d1 ++ " "%char :: h1 ++ ":"%char :: mi1 ++ "/"%char ::
     y2 ++ "-"%char :: mo2 ++ "-"%char :: d2 ++ " "%char :: h2 ++ ":"%char :: mi2)
  = Some {| start_time := mk_time (v 0%nat) (v 1%nat) (v 2%nat) (v 3%nat) (v 4%nat);
            end_time := mk_time (v 5%nat) (v 6%nat) (v 7%nat) (v 8%nat) (v 9%nat) |}.
Proof.
  intros. unfold timestr_to_numeric, time_format.
  rewrite <- (app_nil_r mi2).
  repeat first [rewrite sscanf_lit | erewrite sscanf_space by eassumption
    | erewrite sscanf_number by (eassumption || reflexivity || exact I)].
  reflexivity.
Qed.

(** A moment, to the minute. *)
Record moment := { m_year : Z; m_mon : Z; m_mday : Z; m_hour : Z; m_min : Z }.

Definition moment_ok (m : moment) : Prop :=
  0 <= m_year m < 10000 /\ 1 <= m_mon m <= 12 /\ 1 <= m_mday m <= 31 /\
  0 <= m_hour m < 24 /\ 0 <= m_min m < 60.

Definition moment_of (t : tm) : moment :=
  {| m_year := 1900 + tm_year t; m_mon := 1 + tm_mon t; m_mday := tm_mday t;
     m_hour := tm_hour t; m_min := tm_min t |}.

(** Chronological order: year, month, day, hour, minute. *)
Definition moment_key (m : moment) : Z :=
  (((m_year m * 16 + m_mon m) * 32 + m_mday m) * 32 + m_hour m) * 64 + m_min m.
Definition date_key (m : moment) : Z := (m_year m * 16 + m_mon m) * 32 + m_mday m.
Definition time_key (m : moment) : Z := m_hour m * 64 + m_min m.

Definition date_text (m : moment) : list ascii :=
  pad_dec 4 (m_year m) ++ "-"%char :: pad_dec 2 (m_mon m) ++ "-"%char :: pad_dec 2 (m_mday m).
Definition hm_text (m : moment) : list ascii := pad_dec 2 (m_hour m) ++ ":"%char :: pad_dec 2 (m_min m).

(** The three forms of a time rule. *)
Definition ymdhm_rule (a b : moment) : list ascii :=
  date_text a ++ " "%char :: hm_text a ++ "/"%char :: date_text b ++ " "%char :: hm_text b.
Definition ymd_rule (a b : moment) : list ascii := date_text a ++ "/"%char :: date_text b.
Definition hm_rule (a b : moment) : list ascii := hm_text a ++ "/"%char :: hm_text b.

Lemma date_text_length m : length (date_text m) = 10%nat.
Proof. unfold date_text. rewrite !length_app; cbn [length]. rewrite !length_app; cbn [length]. by rewrite !pad_dec_length. Qed.

Lemma hm_text_length m : length (hm_text m) = 5%nat.
Proof. unfold hm_text. rewrite !length_app; cbn [length]. by rewrite !pad_dec_length. Qed.

Lemma rule_lengths a b :
  length (ymdhm_rule a b) = 33%nat /\ length (ymd_rule a b) = 21%nat /\ length (hm_rule a b) = 11%nat.
Proof.
  unfold ymdhm_rule, ymd_rule, hm_rule.
  repeat (rewrite !length_app; cbn [length]). by rewrite !date_text_length, !hm_text_length.
Qed.

Lemma pad_dec_no_nul w z : no_nul (pad_dec w z).
Proof. by apply pad_dec_no. Qed.

Lemma no_nul_app s t : no_nul s -> no_nul t -> no_nul (s ++ t).
Proof. unfold no_nul. rewrite not_elem_of_app. done. Qed.

Lemma no_nul_cons c s : c <> NUL -> no_nul s -> no_nul (c :: s).
Proof. unfold no_nul. rewrite not_elem_of_cons. done. Qed.
#[export] Hint Resolve pad_dec_no_nul no_nul_app no_nul_cons : iam.

Lemma rule_texts a b :
  rule_text (ymdhm_rule a b) /\ rule_text (ymd_rule a b) /\ rule_text (hm_rule a b).
Proof.
  destruct (rule_lengths a b) as (L1 & L2 & L3). unfold rule_text.
  split; [|split]; (split; [|lia]); unfold ymdhm_rule, ymd_rule, hm_rule, date_text, hm_text;
    repeat first [apply pad_dec_no_nul | apply no_nul_app | apply no_nul_cons];
    by apply char_eqb_neq.
Qed.

Lemma u8_id z : 0 <= z < 256 -> u8 z = z.
Proof. apply u8_small. Qed.

Lemma mk_time_id y mo d h mi :
  0 <= y < 65536 -> 0 <= mo < 256 -> 0 <= d < 256 -> 0 <= h < 256 -> 0 <= mi < 256 ->
  mk_time y mo d h mi = {| t_year := y; t_mon := mo; t_mday := d; t_hour := h; t_min := mi |}.
Proof.
  intros. unfold mk_time. change 65535 with (Z.ones 16). change 255 with (Z.ones 8).
  rewrite !Z.land_ones, !u32_small by lia. by rewrite !Z.mod_small by lia.
Qed.

Lemma ymdhm_complete a b : complete_rule (ymdhm_rule a b) = (Some (ymdhm_rule a b), TYPE_YMDHM).
Proof. unfold complete_rule. by rewrite (proj1 (rule_lengths a b)). Qed.

Lemma ymd_complete a b :
  complete_rule (ymd_rule a b)
  = (Some (date_text a ++ lit " 255:255" ++ "/"%char :: date_text b ++ lit " 255:255"), TYPE_YMD).
Proof.
  unfold complete_rule. rewrite (proj1 (proj2 (rule_lengths a b))).
  change (u8 (Z.of_nat 21)) with YMD_TIME_RULE_LEN. cbv zeta.
  change (YMD_TIME_RULE_LEN =? YMDHM_TIME_RULE_LEN) with false.
  change (YMD_TIME_RULE_LEN =? YMD_TIME_RULE_LEN) with true. cbv iota. unfold ymd_rule.
  rewrite (take_app_length' (date_text a)), (drop_app_length' (date_text a)) by (by rewrite date_text_length).
  done.
Qed.

Lemma hm_complete a b :
  complete_rule (hm_rule a b)
  = (Some (lit "65535-255-255 " ++ hm_text a ++ "/"%char :: lit "65535-255-255 " ++ hm_text b), TYPE_HM).
Proof.
  unfold complete_rule. rewrite (proj2 (proj2 (rule_lengths a b))).
  change (u8 (Z.of_nat 11)) with HM_TIME_RULE_LEN. cbv zeta.
  change (HM_TIME_RULE_LEN =? YMDHM_TIME_RULE_LEN) with false.
  change (HM_TIME_RULE_LEN =? YMD_TIME_RULE_LEN) with false.
  change (HM_TIME_RULE_LEN =? HM_TIME_RULE_LEN) with true. cbv iota. unfold hm_rule.
  rewrite cons_middle, !app_assoc.
  rewrite (take_app_length' ((lit "65535-255-255 " ++ hm_text a) ++ ["/"%char])),
    (drop_app_length' (hm_text a ++ ["/"%char])) by (rewrite !length_app, hm_text_length; done).
  by rewrite <- !app_assoc.
Qed.

(** The numbers of a completed rule. *)
Lemma moment_numbers m :
  moment_ok m ->
  number (pad_dec 4 (m_year m)) (m_year m) /\ number (pad_dec 2 (m_mon m)) (m_mon m) /\
  number (pad_dec 2 (m_mday m)) (m_mday m) /\ number (pad_dec 2 (m_hour m)) (m_hour m) /\
  number (pad_dec 2 (m_min m)) (m_min m).
Proof.
  intros (? & ? & ? & ? & ?).
  split; [|split; [|split; [|split]]]; apply number_pad; lia.
Qed.

Lemma number_lit s v :
  lit s <> [] -> forallb is_digit (lit s) = true -> dec_value (lit s) = v -> v < 2 ^ 31 -> number (lit s) v.
Proof.
  intros Hn Hf Hv Hm. split; [done|]. split; [|done].
  apply Forall_forall; intros c Hc. rewrite forallb_forall in Hf. by apply Hf, list_elem_of_In.
Qed.

Definition info_of (a b : moment) : TIME_RULE_INFO := {|
  start_time := {| t_year := m_year a; t_mon := m_mon a; t_mday := m_mday a; t_hour := m_hour a; t_min := m_min a |};
  end_time := {| t_year := m_year b; t_mon := m_mon b; t_mday := m_mday b; t_hour := m_hour b; t_min := m_min b |}
|}.

(** Ten values as a function, for [timestr_numbers]. *)
Definition ten (l : list Z) (i : nat) : Z := nth i l 0.

Lemma parse_ymdhm a b :
  moment_ok a -> moment_ok b -> timestr_to_numeric (ymdhm_rule a b) = Some (info_of a b).
Proof.
  intros Ha Hb. destruct (moment_numbers a Ha) as (? & ? & ? & ? & ?).
  destruct (moment_numbers b Hb) as (? & ? & ? & ? & ?).
  unfold ymdhm_rule, date_text, hm_text.
  repeat (rewrite <- !app_assoc; cbn [app]).
  rewrite (timestr_numbers _ _ _ _ _ _ _ _ _ _
    (ten [m_year a; m_mon a; m_mday a; m_hour a; m_min a; m_year b; m_mon b; m_mday b; m_hour b; m_min b]));
    try assumption.
  cbn [ten nth]. unfold moment_ok in *. by rewrite !mk_time_id by lia.
Qed.

Lemma parse_ymd a b :
  moment_ok a -> moment_ok b ->
  exists h m h' m', timestr_to_numeric (date_text a ++ lit " 255:255" ++ "/"%char :: date_text b ++ lit " 255:255")
  = Some {| start_time := {| t_year := m_year a; t_mon := m_mon a; t_mday := m_mday a; t_hour := h; t_min := m |};
            end_time := {| t_year := m_year b; t_mon := m_mon b; t_mday := m_mday b; t_hour := h'; t_min := m' |} |}.
Proof.
  intros Ha Hb. destruct (moment_numbers a Ha) as (? & ? & ? & _ & _).
  destruct (moment_numbers b Hb) as (? & ? & ? & _ & _).
  assert (H255 : number (lit "255") 255) by (apply number_lit; [discriminate|reflexivity|reflexivity|lia]).
  exists 255, 255, 255, 255. unfold date_text.
  change (lit " 255:255") with (" "%char :: lit "255" ++ ":"%char :: lit "255").
  repeat (rewrite <- !app_assoc; cbn [app]).
  rewrite (timestr_numbers _ _ _ _ _ _ _ _ _ _
    (ten [m_year a; m_mon a; m_mday a; 255; 255; m_year b; m_mon b; m_mday b; 255; 255]));
    try assumption.
  cbn [ten nth]. unfold moment_ok in *. by rewrite !mk_time_id by lia.
Qed.

Lemma parse_hm a b :
  moment_ok a -> moment_ok b ->
  exists y mo d y' mo' d',
  timestr_to_numeric (lit "65535-255-255 " ++ hm_text a ++ "/"%char :: lit "65535-255-255 " ++ hm_text b)
  = Some {| start_time := {| t_year := y; t_mon := mo; t_mday := d; t_hour := m_hour a; t_min := m_min a |};
            end_time := {| t_year := y'; t_mon := mo'; t_mday := d'; t_hour := m_hour b; t_min := m_min b |} |}.
Proof.
  intros Ha Hb. destruct (moment_numbers a Ha) as (_ & _ & _ & ? & ?).
  destruct (moment_numbers b Hb) as (_ & _ & _ & ? & ?).
  assert (H255 : number (lit "255") 255) by (apply number_lit; [discriminate|reflexivity|reflexivity|lia]).
  assert (H65535 : number (lit "65535") 65535) by (apply number_lit; [discriminate|reflexivity|reflexivity|lia]).
  exists 65535, 255, 255, 65535, 255, 255. unfold hm_text.
  change (lit "65535-255-255 ") with (lit "65535" ++ "-"%char :: lit "255" ++ "-"%char :: lit "255" ++ [" "%char]).
  repeat (rewrite <- !app_assoc; cbn [app]).
  rewrite (timestr_numbers _ _ _ _ _ _ _ _ _ _
    (ten [65535; 255; 255; m_hour a; m_min a; 65535; 255; 255; m_hour b; m_min b]));
    try assumption.
  cbn [ten nth]. unfold moment_ok in *. by rewrite !mk_time_id by lia.
Qed.

(** ** The comparisons are the chronological ones *)

Lemma ymdhm_value mo d h mi :
  0 <= mo < 128 -> 0 <= d < 256 -> 0 <= h < 256 -> 0 <= mi < 256 ->
  parse_time_ymdhm mo d h mi = mo * 2 ^ 24 + d * 2 ^ 16 + h * 2 ^ 8 + mi.
Proof.
  intros. unfold parse_time_ymdhm. rewrite !u8_small by lia. rewrite !Z.shiftl_mul_pow2 by lia.
  unfold u32. rewrite <- Z.add_mod by lia. rewrite !Z.add_mod_idemp_l by lia.
  rewrite <- Z.add_assoc, Z.add_mod_idemp_l, Z.mod_small by lia. lia.
Qed.

Lemma ymd_value y mo d :
  0 <= mo < 256 -> 0 <= d < 256 -> parse_time_ymd y mo d = y mod 256 * 2 ^ 16 + mo * 2 ^ 8 + d.
Proof.
  intros. pose proof (u8_range y). unfold parse_time_ymd. rewrite (u8_small mo), (u8_small d) by lia.
  change (y mod 256) with (u8 y). rewrite !Z.shiftl_mul_pow2 by lia.
  unfold u32. rewrite Z.add_mod_idemp_l, Z.mod_small by lia. lia.
Qed.

Lemma hm_value h mi : 0 <= h < 256 -> 0 <= mi < 256 -> parse_time_hm h mi = h * 2 ^ 8 + mi.
Proof.
  intros. unfold parse_time_hm. rewrite !u8_small, Z.shiftl_mul_pow2 by lia. rewrite u32_small; lia.
Qed.

Lemma check_ymdhm_spec now a b :
  moment_ok (moment_of now) -> moment_ok a -> moment_ok b ->
  (check_ymdhm now (info_of a b) = RET_OK <->
   moment_key a <= moment_key (moment_of now) <= moment_key b).
Proof.
  unfold moment_ok, moment_of; cbn [m_year m_mon m_mday m_hour m_min]. intros Hn Ha Hb.
  unfold check_ymdhm, info_of, TIME_YEAR_BASE; cbn [start_time end_time t_year t_mon t_mday t_hour t_min].
  rewrite !ymdhm_value by lia. unfold moment_key; cbn [m_year m_mon m_mday m_hour m_min].
  repeat case_match;
    repeat match goal with
    | H : (_ || _) = true |- _ => apply orb_true_iff in H
    | H : (_ && _) = true |- _ => apply andb_true_iff in H
    | H : (_ || _) = false |- _ => apply orb_false_iff in H
    | H : (_ && _) = false |- _ => apply andb_false_iff in H
    end; (split; [intros; try discriminate|intros; try done]); lia.
Qed.

Lemma check_ymd_spec now y1 mo1 d1 h1 m1 y2 mo2 d2 h2 m2 :
  let a := {| t_year := y1; t_mon := mo1; t_mday := d1; t_hour := h1; t_min := m1 |} in
  let b := {| t_year := y2; t_mon := mo2; t_mday := d2; t_hour := h2; t_min := m2 |} in
  moment_ok (moment_of now) -> 1 <= mo1 <= 12 -> 1 <= d1 <= 31 -> 1 <= mo2 <= 12 -> 1 <= d2 <= 31 ->
  (check_ymd now {| start_time := a; end_time := b |} = RET_OK <->
   (y1 mod 256 * 16 + mo1) * 32 + d1
     <= ((1900 + tm_year now) mod 256 * 16 + (1 + tm_mon now)) * 32 + tm_mday now
     <= (y2 mod 256 * 16 + mo2) * 32 + d2).
Proof.
  unfold moment_ok, moment_of; cbn [m_year m_mon m_mday m_hour m_min]. intros Hn H1 H2 H3 H4.
  unfold check_ymd, TIME_YEAR_BASE; cbn [start_time end_time t_year t_mon t_mday t_hour t_min].
  rewrite !ymd_value by lia.
  destruct (_ || _) eqn:E; [apply orb_true_iff in E|apply orb_false_iff in E];
    (split; [intros; try discriminate|intros; try done]); lia.
Qed.

Lemma check_hm_spec now y1 mo1 d1 h1 m1 y2 mo2 d2 h2 m2 :
  let a := {| t_year := y1; t_mon := mo1; t_mday := d1; t_hour := h1; t_min := m1 |} in
  let b := {| t_year := y2; t_mon := mo2; t_mday := d2; t_hour := h2; t_min := m2 |} in
  moment_ok (moment_of now) -> 0 <= h1 < 24 -> 0 <= m1 < 60 -> 0 <= h2 < 24 -> 0 <= m2 < 60 ->
  (check_hm now {| start_time := a; end_time := b |} = RET_OK <->
   h1 * 64 + m1 <= tm_hour now * 64 + tm_min now <= h2 * 64 + m2).
Proof.
  unfold moment_ok, moment_of; cbn [m_year m_mon m_mday m_hour m_min]. intros Hn H1 H2 H3 H4.
  unfold check_hm; cbn [start_time end_time t_year t_mon t_mday t_hour t_min].
  rewrite !hm_value by lia.
  destruct (_ || _) eqn:E; [apply orb_true_iff in E|apply orb_false_iff in E];
    (split; [intros; try discriminate|intros; try done]); lia.
Qed.

Lemma check_time_rule_text env t now rule text flag info :
  rule_text rule -> rule <> [] -> clock env = Some t -> local_time env t = Some now ->
  complete_rule rule = (Some text, flag) -> timestr_to_numeric text = Some info ->
  check_time_rule env (rule_array rule) = Some (is_time_limited now info flag).
Proof.
  intros Hr Hne Hc Hl Hcomp Hp. unfold check_time_rule. rewrite c_str_rule_array by done.
  destruct rule as [|c rule]; [done|]. cbn [length Nat.eqb]. by rewrite Hc, Hcomp, Hp, Hl.
Qed.

Lemma Some_inj_iff {A} (x y : A) : Some x = Some y <-> x = y.
Proof. naive_solver. Qed.

(** A day as the code compares it: of the year only the low byte counts. *)
Definition low_date_key (m : moment) : Z := (m_year m mod 256 * 16 + m_mon m) * 32 + m_mday m.

Lemma date_rule_low env t now a b :
  moment_ok a -> moment_ok b -> moment_ok (moment_of now) ->
  clock env = Some t -> local_time env t = Some now ->
  (check_time_rule env (rule_array (ymd_rule a b)) = Some RET_OK <->
   low_date_key a <= low_date_key (moment_of now) <= low_date_key b).
Proof.
  intros Ha Hb Hn Hc Hl. destruct (rule_texts a b) as (_ & T2 & _). destruct (rule_lengths a b) as (_ & L2 & _).
  destruct (parse_ymd a b Ha Hb) as (h & m & h' & m' & Hp).
  erewrite check_time_rule_text; [|done|by intros E; rewrite E in L2|done|done|apply ymd_complete|done].
  rewrite Some_inj_iff. unfold moment_ok in Ha, Hb. apply check_ymd_spec; (done || lia).
Qed.


(** ** The rules file: what is written is read back *)

Record rule_entry := {
  e_enabled : Z; e_time : list ascii; e_ip : list ascii; e_mac : list ascii; e_ip6 : list ascii
}.

(** A field: no separator, no line end, no NUL, at most 64 characters. *)
Definition field_ok (s : list ascii) : Prop := rule_text s /\ ","%char ∉ s /\ NL ∉ s.

Definition entry_ok (e : rule_entry) : Prop :=
  0 <= e_enabled e < 10 /\ field_ok (e_time e) /\ field_ok (e_ip e) /\ field_ok (e_mac e) /\ field_ok (e_ip6 e).

(** The line "id,enabled,time,ip,mac,ipv6". *)
Definition rule_line (id : Z) (e : rule_entry) : list ascii :=
  pad_dec 1 id ++ ","%char :: pad_dec 1 (e_enabled e) ++ ","%char :: e_time e ++ ","%char ::
  e_ip e ++ ","%char :: e_mac e ++ ","%char :: e_ip6 e.

Definition rule_of (id : Z) (e : rule_entry) : LOGIN_RULE_INFO := {|
  rule_id := id; rule_enabled := e_enabled e; time_rule := rule_array (e_time e);
  ip_rule := rule_array (e_ip e); mac_rule := rule_array (e_mac e); ipv6_rule := rule_array (e_ip6 e)
|}.

Definition rules_text (e1 e2 e3 : rule_entry) : list ascii :=
  rule_line 1 e1 ++ NL :: rule_line 2 e2 ++ NL :: rule_line 3 e3 ++ [NL].

(** The sizes of the two buffers the text goes through. *)
Definition text_fits (e1 e2 e3 : rule_entry) : Prop :=
  (length (rules_text e1 e2 e3) < 777)%nat /\ (length (rule_line 1 e1) <= 259)%nat /\
  (length (rule_line 2 e2) <= 259)%nat /\ (length (rule_line 3 e3) <= 259)%nat.

Lemma parse_digit z : 0 <= z < 10 -> parse_line_token_to_uint8 (pad_dec 1 z) = Some z.
Proof.
  intros Hz. rewrite parse_uint8_digits; [|done|apply pad_dec_digits|].
  - f_equal. by apply dec_value_pad.
  - rewrite dec_value_pad by done. lia.
Qed.

Lemma id_of_digit z : 0 <= z < 10 -> u8 (st_val (strtol (pad_dec 1 z))) = z.
Proof.
  intros Hz. rewrite <- (app_nil_r (pad_dec 1 z)).
  rewrite strtol_digits; rewrite ?dec_value_pad; try done; [|apply pad_dec_digits|unfold LONG_MAX; lia].
  cbn [st_val]. by rewrite u8_small by lia.
Qed.

Lemma rule_line_fields id e :
  entry_ok e ->
  tokens ","%char (rule_line id e) =
    [pad_dec 1 id; pad_dec 1 (e_enabled e); e_time e; e_ip e; e_mac e; e_ip6 e].
Proof.
  intros (_ & [_ [H1 _]] & [_ [H2 _]] & [_ [H3 _]] & [_ [H4 _]]). unfold rule_line.
  rewrite !tokens_app by (done || by apply pad_dec_no). by rewrite tokens_clean.
Qed.

Lemma parse_rule_line id e :
  entry_ok e -> 0 <= id < 10 -> parse_per_rule (rule_line id e) zero_rule = (RET_OK, rule_of id e).
Proof.
  intros He Hid. unfold parse_per_rule. rewrite rule_line_fields by done.
  destruct He as (Hen & [[_ H1] _] & [[_ H2] _] & [[_ H3] _] & [[_ H4] _]).
  cbn [rule_fields_loop set_rule_field]. rewrite !parse_digit by done.
  cbn [default from_option zero_rule rule_id rule_enabled time_rule ip_rule mac_rule ipv6_rule].
  by rewrite !memcpy_rule_array.
Qed.

Lemma first_field_line id e : first_field (rule_line id e) = Some (pad_dec 1 id).
Proof.
  unfold first_field, rule_line.
  assert (Hs : forall b, strchr ","%char (pad_dec 1 id ++ ","%char :: b) = Some 1%nat).
  { intros b. apply strchr_Some. exists b. rewrite take_app_length' by done.
    split; [done|]. by apply pad_dec_no. }
  rewrite Hs. by rewrite take_app_length' by done.
Qed.

Lemma rule_lines_step full id e rest rules :
  entry_ok e -> 1 <= id <= 3 -> (length (rule_line id e) <= 259)%nat ->
  rules !! Z.to_nat (id - 1) = Some zero_rule ->
  rule_lines_loop full (rule_line id e :: rest) rules
  = rule_lines_loop full rest (<[Z.to_nat (id - 1) := rule_of id e]> rules).
Proof.
  intros He Hid Hl Hr. cbn [rule_lines_loop].
  change (MAX_RULE_LINE_LEN) with 259%nat. rewrite (proj2 (Nat.ltb_ge _ _)) by done.
  destruct (Nat.eqb_spec (length (rule_line id e)) 0) as [E|_].
  { unfold rule_line in E. rewrite length_app, pad_dec_length in E. lia. }
  rewrite first_field_line. cbv zeta.
  rewrite id_of_digit by lia.
  destruct (Z.eqb_spec id 0); [lia|]. rewrite Hr. by rewrite parse_rule_line by (done || lia).
Qed.

Lemma rule_line_no (c : ascii) id e :
  is_digit c = false -> c <> ","%char -> c ∉ e_time e -> c ∉ e_ip e -> c ∉ e_mac e -> c ∉ e_ip6 e ->
  c ∉ rule_line id e.
Proof.
  intros Hd Hc H1 H2 H3 H4. unfold rule_line.
  repeat (rewrite not_elem_of_app || rewrite not_elem_of_cons).
  repeat split; try done; by apply pad_dec_no.
Qed.

Lemma rule_line_clean id e : entry_ok e -> NL ∉ rule_line id e /\ no_nul (rule_line id e).
Proof.
  intros (_ & [[A1 _] [_ B1]] & [[A2 _] [_ B2]] & [[A3 _] [_ B3]] & [[A4 _] [_ B4]]).
  split; apply rule_line_no; done || by apply char_eqb_neq.
Qed.

Lemma parse_rules_text e1 e2 e3 :
  entry_ok e1 -> entry_ok e2 -> entry_ok e3 -> text_fits e1 e2 e3 ->
  parse_rules (rules_text e1 e2 e3) zero_rules = Some (RET_OK, [rule_of 1 e1; rule_of 2 e2; rule_of 3 e3]).
Proof.
  intros H1 H2 H3 (Hl & L1 & L2 & L3). unfold parse_rules. change (MAX_RULE_LINE_LEN * 3)%nat with 777%nat.
  rewrite (proj2 (Nat.ltb_ge _ _)), (proj2 (Nat.eqb_neq _ _)) by lia. unfold rules_text.
  destruct (rule_line_clean 1 e1 H1) as [N1 _]. destruct (rule_line_clean 2 e2 H2) as [N2 _].
  destruct (rule_line_clean 3 e3 H3) as [N3 _].
  rewrite !tokens_app by done. rewrite !rule_lines_step by (done || lia). done.
Qed.

Lemma rules_text_no_nul e1 e2 e3 :
  entry_ok e1 -> entry_ok e2 -> entry_ok e3 -> no_nul (rules_text e1 e2 e3).
Proof.
  intros H1 H2 H3. apply rule_line_clean with (id := 1) in H1 as [_ ?].
  apply rule_line_clean with (id := 2) in H2 as [_ ?]. apply rule_line_clean with (id := 3) in H3 as [_ ?].
  unfold rules_text. repeat first [assumption | apply no_nul_app | apply no_nul_cons];
    first [by apply char_eqb_neq | by apply c_str_none || apply not_elem_of_nil].
Qed.

Lemma get_rules_text e1 e2 e3 :
  entry_ok e1 -> entry_ok e2 -> entry_ok e3 -> text_fits e1 e2 e3 ->
  get_login_rules (good_file (rules_text e1 e2 e3)) zero_rules
  = Some (RET_OK, [rule_of 1 e1; rule_of 2 e2; rule_of 3 e3]).
Proof.
  intros H1 H2 H3 Hf. unfold get_login_rules; cbn [good_file tf_open tf_stat tf_bytes tf_read].
  destruct (Nat.eqb_spec (length (rules_text e1 e2 e3)) 0) as [E|_].
  { unfold rules_text, rule_line in E. rewrite !length_app in E. rewrite pad_dec_length in E. lia. }
  rewrite (proj2 (Z.ltb_ge (Z.of_nat _) 0)) by lia. cbn [Z.ltb Z.eqb negb Z.compare].
  rewrite tf_text_good by (by apply rules_text_no_nul).
  by rewrite parse_rules_text.
Qed.

(** ** Which logins the rules admit *)

Lemma check_one_rule_ok env ip r :
  check_one_rule env ip r = Some RET_OK <->
  exists rule, check_time_rule env (time_rule r) = Some RET_OK /\ select_ip_rule r = Some rule /\
    check_ip_rule rule ip = Some RET_OK /\ check_mac_rule env (mac_rule r) ip = Some RET_OK.
Proof.
  unfold check_one_rule. split.
  - destruct (check_time_rule env (time_rule r)) as [t|]; [|done].
    destruct (Z.eqb_spec t RET_OK) as [->|]; cbn [negb]; [|intros [= ?]; congruence].
    destruct (select_ip_rule r) as [rule|]; [|done].
    destruct (check_ip_rule rule ip) as [i|] eqn:Ei; [|done].
    destruct (Z.eqb_spec i RET_OK) as [->|]; cbn [negb]; [|intros [= ?]; congruence].
    intros Hm. exists rule. by rewrite Ei.
  - intros (rule & -> & Hs & Hi & Hm). cbn [RET_OK Z.eqb negb]. rewrite Hs, Hi. by cbn [RET_OK Z.eqb negb].
Qed.

(** The flag of [rules_loop] reaches 7 exactly when every rule was skipped. *)
(** Quantifiers over a list of three, spelled out. *)
Lemma forall_three {A} (P : nat -> A -> Prop) r1 r2 r3 :
  (forall idx r, [r1; r2; r3] !! idx = Some r -> P idx r) <-> P 0%nat r1 /\ P 1%nat r2 /\ P 2%nat r3.
Proof.
  split; [intros H; repeat split; by apply H|].
  intros (P1 & P2 & P3) idx r. destruct idx as [|[|[|idx]]]; cbn; naive_solver.
Qed.

Lemma exists_three {A} (P : nat -> A -> Prop) r1 r2 r3 :
  (exists idx r, [r1; r2; r3] !! idx = Some r /\ P idx r) <-> P 0%nat r1 \/ P 1%nat r2 \/ P 2%nat r3.
Proof.
  split.
  - intros (idx & r & Hl & HP). destruct idx as [|[|[|idx]]]; cbn in Hl; naive_solver.
  - intros [?|[?|?]]; [exists 0%nat, r1|exists 1%nat, r2|exists 2%nat, r3]; done.
Qed.

(** The answer of the loop when no rule it reads is undefined: [a_i] tells whether rule [i]
    is skipped, [p_i] whether it passes. *)
Definition decide3 (a1 a2 a3 p1 p2 p3 : bool) : Z :=
  if (negb a1 && negb a2 && negb a3) || (a1 && p1) || (a2 && p2) || (a3 && p3)
  then RET_OK else USER_LOGIN_LIMITED.

Definition passes (env : login_env) (ip : option (list ascii)) (r : LOGIN_RULE_INFO) : bool :=
  bool_decide (check_one_rule env ip r = Some RET_OK).

Lemma check_rules_decide3 env ids ip r1 r2 r3 :
  (forall idx r, [r1; r2; r3] !! idx = Some r -> rule_applies (u8 ids) idx r = true ->
     check_one_rule env ip r <> None) ->
  check_rules env ids ip [r1; r2; r3] = Some (decide3 (rule_applies (u8 ids) 0 r1)
    (rule_applies (u8 ids) 1 r2) (rule_applies (u8 ids) 2 r3)
    (passes env ip r1) (passes env ip r2) (passes env ip r3)).
Proof.
  rewrite (forall_three (fun idx r => rule_applies (u8 ids) idx r = true -> check_one_rule env ip r <> None)).
  intros (U1 & U2 & U3). unfold check_rules. cbn [rules_loop].
  assert (Happ : forall idx r, (rule_enabled r =? 0) || (Z.land (Z.shiftr (u8 ids) (Z.of_nat idx)) 1 =? 0)
                   = negb (rule_applies (u8 ids) idx r)).
  { intros idx r. unfold rule_applies. by rewrite negb_andb, !negb_involutive. }
  rewrite !Happ.
  assert (Hone : forall a r (k : option Z), (a = true -> check_one_rule env ip r <> None) -> a = true ->
    match check_one_rule env ip r with
    | None => UB | Some ret => if ret =? RET_OK then Some RET_OK else k
    end = if passes env ip r then Some RET_OK else k).
  { intros a r k U Ha. unfold passes. specialize (U Ha).
    destruct (check_one_rule env ip r) as [ret|]; [|done].
    destruct (Z.eqb_spec ret RET_OK); case_bool_decide; congruence. }
  destruct (rule_applies (u8 ids) 0 r1), (rule_applies (u8 ids) 1 r2), (rule_applies (u8 ids) 2 r3);
    cbn [negb]; rewrite ?(Hone true) by done;
    destruct (passes env ip r1), (passes env ip r2), (passes env ip r3); reflexivity.
Qed.

Lemma check_rules_decision env ids ip r1 r2 r3 :
  (forall idx r, [r1; r2; r3] !! idx = Some r -> rule_applies (u8 ids) idx r = true ->
     check_one_rule env ip r <> None) ->
  exists ret, check_rules env ids ip [r1; r2; r3] = Some ret /\ (ret = RET_OK \/ ret = USER_LOGIN_LIMITED) /\
  (ret = RET_OK <->
   (forall idx r, [r1; r2; r3] !! idx = Some r -> rule_applies (u8 ids) idx r = false) \/
   (exists idx r, [r1; r2; r3] !! idx = Some r /\ rule_applies (u8 ids) idx r = true /\
      check_one_rule env ip r = Some RET_OK)).
Proof.
  intros Hub. rewrite check_rules_decide3 by done. eexists. split; [reflexivity|].
  rewrite (forall_three (fun idx r => rule_applies (u8 ids) idx r = false)).
  rewrite (exists_three (fun idx r => rule_applies (u8 ids) idx r = true /\ check_one_rule env ip r = Some RET_OK)).
  assert (Hp : forall r, check_one_rule env ip r = Some RET_OK <-> passes env ip r = true).
  { intros r. symmetry. apply bool_decide_eq_true. }
  rewrite (Hp r1), (Hp r2), (Hp r3). clear Hp.
  assert (Hne : RET_OK <> USER_LOGIN_LIMITED) by done.
  unfold decide3.
  destruct (rule_applies (u8 ids) 0 r1), (rule_applies (u8 ids) 1 r2), (rule_applies (u8 ids) 2 r3),
    (passes env ip r1), (passes env ip r2), (passes env ip r3); cbn; intuition congruence.
Qed.

(** A rule written in the file, seen as a test of a login. *)
Definition entry_address (e : rule_entry) : list ascii :=
  if (length (e_ip e) =? 0)%nat && negb (length (e_ip6 e) =? 0)%nat then e_ip6 e else e_ip e.

Definition entry_admits (env : login_env) (ip : list ascii) (e : rule_entry) : Prop :=
  check_time_rule env (rule_array (e_time e)) = Some RET_OK /\
  check_ip_rule (rule_array (entry_address e)) (Some ip) = Some RET_OK /\
  check_mac_rule env (rule_array (e_mac e)) (Some ip) = Some RET_OK.

(** Rule [i] is enabled and bit [i] of the user's rule set is on. *)
Definition entry_selected (ids : Z) (i : nat) (e : rule_entry) : Prop :=
  e_enabled e <> 0 /\ Z.testbit ids (Z.of_nat i) = true.

Definition exempt (u : IPMI_USER_S) (tty : list ascii) : Prop :=
  has_prefix UART2_NAME tty = true \/ has_prefix FTP_NAME tty = true \/
  user_login_rule u = 0 \/ is_exclude_user u = 1.

Lemma select_ip_rule_of id e :
  entry_ok e -> select_ip_rule (rule_of id e) = Some (rule_array (entry_address e)).
Proof.
  intros (_ & _ & [H2 _] & _ & [H4 _]). unfold select_ip_rule, entry_address; cbn [ip_rule ipv6_rule rule_of].
  rewrite (c_str_rule_array (e_ip e)) by done. destruct (length (e_ip e) =? 0)%nat; [|done].
  rewrite c_str_rule_array by done. by destruct (negb _).
Qed.

Lemma rule_applies_selected ids i id e :
  0 <= ids < 256 -> rule_applies (u8 ids) i (rule_of id e) = true <-> entry_selected ids i e.
Proof.
  intros Hi. unfold rule_applies, entry_selected; cbn [rule_enabled rule_of].
  rewrite u8_small by done. change 1 with (Z.ones 1). rewrite Z.land_ones by lia.
  rewrite andb_true_iff, !negb_true_iff, !Z.eqb_neq. change (2 ^ 1) with 2.
  rewrite <- Z.bit0_mod, Z.shiftr_spec, Z.add_0_l by lia.
  destruct (Z.testbit ids (Z.of_nat i)); cbn; intuition lia.
Qed.

Lemma check_rule_defined env ip id e :
  entry_ok e -> (forall t, local_time env t <> None) -> check_one_rule env (Some ip) (rule_of id e) <> None.
Proof.
  intros He Hl. unfold check_one_rule. rewrite (select_ip_rule_of id e He).
  destruct He as (_ & [H1 _] & [H2 _] & [H3 _] & [H4 _]). cbn [time_rule mac_rule rule_of].
  assert (Ht : check_time_rule env (rule_array (e_time e)) <> None).
  { unfold check_time_rule. rewrite c_str_rule_array by done.
    destruct (length (e_time e) =? 0)%nat; [done|]. destruct (clock env) as [t|]; [|done].
    destruct (complete_rule (e_time e)) as [[text|] flag]; [|done].
    destruct (timestr_to_numeric text); [|done]. specialize (Hl t). by destruct (local_time env t). }
  assert (Ha : rule_text (entry_address e)).
  { unfold entry_address. by destruct (_ && _). }
  destruct (check_time_rule env _) as [ret|]; [|done]. destruct (negb _); [done|].
  unfold check_ip_rule. rewrite c_str_rule_array by done.
  assert (Hm : check_mac_rule env (rule_array (e_mac e)) (Some ip) <> None).
  { unfold check_mac_rule. rewrite c_str_rule_array by done. repeat case_match; done. }
  repeat case_match; done.
Qed.

(** C37: a rules file written with one line per rule is read back: each of the three records
    holds the fields of its line, provided the text is below 777 bytes and each line at most 259;
    the position of the line of a rule does not matter for the two first ones. *)
Theorem rules_file_roundtrip e1 e2 e3 :
  entry_ok e1 -> entry_ok e2 -> entry_ok e3 -> text_fits e1 e2 e3 ->
  get_login_rules (good_file (rules_text e1 e2 e3)) zero_rules
  = Some (RET_OK, [rule_of 1 e1; rule_of 2 e2; rule_of 3 e3]) /\
  parse_rules (rule_line 2 e2 ++ NL :: rule_line 1 e1 ++ [NL]) zero_rules
  = Some (RET_OK, [rule_of 1 e1; rule_of 2 e2; zero_rule]).
Proof.
  intros H1 H2 H3 Hf. split; [by apply get_rules_text|].
  destruct Hf as (Hl & L1 & L2 & L3). unfold rules_text in Hl. rewrite !length_app in Hl; cbn in Hl.
  rewrite !length_app in Hl; cbn in Hl. unfold parse_rules. change (MAX_RULE_LINE_LEN * 3)%nat with 777%nat.
  assert (Hlt : (length (rule_line 2 e2 ++ NL :: rule_line 1 e1 ++ [NL]) < 777)%nat).
  { rewrite length_app; cbn [length]. rewrite length_app; cbn [length]. lia. }
  rewrite (proj2 (Nat.ltb_ge _ _)), (proj2 (Nat.eqb_neq _ _)) by lia.
  destruct (rule_line_clean 1 e1 H1) as [N1 _]. destruct (rule_line_clean 2 e2 H2) as [N2 _].
  rewrite !tokens_app by done. rewrite !rule_lines_step by (done || lia). done.
Qed.

(** C6: with a rules file of three rules that fits, [check_user_login_rule] always decides: it admits
    the login exactly when the user or the terminal is exempt, or none of the rules selected for the
    user is enabled, or one of them admits the login by its time, address and MAC tests. *)
Theorem login_rule_decision env u ip tty e1 e2 e3 :
  entry_ok e1 -> entry_ok e2 -> entry_ok e3 -> text_fits e1 e2 e3 ->
  rules_file env = good_file (rules_text e1 e2 e3) -> (forall t, local_time env t <> None) ->
  0 <= user_login_rule u < 256 ->
  exists ret, check_user_login_rule env u (Some ip) (Some tty) = Some ret /\
    (ret = RET_OK \/ ret = USER_LOGIN_LIMITED) /\
    (ret = RET_OK <->
     exempt u tty \/
     (forall i e, [e1; e2; e3] !! i = Some e -> ~ entry_selected (user_login_rule u) i e) \/
     (exists i e, [e1; e2; e3] !! i = Some e /\ entry_selected (user_login_rule u) i e /\ entry_admits env ip e)).
Proof.
  intros H1 H2 H3 Hf Hfile Hl Hu. unfold check_user_login_rule, exempt.
  destruct (has_prefix UART2_NAME tty) eqn:P1; cbn [orb]; [exists RET_OK; intuition|].
  destruct (has_prefix FTP_NAME tty) eqn:P2; [exists RET_OK; intuition|].
  destruct (Z.eqb_spec (user_login_rule u) 0) as [?|N0]; [exists RET_OK; intuition|].
  destruct (Z.eqb_spec (is_exclude_user u) 1) as [?|N1]; [exists RET_OK; intuition|].
  rewrite Hfile, get_rules_text by done. cbn [RET_OK Z.eqb negb].
  destruct (check_rules_decision env (user_login_rule u) (Some ip) (rule_of 1 e1) (rule_of 2 e2) (rule_of 3 e3))
    as (ret & -> & Hret & Hiff).
  { rewrite (forall_three (fun idx r => _ -> check_one_rule env (Some ip) r <> None)).
    repeat split; intros _; by apply check_rule_defined. }
  exists ret. split; [done|]. split; [done|]. rewrite Hiff.
  rewrite (forall_three (fun idx r => rule_applies (u8 (user_login_rule u)) idx r = false)).
  rewrite (exists_three (fun idx r => rule_applies (u8 (user_login_rule u)) idx r = true /\
                          check_one_rule env (Some ip) r = Some RET_OK)).
  assert (Hadm : forall id e, entry_ok e -> check_one_rule env (Some ip) (rule_of id e) = Some RET_OK <-> entry_admits env ip e).
  { intros id e He. rewrite check_one_rule_ok, (select_ip_rule_of id e He). unfold entry_admits.
    cbn [time_rule mac_rule rule_of]. naive_solver. }
  rewrite !Hadm by done. rewrite <- !not_true_iff_false, !rule_applies_selected by done.
  rewrite (forall_three (fun i e => ~ entry_selected (user_login_rule u) i e)).
  rewrite (exists_three (fun i e => entry_selected (user_login_rule u) i e /\ entry_admits env ip e)).
  intuition congruence.
Qed.

(** C39: a rules file longer than the 777 bytes of the buffer switches the rules off: whatever it says,
    every user is admitted from everywhere (the failed copy is reported by [parse_rules] and ignored
    by [get_login_rules], which leaves all rules disabled). *)
Theorem oversized_rules_admit_all env text u ip tty ids :
  no_nul text -> (777 < length text)%nat -> rules_file env = good_file text ->
  check_user_login_rule env u ip (Some tty) = Some RET_OK /\
  check_snmpv1v2_login_rule env ids ip = Some RET_OK.
Proof.
  intros Hn Hl Hf.
  assert (Hg : get_login_rules (rules_file env) zero_rules = Some (RET_OK, zero_rules)).
  { rewrite Hf. unfold get_login_rules; cbn [good_file tf_open tf_stat tf_bytes tf_read].
    destruct (Nat.eqb_spec (length text) 0); [lia|].
    rewrite (proj2 (Z.ltb_ge (Z.of_nat _) 0)) by lia. cbn [Z.ltb Z.eqb negb Z.compare].
    rewrite tf_text_good by done. unfold parse_rules. change (MAX_RULE_LINE_LEN * 3)%nat with 777%nat.
    by rewrite (proj2 (Nat.ltb_lt _ _)). }
  assert (Hz : forall ids, check_rules env ids ip zero_rules = Some RET_OK) by reflexivity.
  unfold check_user_login_rule, check_snmpv1v2_login_rule. rewrite Hg. cbn [RET_OK Z.eqb negb].
  rewrite !Hz. by repeat case_match.
Qed.

(** The MAC rule admits an address when ARP knows it on some interface, other than the loopback,
    with a hardware address that starts with the rule, whatever the case of the letters; and also when
    no other interface than the loopback is up, whatever the rule: the return code of the loop is
    then still that of the ioctl before it. *)
Theorem mac_rule_decision env rule ip a :
  inet_pton4 ip = Some a ->
  (check_mac env rule ip = RET_OK <->
   socket_ok env = true /\ exists names, if_names env = Some names /\
     ((forall n, n ∈ names -> n = lit "lo") \/
      exists n sa, n ∈ names /\ n <> lit "lo" /\
        arp_lookup env a (snd (strncpy_s IFNAMSIZ n (IFNAMSIZ - 1))) = Some sa /\
        has_case_prefix rule (format_mac (char_signed env) sa) = true)).
Proof.
  intros Ha. unfold check_mac.
  set (hit := fun n => n <> lit "lo" /\ exists sa,
    arp_lookup env a (snd (strncpy_s IFNAMSIZ n (IFNAMSIZ - 1))) = Some sa /\ has_case_prefix rule (format_mac (char_signed env) sa) = true).
  assert (Hloop : forall it ret, mac_loop env rule ip it ret = RET_OK <->
    (Forall (fun n => n = lit "lo") it /\ ret = RET_OK) \/ Exists hit it).
  { induction it as [|n it IH]; intros ret; cbn [mac_loop].
    - rewrite Exists_nil. intuition.
    - rewrite Forall_cons, Exists_cons. destruct (str_eqb n (lit "lo")) eqn:En.
      + apply str_eqb_eq in En. rewrite IH. unfold hit at 2. intuition.
      + apply str_eqb_neq in En. unfold get_mac_by_socket. rewrite Ha. cbv zeta.
        destruct (arp_lookup env a _) as [sa|] eqn:Ear; cbn [EOK RET_OK RET_ERR Z.eqb negb].
        * destruct (has_case_prefix rule (format_mac (char_signed env) sa)) eqn:Ep; cbn [RET_OK Z.eqb].
          -- split; [intros _; right; left; split; [done|by exists sa]|done].
          -- rewrite IH. split; [intros [[_ ?]|?]; [done|by right; right]|].
             intros [[[? _] _]|[(_ & sa' & Es & ?)|?]]; [done| |by right].
             rewrite Ear in Es. congruence.
        * rewrite IH. split; [intros [[_ ?]|?]; [done|by right; right]|].
          intros [[[? _] _]|[(_ & sa' & Es & ?)|?]]; [done| |by right]. by rewrite Ear in Es. }
  destruct (socket_ok env); cbn [negb]; [|split; [done|naive_solver]].
  destruct (if_names env) as [names|]; [|split; [done|naive_solver]].
  assert (Hret : forall z, (if z =? RET_OK then RET_OK else RET_ERR) = RET_OK <-> z = RET_OK).
  { intros z. destruct (Z.eqb_spec z RET_OK); split; done. }
  rewrite Hret, Hloop, Forall_forall, Exists_exists. unfold hit. naive_solver.
Qed.

(** ** The theorems at concrete inputs *)

Definition at_moment (y mo d h mi : Z) : moment :=
  {| m_year := y; m_mon := mo; m_mday := d; m_hour := h; m_min := mi |}.

Definition tm_of (m : moment) : tm :=
  {| tm_year := m_year m - 1900; tm_mon := m_mon m - 1; tm_mday := m_mday m; tm_hour := m_hour m; tm_min := m_min m |}.


Definition entry1 : rule_entry := {|
  e_enabled := 1; e_time := lit "08:00/12:30"; e_ip := lit "192.168.2.0/24"; e_mac := []; e_ip6 := lit "2001:db8::/32" |}.
Definition entry2 : rule_entry := {|
  e_enabled := 1; e_time := []; e_ip := []; e_mac := lit "00:1A:2B"; e_ip6 := lit "2001:db8::/32" |}.
Definition entry3 : rule_entry := {| e_enabled := 0; e_time := []; e_ip := []; e_mac := []; e_ip6 := [] |}.

Lemma entries_ok : entry_ok entry1 /\ entry_ok entry2 /\ entry_ok entry3.
Proof.
  unfold entry_ok, field_ok, rule_text, no_nul. rewrite <- !strchr_None. vm_compute.
  repeat split; (reflexivity || discriminate || lia).
Qed.

Lemma entries_fit : text_fits entry1 entry2 entry3.
Proof. unfold text_fits. vm_compute. lia. Qed.

Lemma rules_file_roundtrip_witness :
  get_login_rules (good_file (rules_text entry1 entry2 entry3)) zero_rules
  = Some (RET_OK, [rule_of 1 entry1; rule_of 2 entry2; rule_of 3 entry3]).
Proof.
  destruct entries_ok as (H1 & H2 & H3).
  exact (proj1 (rules_file_roundtrip entry1 entry2 entry3 H1 H2 H3 entries_fit)).
Defined.

Lemma login_rule_decision_witness :
  exists ret, check_user_login_rule (demo_env (rules_text entry1 entry2 entry3) (tm_of (at_moment 2024 2 29 9 0)))
    (demo_user 3) (Some (lit "192.168.2.9")) (Some (lit "ssh")) = Some ret /\
    (ret = RET_OK \/ ret = USER_LOGIN_LIMITED) /\ ret = RET_OK.
Proof.
  destruct entries_ok as (H1 & H2 & H3).
  destruct (login_rule_decision (demo_env (rules_text entry1 entry2 entry3) (tm_of (at_moment 2024 2 29 9 0)))
    (demo_user 3) (lit "192.168.2.9") (lit "ssh") entry1 entry2 entry3 H1 H2 H3 entries_fit eq_refl
    ltac:(discriminate) ltac:(cbn; lia)) as (ret & He & Hr & Hiff).
  exists ret. split; [exact He|]. split; [exact Hr|]. apply Hiff. right; right.
  exists 0%nat, entry1. split; [reflexivity|]. split; [split; [discriminate|reflexivity]|].
  split; [vm_compute; reflexivity|split; vm_compute; reflexivity].
Defined.

(** Three full lines of 259 characters. *)
Definition big_rules : list ascii :=
  let line i := lit i ++ replicate 258 "9"%char ++ [NL] in line "1"%string ++ line "2"%string ++ line "3"%string.

Lemma oversized_rules_admit_all_witness :
  check_user_login_rule (demo_env big_rules (tm_of (at_moment 2024 2 29 9 0)))
    (demo_user 7) (Some (lit "203.0.113.5")) (Some (lit "ssh")) = Some RET_OK.
Proof.
  refine (proj1 (oversized_rules_admit_all (demo_env big_rules (tm_of (at_moment 2024 2 29 9 0))) big_rules
    (demo_user 7) (Some (lit "203.0.113.5")) (lit "ssh") 7 _ _ eq_refl)).
  - unfold no_nul. apply strchr_None. vm_compute. reflexivity.
  - vm_compute. lia.
Defined.

Lemma mac_rule_decision_witness :
  check_mac (demo_env demo_rules (tm_of (at_moment 2024 2 29 9 0))) (lit "00:1A:2b") (lit "10.0.0.1") = RET_OK.
Proof.
  apply (mac_rule_decision (demo_env demo_rules (tm_of (at_moment 2024 2 29 9 0))) (lit "00:1A:2b") (lit "10.0.0.1")
    [10; 0; 0; 1] eq_refl).
  split; [reflexivity|]. exists [lit "lo"; lit "eth2"]. split; [reflexivity|]. right.
  exists (lit "eth2"), [0; 26; 43; 60; 77; 255]. split; [right; left|]. split; [discriminate|].
  split; [reflexivity|vm_compute; reflexivity].
Defined.
