(* ===== verification/FailureLog.v ===== *)
(** * What a bounded log of failure times promises

    Abstract specification shared by the per-user records (TallyLog.v) and the per-IP
    records (IpLock.v): a log is the list of the failure times it holds, in no
    particular order; adding to a full log overwrites an oldest entry. As long as
    failures arrive in time order the log holds exactly the last [cap] of them
    ([log_keeps_last]). *)
From S2P Require Export RecordFile.
From Stdlib Require Export Sorted.

(** time of the last failure, 0 for an empty log *)
Definition latest (ts : list Z) : Z := foldr Z.max 0 ts.

(** failures less than [window] older than [last] *)
Definition recent (last window : Z) (ts : list Z) : nat :=
  length (filter (fun t => last - t < window) ts).

Section log.
Context (cap : nat).

Definition log_add (ts : list Z) (t : Z) : list Z :=
  if (length ts =? cap)%nat then
    match ts with
    | [] => []
    | t0 :: rest => <[oldest_from 1 0 t0 rest := t]> ts
    end
  else ts ++ [t].

(** The log after the failures [times], oldest first. *)
Definition log_run (ts : list Z) (times : list Z) : list Z := fold_left log_add times ts.

(** The last [cap] elements. *)
Definition last_n (times : list Z) : list Z := drop (length times - cap) times.
End log.

(** ** Counting does not depend on the order of the records *)

#[export] Instance latest_perm : Proper ((≡ₚ) ==> eq) latest.
Proof. intros ts ts' H. unfold latest. induction H; cbn; lia. Qed.

#[export] Instance recent_perm last window : Proper ((≡ₚ) ==> eq) (recent last window).
Proof. intros ts ts' H. unfold recent. by rewrite H. Qed.

Lemma latest_ge t ts : t ∈ ts -> t <= latest ts.
Proof. unfold latest. induction 1; cbn; lia. Qed.

Lemma latest_in ts : ts = [] \/ latest ts = 0 \/ latest ts ∈ ts.
Proof.
  induction ts as [|t ts IH]; [by left|]. right. unfold latest; cbn. fold (latest ts).
  destruct (Z.max_spec t (latest ts)) as [[? ->]|[? ->]]; [|right; left].
  destruct IH as [->|[?|?]]; [left; done|by left|right; by right].
Qed.

Lemma latest_range ts b :
  0 < b -> Forall (fun t => 0 <= t < b) ts -> 0 <= latest ts < b.
Proof. unfold latest. induction 2; cbn; lia. Qed.

Lemma latest_snoc ts t :
  0 <= t -> Forall (fun u => u <= t) ts -> latest (ts ++ [t]) = t.
Proof. unfold latest. induction 2; cbn; lia. Qed.

Lemma recent_le_length last window ts : (recent last window ts <= length ts)%nat.
Proof. apply length_filter. Qed.

Lemma recent_all last window ts :
  Forall (fun t => last - t < window) ts -> recent last window ts = length ts.
Proof.
  unfold recent. induction 1 as [|t ts Ht Hts IH]; [done|].
  rewrite filter_cons_True by done. cbn [length]. by rewrite IH.
Qed.

(** ** The log keeps the last failures *)

Lemma insert_perm (ts : list Z) i m t S :
  ts !! i = Some m -> ts ≡ₚ m :: S -> <[i := t]> ts ≡ₚ S ++ [t].
Proof.
  intros Hi Hp. pose proof (lookup_lt_Some _ _ _ Hi) as Hlt.
  rewrite insert_take_drop by done.
  rewrite <- (take_drop_middle ts i m Hi) in Hp.
  rewrite <- Permutation_middle in Hp. apply Permutation_cons_inv in Hp.
  rewrite <- Permutation_middle, Hp. apply Permutation_cons_append.
Qed.

Lemma log_add_length cap ts t :
  (0 < cap)%nat -> (length ts <= cap)%nat -> (length (log_add cap ts t) <= cap)%nat.
Proof.
  intros Hc Hl. unfold log_add. destruct (Nat.eqb_spec (length ts) cap).
  - destruct ts; [cbn; lia|]. by rewrite length_insert.
  - rewrite length_app; cbn. lia.
Qed.

Lemma log_add_perm cap ts S t :
  (0 < cap)%nat -> ts ≡ₚ S -> (length S <= cap)%nat -> StronglySorted Z.le S ->
  log_add cap ts t ≡ₚ last_n cap (S ++ [t]).
Proof.
  intros Hc Hp Hl Hs. unfold log_add, last_n. rewrite length_app; cbn [length].
  destruct (Nat.eqb_spec (length ts) cap) as [He|Hne].
  - destruct S as [|m S]; [apply Permutation_length in Hp; cbn in *; lia|].
    pose proof (Permutation_length Hp) as Hlen. cbn [length] in *.
    replace (Datatypes.S (length S) + 1 - cap)%nat with 1%nat by lia. cbn [drop app].
    destruct ts as [|t0 rest]; [done|]. rewrite ?drop_0.
    destruct (oldest_index_min t0 rest) as (u & Hu & Hmin).
    assert (u = m) as ->.
    { assert (Hm : m ∈ t0 :: rest) by (rewrite Hp; left).
      assert (Hin : u ∈ m :: S) by (rewrite <- Hp; by apply list_elem_of_lookup_2 in Hu).
      rewrite Forall_forall in Hmin. apply Hmin in Hm.
      apply StronglySorted_inv in Hs as [_ Hs]. rewrite List.Forall_forall in Hs.
      apply elem_of_cons in Hin as [->|Hin]; [done|].
      apply list_elem_of_In, Hs in Hin. lia. }
    by apply insert_perm with m.
  - apply Permutation_length in Hp as Hlen.
    replace (length S + 1 - cap)%nat with 0%nat by lia. by rewrite drop_0, Hp.
Qed.

Lemma last_n_length cap l : length (last_n cap l) = Nat.min cap (length l).
Proof. unfold last_n. rewrite length_drop. lia. Qed.

Lemma last_n_snoc cap l t :
  (0 < cap)%nat -> last_n cap (last_n cap l ++ [t]) = last_n cap (l ++ [t]).
Proof.
  intros Hc. unfold last_n. rewrite !length_app, length_drop; cbn [length].
  destruct (Nat.le_gt_cases (length l + 1) cap).
  - by replace (length l - cap)%nat with 0%nat by lia; rewrite drop_0, Nat.sub_0_r.
  - rewrite !drop_app_le by (rewrite ?length_drop; lia). rewrite drop_drop.
    do 2 f_equal. lia.
Qed.

Lemma StronglySorted_drop {A} (R : A -> A -> Prop) n l :
  StronglySorted R l -> StronglySorted R (drop n l).
Proof.
  revert l; induction n as [|n IH]; intros l Hs; [by rewrite drop_0|].
  destruct l as [|x l]; [done|]. apply StronglySorted_inv in Hs as [Hs _]. by apply IH.
Qed.

Lemma StronglySorted_app_l {A} (R : A -> A -> Prop) l k :
  StronglySorted R (l ++ k) -> StronglySorted R l.
Proof.
  induction l as [|x l IH]; cbn; intros Hs; [constructor|].
  apply StronglySorted_inv in Hs as [Hs HF]. constructor; [by apply IH|].
  apply List.Forall_app in HF. by destruct HF.
Qed.

(** Failures in time order: the log holds the last [cap] of them. *)
Lemma log_keeps_last cap times :
  (0 < cap)%nat -> StronglySorted Z.le times -> log_run cap [] times ≡ₚ last_n cap times.
Proof.
  intros Hc. induction times as [|t times IH] using rev_ind; intros Hs; [done|].
  unfold log_run in *. rewrite fold_left_app; cbn [fold_left].
  specialize (IH (StronglySorted_app_l _ _ _ Hs)).
  rewrite <- last_n_snoc by done. apply log_add_perm; [done|done| |].
  - rewrite last_n_length. lia.
  - apply StronglySorted_drop. by eapply StronglySorted_app_l.
Qed.
