(* ===== verification/TallyLog.v ===== *)
(** * pam_tally_ext.c: the record of a user's failed logins

    One file per user holds up to [MAX_RECORDS] records of 64 bytes. The component
    opens it under a lock ([open_tally]), counts the recent failures
    ([get_user_info]), adds one ([increment_pam_tally]) or empties it
    ([reset_pam_tally]). *)
From S2P Require Export Stdio FailureLog.

(** ** Data *)
Definition FAILLOCK_RECORD_VALID : Z := 1.
Definition FAILLOCK_SOURCE_RHOST : Z := 2.
Definition MAX_RECORDS : Z := 1024.
Definition ACTUAL_ROOT_USER_NAME : list ascii := lit "root".
Definition RESERVED_ROOT_USER_NAME : list ascii := lit "<root>".
Definition NO_INTERVAL : Z := -1.
Definition TALLY_FAIL_INTERVAL_ADD_SECONDS : Z := 300.

Record TallyRecord := {
  record_name : list ascii;   (* 52 bytes *)
  reserved : Z;               (* guint16 *)
  status : Z;                 (* guint16 *)
  timestamp : Z               (* guint64 *)
}.

Record TallyLog := { fail_cnt : Z (* guint16 *); fail_time : Z (* guint64 *) }.

Definition TallyRecord_enc (r : TallyRecord) : list ascii :=
  record_name r ++ le_encode 2 (reserved r) ++ le_encode 2 (status r) ++ le_encode 8 (timestamp r).

Definition TallyRecord_dec (bs : list ascii) : TallyRecord := {|
  record_name := take 52 bs;
  reserved := le_decode (take 2 (drop 52 bs));
  status := le_decode (take 2 (drop 54 bs));
  timestamp := le_decode (take 8 (drop 56 bs))
|}.

Definition TallyRecord_wf (r : TallyRecord) : Prop :=
  length (record_name r) = 52%nat /\ 0 <= reserved r < 2 ^ 16 /\ 0 <= status r < 2 ^ 16 /\
  0 <= timestamp r < 2 ^ 64.

#[export, program] Instance TallyRecord_codec : RecordCodec TallyRecord := {|
  rec_size := 64%nat;
  rec_enc := TallyRecord_enc;
  rec_dec := TallyRecord_dec;
  rec_wf := TallyRecord_wf
|}.
Next Obligation. lia. Qed.
Next Obligation.
  intros r (Hn & _). unfold TallyRecord_enc. rewrite !length_app, !length_le_encode, Hn. done.
Qed.
Next Obligation.
  intros [nm rs st ts] (Hn & Hr & Hs & Ht); cbn in Hn, Hr, Hs, Ht.
  unfold TallyRecord_dec, TallyRecord_enc; cbn [record_name reserved status timestamp].
  assert (H54 : forall x y z : list ascii, length x = 2%nat -> drop 54 (nm ++ x ++ y ++ z) = y ++ z).
  { intros x y z Hx. rewrite app_assoc. apply drop_app_length'. rewrite length_app. lia. }
  assert (H56 : forall x y z : list ascii, length x = 2%nat -> length y = 2%nat ->
            drop 56 (nm ++ x ++ y ++ z) = z).
  { intros x y z Hx Hy. rewrite !app_assoc. apply drop_app_length'. rewrite !length_app. lia. }
  rewrite H54, H56 by apply length_le_encode.
  rewrite take_app_length', drop_app_length' by done.
  rewrite !take_app_length' by (by rewrite length_le_encode).
  rewrite take_ge by (by rewrite length_le_encode).
  by rewrite !le_decode_encode_small.
Qed.
Next Obligation.
  intros bs Hb. unfold TallyRecord_wf, TallyRecord_dec; cbn. split; [rewrite length_take; lia|].
  split; [|split].
  - exact (le_field_range 52 2 bs ltac:(lia)).
  - exact (le_field_range 54 2 bs ltac:(lia)).
  - exact (le_field_range 56 8 bs ltac:(lia)).
Qed.

(** ** Opening a record file *)

(** The path [gs_path] that [open_tally] builds; [dir] is not empty. *)
Definition tally_path (user dir : list ascii) : list ascii :=
  (if bool_decide (last dir = Some "/"%char) then dir else dir ++ lit "/")
    ++ (if str_eqb user ACTUAL_ROOT_USER_NAME then RESERVED_ROOT_USER_NAME else user).

(** A missing directory is created, the file is opened with "a+" and locked; [None] is NULL. *)
Definition open_tally (e : os_env) (f : fs) (user : list ascii) (dir : option (list ascii))
    : option (list ascii) * fs :=
  match dir with
  | None => (None, f)
  | Some dir =>
      if (length dir =? 0)%nat || contains (lit "../") user then (None, f)
      else
        let '(dir_ok, f1) :=
          if bool_decide (dir ∈ dirs f) then (true, f)
          else if mkdir_ok e then (chown_ok e, make_dir f dir) else (false, f) in
        if negb dir_ok then (None, f1)
        else if fopen_ok e then (Some (tally_path user dir), create f1 (tally_path user dir))
        else (None, f1)
  end.

(** ** Reading: the return code, the records, the content the file is left with *)
Definition read_tally (e : os_env) (c : list ascii) : Z * list TallyRecord * list ascii :=
  let size := if ftell_ok e then s32 (Z.of_nat (length c)) else -1 in
  if size <? 0 then (RET_ERR, [], c)
  else
    let unsigned_size := if MAX_RECORDS * 64 <? size then MAX_RECORDS * 64 else size in
    if negb (unsigned_size mod 64 =? 0) then (RET_ERR, [], ftruncate0 e c)
    else
      let count := unsigned_size / 64 in
      if negb (fread_ret e count =? count) then (RET_ERR, [], c)
      else (RET_OK, decode_array (Z.to_nat count) c, c).

(** ** Counting the recent failures *)
Definition record_valid (r : TallyRecord) : bool :=
  negb (Z.land (status r) FAILLOCK_RECORD_VALID =? 0).

(** First loop of [get_user_info]: the time of the last failure. *)
Fixpoint latest_loop (latest_time : Z) (records : list TallyRecord) : Z :=
  match records with
  | [] => latest_time
  | r :: rest =>
      if negb (record_valid r) then latest_loop latest_time rest
      else if latest_time <? timestamp r then latest_loop (timestamp r) rest
      else latest_loop latest_time rest
  end.

(** Second loop: [failures] is a guint32, the difference a guint64. *)
Fixpoint failures_loop (latest_time fail_interval failures : Z) (records : list TallyRecord) : Z :=
  match records with
  | [] => failures
  | r :: rest =>
      if negb (record_valid r) then failures_loop latest_time fail_interval failures rest
      else if u64 (latest_time - timestamp r) <? fail_interval
      then failures_loop latest_time fail_interval (u32 (failures + 1)) rest
      else failures_loop latest_time fail_interval failures rest
  end.

Definition get_user_info (e : os_env) (f : fs) (user : list ascii) (dir : option (list ascii))
    (unlock_time interval : Z) (tally : TallyLog) : Z * TallyLog * fs :=
  match open_tally e f user dir with
  | (None, f1) => (RET_ERR, tally, f1)
  | (Some path, f1) =>
      let '(ret, records, c) := read_tally e (content f1 path) in
      let f2 := set_file f1 path c in
      if negb (ret =? RET_OK) then (ret, tally, f2)
      else
        let fail_interval :=
          if interval =? NO_INTERVAL then u64 (unlock_time + TALLY_FAIL_INTERVAL_ADD_SECONDS)
          else u64 interval in
        let latest_time := latest_loop 0 records in
        let failures := failures_loop latest_time fail_interval 0 records in
        if u64 (now e) <=? u64 (latest_time + unlock_time)
        then (ret, {| fail_cnt := u16 failures; fail_time := latest_time |}, f2)
        else (ret, {| fail_cnt := 0; fail_time := 0 |}, f2)
  end.

Definition get_pam_tally (e : os_env) (f : fs) (username : list ascii)
    (tally_dir : option (list ascii)) (unlock_time : Z) (tally : option TallyLog)
    : Z * option TallyLog * fs :=
  match tally_dir, tally with
  | Some _, Some t =>
      let '(ret, t', f') := get_user_info e f username tally_dir unlock_time NO_INTERVAL t in
      (ret, Some t', f')
  | _, _ => (RET_ERR, tally, f)
  end.

Definition get_pam_tally_with_fail_interval (e : os_env) (f : fs) (username : list ascii)
    (tally_dir : option (list ascii)) (unlock_time fail_interval : Z) (tally : option TallyLog)
    : Z * option TallyLog * fs :=
  match tally_dir, tally with
  | Some _, Some t =>
      let '(ret, t', f') := get_user_info e f username tally_dir unlock_time fail_interval t in
      (ret, Some t', f')
  | _, _ => (RET_ERR, tally, f)
  end.

(** ** Resetting *)
Definition reset_pam_tally (e : os_env) (f : fs) (user tally_dir : option (list ascii)) : Z * fs :=
  match user, tally_dir with
  | Some user, Some dir =>
      match open_tally e f user (Some dir) with
      | (None, f1) => (RET_ERR, f1)
      | (Some path, f1) =>
          match ftruncate_err e with
          | Some _ => (RET_ERR, f1)
          | None => (RET_OK, set_file f1 path [])
          end
      end
  | _, _ => (RET_ERR, f)
  end.

(** ** Adding a failure *)

Definition user_record (t : Z) (old : TallyRecord) : TallyRecord := {|
  record_name := set_name "User" (record_name old);
  reserved := reserved old;
  status := Z.lor FAILLOCK_RECORD_VALID FAILLOCK_SOURCE_RHOST;
  timestamp := t
|}.

(** The record [g_malloc0] leaves in a slot that was never written. *)
Definition zero_record : TallyRecord := {|
  record_name := replicate 52 NUL; reserved := 0; status := 0; timestamp := 0
|}.

(** A full table gives up its oldest record, otherwise one is appended. *)
Definition update_tally (t : Z) (tallies : list TallyRecord) : Z * list TallyRecord :=
  if Z.of_nat (length tallies) =? MAX_RECORDS
  then
    let loc_idx :=
      match tallies with
      | [] => O
      | r0 :: rest => oldest_from 1 0 (timestamp r0) (map timestamp rest)
      end in
    (RET_OK, alter (user_record t) loc_idx tallies)
  else
    let newdata := tallies ++ [zero_record] in
    let loc_idx := (length newdata - 1)%nat in
    (RET_OK, alter (user_record t) loc_idx newdata).

Definition increment_pam_tally (e : os_env) (f : fs) (user tally_dir : option (list ascii)) : Z * fs :=
  match user, tally_dir with
  | Some user, Some dir =>
      match open_tally e f user (Some dir) with
      | (None, f1) => (RET_ERR, f1)
      | (Some path, f1) =>
          let '(ret, tallies, c) := read_tally e (content f1 path) in
          let f2 := set_file f1 path c in
          if negb (ret =? RET_OK) then (ret, f2)
          else
            let '(ret, tallies) := update_tally (u64 (now e)) tallies in
            if negb (ret =? 0) then (ret, f2)
            else
              match ftruncate_err e with
              | Some errno => (errno, f2)
              | None =>
                  let f3 := set_file f2 path [] in
                  if negb (fseek_ret e =? 0) then (fseek_ret e, f3)
                  else
                    let data := encode_array tallies in
                    let '(written, c) := fwrite_append e data [] in
                    let f4 := set_file f3 path c in
                    if negb (written =? length tallies * 64)%nat then (RET_ERR, f4)
                    else (fseek_ret e, f4)
              end
      end
  | _, _ => (RET_ERR, f)
  end.

(** Concrete runs: two failures at times 100 and 110 are both counted at 115. *)
Example tally_run :
  let dir := Some (lit "/dev/shm/tallylog") in
  let f1 := snd (increment_pam_tally (nominal 100) (Fs ∅ ∅) (Some (lit "root")) dir) in
  let f2 := snd (increment_pam_tally (nominal 110) f1 (Some (lit "root")) dir) in
  fst (get_user_info (nominal 115) f2 (lit "root") dir 60 30 {| fail_cnt := 9; fail_time := 9 |})
  = (RET_OK, {| fail_cnt := 2; fail_time := 110 |}).
Proof. vm_compute. reflexivity. Qed.

(** ** What reading a file gives *)

Lemma s32_le z : 0 <= z -> s32 z <= z.
Proof. intros. unfold s32. dlia. Qed.

Lemma read_tally_ok e c rs c' :
  read_tally e c = (RET_OK, rs, c') ->
  c' = c /\ (length rs <= 1024)%nat /\ Forall rec_wf rs.
Proof.
  unfold read_tally.
  set (size := if ftell_ok e then s32 (Z.of_nat (length c)) else -1).
  assert (Hs : size <= Z.of_nat (length c)).
  { unfold size. destruct (ftell_ok e); [apply s32_le|]; lia. }
  destruct (Z.ltb_spec size 0); [done|].
  set (us := if MAX_RECORDS * 64 <? size then MAX_RECORDS * 64 else size).
  assert (Hu : 0 <= us <= MAX_RECORDS * 64 /\ us <= Z.of_nat (length c)).
  { unfold us, MAX_RECORDS. destruct (Z.ltb_spec (1024 * 64) size); lia. }
  unfold MAX_RECORDS in Hu.
  destruct (negb _); [done|]. destruct (negb _); [done|].
  intros [= <- <-]. split; [done|]. split.
  - rewrite length_decode_array. dlia.
  - apply decode_array_wf. cbn [rec_size TallyRecord_codec]. dlia.
Qed.

Lemma read_tally_length e c ret rs c' :
  read_tally e c = (ret, rs, c') -> (length c' <= length c)%nat.
Proof.
  unfold read_tally, ftruncate0.
  repeat case_match; intros [= <- <- <-]; cbn; lia.
Qed.

(** Without failures of the system calls, a readable file is read record by record. *)
Lemma read_tally_nominal t rs :
  Forall rec_wf rs -> (length rs <= 1024)%nat ->
  read_tally (nominal t) (encode_array rs) = (RET_OK, rs, encode_array rs).
Proof.
  intros Hwf Hl. pose proof (length_encode_array rs Hwf) as He.
  cbn [rec_size TallyRecord_codec] in He.
  unfold read_tally; cbn [ftell_ok nominal fread_ret]. rewrite He.
  rewrite s32_small by lia. unfold MAX_RECORDS.
  rewrite (proj2 (Z.ltb_ge _ _)) by lia. rewrite (proj2 (Z.ltb_ge _ _)) by lia.
  replace (Z.of_nat (length rs * 64)) with (Z.of_nat (length rs) * 64) by lia.
  rewrite Z.mod_mul, Z.div_mul by lia. cbn [negb Z.eqb].
  rewrite Z.eqb_refl, Nat2Z.id. cbn [negb]. do 2 f_equal.
  rewrite <- (app_nil_r (encode_array rs)). by apply decode_encode_array.
Qed.

(** ** What counting returns *)

Definition valid_times (records : list TallyRecord) : list Z :=
  timestamp <$> filter (fun r => record_valid r = true) records.
Lemma valid_times_cons r rs :
  valid_times (r :: rs) = if record_valid r then timestamp r :: valid_times rs else valid_times rs.
Proof.
  unfold valid_times. rewrite filter_cons. case_decide as H.
  - by rewrite H.
  - by destruct (record_valid r).
Qed.

Lemma latest_loop_spec rs a :
  latest_loop a rs = foldr Z.max a (valid_times rs).
Proof.
  revert a; induction rs as [|r rs IH]; intros a; cbn [latest_loop]; [done|].
  rewrite valid_times_cons. destruct (record_valid r); cbn [negb]; [|apply IH].
  assert (Hmax : forall b c ts, foldr Z.max (Z.max b c) ts = Z.max b (foldr Z.max c ts)).
  { intros b c ts. induction ts; cbn; lia. }
  cbn [foldr]. destruct (Z.ltb_spec a (timestamp r)); rewrite IH, <- Hmax; f_equal.
  - rewrite <- (Z.max_l (timestamp r) a) at 1 by lia. done.
  - rewrite Z.max_r by lia. done.
Qed.

Lemma failures_loop_spec last window n rs :
  Forall (fun t => 0 <= t <= last) (valid_times rs) -> last < 2 ^ 64 ->
  0 <= n -> n + Z.of_nat (length rs) < 2 ^ 32 ->
  failures_loop last window n rs = n + Z.of_nat (recent last window (valid_times rs)).
Proof.
  intros HF Hl. revert n; induction rs as [|r rs IH]; intros n Hn Hb; cbn [failures_loop length] in *.
  - unfold recent; cbn. lia.
  - rewrite valid_times_cons in *. destruct (record_valid r); cbn [negb].
    + apply Forall_cons in HF as [Hr HF]. rewrite u64_small by lia.
      unfold recent. rewrite filter_cons.
      destruct (Z.ltb_spec (last - timestamp r) window); case_decide; try lia; cbn [length].
      * rewrite u32_small, IH by (done || lia). unfold recent. lia.
      * rewrite IH by (done || lia). done.
    + by rewrite IH by (done || lia).
Qed.

Lemma valid_times_length rs : (length (valid_times rs) <= length rs)%nat.
Proof. unfold valid_times. rewrite length_fmap. apply length_filter. Qed.

Lemma valid_times_range rs :
  Forall rec_wf rs -> Forall (fun t => 0 <= t < 2 ^ 64) (valid_times rs).
Proof.
  induction 1 as [|r rs Hr Hrs IH]; [constructor|].
  rewrite valid_times_cons. destruct (record_valid r); [|done].
  constructor; [|done]. apply Hr.
Qed.

Definition tally_answer (t unlock window : Z) (ts : list Z) : TallyLog :=
  if u64 t <=? u64 (latest ts + unlock)
  then {| fail_cnt := Z.of_nat (recent (latest ts) window ts); fail_time := latest ts |}
  else {| fail_cnt := 0; fail_time := 0 |}.

Definition window_of (unlock interval : Z) : Z :=
  if interval =? NO_INTERVAL then u64 (unlock + TALLY_FAIL_INTERVAL_ADD_SECONDS) else u64 interval.

Lemma get_user_info_exact e f user dir unlock interval tally path f1 rs c :
  open_tally e f user dir = (Some path, f1) ->
  read_tally e (content f1 path) = (RET_OK, rs, c) ->
  get_user_info e f user dir unlock interval tally =
    (RET_OK, tally_answer (now e) unlock (window_of unlock interval) (valid_times rs),
     set_file f1 path c).
Proof.
  intros Ho Hr. pose proof (read_tally_ok _ _ _ _ Hr) as (-> & Hlen & Hwf).
  unfold get_user_info. rewrite Ho, Hr. cbn [negb Z.eqb RET_OK].
  fold (window_of unlock interval). rewrite latest_loop_spec. fold (latest (valid_times rs)).
  pose proof (valid_times_range rs Hwf) as HR. pose proof (latest_range _ (2 ^ 64) ltac:(lia) HR).
  rewrite failures_loop_spec; [|..|lia|lia|lia].
  - pose proof (recent_le_length (latest (valid_times rs)) (window_of unlock interval) (valid_times rs)).
    pose proof (valid_times_length rs).
    rewrite u16_small by lia. unfold tally_answer. by case_match.
  - apply Forall_forall. intros t Ht. rewrite Forall_forall in HR.
    split; [by apply HR|by apply latest_ge].
Qed.

(** Both queries on a readable record file report the time of the last valid failure
    and the number of valid failures inside the window ending there (five minutes
    more than the unlock time when no window is given), or zeros once the lock has
    expired: the unsigned subtraction and the 16-bit counter of the C code lose nothing. *)
Theorem get_user_info_counts e f user dir unlock interval tally path f1 rs c :
  open_tally e f user (Some dir) = (Some path, f1) ->
  read_tally e (content f1 path) = (RET_OK, rs, c) ->
  get_pam_tally_with_fail_interval e f user (Some dir) unlock interval (Some tally) =
    (RET_OK, Some (tally_answer (now e) unlock (window_of unlock interval) (valid_times rs)),
     set_file f1 path c) /\
  get_pam_tally e f user (Some dir) unlock (Some tally) =
    (RET_OK, Some (tally_answer (now e) unlock (u64 (unlock + 300)) (valid_times rs)),
     set_file f1 path c).
Proof.
  intros Ho Hr. unfold get_pam_tally_with_fail_interval, get_pam_tally.
  by rewrite !(get_user_info_exact _ _ _ _ _ _ _ _ _ _ _ Ho Hr).
Qed.

(** ** Adding a failure refines the abstract log *)

Lemma lor_status : Z.lor FAILLOCK_RECORD_VALID FAILLOCK_SOURCE_RHOST = 3.
Proof. done. Qed.

Lemma zero_record_wf : rec_wf zero_record.
Proof. cbn. unfold TallyRecord_wf; cbn. lia. Qed.

Lemma user_record_wf t r : 0 <= t < 2 ^ 64 -> rec_wf r -> rec_wf (user_record t r).
Proof.
  cbn. unfold TallyRecord_wf, user_record. intros Ht (Hn & Hr & _).
  cbn [record_name reserved status timestamp].
  rewrite lor_status. repeat split; try lia.
  unfold set_name. rewrite length_app, length_drop. cbn. lia.
Qed.

Lemma user_record_valid t r : record_valid (user_record t r) = true.
Proof. done. Qed.

(** The records of a file hold the log [ts]: well-formed, valid, stamped [ts]. *)
Definition represents (c : list ascii) (ts : list Z) : Prop :=
  exists rs, c = encode_array rs /\ Forall rec_wf rs /\ (length rs <= 1024)%nat /\
    Forall (fun r => record_valid r = true) rs /\ timestamp <$> rs = ts.

Lemma valid_times_all rs :
  Forall (fun r => record_valid r = true) rs -> valid_times rs = timestamp <$> rs.
Proof.
  induction 1 as [|r rs Hr Hrs IH]; [done|]. rewrite valid_times_cons, Hr, IH. done.
Qed.

Lemma update_tally_adds t rs :
  0 <= t < 2 ^ 64 -> Forall rec_wf rs -> (length rs <= 1024)%nat ->
  Forall (fun r => record_valid r = true) rs ->
  exists rs', update_tally t rs = (RET_OK, rs') /\ Forall rec_wf rs' /\
    (length rs' <= 1024)%nat /\ Forall (fun r => record_valid r = true) rs' /\
    timestamp <$> rs' = log_add 1024 (timestamp <$> rs) t.
Proof.
  intros Ht Hwf Hl Hv. unfold update_tally, MAX_RECORDS, log_add. rewrite length_fmap.
  destruct (Z.eqb_spec (Z.of_nat (length rs)) 1024) as [He|Hne].
  - rewrite (proj2 (Nat.eqb_eq _ _)) by lia. eexists. split; [done|].
    split; [apply Forall_alter_list; [done|by intros; apply user_record_wf]|].
    split; [by rewrite length_alter|].
    split; [apply Forall_alter_list; [done|by intros; apply user_record_valid]|].
    destruct rs as [|r0 rest]; [done|].
    change (timestamp <$> r0 :: rest) with (timestamp r0 :: map timestamp rest).
    set (i := oldest_from _ _ _ _).
    by rewrite (fmap_alter_insert timestamp (user_record t) t) by done.
  - rewrite (proj2 (Nat.eqb_neq _ _)) by lia.
    rewrite length_app; cbn [length]. replace (length rs + 1 - 1)%nat with (length rs) by lia.
    assert (Ha : alter (user_record t) (length rs) (rs ++ [zero_record]) = rs ++ [user_record t zero_record]).
    { rewrite alter_app_r_alt by lia. by rewrite Nat.sub_diag. }
    rewrite Ha. eexists. split; [done|].
    split; [apply Forall_app_2; [done|]; constructor; [|done]; apply user_record_wf; [done|apply zero_record_wf]|].
    split; [rewrite length_app; cbn; lia|].
    split; [apply Forall_app_2; [done|]; by constructor|].
    by rewrite fmap_app.
Qed.

Lemma update_tally_shape t rs :
  exists i base, update_tally t rs = (RET_OK, alter (user_record t) i base) /\
    ((length rs = 1024%nat /\ base = rs) \/ (length rs <> 1024%nat /\ base = rs ++ [zero_record])).
Proof.
  unfold update_tally, MAX_RECORDS. destruct (Z.eqb_spec (Z.of_nat (length rs)) 1024).
  - eexists _, rs. split; [done|]. left. split; [lia|done].
  - eexists _, (rs ++ [zero_record]). split; [done|]. right. split; [lia|done].
Qed.

Lemma update_tally_wf t rs ret rs' :
  0 <= t < 2 ^ 64 -> Forall rec_wf rs -> (length rs <= 1024)%nat ->
  update_tally t rs = (ret, rs') -> ret = RET_OK /\ Forall rec_wf rs' /\ (length rs' <= 1024)%nat.
Proof.
  intros Ht Hwf Hl. destruct (update_tally_shape t rs) as (i & base & -> & Hb).
  intros [= <- <-]. split; [done|]. rewrite length_alter.
  destruct Hb as [[He ->]|[He ->]].
  - split; [|lia]. apply Forall_alter_list; [done|]. intros; by apply user_record_wf.
  - rewrite length_app; cbn [length]. split; [|lia].
    apply Forall_alter_list; [|by intros; apply user_record_wf].
    apply Forall_app_2; [done|]. constructor; [apply zero_record_wf|done].
Qed.

(** ** Opening *)

Definition good_user (user : list ascii) : Prop := contains (lit "../") user = false.

Lemma open_tally_some e f user dir p f1 :
  open_tally e f user dir = (Some p, f1) ->
  exists d, dir = Some d /\ d <> [] /\ good_user user /\ p = tally_path user d /\
    forall q, content f1 q = content f q.
Proof.
  unfold open_tally. destruct dir as [d|]; [|done].
  destruct ((length d =? 0)%nat || contains (lit "../") user) eqn:E; [done|]. bool_hyps.
  assert (d <> []) by (intros ->; done).
  destruct (if bool_decide _ then _ else _) as [ok f0] eqn:Ef.
  assert (Hc : forall q, content f0 q = content f q).
  { intros q. case_bool_decide; [by simplify_eq|]. destruct (mkdir_ok e); by simplify_eq. }
  destruct ok; cbn [negb]; [|done]. destruct (fopen_ok e); [|done]. intros [= <- <-].
  exists d. split; [done|]. split; [done|]. split; [done|]. split; [done|].
  intros q. by rewrite content_create.
Qed.

Lemma open_tally_none e f user dir f1 :
  open_tally e f user dir = (None, f1) -> forall q, content f1 q = content f q.
Proof.
  unfold open_tally. intros H q.
  repeat (case_match; simplify_eq; try done).
Qed.

Lemma open_tally_nominal t f user dir :
  dir <> [] -> good_user user ->
  exists f1, open_tally (nominal t) f user (Some dir) = (Some (tally_path user dir), f1) /\
    forall q, content f1 q = content f q.
Proof.
  intros Hd Hu. unfold open_tally. unfold good_user in Hu. rewrite Hu.
  destruct dir as [|c dir]; [done|]. cbn [length Nat.eqb orb].
  case_bool_decide; cbn [mkdir_ok chown_ok fopen_ok nominal negb]; eexists; (split; [done|]);
    intros q; by rewrite content_create.
Qed.

(** ** Refinement *)

Lemma read_represents t c ts :
  represents c ts ->
  exists rs, read_tally (nominal t) c = (RET_OK, rs, c) /\ Forall rec_wf rs /\
    (length rs <= 1024)%nat /\ Forall (fun r => record_valid r = true) rs /\ timestamp <$> rs = ts.
Proof.
  intros (rs & -> & Hwf & Hl & Hv & Ht). exists rs. by rewrite read_tally_nominal.
Qed.

Lemma increment_adds t f user dir ts :
  0 <= t < 2 ^ 64 -> dir <> [] -> good_user user ->
  represents (content f (tally_path user dir)) ts ->
  exists f', increment_pam_tally (nominal t) f (Some user) (Some dir) = (RET_OK, f') /\
    represents (content f' (tally_path user dir)) (log_add 1024 ts t) /\
    (forall q, q <> tally_path user dir -> content f' q = content f q).
Proof.
  intros Ht Hd Hu Hrep. unfold increment_pam_tally.
  destruct (open_tally_nominal t f user dir Hd Hu) as (f1 & -> & Hc).
  rewrite Hc. destruct (read_represents t _ _ Hrep) as (rs & -> & Hwf & Hl & Hv & Hts).
  cbn [RET_OK Z.eqb negb now nominal]. rewrite u64_small by done.
  destruct (update_tally_adds t rs Ht Hwf Hl Hv) as (rs' & -> & Hwf' & Hl' & Hv' & Hts').
  cbn [RET_OK Z.eqb negb ftruncate_err fseek_ret nominal].
  rewrite fwrite_append_nominal. rewrite length_encode_array by done.
  cbn [rec_size TallyRecord_codec]. rewrite Nat.eqb_refl. cbn [negb].
  eexists. split; [done|]. split.
  - rewrite content_set. rewrite <- Hts, <- Hts'. by exists rs'.
  - intros q Hq. by rewrite !content_set_ne.
Qed.

(** An increment touches the file of its user only. *)
Lemma increment_frame e f user dir :
  (forall q, content (snd (increment_pam_tally e f user (Some dir))) q = content f q) \/
  (exists u, user = Some u /\ forall q, q <> tally_path u dir ->
     content (snd (increment_pam_tally e f user (Some dir))) q = content f q).
Proof.
  unfold increment_pam_tally. destruct user as [u|]; [|by left].
  destruct (open_tally e f u (Some dir)) as [[p|] f1] eqn:Ho.
  - right. exists u. split; [done|]. intros q Hq.
    apply open_tally_some in Ho as (d & [= <-] & _ & _ & -> & Hc). rewrite <- Hc.
    repeat case_match; cbn [snd]; by rewrite ?content_set_ne.
  - left. intros q. cbn [snd]. by eapply open_tally_none.
Qed.

(** Failures of several users, in the order they happen. *)
Definition run_failures (f : fs) (dir : list ascii) (evs : list (list ascii * Z)) : fs :=
  fold_left (fun f ev => snd (increment_pam_tally (nominal ev.2) f (Some ev.1) (Some dir))) evs f.

(** Those that belong to the record file [path]. *)
Definition times_on (dir path : list ascii) (evs : list (list ascii * Z)) : list Z :=
  snd <$> filter (fun ev => tally_path ev.1 dir = path) evs.

(** An operation makes or changes no file but the user's, and no directory but the one it is given. *)
Lemma increment_touches e f user dir q :
  q <> tally_path user dir ->
  files (snd (increment_pam_tally e f (Some user) (Some dir))) !! q = files f !! q /\
  dirs (snd (increment_pam_tally e f (Some user) (Some dir))) ⊆ {[dir]} ∪ dirs f.
Proof.
  intros Hq. unfold increment_pam_tally, open_tally.
  repeat (case_match; simplify_eq; cbn [snd set_file create make_dir files dirs];
          try (split; [by rewrite ?lookup_insert_ne by congruence|set_solver])).
Qed.

Lemma failures_touch f dir evs q :
  Forall (fun ev => q <> tally_path ev.1 dir) evs ->
  files (run_failures f dir evs) !! q = files f !! q /\ dirs (run_failures f dir evs) ⊆ {[dir]} ∪ dirs f.
Proof.
  intros HF. unfold run_failures. revert f. induction HF as [|[u t] evs Hq HF IH]; intros f; cbn [fold_left fst snd]; [set_solver|].
  destruct (increment_touches (nominal t) f u dir q Hq) as [H1 H2].
  specialize (IH (snd (increment_pam_tally (nominal t) f (Some u) (Some dir)))) as [H3 H4].
  split; [by rewrite H3|set_solver].
Qed.

Lemma failures_refine f dir evs user ts :
  dir <> [] -> Forall (fun ev => good_user ev.1 /\ 0 <= ev.2 < 2 ^ 64) evs ->
  represents (content f (tally_path user dir)) ts ->
  represents (content (run_failures f dir evs) (tally_path user dir))
    (log_run 1024 ts (times_on dir (tally_path user dir) evs)).
Proof.
  intros Hd HF Hrep. revert f ts Hrep.
  induction HF as [|[u t] evs [Hg Ht] HF IH]; intros f ts Hrep; [done|].
  unfold run_failures, times_on in *; cbn [fold_left fst snd] in *.
  rewrite filter_cons; cbn [fst]. case_decide as Hp.
  - rewrite <- Hp in Hrep. destruct (increment_adds t f u dir ts Ht Hd Hg Hrep) as (f' & -> & Hr & _).
    rewrite Hp in Hr. by apply IH.
  - apply IH. destruct (increment_frame (nominal t) f (Some u) dir) as [Hq|(u' & [= <-] & Hq)].
    + by rewrite Hq.
    + by rewrite Hq by congruence.
Qed.

(** C3: without system-call failures, any sequence of failures of any users refines the
    abstract log user by user: each record file holds the log of that user's own
    failures, run through [log_add]. A file that is no record file of one of those users is
    neither made nor changed, and no directory is made but that of the records. *)
Theorem increment_refines f dir evs :
  dir <> [] -> Forall (fun ev => good_user ev.1 /\ 0 <= ev.2 < 2 ^ 64) evs ->
  (forall user ts, good_user user -> represents (content f (tally_path user dir)) ts ->
     represents (content (run_failures f dir evs) (tally_path user dir))
       (log_run 1024 ts (times_on dir (tally_path user dir) evs))) /\
  (forall q, (forall ev, ev ∈ evs -> q <> tally_path ev.1 dir) ->
     files (run_failures f dir evs) !! q = files f !! q) /\
  dirs (run_failures f dir evs) ⊆ {[dir]} ∪ dirs f.
Proof.
  intros Hd HF. split; [|split].
  - intros user ts _. by apply failures_refine.
  - intros q Hq. apply failures_touch. by apply Forall_forall.
  - apply (failures_touch f dir evs []). apply Forall_forall. intros ev _. unfold tally_path.
    case_bool_decide; destruct dir; done.
Qed.

(** The file system after failures at [times]. *)
Definition run_increments (f : fs) (user dir : list ascii) (times : list Z) : fs :=
  fold_left (fun f t => snd (increment_pam_tally (nominal t) f (Some user) (Some dir))) times f.

Lemma run_increments_refines f user dir times ts :
  dir <> [] -> good_user user -> Forall (fun t => 0 <= t < 2 ^ 64) times ->
  represents (content f (tally_path user dir)) ts ->
  represents (content (run_increments f user dir times) (tally_path user dir)) (log_run 1024 ts times).
Proof.
  intros Hd Hu HF. revert f ts. induction HF as [|t times Ht HF IH]; intros f ts Hrep; [done|].
  destruct (increment_adds t f user dir ts Ht Hd Hu Hrep) as (f' & He & Hr & _).
  unfold run_increments, log_run in *; cbn [fold_left]. rewrite He. by apply IH.
Qed.

Lemma tally_answer_perm t unlock window ts ts' :
  ts ≡ₚ ts' -> tally_answer t unlock window ts = tally_answer t unlock window ts'.
Proof.
  intros Hp. unfold tally_answer.
  by rewrite (latest_perm _ _ Hp), (recent_perm _ _ _ _ Hp).
Qed.

Lemma represents_empty : represents [] [].
Proof. exists []. repeat split; try constructor; cbn; lia. Qed.

(** After failures at [times] (in time order) on a user without a record,
    a query reports the count and the time of the failures among the last 1024 that lie
    in the window, whatever the number of failures. *)
Theorem failures_are_counted f user dir times q unlock interval tally :
  dir <> [] -> good_user user -> StronglySorted Z.le times ->
  Forall (fun t => 0 <= t < 2 ^ 64) times ->
  content f (tally_path user dir) = [] ->
  fst (get_user_info (nominal q) (run_increments f user dir times) user (Some dir)
         unlock interval tally)
  = (RET_OK, tally_answer q unlock (window_of unlock interval) (last_n 1024 times)).
Proof.
  intros Hd Hu Hs HF He.
  assert (Hrep : represents (content f (tally_path user dir)) []).
  { rewrite He. apply represents_empty. }
  apply (run_increments_refines f user dir times [] Hd Hu HF) in Hrep.
  set (f' := run_increments f user dir times) in *.
  destruct (open_tally_nominal q f' user dir Hd Hu) as (f1 & Ho & Hc).
  rewrite <- Hc in Hrep. destruct (read_represents q _ _ Hrep) as (rs & Hr & _ & _ & Hv & Hts).
  rewrite (get_user_info_exact _ _ _ _ _ _ _ _ _ _ _ Ho Hr). cbn [fst now nominal].
  f_equal. apply tally_answer_perm. rewrite valid_times_all, Hts by done.
  by apply log_keeps_last; [lia|].
Qed.

(** ** The operations as steps of the file system *)

Inductive tally_step : fs -> fs -> Prop :=
| step_increment e f user dir ret f' :
    increment_pam_tally e f user dir = (ret, f') -> tally_step f f'
| step_reset e f user dir ret f' :
    reset_pam_tally e f user dir = (ret, f') -> tally_step f f'
| step_get e f user dir unlock interval tally ret tally' f' :
    get_user_info e f user dir unlock interval tally = (ret, tally', f') -> tally_step f f'.

(** No record file grows past [MAX_RECORDS] records. *)
Definition bounded (f : fs) : Prop := forall p, Z.of_nat (length (content f p)) <= 1024 * 64.

Lemma bounded_set f p c : bounded f -> Z.of_nat (length c) <= 1024 * 64 -> bounded (set_file f p c).
Proof.
  intros Hf Hc q. destruct (decide (p = q)) as [<-|]; [by rewrite content_set|].
  by rewrite content_set_ne.
Qed.

Lemma bounded_ext f f' : bounded f -> (forall q, content f' q = content f q) -> bounded f'.
Proof. intros Hf He q. rewrite He. apply Hf. Qed.

#[export] Hint Resolve bounded_set bounded_ext : iam.

Lemma open_tally_bounded e f user dir p f1 :
  bounded f -> open_tally e f user dir = (p, f1) -> bounded f1.
Proof.
  intros Hf Ho. destruct p as [p|].
  - apply open_tally_some in Ho as (d & _ & _ & _ & _ & Hc). eauto with iam.
  - pose proof (open_tally_none _ _ _ _ _ Ho). eauto with iam.
Qed.

Lemma read_tally_bounded e f user dir p f1 ret rs c :
  bounded f -> open_tally e f user dir = (Some p, f1) ->
  read_tally e (content f1 p) = (ret, rs, c) -> bounded (set_file f1 p c).
Proof.
  intros Hf Ho Hr. pose proof (open_tally_bounded _ _ _ _ _ _ Hf Ho) as Hb.
  apply read_tally_length in Hr. specialize (Hb p) as Hp.
  apply bounded_set; [done|lia].
Qed.

Lemma increment_bounded e f user dir ret f' :
  bounded f -> increment_pam_tally e f user dir = (ret, f') -> bounded f'.
Proof.
  intros Hf. unfold increment_pam_tally.
  destruct user as [user|], dir as [dir|]; try by intros [= <- <-].
  destruct (open_tally e f user (Some dir)) as [[p|] f1] eqn:Ho;
    [|intros [= <- <-]; by eapply open_tally_bounded].
  destruct (read_tally e (content f1 p)) as [[r rs] c] eqn:Hr.
  pose proof (read_tally_bounded _ _ _ _ _ _ _ _ _ Hf Ho Hr) as Hb.
  destruct (Z.eqb_spec r RET_OK) as [->|]; cbn [negb]; [|by intros [= <- <-]].
  apply read_tally_ok in Hr as (_ & Hl & Hwf).
  destruct (update_tally (u64 (now e)) rs) as [r' rs'] eqn:Hu.
  pose proof (update_tally_wf _ _ _ _ (u64_range _) Hwf Hl Hu) as (-> & Hwf' & Hl').
  cbn [RET_OK Z.eqb negb]. destruct (ftruncate_err e); [by intros [= <- <-]|].
  destruct (Z.eqb_spec (fseek_ret e) 0); cbn [negb];
    [|intros [= <- <-]; apply bounded_set; [done|cbn; lia]].
  pose proof (fwrite_append_length e (encode_array rs')) as Hw.
  rewrite length_encode_array in Hw by done. cbn [rec_size TallyRecord_codec] in Hw.
  destruct (fwrite_append e (encode_array rs') []) as [n c'] eqn:Ew. cbn [snd] in Hw.
  destruct (negb _); intros [= <- <-]; (apply bounded_set; [apply bounded_set; [done|cbn; lia]|lia]).
Qed.

Lemma reset_bounded e f user dir ret f' :
  bounded f -> reset_pam_tally e f user dir = (ret, f') -> bounded f'.
Proof.
  intros Hf. unfold reset_pam_tally.
  destruct user as [user|], dir as [dir|]; try by intros [= <- <-].
  destruct (open_tally e f user (Some dir)) as [[p|] f1] eqn:Ho;
    pose proof (open_tally_bounded _ _ _ _ _ _ Hf Ho); [|by intros [= <- <-]].
  destruct (ftruncate_err e); intros [= <- <-]; [done|]. apply bounded_set; [done|cbn; lia].
Qed.

Lemma get_bounded e f user dir unlock interval tally ret tally' f' :
  bounded f -> get_user_info e f user dir unlock interval tally = (ret, tally', f') -> bounded f'.
Proof.
  intros Hf. unfold get_user_info.
  destruct (open_tally e f user dir) as [[p|] f1] eqn:Ho;
    [|intros [= <- <- <-]; by eapply open_tally_bounded].
  destruct (read_tally e (content f1 p)) as [[r rs] c] eqn:Hr.
  pose proof (read_tally_bounded _ _ _ _ _ _ _ _ _ Hf Ho Hr).
  destruct (negb _); [by intros [= <- <- <-]|]. destruct (_ <=? _); by intros [= <- <- <-].
Qed.

(** C31: whatever the users, the directories, the clock and the failures of the system
    calls, no sequence of operations makes a record file larger than 1024
    records of 64 bytes. *)
Theorem record_files_stay_bounded f f' :
  bounded f -> rtc tally_step f f' -> bounded f'.
Proof.
  intros Hf Hs. induction Hs as [|f f1 f2 Hst _ IH]; [done|]. apply IH.
  destruct Hst; [by eapply increment_bounded|by eapply reset_bounded|by eapply get_bounded].
Qed.

(** A record file whose size is not a multiple of a record is given up: the
    failure being recorded is lost with [RET_ERR], the file is emptied, and the next
    failure is recorded. *)
Theorem malformed_file_recovers t1 t2 f user dir :
  0 <= t2 < 2 ^ 64 -> dir <> [] -> good_user user ->
  let path := tally_path user dir in
  let c := content f path in
  Z.of_nat (length c) <= 1024 * 64 -> Z.of_nat (length c) mod 64 <> 0 ->
  exists f1 f2,
    increment_pam_tally (nominal t1) f (Some user) (Some dir) = (RET_ERR, f1) /\
    content f1 path = [] /\
    increment_pam_tally (nominal t2) f1 (Some user) (Some dir) = (RET_OK, f2) /\
    represents (content f2 path) [t2].
Proof.
  intros Ht Hd Hu path c Hl Hm.
  assert (H1 : exists f1, increment_pam_tally (nominal t1) f (Some user) (Some dir) = (RET_ERR, f1) /\
            content f1 path = []).
  { unfold increment_pam_tally.
    destruct (open_tally_nominal t1 f user dir Hd Hu) as (f0 & -> & Hc).
    rewrite Hc. fold path c. unfold read_tally; cbn [ftell_ok nominal].
    rewrite s32_small, (proj2 (Z.ltb_ge _ _)) by lia. unfold MAX_RECORDS.
    rewrite (proj2 (Z.ltb_ge _ _)), (proj2 (Z.eqb_neq _ _)) by (done || lia).
    cbn [negb RET_ERR RET_OK Z.eqb ftruncate0 ftruncate_err nominal].
    eexists. split; [done|]. apply content_set. }
  destruct H1 as (f1 & H1 & He). exists f1.
  destruct (increment_adds t2 f1 user dir [] Ht Hd Hu) as (f2 & H2 & Hr & _).
  { fold path. rewrite He. apply represents_empty. }
  exists f2. done.
Qed.

(** A file the component opens is [dir/name] with a name that holds no "../", and two
    users share a file only when they are "root" and "<root>". *)
Theorem tally_paths_are_confined e f user dir p f1 :
  open_tally e f user dir = (Some p, f1) ->
  (exists d name, dir = Some d /\ d <> [] /\ (p = d ++ name \/ p = d ++ lit "/" ++ name) /\
     contains (lit "../") name = false) /\
  (forall e' f' user' f1', open_tally e' f' user' dir = (Some p, f1') ->
     user' = user \/ (user = lit "root" /\ user' = lit "<root>") \/
     (user = lit "<root>" /\ user' = lit "root")).
Proof.
  intros Ho. apply open_tally_some in Ho as (d & -> & Hd & Hu & -> & _). split.
  - exists d, (if str_eqb user ACTUAL_ROOT_USER_NAME then RESERVED_ROOT_USER_NAME else user).
    split; [done|]. split; [done|]. split.
    + unfold tally_path. case_bool_decide; [by left|right]. by rewrite <- app_assoc.
    + by destruct (str_eqb user _).
  - intros e' f' user' f1' Ho'. apply open_tally_some in Ho' as (d' & [= <-] & _ & _ & Hp & _).
    unfold tally_path in Hp. apply app_inv_head in Hp. unfold ACTUAL_ROOT_USER_NAME in Hp.
    destruct (str_eqb user (lit "root")) eqn:E1; destruct (str_eqb user' (lit "root")) eqn:E2;
      rewrite ?str_eqb_eq in *; unfold RESERVED_ROOT_USER_NAME in *;
      [left; congruence|right; left|right; right|left; congruence]; split; congruence.
Qed.

(** After a reset every query reports no failure, whatever was recorded before. *)
Theorem reset_forgets t q f user dir unlock interval tally :
  dir <> [] -> good_user user ->
  exists f', reset_pam_tally (nominal t) f (Some user) (Some dir) = (RET_OK, f') /\
    fst (get_user_info (nominal q) f' user (Some dir) unlock interval tally)
    = (RET_OK, {| fail_cnt := 0; fail_time := 0 |}).
Proof.
  intros Hd Hu. unfold reset_pam_tally.
  destruct (open_tally_nominal t f user dir Hd Hu) as (f1 & -> & _).
  cbn [ftruncate_err nominal]. eexists. split; [done|].
  destruct (open_tally_nominal q (set_file f1 (tally_path user dir) []) user dir Hd Hu)
    as (f2 & Ho & Hc).
  assert (Hr : read_tally (nominal q) (content f2 (tally_path user dir)) = (RET_OK, [], [])).
  { rewrite Hc, content_set. apply (read_tally_nominal q []); [constructor|cbn; lia]. }
  rewrite (get_user_info_exact _ _ _ _ _ _ _ _ _ _ _ Ho Hr). cbn [fst]. f_equal.
  unfold tally_answer. by destruct (_ <=? _).
Qed.

(** ** The theorems at concrete inputs *)

Definition shm : list ascii := lit "/dev/shm/tallylog".
Definition admin : list ascii := lit "admin".

(** A file system where admin failed at 90 and 100. *)
Definition two_failures : fs := run_increments (Fs ∅ ∅) admin shm [90; 100].

Lemma two_failures_represents : represents (content two_failures (tally_path admin shm)) [90; 100].
Proof.
  apply (run_increments_refines (Fs ∅ ∅) admin shm [90; 100] []); [done|done| |apply represents_empty].
  repeat constructor; lia.
Qed.

Lemma get_user_info_counts_witness :
  fst (get_pam_tally_with_fail_interval (nominal 130) two_failures admin (Some shm) 60 30
         (Some {| fail_cnt := 0; fail_time := 0 |}))
  = (RET_OK, Some {| fail_cnt := 2; fail_time := 100 |}).
Proof.
  pose (o := open_tally (nominal 130) two_failures admin (Some shm)).
  pose (r := read_tally (nominal 130) (content (snd o) (tally_path admin shm))).
  pose proof (get_user_info_counts (nominal 130) two_failures admin shm 60 30
    {| fail_cnt := 0; fail_time := 0 |} (tally_path admin shm) (snd o) (snd (fst r)) (snd r)
    ltac:(vm_compute; reflexivity) ltac:(vm_compute; reflexivity)) as [H _].
  apply (f_equal fst) in H. refine (eq_trans H _). vm_compute; reflexivity.
Defined.

Lemma increment_refines_witness :
  let f := set_file (Fs ∅ ∅) (lit "/etc/passwd") (lit "x") in
  let f' := run_failures f shm [(admin, 90); (lit "root", 95); (admin, 120)] in
  represents (content f' (tally_path admin shm)) [90; 120] /\
  represents (content f' (tally_path (lit "root") shm)) [95] /\
  files f' !! lit "/etc/passwd" = Some (lit "x") /\ dirs f' ⊆ {[shm]} ∪ ∅.
Proof.
  intros f f'.
  destruct (increment_refines f shm [(admin, 90); (lit "root", 95); (admin, 120)]) as (H1 & H2 & H3);
    [discriminate|repeat constructor; cbn; lia|].
  split; [|split; [|split]].
  - apply (H1 admin []); [reflexivity|apply represents_empty].
  - apply (H1 (lit "root") []); [reflexivity|apply represents_empty].
  - refine (eq_trans (H2 _ _) eq_refl). intros ev Hev. rewrite !elem_of_cons in Hev.
    destruct Hev as [->|[->|[->|Hev]]]; [discriminate..|by apply elem_of_nil in Hev].
  - exact H3.
Defined.

Lemma failures_are_counted_witness :
  fst (get_user_info (nominal 130) two_failures admin (Some shm) 60 5 {| fail_cnt := 7; fail_time := 7 |})
  = (RET_OK, {| fail_cnt := 1; fail_time := 100 |}).
Proof.
  refine (eq_trans (failures_are_counted (Fs ∅ ∅) admin shm [90; 100] 130 60 5
                      {| fail_cnt := 7; fail_time := 7 |} _ _ _ _ _) _);
    [discriminate|reflexivity|repeat constructor; lia|repeat constructor; lia|reflexivity|].
  vm_compute; reflexivity.
Defined.

Lemma record_files_stay_bounded_witness : bounded two_failures.
Proof.
  apply (record_files_stay_bounded (Fs ∅ ∅)); [intros p; unfold content; cbn [files]; rewrite lookup_empty; cbn; lia|].
  eapply rtc_l; [eapply (step_increment (nominal 90) _ (Some admin) (Some shm)); reflexivity|].
  eapply rtc_l; [eapply (step_increment (nominal 100) _ (Some admin) (Some shm)); reflexivity|].
  apply rtc_refl.
Defined.

Lemma malformed_file_recovers_witness :
  let f := set_file (Fs ∅ ∅) (tally_path admin shm) (lit "junk") in
  exists f1 f2,
    increment_pam_tally (nominal 5) f (Some admin) (Some shm) = (RET_ERR, f1) /\
    content f1 (tally_path admin shm) = [] /\
    increment_pam_tally (nominal 6) f1 (Some admin) (Some shm) = (RET_OK, f2) /\
    represents (content f2 (tally_path admin shm)) [6].
Proof.
  apply (malformed_file_recovers 5 6);
    [lia|discriminate|reflexivity|vm_compute; discriminate|vm_compute; discriminate].
Defined.

Lemma tally_paths_are_confined_witness :
  exists f1, open_tally (nominal 0) (Fs ∅ ∅) (lit "root") (Some shm)
    = (Some (lit "/dev/shm/tallylog/<root>"), f1) /\
  forall e' f' user' f1',
    open_tally e' f' user' (Some shm) = (Some (lit "/dev/shm/tallylog/<root>"), f1') ->
    user' = lit "root" \/ (lit "root" = lit "root" /\ user' = lit "<root>") \/
    (lit "root" = lit "<root>" /\ user' = lit "root").
Proof.
  eexists. split; [reflexivity|].
  eapply (tally_paths_are_confined (nominal 0) (Fs ∅ ∅) (lit "root") (Some shm)). reflexivity.
Defined.

Lemma reset_forgets_witness :
  exists f', reset_pam_tally (nominal 110) two_failures (Some admin) (Some shm) = (RET_OK, f') /\
    fst (get_user_info (nominal 111) f' admin (Some shm) 60 30 {| fail_cnt := 3; fail_time := 100 |})
    = (RET_OK, {| fail_cnt := 0; fail_time := 0 |}).
Proof. apply (reset_forgets 110 111); [discriminate|reflexivity]. Defined.
