(* ===== verification/IpLock.v ===== *)
(** * ip_lock/ip_lock.c: failed logins per address, and the lock they lead to

    One file per address with up to [MAX_RECORD_CNT] records of 72 bytes, and the table
    [g_ip_map] that bounds how many addresses are recorded. The state of the component
    is [lock_state]; every operation takes the answers of the system ([os_env]) and, where
    it reads the configuration, of the bus ([bus_env]). Directory names are not empty. *)
From S2P Require Export Stdio FailureLog Common.

(** ** Data *)
Definition MAX_IP_LENGTH : nat := 64.
Definition MAX_NAME_LENGTH : nat := 64.
Definition MAX_IP_RECORD_CNT : nat := 1000.
Definition MAX_RECORD_CNT : Z := 100.
Definition DO_CHECK : Z := 1.
Definition NO_CHECK : Z := 0.

Record IpFailRecord := { record_name : list ascii (* 64 bytes *); timestamp : Z (* guint64 *) }.

(** The field [ip] is the string it holds. *)
Record IpLockStatus := { ip : list ascii; lock_status : bool; lock_start_time : Z }.

Definition IpFailRecord_enc (r : IpFailRecord) : list ascii := record_name r ++ le_encode 8 (timestamp r).

Definition IpFailRecord_dec (bs : list ascii) : IpFailRecord := {|
  record_name := take 64 bs; timestamp := le_decode (take 8 (drop 64 bs))
|}.

Definition IpFailRecord_wf (r : IpFailRecord) : Prop :=
  length (record_name r) = 64%nat /\ 0 <= timestamp r < 2 ^ 64.

#[export, program] Instance IpFailRecord_codec : RecordCodec IpFailRecord := {|
  rec_size := 72%nat;
  rec_enc := IpFailRecord_enc;
  rec_dec := IpFailRecord_dec;
  rec_wf := IpFailRecord_wf
|}.
Next Obligation. lia. Qed.
Next Obligation.
  intros r [Hn _]. unfold IpFailRecord_enc. by rewrite length_app, length_le_encode, Hn.
Qed.
Next Obligation.
  intros [nm ts] [Hn Ht]; cbn in Hn, Ht. unfold IpFailRecord_dec, IpFailRecord_enc; cbn [record_name timestamp].
  rewrite take_app_length', drop_app_length' by done. rewrite take_ge by (by rewrite length_le_encode).
  by rewrite le_decode_encode_small.
Qed.
Next Obligation.
  intros bs Hb. split; cbn; [rewrite length_take; lia|]. exact (le_field_range 64 8 bs ltac:(lia)).
Qed.

Record lock_state := { ls_fs : fs; g_ip_map : gset (list ascii); ls_bus : bus_state }.

Definition set_ls_fs (s : lock_state) (f : fs) : lock_state :=
  {| ls_fs := f; g_ip_map := g_ip_map s; ls_bus := ls_bus s |}.

(** ** Files *)
Definition ip_path (dir ip : list ascii) : list ascii :=
  (if bool_decide (last dir = Some "/"%char) then dir else dir ++ lit "/") ++ ip.

Definition open_ip_fail_record (e : os_env) (f : fs) (dir ip : list ascii) : option (list ascii) * fs :=
  let '(dir_ok, f1) :=
    if bool_decide (dir ∈ dirs f) then (true, f)
    else if mkdir_ok e then (chown_ok e, make_dir f dir) else (false, f) in
  if negb dir_ok then (None, f1)
  else if fopen_ok e then (Some (ip_path dir ip), create f1 (ip_path dir ip))
  else (None, f1).

Definition zero_fail_record : IpFailRecord := {| record_name := replicate 64 NUL; timestamp := 0 |}.

(** The array of [MAX_RECORD_CNT] zeroed records after a read of [n]. *)
Definition fill_records (n : nat) (c : list ascii) : list IpFailRecord :=
  decode_array n c ++ replicate (Z.to_nat MAX_RECORD_CNT - n) zero_fail_record.

(** The return code, [*record_cnt], the records, the content the file is left with. *)
Definition read_ip_fail_record (e : os_env) (c : list ascii) : Z * Z * list IpFailRecord * list ascii :=
  let zeroed := replicate (Z.to_nat MAX_RECORD_CNT) zero_fail_record in
  let size := if ftell_ok e then Z.of_nat (length c) else -1 in
  if size <? 0 then (RET_ERR, 0, zeroed, c)
  else
    let size := if MAX_RECORD_CNT * 72 <? size then MAX_RECORD_CNT * 72 else size in
    if negb (size mod 72 =? 0) then (RET_ERR, 0, zeroed, ftruncate0 e c)
    else
      let record_cnt := u8 (size / 72) in
      if negb (fread_ret e record_cnt =? record_cnt) then (RET_ERR, record_cnt, zeroed, c)
      else (RET_OK, record_cnt, fill_records (Z.to_nat record_cnt) c, c).

Definition ip_record (t : Z) (old : IpFailRecord) : IpFailRecord :=
  {| record_name := set_name "Ip" (record_name old); timestamp := t |}.

(** [*record_cnt] and the records afterwards; [record_cnt] is at most [MAX_RECORD_CNT]. *)
Definition update_record (t record_cnt : Z) (records : list IpFailRecord) : Z * Z * list IpFailRecord :=
  let '(loc_idx, record_cnt) :=
    if record_cnt =? MAX_RECORD_CNT then
      (match records with
       | [] => O
       | r0 :: rest => oldest_from 1 0 (timestamp r0) (map timestamp (take (Z.to_nat record_cnt - 1) rest))
       end, record_cnt)
    else (Z.to_nat record_cnt, u8 (record_cnt + 1)) in
  (RET_OK, record_cnt, alter (ip_record t) loc_idx records).

(** ** The table of recorded addresses *)
Definition check_if_increase_record_cnt (m : gset (list ascii)) (ip : list ascii) : Z * gset (list ascii) :=
  if bool_decide (ip ∈ m) then (RET_OK, m)
  else if (MAX_IP_RECORD_CNT <=? size m)%nat then (RET_ERR, m)
  else (RET_OK, {[ip]} ∪ m).

(** ** Addresses: the part before the port. [None] is [RET_ERR]. *)
Definition remove_port_from_ip (ip : option (list ascii)) (clean_ip_len : nat) : option (list ascii) :=
  let copy src count :=
    let '(ret, clean_ip) := strncpy_s clean_ip_len src count in
    if ret =? RET_OK then Some clean_ip else None in
  match ip with
  | None => None
  | Some s =>
      if has_prefix (lit "[") s then
        match strchr "]"%char s with
        | None => None
        | Some end_barcket =>
            match s !! S end_barcket with
            | Some c => if char_eqb c ":" then copy (drop 1 s) (end_barcket - 1)%nat else None
            | None => copy (drop 1 s) (end_barcket - 1)%nat
            end
        end
      else
        match strchr ":"%char s, strrchr ":"%char s with
        | Some first_colon, Some last_colon =>
            if (first_colon =? last_colon)%nat then copy s last_colon else copy s (length s)
        | _, _ => copy s (length s)
        end
  end.

(** ** The lock status of an address *)
Fixpoint latest_failure (latest_time : Z) (records : list IpFailRecord) : Z :=
  match records with
  | [] => latest_time
  | r :: rest => latest_failure (if latest_time <? timestamp r then timestamp r else latest_time) rest
  end.

Fixpoint count_failures (exp_oldest_time fail_cnt : Z) (records : list IpFailRecord) : Z :=
  match records with
  | [] => fail_cnt
  | r :: rest =>
      count_failures exp_oldest_time
        (if exp_oldest_time <? timestamp r then u8 (fail_cnt + 1) else fail_cnt) rest
  end.

Definition get_one_lock_status (e : os_env) (f : fs) (dir : list ascii) (ip_str : option (list ascii))
    (lock_threshold fail_interval unlock_time : Z) (status : IpLockStatus) : Z * IpLockStatus * fs :=
  match remove_port_from_ip ip_str MAX_IP_LENGTH with
  | None => (RET_ERR, status, f)
  | Some clean_ip =>
      match open_ip_fail_record e f dir clean_ip with
      | (None, f1) => (RET_ERR, status, f1)
      | (Some path, f1) =>
          let '(res, record_cnt, records, c) := read_ip_fail_record e (content f1 path) in
          let f2 := set_file f1 path c in
          if negb (res =? RET_OK) then (res, status, f2)
          else
            let read := take (Z.to_nat record_cnt) records in
            let latest_time := latest_failure 0 read in
            let exp_oldest_time := u64 (latest_time - fail_interval) in
            let fail_cnt := count_failures exp_oldest_time 0 read in
            let fail_cnt := if u64 (latest_time + unlock_time) <? u64 (now e) then 0 else fail_cnt in
            (RET_OK,
             {| ip := ip status;
                lock_status := negb (lock_threshold =? 0) && (lock_threshold <=? fail_cnt);
                lock_start_time := latest_time |}, f2)
      end
  end.

(** A failure of the configuration or of the query does not lock. *)
Definition check_if_locked (e : os_env) (b : bus_env) (s : lock_state) (dir ip_str : list ascii) : bool * lock_state :=
  let '(ret, conf, bus') := dbus_get_auth_lockout_conf b (ls_bus s) {| duration := 0; threshold := 0; time_interval := 0 |} in
  let s1 := {| ls_fs := ls_fs s; g_ip_map := g_ip_map s; ls_bus := bus' |} in
  if negb (ret =? RET_OK) then (false, s1)
  else
    let '(ret, record, f') := get_one_lock_status e (ls_fs s1) dir (Some ip_str) (u8 (threshold conf))
      (u64 (time_interval conf)) (u64 (duration conf)) {| ip := []; lock_status := false; lock_start_time := 0 |} in
    (if negb (ret =? RET_OK) then false else lock_status record, set_ls_fs s1 f').

(** ** Operations *)

(** The part of [increase_fail_record] that works on the file. *)
Definition add_fail_record (e : os_env) (f : fs) (dir clean_ip : list ascii) : Z * fs :=
  match open_ip_fail_record e f dir clean_ip with
  | (None, f1) => (RET_ERR, f1)
  | (Some path, f1) =>
      let '(ret, record_cnt, records, c) := read_ip_fail_record e (content f1 path) in
      let f2 := set_file f1 path c in
      if negb (ret =? RET_OK) then (ret, f2)
      else
        let '(ret, record_cnt, records) := update_record (u64 (now e)) record_cnt records in
        if negb (ret =? RET_OK) then (ret, f2)
        else
          match ftruncate_err e with
          | Some errno => (errno, f2)
          | None =>
              let f3 := set_file f2 path [] in
              if negb (fseek_ret e =? 0) then (fseek_ret e, f3)
              else
                let '(written, c) := fwrite_append e (encode_array (take (Z.to_nat record_cnt) records)) [] in
                let f4 := set_file f3 path c in
                if negb (Z.of_nat written / 72 =? record_cnt) then (RET_ERR, f4) else (fseek_ret e, f4)
          end
  end.

Definition increase_fail_record (e : os_env) (b : bus_env) (s : lock_state) (dir : list ascii)
    (ip_str : option (list ascii)) (is_check_lock : Z) : Z * lock_state :=
  match remove_port_from_ip ip_str MAX_IP_LENGTH with
  | None => (RET_ERR, s)
  | Some clean_ip =>
      let '(ret, m') := check_if_increase_record_cnt (g_ip_map s) clean_ip in
      let s1 := {| ls_fs := ls_fs s; g_ip_map := m'; ls_bus := ls_bus s |} in
      if negb (ret =? RET_OK) then (RET_ERR, s1)
      else
        let '(locked, s2) :=
          if is_check_lock =? DO_CHECK then check_if_locked e b s1 dir clean_ip else (false, s1) in
        if locked then (RET_OK, s2)
        else
          let '(ret, f') := add_fail_record e (ls_fs s2) dir clean_ip in
          (ret, set_ls_fs s2 f')
  end.

(** The result of [remove] is not looked at: the address leaves the table even when its file stays. *)
Definition clean_fail_record (e : os_env) (s : lock_state) (dir : list ascii) (ip_str : option (list ascii)) : Z * lock_state :=
  match remove_port_from_ip ip_str MAX_IP_LENGTH with
  | None => (RET_ERR, s)
  | Some clean_ip =>
      (RET_OK, {| ls_fs := remove_file e (ls_fs s) (ip_path dir clean_ip);
                  g_ip_map := g_ip_map s ∖ {[clean_ip]}; ls_bus := ls_bus s |})
  end.

(** The loops over the entries of the directory; [None] when it does not open. *)
Fixpoint all_status_loop (e : os_env) (f : fs) (dir : list ascii) (lock_threshold fail_interval unlock_time : Z)
    (entries : list (list ascii)) (result_data : list IpLockStatus) : Z * list IpLockStatus * fs :=
  match entries with
  | [] => (RET_OK, result_data, f)
  | d_name :: rest =>
      if str_eqb d_name (lit ".") || str_eqb d_name (lit "..")
      then all_status_loop e f dir lock_threshold fail_interval unlock_time rest result_data
      else
        let '(ret, ip_copy) := strcpy_s MAX_IP_LENGTH d_name in
        if negb (ret =? RET_OK) then (RET_ERR, [], f)
        else
          let '(ret, data, f') := get_one_lock_status e f dir (Some d_name) lock_threshold fail_interval unlock_time
            {| ip := ip_copy; lock_status := false; lock_start_time := 0 |} in
          if negb (ret =? RET_OK) then (RET_ERR, [], f')
          else all_status_loop e f' dir lock_threshold fail_interval unlock_time rest (result_data ++ [data])
  end.

Definition get_all_lock_status (e : os_env) (f : fs) (dir : list ascii) (cur_dir : option (list (list ascii)))
    (lock_threshold fail_interval unlock_time : Z) : Z * list IpLockStatus * fs :=
  match cur_dir with
  | None => (RET_ERR, [], f)
  | Some entries => all_status_loop e f dir lock_threshold fail_interval unlock_time entries []
  end.

Fixpoint clean_loop (e : os_env) (s : lock_state) (dir : list ascii) (entries : list (list ascii)) : lock_state :=
  match entries with
  | [] => s
  | d_name :: rest =>
      if str_eqb d_name (lit ".") || str_eqb d_name (lit "..") then clean_loop e s dir rest
      else clean_loop e (snd (clean_fail_record e s dir (Some d_name))) dir rest
  end.

Definition clean_all_fail_record (e : os_env) (s : lock_state) (dir : list ascii) (cur_dir : option (list (list ascii)))
    : Z * lock_state :=
  match cur_dir with
  | None => (RET_ERR, s)
  | Some entries => (RET_OK, clean_loop e s dir entries)
  end.

Example remove_port_ex :
  map (fun s => remove_port_from_ip (Some (lit s)) MAX_IP_LENGTH)
    ["10.0.0.1"; "10.0.0.1:443"; "[fe80::1]:22"; "[fe80::1]"; "fe80::1"; "[fe80::1"; "[fe80::1]x"; ""]%string
  = [Some (lit "10.0.0.1"); Some (lit "10.0.0.1"); Some (lit "fe80::1"); Some (lit "fe80::1"); Some (lit "fe80::1");
     None; None; Some []].
Proof. reflexivity. Qed.

Definition dir0 : list ascii := lit "/dev/shm/ip_lock".
Definition conf_bus (duration threshold interval : Z) : bus_env := {|
  env_file := None; env_regex := fun _ => None; bus_get := (true, false); call_built := true;
  call_reply := Some [(PROPERTY_LOCKOUT_DURATION, duration); (PROPERTY_LOCKOUT_THRESHOLD, threshold);
                      (PROPERTY_LOCKOUT_TIME_INTERVAL, interval)]
|}.
Definition state0 : lock_state := {|
  ls_fs := Fs ∅ ∅; g_ip_map := ∅; ls_bus := {| g_dbus_conn := true; bus_address := None; bus_pid := None |}
|}.

(** Two failures lock for 300 s with threshold 2; the third does not move the lock. *)
Example lock_run :
  let fail t s := snd (increase_fail_record (nominal t) (conf_bus 300 2 60) s dir0 (Some (lit "10.0.0.1:99")) DO_CHECK) in
  let s := fail 1020 (fail 1010 (fail 1000 state0)) in
  let query t := fst (get_one_lock_status (nominal t) (ls_fs s) dir0 (Some (lit "10.0.0.1")) 2 60 300
                   {| ip := []; lock_status := false; lock_start_time := 0 |}) in
  query 1300 = (RET_OK, {| ip := []; lock_status := true; lock_start_time := 1010 |}) /\
  query 1311 = (RET_OK, {| ip := []; lock_status := false; lock_start_time := 1010 |}).
Proof. vm_compute. split; reflexivity. Qed.

(** ** What a record file holds *)

Definition ip_represents (c : list ascii) (ts : list Z) : Prop :=
  exists rs, c = encode_array rs /\ Forall rec_wf rs /\ (length rs <= 100)%nat /\ timestamp <$> rs = ts.

Lemma ip_represents_empty : ip_represents [] [].
Proof. exists []. repeat split; [constructor|cbn; lia]. Qed.

Lemma ip_represents_range c ts :
  ip_represents c ts -> (length ts <= 100)%nat /\ Forall (fun t => 0 <= t < 2 ^ 64) ts.
Proof.
  intros (rs & _ & Hwf & Hl & <-). rewrite length_fmap. split; [done|].
  apply Forall_fmap. eapply Forall_impl; [exact Hwf|]. by intros r [_ ?].
Qed.

Lemma take_fill_records n c : take n (fill_records n c) = decode_array n c.
Proof. unfold fill_records. apply take_app_length'. by rewrite length_decode_array. Qed.

(** Without failures of the system calls a file is read record by record. *)
Lemma read_ip_nominal t (rs : list IpFailRecord) :
  Forall rec_wf rs -> (length rs <= 100)%nat ->
  read_ip_fail_record (nominal t) (encode_array rs)
  = (RET_OK, Z.of_nat (length rs), fill_records (length rs) (encode_array rs), encode_array rs).
Proof.
  intros Hwf Hl. pose proof (length_encode_array rs Hwf) as He. cbn [rec_size IpFailRecord_codec] in He.
  unfold read_ip_fail_record; cbn [ftell_ok fread_ret nominal]. rewrite He.
  unfold MAX_RECORD_CNT. rewrite !(proj2 (Z.ltb_ge _ _)) by lia.
  rewrite Nat2Z.inj_mul, Z.mod_mul, Z.div_mul by lia. cbn [negb Z.eqb].
  rewrite u8_small, Z.eqb_refl, Nat2Z.id by lia. done.
Qed.

Lemma decode_encode_all (rs : list IpFailRecord) : Forall rec_wf rs -> decode_array (length rs) (encode_array rs) = rs.
Proof. intros Hwf. rewrite <- (app_nil_r (encode_array rs)). by apply decode_encode_array. Qed.

Lemma fill_records_encode (rs : list IpFailRecord) :
  Forall rec_wf rs ->
  fill_records (length rs) (encode_array rs) = rs ++ replicate (100 - length rs) zero_fail_record.
Proof. intros Hwf. unfold fill_records. by rewrite decode_encode_all. Qed.

Lemma zero_fail_record_wf : rec_wf zero_fail_record.
Proof. cbn. unfold IpFailRecord_wf; cbn. lia. Qed.

Lemma ip_record_wf t r : 0 <= t < 2 ^ 64 -> rec_wf r -> rec_wf (ip_record t r).
Proof.
  cbn. unfold IpFailRecord_wf, ip_record. intros Ht [Hn _]. cbn [record_name timestamp]. split; [|done].
  unfold set_name. rewrite length_app, length_drop. cbn. lia.
Qed.

(** [update_record] adds to the log. *)
Lemma update_record_adds t (rs : list IpFailRecord) :
  0 <= t < 2 ^ 64 -> Forall rec_wf rs -> (length rs <= 100)%nat ->
  exists cnt rs' tl, update_record t (Z.of_nat (length rs)) (rs ++ replicate (100 - length rs) zero_fail_record)
    = (RET_OK, cnt, rs' ++ tl) /\ cnt = Z.of_nat (length rs') /\ Forall rec_wf rs' /\ (length rs' <= 100)%nat /\
    timestamp <$> rs' = log_add 100 (timestamp <$> rs) t.
Proof.
  intros Ht Hwf Hl. unfold update_record, MAX_RECORD_CNT, log_add. rewrite length_fmap.
  destruct (Z.eqb_spec (Z.of_nat (length rs)) 100) as [He|Hne].
  - rewrite (proj2 (Nat.eqb_eq _ _)) by lia. replace (100 - length rs)%nat with O by lia. cbn [replicate].
    rewrite app_nil_r, Nat2Z.id. destruct rs as [|r0 rest]; [done|]. cbn [length] in *.
    replace (S (length rest) - 1)%nat with (length rest) by lia. rewrite firstn_all.
    set (i := oldest_from 1 0 _ _). exists (Z.of_nat (S (length rest))), (alter (ip_record t) i (r0 :: rest)), [].
    rewrite app_nil_r, length_alter. split; [done|]. split; [done|].
    split; [apply Forall_alter_list; [done|by intros; apply ip_record_wf]|]. split; [cbn; lia|].
    by rewrite (fmap_alter_insert timestamp (ip_record t) t) by done.
  - rewrite (proj2 (Nat.eqb_neq _ _)) by lia. rewrite Nat2Z.id, u8_small by lia.
    replace (100 - length rs)%nat with (S (99 - length rs)) by lia. cbn [replicate].
    exists (Z.of_nat (length rs) + 1), (rs ++ [ip_record t zero_fail_record]), (replicate (99 - length rs) zero_fail_record).
    rewrite length_app; cbn [length].
    split; [|split; [lia|split; [|split; [lia|by rewrite fmap_app]]]].
    + f_equal. rewrite alter_app_r_alt by lia. rewrite Nat.sub_diag, <- app_assoc. done.
    + apply Forall_app_2; [done|]. constructor; [|done]. apply ip_record_wf; [done|apply zero_fail_record_wf].
Qed.

(** ** Opening *)

Lemma open_ip_content e f dir ip p f1 :
  open_ip_fail_record e f dir ip = (p, f1) -> forall q, content f1 q = content f q.
Proof.
  unfold open_ip_fail_record. intros H q.
  destruct (if bool_decide _ then _ else _) as [ok f0] eqn:Ef.
  assert (Hc : content f0 q = content f q).
  { case_bool_decide; [by simplify_eq|]. destruct (mkdir_ok e); by simplify_eq. }
  destruct ok; cbn [negb] in H; [|by simplify_eq].
  destruct (fopen_ok e); simplify_eq; by rewrite ?content_create.
Qed.

Lemma open_ip_some e f dir ip p f1 :
  open_ip_fail_record e f dir ip = (Some p, f1) -> p = ip_path dir ip.
Proof.
  unfold open_ip_fail_record. intros H.
  destruct (if bool_decide _ then _ else _) as [ok f0]. destruct ok; cbn [negb] in H; [|done].
  by destruct (fopen_ok e); simplify_eq.
Qed.

Lemma open_ip_nominal t f dir ip :
  exists f1, open_ip_fail_record (nominal t) f dir ip = (Some (ip_path dir ip), f1) /\
    (forall q, content f1 q = content f q) /\ is_Some (files f1 !! ip_path dir ip).
Proof.
  destruct (open_ip_fail_record (nominal t) f dir ip) as [p f1] eqn:Ho.
  pose proof (open_ip_content _ _ _ _ _ _ Ho) as Hc. unfold open_ip_fail_record in Ho.
  case_bool_decide; cbn [mkdir_ok chown_ok fopen_ok nominal negb] in Ho; simplify_eq;
    (eexists; split; [done|]; split; [done|]; cbn; by rewrite lookup_insert_eq).
Qed.

Lemma ip_path_inj dir ip ip' : ip_path dir ip = ip_path dir ip' -> ip = ip'.
Proof. unfold ip_path. apply app_inv_head. Qed.

(** ** Adding a failure refines the log of 100 entries *)

Lemma add_fail_record_adds t f dir ip ts :
  0 <= t < 2 ^ 64 -> ip_represents (content f (ip_path dir ip)) ts ->
  exists f', add_fail_record (nominal t) f dir ip = (RET_OK, f') /\
    ip_represents (content f' (ip_path dir ip)) (log_add 100 ts t) /\
    (forall q, q <> ip_path dir ip -> content f' q = content f q).
Proof.
  intros Ht (rs & Hc & Hwf & Hl & <-). unfold add_fail_record.
  destruct (open_ip_nominal t f dir ip) as (f1 & -> & Hf1 & _).
  rewrite Hf1, Hc, read_ip_nominal, fill_records_encode by done.
  cbn [RET_OK Z.eqb negb now nominal]. rewrite u64_small by done.
  destruct (update_record_adds t rs Ht Hwf Hl) as (cnt & rs' & tl & -> & -> & Hwf' & Hl' & Hts).
  cbn [RET_OK Z.eqb negb ftruncate_err fseek_ret nominal].
  rewrite Nat2Z.id, take_app_length, fwrite_append_nominal, length_encode_array by done.
  cbn [rec_size IpFailRecord_codec]. rewrite Nat2Z.inj_mul, Z.div_mul, Z.eqb_refl by lia. cbn [negb].
  eexists. split; [done|]. split.
  - rewrite content_set, <- Hts. by exists rs'.
  - intros q Hq. by rewrite !content_set_ne.
Qed.

(** ** The status of an address *)

Lemma latest_failure_spec b rs :
  0 <= b -> latest_failure b rs = Z.max b (latest (timestamp <$> rs)).
Proof.
  revert b; induction rs as [|r rs IH]; intros b Hb; unfold latest in *; cbn in *; [lia|].
  destruct (Z.ltb_spec b (timestamp r)); rewrite IH; lia.
Qed.

Lemma count_failures_spec x k (rs : list IpFailRecord) :
  0 <= k -> k + Z.of_nat (length rs) < 256 ->
  count_failures x k rs = k + Z.of_nat (length (filter (fun t => x < t) (timestamp <$> rs))).
Proof.
  revert k; induction rs as [|r rs IH]; intros k Hk Hl; cbn [count_failures length] in *; [cbn; lia|].
  rewrite fmap_cons, filter_cons. destruct (Z.ltb_spec x (timestamp r)); case_decide; try lia; cbn [length].
  - rewrite u8_small, IH by lia. lia.
  - by rewrite IH by lia.
Qed.

(** What the status of an address should be: locked when the last failure is not older
    than the unlock time and enough failures lie in the interval before it. An interval longer than the
    time of the last failure counts nothing. *)
Definition recent_count (interval : Z) (ts : list Z) : Z :=
  if interval <=? latest ts then Z.of_nat (recent (latest ts) interval ts) else 0.

Definition locked_at (t threshold interval unlock : Z) (ts : list Z) : bool :=
  negb (threshold =? 0) && (threshold <=? recent_count interval ts) && (t <=? latest ts + unlock).

Lemma count_failures_recent interval (rs : list IpFailRecord) :
  Forall rec_wf rs -> (length rs <= 100)%nat -> 0 <= interval < 2 ^ 64 ->
  count_failures (u64 (latest (timestamp <$> rs) - interval)) 0 rs = recent_count interval (timestamp <$> rs).
Proof.
  intros Hwf Hl Hi. rewrite count_failures_spec by lia. unfold recent_count, recent. rewrite Z.add_0_l.
  set (ts := timestamp <$> rs).
  assert (HR : Forall (fun t => 0 <= t < 2 ^ 64) ts).
  { apply Forall_fmap. eapply Forall_impl; [exact Hwf|]. by intros r [_ ?]. }
  pose proof (latest_range ts (2 ^ 64) ltac:(lia) HR) as HL.
  destruct (Z.leb_spec interval (latest ts)).
  - rewrite u64_small by lia. do 2 f_equal. apply list_filter_iff. intros t. lia.
  - assert (Hu : u64 (latest ts - interval) = 2 ^ 64 + latest ts - interval).
    { unfold u64. rewrite <- (Z.mod_add _ 1) by lia. rewrite Z.mod_small; lia. }
    rewrite Hu. cut (filter (fun t => 2 ^ 64 + latest ts - interval < t) ts = []); [by intros ->|].
    apply filter_none, Forall_forall. intros t Hin. pose proof (latest_ge t ts Hin). lia.
Qed.

Lemma one_lock_status t f dir ip_str clean ts threshold interval unlock st :
  remove_port_from_ip ip_str MAX_IP_LENGTH = Some clean ->
  ip_represents (content f (ip_path dir clean)) ts ->
  0 <= t < 2 ^ 64 -> 0 <= threshold -> 0 <= interval < 2 ^ 64 -> 0 <= unlock -> latest ts + unlock < 2 ^ 64 ->
  exists f', get_one_lock_status (nominal t) f dir ip_str threshold interval unlock st =
      (RET_OK, {| ip := ip st; lock_status := locked_at t threshold interval unlock ts;
                  lock_start_time := latest ts |}, f') /\
    (forall q, content f' q = content f q) /\ is_Some (files f' !! ip_path dir clean).
Proof.
  intros Hp (rs & Hc & Hwf & Hl & <-) Ht Hth Hi Hu Hlu. unfold get_one_lock_status. rewrite Hp.
  destruct (open_ip_nominal t f dir clean) as (f1 & -> & Hf1 & Hsome).
  rewrite Hf1, Hc, read_ip_nominal, fill_records_encode by done.
  cbn [RET_OK Z.eqb negb now nominal]. rewrite Nat2Z.id, take_app_length.
  rewrite latest_failure_spec by lia.
  pose proof (proj2 (ip_represents_range _ _ (ex_intro _ rs (conj eq_refl (conj Hwf (conj Hl eq_refl)))))) as HR.
  pose proof (latest_range _ (2 ^ 64) ltac:(lia) HR).
  rewrite Z.max_r by lia. rewrite count_failures_recent by done. rewrite !u64_small by lia.
  eexists. split; [|split].
  - do 3 f_equal. unfold locked_at. destruct (Z.ltb_spec (latest (timestamp <$> rs) + unlock) t).
    + rewrite (proj2 (Z.leb_gt t _)), andb_false_r by lia.
      destruct (Z.eqb_spec threshold 0); [done|]. cbn. apply Z.leb_gt. lia.
    + rewrite (proj2 (Z.leb_le t _)), andb_true_r by lia. done.
  - intros q. destruct (decide (q = ip_path dir clean)) as [->|]; [by rewrite content_set, Hc|].
    by rewrite content_set_ne, Hf1.
  - cbn. by rewrite lookup_insert_eq.
Qed.

(** ** The claims on the lock *)

(** Failures at [times] from one address, without consulting the lock. *)
Definition run_fails (s : lock_state) (dir ip_str : list ascii) (times : list Z) : lock_state :=
  fold_left (fun s t => snd (increase_fail_record (nominal t) (conf_bus 0 0 0) s dir (Some ip_str) NO_CHECK)) times s.

Lemma increase_no_check t b s dir ip_str clean ts :
  remove_port_from_ip ip_str MAX_IP_LENGTH = Some clean ->
  clean ∈ g_ip_map s \/ (size (g_ip_map s) < 1000)%nat ->
  0 <= t < 2 ^ 64 -> ip_represents (content (ls_fs s) (ip_path dir clean)) ts ->
  exists s', increase_fail_record (nominal t) b s dir ip_str NO_CHECK = (RET_OK, s') /\
    ip_represents (content (ls_fs s') (ip_path dir clean)) (log_add 100 ts t) /\
    (forall q, q <> ip_path dir clean -> content (ls_fs s') q = content (ls_fs s) q) /\
    clean ∈ g_ip_map s'.
Proof.
  intros Hp Hm Ht Hrep. unfold increase_fail_record. rewrite Hp.
  destruct (check_if_increase_record_cnt (g_ip_map s) clean) as [ret m'] eqn:Ec.
  assert (ret = RET_OK /\ clean ∈ m') as [-> Hin].
  { unfold check_if_increase_record_cnt in Ec. change MAX_IP_RECORD_CNT with 1000%nat in Ec.
    case_bool_decide; [by simplify_eq|]. destruct (Nat.leb_spec 1000 (size (g_ip_map s))); simplify_eq; [|set_solver].
    destruct Hm; [done|lia]. }
  cbn [RET_OK Z.eqb negb]. change (NO_CHECK =? DO_CHECK) with false. cbv iota.
  cbn [ls_fs]. destruct (add_fail_record_adds t (ls_fs s) dir clean ts Ht Hrep) as (f' & -> & Hr & Hq).
  eexists. split; [done|]. by repeat split.
Qed.

Lemma run_fails_refines s dir ip_str clean times ts :
  remove_port_from_ip (Some ip_str) MAX_IP_LENGTH = Some clean ->
  clean ∈ g_ip_map s \/ (size (g_ip_map s) < 1000)%nat ->
  Forall (fun t => 0 <= t < 2 ^ 64) times -> ip_represents (content (ls_fs s) (ip_path dir clean)) ts ->
  ip_represents (content (ls_fs (run_fails s dir ip_str times)) (ip_path dir clean)) (log_run 100 ts times).
Proof.
  intros Hp Hm HF. revert s ts Hm. induction HF as [|t times Ht HF IH]; intros s ts Hm Hrep; [done|].
  destruct (increase_no_check t (conf_bus 0 0 0) s dir (Some ip_str) clean ts Hp Hm Ht Hrep) as (s' & He & Hr & _ & Hin).
  unfold run_fails, log_run in *; cbn [fold_left]. rewrite He. apply IH; [by left|done].
Qed.

Lemma locked_at_perm t threshold interval unlock ts ts' :
  ts ≡ₚ ts' -> locked_at t threshold interval unlock ts = locked_at t threshold interval unlock ts'.
Proof.
  intros Hp. unfold locked_at, recent_count.
  by rewrite (latest_perm _ _ Hp), (recent_perm _ _ _ _ Hp).
Qed.

(** C4: after failures at [times] (in time order) from an address with no record, a query for that address
    (written with or without a port) says locked exactly when, among the last 100 failures, at
    least [threshold] lie less than [interval] before the last one and the unlock time has not passed; and
    reports the time of the last failure. *)
Theorem lock_after_failures s dir ip_str query clean times t threshold interval unlock st :
  remove_port_from_ip (Some ip_str) MAX_IP_LENGTH = Some clean ->
  remove_port_from_ip (Some query) MAX_IP_LENGTH = Some clean ->
  clean ∈ g_ip_map s \/ (size (g_ip_map s) < 1000)%nat ->
  content (ls_fs s) (ip_path dir clean) = [] ->
  StronglySorted Z.le times -> Forall (fun t => 0 <= t < 2 ^ 63) times ->
  0 <= t < 2 ^ 64 -> 0 <= threshold -> 0 <= interval < 2 ^ 64 -> 0 <= unlock < 2 ^ 63 ->
  fst (get_one_lock_status (nominal t) (ls_fs (run_fails s dir ip_str times)) dir (Some query)
         threshold interval unlock st)
  = (RET_OK, {| ip := ip st; lock_status := locked_at t threshold interval unlock (last_n 100 times);
                lock_start_time := latest (last_n 100 times) |}).
Proof.
  intros Hp Hq Hm He Hs HF Ht Hth Hi Hu.
  assert (HF64 : Forall (fun t => 0 <= t < 2 ^ 64) times) by (eapply Forall_impl; [exact HF|intros; cbn in *; lia]).
  assert (Hrep : ip_represents (content (ls_fs s) (ip_path dir clean)) []).
  { rewrite He. apply ip_represents_empty. }
  apply (run_fails_refines s dir ip_str clean times [] Hp Hm HF64) in Hrep.
  pose proof (log_keeps_last 100 times ltac:(lia) Hs) as Hperm.
  assert (HL : 0 <= latest (log_run 100 [] times) < 2 ^ 63).
  { apply latest_range; [lia|]. rewrite Hperm. unfold last_n. by apply Forall_drop. }
  destruct (one_lock_status t _ dir (Some query) clean _ threshold interval unlock st Hq Hrep)
    as (f' & -> & _); [lia..|].
  cbn [fst]. by rewrite (locked_at_perm _ _ _ _ _ _ Hperm), (latest_perm _ _ Hperm).
Qed.

(** Attempts at [times] that consult the lock first. *)
Definition run_checked (b : bus_env) (s : lock_state) (dir ip_str : list ascii) (times : list Z) : lock_state :=
  fold_left (fun s t => snd (increase_fail_record (nominal t) b s dir (Some ip_str) DO_CHECK)) times s.

(** One attempt while the address is locked leaves every file's content alone. *)
Lemma locked_attempt t b s dir ip_str clean ts conf :
  remove_port_from_ip (Some ip_str) MAX_IP_LENGTH = Some clean ->
  remove_port_from_ip (Some clean) MAX_IP_LENGTH = Some clean ->
  clean ∈ g_ip_map s -> ip_represents (content (ls_fs s) (ip_path dir clean)) ts ->
  dbus_get_auth_lockout_conf b (ls_bus s) {| duration := 0; threshold := 0; time_interval := 0 |}
    = (RET_OK, conf, ls_bus s) ->
  0 <= duration conf -> 0 <= t < 2 ^ 64 -> latest ts + duration conf < 2 ^ 64 ->
  locked_at t (u8 (threshold conf)) (u64 (time_interval conf)) (duration conf) ts = true ->
  exists s', increase_fail_record (nominal t) b s dir (Some ip_str) DO_CHECK = (RET_OK, s') /\
    (forall q, content (ls_fs s') q = content (ls_fs s) q) /\ g_ip_map s' = g_ip_map s /\ ls_bus s' = ls_bus s.
Proof.
  intros Hp Hc Hm Hrep Hb Hd Ht Hl Hlock. unfold increase_fail_record. rewrite Hp.
  unfold check_if_increase_record_cnt. rewrite bool_decide_eq_true_2 by done. cbn [RET_OK Z.eqb negb].
  change (DO_CHECK =? DO_CHECK) with true. cbv iota. unfold check_if_locked; cbn [ls_bus ls_fs g_ip_map].
  rewrite Hb. cbn [RET_OK Z.eqb negb].
  destruct (one_lock_status t (ls_fs s) dir (Some clean) clean ts (u8 (threshold conf)) (u64 (time_interval conf))
    (u64 (duration conf)) {| ip := []; lock_status := false; lock_start_time := 0 |} Hc Hrep)
    as (f' & -> & Hq & _); try done; try apply u8_range; try apply u64_range.
  - rewrite u64_small; [done|]. pose proof (latest_range ts (2 ^ 64) ltac:(lia) (proj2 (ip_represents_range _ _ Hrep))). lia.
  - cbn [RET_OK Z.eqb negb lock_status]. rewrite (u64_small (duration conf)), Hlock.
    + eexists. by repeat split.
    + pose proof (latest_range ts (2 ^ 64) ltac:(lia) (proj2 (ip_represents_range _ _ Hrep))). lia.
Qed.

(** C19: attempts made while an address is locked do not prolong the lock: however many there are, the status
    is unlocked once the unlock duration since the failure that locked it has passed. *)
Theorem attempts_do_not_prolong_lock b s dir ip_str clean ts conf times t :
  remove_port_from_ip (Some ip_str) MAX_IP_LENGTH = Some clean ->
  remove_port_from_ip (Some clean) MAX_IP_LENGTH = Some clean ->
  clean ∈ g_ip_map s -> ip_represents (content (ls_fs s) (ip_path dir clean)) ts ->
  dbus_get_auth_lockout_conf b (ls_bus s) {| duration := 0; threshold := 0; time_interval := 0 |}
    = (RET_OK, conf, ls_bus s) ->
  0 <= duration conf -> latest ts + duration conf < 2 ^ 64 ->
  locked_at (latest ts) (u8 (threshold conf)) (u64 (time_interval conf)) (duration conf) ts = true ->
  Forall (fun t => 0 <= t <= latest ts + duration conf) times ->
  latest ts + duration conf < t < 2 ^ 64 ->
  ip_represents (content (ls_fs (run_checked b s dir ip_str times)) (ip_path dir clean)) ts /\
  fst (check_if_locked (nominal t) b (run_checked b s dir ip_str times) dir clean) = false.
Proof.
  intros Hp Hc Hm Hrep Hb Hd Hl Hlock HF Ht.
  pose proof (latest_range ts (2 ^ 64) ltac:(lia) (proj2 (ip_represents_range _ _ Hrep))) as HL.
  assert (Hrun : ip_represents (content (ls_fs (run_checked b s dir ip_str times)) (ip_path dir clean)) ts /\
            ls_bus (run_checked b s dir ip_str times) = ls_bus s).
  { clear Ht. unfold run_checked. revert s Hm Hrep Hb.
    induction HF as [|u times Hu HF IH]; intros s Hm Hrep Hb; [done|]. cbn [fold_left].
    destruct (locked_attempt u b s dir ip_str clean ts conf) as (s' & He & Hq & Hm' & Hb'); try done; [lia| |].
    - revert Hlock. unfold locked_at. rewrite !andb_true_iff, !Z.leb_le. intros [? _]. split; [done|lia].
    - rewrite He. cbn [snd]. rewrite <- Hb'. apply IH; [by rewrite Hm'|by rewrite Hq|by rewrite Hb']. }
  destruct Hrun as [Hr Hbus]. split; [done|]. unfold check_if_locked. rewrite Hbus, Hb. cbn [RET_OK Z.eqb negb ls_fs].
  destruct (one_lock_status t _ dir (Some clean) clean ts (u8 (threshold conf)) (u64 (time_interval conf))
    (u64 (duration conf)) {| ip := []; lock_status := false; lock_start_time := 0 |} Hc Hr)
    as (f' & -> & _); rewrite ?(u64_small (duration conf)) by lia; try lia; try apply u8_range; try apply u64_range.
  cbn. unfold locked_at. rewrite (proj2 (Z.leb_gt t _)) by lia. apply andb_false_r.
Qed.

(** ** Ports *)

(** An address without colons (IPv4) and one with at least two (IPv6). *)
Definition v4_host (h : list ascii) : Prop :=
  ":"%char ∉ h /\ has_prefix (lit "[") h = false /\ (length h < 64)%nat.
Definition v6_host (h : list ascii) : Prop :=
  (exists a m c, h = a ++ ":"%char :: m ++ ":"%char :: c /\ ":"%char ∉ a /\ ":"%char ∉ c) /\
  "]"%char ∉ h /\ has_prefix (lit "[") h = false /\ (length h < 64)%nat.

Lemma strncpy_prefix h rest count :
  (length h < 64)%nat -> count = length h -> strncpy_s MAX_IP_LENGTH (h ++ rest) count = (EOK, h).
Proof.
  intros Hl ->. unfold strncpy_s, MAX_IP_LENGTH. rewrite length_app.
  rewrite (proj2 (Nat.ltb_lt _ _)) by lia. by rewrite take_app_length.
Qed.

Lemma prefix_app_false p h r : h <> [] -> has_prefix [p] h = false -> has_prefix [p] (h ++ r) = false.
Proof. destruct h as [|a h]; [done|]. by cbn. Qed.

Lemma bracket_host h r :
  "]"%char ∉ h -> (length h < 64)%nat -> (r = [] \/ exists p, r = ":"%char :: p) ->
  remove_port_from_ip (Some ("["%char :: h ++ "]"%char :: r)) MAX_IP_LENGTH = Some h.
Proof.
  intros Hh Hl Hr. unfold remove_port_from_ip.
  change (has_prefix (lit "[") ("["%char :: h ++ "]"%char :: r)) with true. cbv iota.
  assert (Hs : strchr "]"%char ("["%char :: h ++ "]"%char :: r) = Some (S (length h))).
  { change ("["%char :: h ++ "]"%char :: r) with (("["%char :: h) ++ "]"%char :: r).
    rewrite strchr_app; [done|]. rewrite not_elem_of_cons. split; [by apply char_eqb_neq|done]. }
  rewrite Hs. change ("["%char :: h ++ "]"%char :: r) with (["["%char] ++ h ++ "]"%char :: r).
  rewrite lookup_app_r by (cbn; lia). rewrite lookup_app_r by (cbn; lia).
  replace (S (S (length h)) - length ["["%char] - length h)%nat with 1%nat by (cbn; lia).
  change (drop 1 (["["%char] ++ h ++ "]"%char :: r)) with (h ++ "]"%char :: r).
  rewrite strncpy_prefix by (done || lia). destruct Hr as [->|[p ->]]; done.
Qed.

Lemma plain_v4 h : v4_host h -> remove_port_from_ip (Some h) MAX_IP_LENGTH = Some h.
Proof.
  intros (Hc & Hb & Hl). unfold remove_port_from_ip. rewrite Hb, (proj2 (strchr_None _ _) Hc).
  rewrite <- (app_nil_r h) at 1. by rewrite strncpy_prefix.
Qed.

Lemma plain_v6 h : v6_host h -> remove_port_from_ip (Some h) MAX_IP_LENGTH = Some h.
Proof.
  intros ((a & m & c & -> & Ha & Hc) & _ & Hb & Hl). unfold remove_port_from_ip. rewrite Hb.
  rewrite strchr_app by done.
  replace (a ++ ":"%char :: m ++ ":"%char :: c) with ((a ++ ":"%char :: m) ++ ":"%char :: c) by (by rewrite <- app_assoc).
  rewrite strrchr_app by done. rewrite length_app; cbn [length].
  rewrite (proj2 (Nat.eqb_neq _ _)) by lia. rewrite <- app_assoc.
  rewrite <- (app_nil_r (a ++ _)) at 1. rewrite strncpy_prefix by done. done.
Qed.

(** An address is recorded under the same name whatever its port: an IPv4 address alone or followed by
    a port, an IPv6 address alone, between brackets, or between brackets and followed by a port. The name is stable:
    removing the port again changes nothing. *)
Theorem remove_port_spec h port :
  ":"%char ∉ port ->
  (v4_host h -> h <> [] ->
   remove_port_from_ip (Some h) MAX_IP_LENGTH = Some h /\
   remove_port_from_ip (Some (h ++ ":"%char :: port)) MAX_IP_LENGTH = Some h) /\
  (v6_host h ->
   remove_port_from_ip (Some h) MAX_IP_LENGTH = Some h /\
   remove_port_from_ip (Some ("["%char :: h ++ ["]"%char])) MAX_IP_LENGTH = Some h /\
   remove_port_from_ip (Some ("["%char :: h ++ "]"%char :: ":"%char :: port)) MAX_IP_LENGTH = Some h).
Proof.
  intros Hp. split.
  - intros Hv Hne. split; [by apply plain_v4|]. destruct Hv as (Hc & Hb & Hl). unfold remove_port_from_ip.
    change (lit "[") with ["["%char] in *. rewrite prefix_app_false, strchr_app, strrchr_app by done.
    rewrite Nat.eqb_refl. by rewrite strncpy_prefix.
  - intros Hv. split; [by apply plain_v6|]. destruct Hv as (_ & Hb & _ & Hl).
    split; apply bracket_host; try done; [by left|right; by exists port].
Qed.

(** ** The number of recorded addresses *)

(** Addresses whose name is stable under a second removal of the port. *)
Definition stable_ip (ip_str : list ascii) : Prop :=
  forall c, remove_port_from_ip (Some ip_str) MAX_IP_LENGTH = Some c ->
    remove_port_from_ip (Some c) MAX_IP_LENGTH = Some c.

Lemma addresses_are_stable h port :
  ":"%char ∉ port -> (v4_host h -> h <> [] -> stable_ip h /\ stable_ip (h ++ ":"%char :: port)) /\
  (v6_host h -> stable_ip h /\ stable_ip ("["%char :: h ++ ["]"%char]) /\ stable_ip ("["%char :: h ++ "]"%char :: ":"%char :: port)).
Proof.
  intros Hp. destruct (remove_port_spec h port Hp) as [H4 H6]. split.
  - intros Hh Hne. destruct (H4 Hh Hne) as [E1 E2]. split; intros c Hc; congruence.
  - intros Hh. destruct (H6 Hh) as (E1 & E2 & E3). split; [|split]; intros c Hc; congruence.
Qed.

(** Recording and cleaning, of addresses that satisfy [P], where [remove] fails on no other path than those of [K]. *)
Definition removes (K : gset (list ascii)) (e : os_env) : Prop := forall p, remove_ok e p = false -> p ∈ K.

Inductive lock_step (P : list ascii -> Prop) (K : gset (list ascii)) (dir : list ascii) : lock_state -> lock_state -> Prop :=
| step_increase e b s ip_str chk ret s' :
    P ip_str -> increase_fail_record e b s dir (Some ip_str) chk = (ret, s') -> lock_step P K dir s s'
| step_clean e s ip_str ret s' :
    removes K e -> clean_fail_record e s dir ip_str = (ret, s') -> lock_step P K dir s s'
| step_clean_all e s cur_dir ret s' :
    removes K e -> clean_all_fail_record e s dir cur_dir = (ret, s') -> lock_step P K dir s s'.

(** A file only for an address of the table, but for those of [K]. *)
Definition tracked (K : gset (list ascii)) (dir : list ascii) (s : lock_state) : Prop :=
  forall p, is_Some (files (ls_fs s) !! p) -> p ∈ K \/ exists ip, ip ∈ g_ip_map s /\ p = ip_path dir ip.

Definition covers (f f' : fs) (p : list ascii) : Prop :=
  forall q, is_Some (files f' !! q) -> q = p \/ is_Some (files f !! q).

Lemma covers_set f f0 p c : covers f f0 p -> covers f (set_file f0 p c) p.
Proof.
  intros Hc q Hq. cbn in Hq. destruct (decide (p = q)) as [->|Hne]; [by left|].
  rewrite lookup_insert_ne in Hq by done. by apply Hc.
Qed.

Lemma open_ip_covers e f dir ip p f1 :
  open_ip_fail_record e f dir ip = (p, f1) -> covers f f1 (ip_path dir ip).
Proof.
  unfold open_ip_fail_record. intros H.
  destruct (if bool_decide _ then _ else _) as [ok f0] eqn:Ef.
  assert (Hc : covers f f0 (ip_path dir ip)).
  { intros q Hq. right. case_bool_decide; [by simplify_eq|]. destruct (mkdir_ok e); by simplify_eq. }
  destruct ok; cbn [negb] in H; [|by simplify_eq].
  destruct (fopen_ok e); simplify_eq; [|done]. by apply covers_set.
Qed.

Lemma add_fail_record_covers e f dir ip ret f' :
  add_fail_record e f dir ip = (ret, f') -> covers f f' (ip_path dir ip).
Proof.
  unfold add_fail_record. destruct (open_ip_fail_record e f dir ip) as [[p|] f1] eqn:Ho;
    pose proof (open_ip_covers _ _ _ _ _ _ Ho) as Hc; [|by intros [= <- <-]].
  apply open_ip_some in Ho as ->. intros H. repeat case_match; simplify_eq; repeat apply covers_set; done.
Qed.

Lemma get_one_covers e f dir ip_str th fi ut st ret st' f' c :
  remove_port_from_ip ip_str MAX_IP_LENGTH = Some c ->
  get_one_lock_status e f dir ip_str th fi ut st = (ret, st', f') -> covers f f' (ip_path dir c).
Proof.
  intros Hp. unfold get_one_lock_status. rewrite Hp.
  destruct (open_ip_fail_record e f dir c) as [[p|] f1] eqn:Ho;
    pose proof (open_ip_covers _ _ _ _ _ _ Ho) as Hc; [|by intros [= <- <- <-]].
  apply open_ip_some in Ho as ->. intros H. repeat case_match; simplify_eq; repeat apply covers_set; done.
Qed.

Lemma tracked_covers K dir s f' b ip :
  tracked K dir s -> ip ∈ g_ip_map s -> covers (ls_fs s) f' (ip_path dir ip) ->
  tracked K dir {| ls_fs := f'; g_ip_map := g_ip_map s; ls_bus := b |}.
Proof.
  intros Hf Hin Hc p Hp. cbn in *.
  apply Hc in Hp as [->|Hp]; [by right; exists ip|]. by apply Hf.
Qed.

(** The table takes an address more as long as it has fewer than 1000. *)
Lemma increase_cnt m c r m' :
  (size m <= 1000)%nat -> check_if_increase_record_cnt m c = (r, m') ->
  (size m' <= 1000)%nat /\ m ⊆ m' /\ (r = RET_OK -> c ∈ m').
Proof.
  intros Hs. unfold check_if_increase_record_cnt. change MAX_IP_RECORD_CNT with 1000%nat.
  case_bool_decide; [intros [= <- <-]; done|]. destruct (Nat.leb_spec 1000 (size m)); intros [= <- <-]; [done|].
  rewrite size_union by set_solver. rewrite size_singleton. split; [lia|set_solver].
Qed.

(** What an attempt to record keeps. *)
Lemma increase_keeps e b s dir ip_str chk ret s' K :
  (size (g_ip_map s) <= 1000)%nat ->
  increase_fail_record e b s dir (Some ip_str) chk = (ret, s') ->
  (size (g_ip_map s') <= 1000)%nat /\ (stable_ip ip_str -> tracked K dir s -> tracked K dir s').
Proof.
  intros Hsize. unfold increase_fail_record.
  destruct (remove_port_from_ip (Some ip_str) MAX_IP_LENGTH) as [c|] eqn:Hp; [|by intros [= <- <-]].
  destruct (check_if_increase_record_cnt (g_ip_map s) c) as [r m'] eqn:Ec.
  destruct (increase_cnt _ _ _ _ Hsize Ec) as (Hsz & Hsub & Hin).
  assert (Hs1 : tracked K dir s -> tracked K dir {| ls_fs := ls_fs s; g_ip_map := m'; ls_bus := ls_bus s |}).
  { intros Hs p [?|(ip & ? & ?)]%Hs; [by left|]. right. exists ip. set_solver. }
  destruct (Z.eqb_spec r RET_OK) as [->|]; cbn [negb]; [|by intros [= <- <-]].
  specialize (Hin eq_refl). set (s1 := {| ls_fs := ls_fs s |}) in *.
  destruct (if chk =? DO_CHECK then _ else _) as [locked s2] eqn:Ek.
  assert (Hs2 : g_ip_map s2 = m' /\ (stable_ip ip_str -> tracked K dir s -> tracked K dir s2)).
  { destruct (chk =? DO_CHECK); [|by simplify_eq]. unfold check_if_locked in Ek.
    destruct (dbus_get_auth_lockout_conf _ _ _) as [[rr conf] bus'].
    destruct (negb (rr =? RET_OK)); [by simplify_eq|].
    destruct (get_one_lock_status _ _ _ _ _ _ _ _) as [[r2 st2] f2] eqn:Eg. simplify_eq.
    split; [done|]. intros Hst Ht. apply get_one_covers with (c := c) in Eg; [|by apply Hst].
    apply (tracked_covers K dir s1 f2 bus' c); [by apply Hs1|done|done]. }
  destruct Hs2 as [Hm2 Hs2]. destruct locked; [intros [= <- <-]; by rewrite Hm2|].
  destruct (add_fail_record e (ls_fs s2) dir c) as [r3 f3] eqn:Ea. intros [= <- <-].
  apply add_fail_record_covers in Ea. split; [cbn; by rewrite Hm2|].
  intros Hst Ht. apply (tracked_covers K dir s2 f3 _ c); [by apply Hs2|by rewrite Hm2|done].
Qed.

Lemma clean_keeps e K s dir ip_str ret s' :
  removes K e -> clean_fail_record e s dir ip_str = (ret, s') ->
  g_ip_map s' ⊆ g_ip_map s /\ (tracked K dir s -> tracked K dir s').
Proof.
  intros He. unfold clean_fail_record.
  destruct (remove_port_from_ip ip_str MAX_IP_LENGTH) as [c|]; intros [= <- <-]; [|done].
  cbn. split; [set_solver|]. intros Hf p Hp. cbn in *. unfold remove_file in Hp.
  destruct (decide (p = ip_path dir c)) as [->|Hne].
  - destruct (remove_ok e (ip_path dir c)) eqn:Er; [|left; by apply He].
    cbn in Hp. by apply lookup_delete_is_Some in Hp as [? _].
  - assert (Hp' : is_Some (files (ls_fs s) !! p)).
    { destruct (remove_ok e _); [|done]. cbn in Hp. by apply lookup_delete_is_Some in Hp as [_ ?]. }
    destruct (Hf p Hp') as [?|(ip & Hin & ->)]; [by left|]. right. exists ip. split; [|done].
    assert (ip <> c) by congruence. set_solver.
Qed.

Lemma clean_loop_keeps e K s dir entries :
  removes K e ->
  g_ip_map (clean_loop e s dir entries) ⊆ g_ip_map s /\ (tracked K dir s -> tracked K dir (clean_loop e s dir entries)).
Proof.
  intros He. revert s; induction entries as [|d entries IH]; intros s; cbn [clean_loop]; [done|].
  destruct (_ || _); [apply IH|].
  destruct (clean_fail_record e s dir (Some d)) as [r s1] eqn:E. destruct (clean_keeps _ _ _ _ _ _ _ He E) as [H1 H2].
  destruct (IH s1) as [H3 H4]. cbn [snd]. split; [set_solver|auto].
Qed.

(** A step keeps the bound of the table, and the files tracked when the addresses are stable. *)
Lemma lock_step_keeps P K dir s s' :
  lock_step P K dir s s' -> (size (g_ip_map s) <= 1000)%nat ->
  (size (g_ip_map s') <= 1000)%nat /\ ((forall a, P a -> stable_ip a) -> tracked K dir s -> tracked K dir s').
Proof.
  assert (Hsub : forall m m' : gset (list ascii), m' ⊆ m -> (size m <= 1000)%nat -> (size m' <= 1000)%nat).
  { intros m m' Hm Hs. etransitivity; [by apply subseteq_size|done]. }
  intros [e b s0 ip_str chk ret s1 HP Hi|e s0 ip_str ret s1 He Hi|e s0 cur_dir ret s1 He Hi] Hs.
  - destruct (increase_keeps _ _ _ _ _ _ _ _ K Hs Hi) as [H1 H2]. auto.
  - destruct (clean_keeps _ _ _ _ _ _ _ He Hi) as [H1 H2]. split; [by apply (Hsub _ _ H1)|by intros _].
  - unfold clean_all_fail_record in Hi. destruct cur_dir as [entries|]; simplify_eq; [|done].
    destruct (clean_loop_keeps e K s0 dir entries He) as [H1 H2]. split; [by apply (Hsub _ _ H1)|by intros _].
Qed.

Lemma tracked_size K dir s :
  (size (g_ip_map s) <= 1000)%nat -> tracked K dir s -> (size (files (ls_fs s)) <= 1000 + size K)%nat.
Proof.
  intros Hs Hf. rewrite <- size_dom.
  transitivity (size (K ∪ set_map (ip_path dir) (g_ip_map s) : gset (list ascii))).
  - apply subseteq_size. intros p Hp. apply elem_of_dom in Hp. apply Hf in Hp as [?|(ip & ? & ->)]; set_solver.
  - rewrite size_union_alt.
    assert (size (set_map (ip_path dir) (g_ip_map s) ∖ K : gset (list ascii)) <= 1000)%nat; [|lia].
    etransitivity; [apply (subseteq_size _ (set_map (ip_path dir) (g_ip_map s))); set_solver|].
    etransitivity; [apply size_set_map_le|done].
Qed.

(** C30: recording and cleaning never leave more than 1000 addresses in the table, whatever the addresses and the
    failures of the system. For addresses whose name is stable (IPv4 and IPv6 addresses are, with and without a port) there
    are at most 1000 record files besides those of [K]: the files that were there before and have no address in the table,
    and those that [remove] fails on, since their address leaves the table all the same. A query is not bounded that
    way: asked about an address without a record it creates its file and does not enter it in the table. *)
Theorem recorded_ips_bounded P K dir s s' :
  (size (g_ip_map s) <= 1000)%nat -> tracked K dir s -> rtc (lock_step P K dir) s s' ->
  (size (g_ip_map s') <= 1000)%nat /\
  ((forall a, P a -> stable_ip a) -> (size (files (ls_fs s')) <= 1000 + size K)%nat) /\
  (forall t clean st, remove_port_from_ip (Some clean) MAX_IP_LENGTH = Some clean ->
     content (ls_fs s') (ip_path dir clean) = [] -> 0 <= t < 2 ^ 64 ->
     exists r f', get_one_lock_status (nominal t) (ls_fs s') dir (Some clean) 1 1 1 st = (r, f') /\
       is_Some (files f' !! ip_path dir clean)).
Proof.
  intros Hs Ht Hr.
  assert (Hk : (size (g_ip_map s') <= 1000)%nat /\ ((forall a, P a -> stable_ip a) -> tracked K dir s')).
  { assert (Ht' : (forall a, P a -> stable_ip a) -> tracked K dir s) by done. clear Ht.
    induction Hr as [s|s s1 s2 Hst _ IH]; [done|]. destruct (lock_step_keeps _ _ _ _ _ Hst Hs). auto. }
  destruct Hk as [Hs' Hf]. split; [done|]. split; [intros HP; apply (tracked_size K dir); auto|].
  intros t clean st Hc He Hb.
  destruct (one_lock_status t (ls_fs s') dir (Some clean) clean [] 1 1 1 st Hc) as (f' & -> & _ & Hsome);
    [rewrite He; apply ip_represents_empty|lia|lia|lia|lia|cbn; lia|]. by eexists _, f'.
Qed.

(** ** The theorems at concrete inputs *)

Definition ip0 : list ascii := lit "10.0.0.1".

Lemma lock_after_failures_witness :
  fst (get_one_lock_status (nominal 1100) (ls_fs (run_fails state0 dir0 (lit "10.0.0.1:99") [1000; 1010; 1020])) dir0
         (Some ip0) 2 60 300 {| ip := []; lock_status := false; lock_start_time := 0 |})
  = (RET_OK, {| ip := []; lock_status := true; lock_start_time := 1020 |}).
Proof.
  refine (eq_trans (lock_after_failures state0 dir0 (lit "10.0.0.1:99") ip0 ip0 [1000; 1010; 1020] 1100 2 60 300
    {| ip := []; lock_status := false; lock_start_time := 0 |} eq_refl eq_refl _ eq_refl _ _ _ _ _ _) _).
  - right. vm_compute. lia.
  - repeat constructor; lia.
  - repeat constructor; lia.
  - lia.
  - lia.
  - lia.
  - lia.
  - vm_compute. reflexivity.
Defined.

Lemma attempts_do_not_prolong_lock_witness :
  let s := run_fails state0 dir0 ip0 [1000; 1010] in
  fst (check_if_locked (nominal 1311) (conf_bus 300 2 60)
         (run_checked (conf_bus 300 2 60) s dir0 (lit "10.0.0.1:80") [1020; 1100; 1310]) dir0 ip0) = false.
Proof.
  refine (proj2 (attempts_do_not_prolong_lock (conf_bus 300 2 60) (run_fails state0 dir0 ip0 [1000; 1010]) dir0
    (lit "10.0.0.1:80") ip0 [1000; 1010] {| duration := 300; threshold := 2; time_interval := 60 |} [1020; 1100; 1310] 1311
    eq_refl eq_refl _ _ eq_refl _ _ eq_refl _ _)).
  - set_solver.
  - apply (run_fails_refines state0 dir0 ip0 ip0 [1000; 1010] []);
      [reflexivity|right; vm_compute; lia|repeat constructor; lia|apply ip_represents_empty].
  - cbn; lia.
  - cbn; lia.
  - repeat constructor; cbn; lia.
  - cbn; lia.
Defined.

Lemma remove_port_spec_witness :
  remove_port_from_ip (Some (lit "[2001:db8::1]:443")) MAX_IP_LENGTH = Some (lit "2001:db8::1").
Proof.
  apply (proj2 (remove_port_spec (lit "2001:db8::1") (lit "443") ltac:(apply strchr_None; reflexivity))).
  split; [|split; [apply strchr_None; reflexivity|split; [reflexivity|vm_compute; lia]]].
  exists (lit "2001"), (lit "db8:"), (lit "1").
  split; [reflexivity|]. split; apply strchr_None; reflexivity.
Defined.

(** A file that cannot be removed stays while its address leaves the table. *)
Definition stuck (p : list ascii) : os_env := {|
  now := 1100; mkdir_ok := true; chown_ok := true; fopen_ok := true; ftell_ok := true;
  fread_ret := fun n => n; ftruncate_err := None; fseek_ret := 0; fwrite_bytes := fun n => n;
  remove_ok := fun q => negb (str_eqb p q)
|}.

Lemma recorded_ips_bounded_witness :
  let s1 := snd (increase_fail_record (nominal 1000) (conf_bus 300 2 60) state0 dir0 (Some ip0) DO_CHECK) in
  let s2 := snd (clean_fail_record (stuck (ip_path dir0 ip0)) s1 dir0 (Some ip0)) in
  size (g_ip_map s2) = 0%nat /\ size (files (ls_fs s2)) = 1%nat /\ (size (files (ls_fs s2)) <= 1001)%nat.
Proof.
  intros s1 s2. split; [vm_compute; reflexivity|]. split; [vm_compute; reflexivity|].
  refine (proj1 (proj2 (recorded_ips_bounded stable_ip {[ip_path dir0 ip0]} dir0 state0 s2 _ _ _)) _).
  - vm_compute. lia.
  - intros p [c Hp]. cbn in Hp. by rewrite lookup_empty in Hp.
  - eapply rtc_l; [|apply rtc_once].
    + apply (step_increase _ _ dir0 (nominal 1000) (conf_bus 300 2 60) state0 ip0 DO_CHECK RET_OK s1).
      * intros c Hc. vm_compute in Hc. injection Hc as <-. reflexivity.
      * vm_compute. reflexivity.
    + apply (step_clean _ _ dir0 (stuck (ip_path dir0 ip0)) s1 (Some ip0) RET_OK s2).
      * intros p Hp. unfold stuck in Hp. cbn [remove_ok] in Hp. apply negb_false_iff, str_eqb_eq in Hp as <-. by apply elem_of_singleton.
      * vm_compute. reflexivity.
  - auto.
Defined.
