(* ===== verification/PamLogin.v ===== *)
(** * pam_bmc_login.c: the PAM module that admits local users

    [pam_sm_authenticate] reads the user's line of the permission file and checks it (name,
    enabled, privilege, lock, login rules); [pam_sm_acct_mgmt] checks the login interface. What
    PAM and the system answer is a [pam_env]; the codes of libpam are the class [PamCodes]. *)
From S2P Require Export LoginRule.

(** ** libpam *)

(** The return codes of <security/_pam_types.h> the module uses. *)
Class PamCodes := {
  PAM_SUCCESS : Z;
  PAM_SERVICE_ERR : Z;
  PAM_PERM_DENIED : Z;
  PAM_AUTH_ERR : Z;
  PAM_USER_UNKNOWN : Z;
  PAM_SESSION_ERR : Z;
  PAM_SUCCESS_zero : PAM_SUCCESS = 0;
  PAM_errors : Forall (fun c => 0 < c) [PAM_SERVICE_ERR; PAM_PERM_DENIED; PAM_AUTH_ERR; PAM_USER_UNKNOWN; PAM_SESSION_ERR]
}.

(** The values of Linux-PAM. *)
#[export, program] Instance linux_pam : PamCodes := {|
  PAM_SUCCESS := 0; PAM_SERVICE_ERR := 3; PAM_PERM_DENIED := 6; PAM_AUTH_ERR := 7;
  PAM_USER_UNKNOWN := 10; PAM_SESSION_ERR := 14
|}.
Next Obligation. done. Qed.
Next Obligation. repeat constructor; lia. Qed.

(** What the module asks of PAM and of the system for one login. *)
Record pam_env := {
  pam_user : option (list ascii);                   (* pam_get_user *)
  pam_rhost : Z * option (list ascii);              (* pam_get_item(PAM_RHOST) *)
  pam_tty : Z * option (list ascii);                (* pam_get_item(PAM_TTY) *)
  pam_set_user : Z;                                 (* pam_set_item(PAM_USER, ..) *)
  getpwnam : list ascii -> option Z;                (* the uid of the entry *)
  real_path : list ascii -> option (list ascii);
  the_file : list ascii -> text_file;               (* the file at a path *)
  errno0 : Z;                                       (* errno on entry *)
  rules_env : login_env
}.

(** ** Constants *)
Definition OPT_FAIL_ON_ERROR : Z := 1.
Definition OPT_QUIET : Z := 2.
Definition ACTUAL_ROOT_USER_NAME : list ascii := lit "root".
Definition RESERVED_ROOT_USER_NAME : list ascii := lit "<root>".
Definition USER_PRIVILEGE_GENERAL : Z := 2.
Definition USER_PRIVILEGE_ADMIN : Z := 4.
Definition DEFAULT_PRIVILEGE_FILE : list ascii := lit "/data/trust/ipmi".
Definition LOGIN_INTERFACE_SSH_OFFSET : Z := 3.
Definition LOGIN_INTERFACE_SFTP_OFFSET : Z := 4.
Definition LOGIN_INTERFACE_TELNET_OFFSET : Z := 5.
Definition LOGIN_INTERFACE_LOCAL_OFFSET : Z := 6.
Definition DISABLED : Z := 0.
Definition USER_LOCK : Z := 1.
Definition LOGIN_INTERFACE_DISABLE : Z := 0.
Definition PATH_MAX : nat := 4096.

Record IMANA_OPTIONS := { filename : list ascii; ctrl : Z }.

Section pam.
Context `{PamCodes}.

(** ** Options. [argc] is the length of [argv]; an element is null or a string. *)
Definition default_options : IMANA_OPTIONS := {| filename := DEFAULT_PRIVILEGE_FILE; ctrl := OPT_FAIL_ON_ERROR |}.

Fixpoint parse_args_loop (argv : list (option (list ascii))) (opts : IMANA_OPTIONS) : Z * IMANA_OPTIONS :=
  match argv with
  | [] => (PAM_SUCCESS, opts)
  | None :: _ => (PAM_SERVICE_ERR, opts)
  | Some arg :: rest =>
      if has_prefix (lit "file=") arg then
        let from := drop 5 arg in
        if negb (has_prefix (lit "/") from) then (PAM_SERVICE_ERR, opts)
        else parse_args_loop rest {| filename := from; ctrl := ctrl opts |}
      else if str_eqb arg (lit "onerr=fail")
      then parse_args_loop rest {| filename := filename opts; ctrl := Z.lor (ctrl opts) OPT_FAIL_ON_ERROR |}
      else if str_eqb arg (lit "onerr=succeed")
      then parse_args_loop rest {| filename := filename opts; ctrl := Z.land (ctrl opts) (u32 (Z.lnot OPT_FAIL_ON_ERROR)) |}
      else if str_eqb arg (lit "quiet")
      then parse_args_loop rest {| filename := filename opts; ctrl := Z.lor (ctrl opts) OPT_QUIET |}
      else parse_args_loop rest opts
  end.

Definition parse_args (argv : list (option (list ascii))) : Z * IMANA_OPTIONS := parse_args_loop argv default_options.

Definition fail_on_error (opts : IMANA_OPTIONS) : bool := negb (Z.land (ctrl opts) OPT_FAIL_ON_ERROR =? 0).

(** ** The user of the login: the code, then uid and name *)
Definition pam_get_uid (e : pam_env) : Z * option (Z * list ascii) :=
  match pam_user e with
  | None => (PAM_AUTH_ERR, None)
  | Some user =>
      if (length user =? 0)%nat then (PAM_AUTH_ERR, None)
      else
        let user := if str_eqb user ACTUAL_ROOT_USER_NAME then RESERVED_ROOT_USER_NAME else user in
        match getpwnam e user with
        | None => (PAM_USER_UNKNOWN, None)
        | Some pw_uid => (PAM_SUCCESS, Some (u32 pw_uid, user))
        end
  end.

(** ** The permission file *)

(** The switch on the position of a field: [ret] and the structure. *)
Definition set_user_field (pos : nat) (token : list ascii) (ret : Z) (u : IPMI_USER_S) : Z * IPMI_USER_S :=
  if (pos =? INDEX_LINE_USER)%nat then
    if (length (user_name u) <=? length token)%nat then (PAM_AUTH_ERR, u)
    else (PAM_SUCCESS, set_user_name (snd (memcpy_s (user_name u) token (length token))) u)
  else
    match set_numeric pos 0 u with
    | None => (ret, u)
    | Some _ =>
        match parse_line_token_to_uint8 token with
        | None => (RET_ERR, u)
        | Some v => (RET_OK, default u (set_numeric pos v u))
        end
    end.

Fixpoint user_fields_loop (pos : nat) (ts : list (list ascii)) (ret : Z) (u : IPMI_USER_S) : Z * IPMI_USER_S :=
  match ts with
  | [] => (PAM_SUCCESS, u)
  | token :: rest =>
      let '(ret, u) := set_user_field (S pos) token ret u in
      if negb (ret =? RET_OK) then (PAM_AUTH_ERR, u) else user_fields_loop (S pos) rest ret u
  end.

Definition parse_line_to_struct (line : list ascii) (ipmi_user : IPMI_USER_S) : Z * IPMI_USER_S :=
  user_fields_loop 0 (tokens ":"%char line) 0 ipmi_user.

(** The loop of [get_user]: [errno] changes when [strtol] overflows. *)
Fixpoint get_user_loop (uid errno : Z) (ls : list (list ascii)) (ipmi_user : IPMI_USER_S) : Z * IPMI_USER_S :=
  match ls with
  | [] => (PAM_AUTH_ERR, ipmi_user)
  | line :: rest =>
      if (length line =? 0)%nat then (PAM_AUTH_ERR, ipmi_user)
      else
        let token := fst (strsep ":"%char line) in
        let r := strtol token in
        let id := s32 (st_val r) in
        let errno := if st_range r then ERANGE else errno in
        if ((errno =? ERANGE) && ((id =? LONG_MAX) || (id =? LONG_MIN)))
           || (negb (errno =? 0) && (id =? 0)) || negb (st_conv r)
        then get_user_loop uid errno rest ipmi_user
        else if negb (id =? uid) then get_user_loop uid errno rest ipmi_user
        else parse_line_to_struct line ipmi_user
  end.

Definition get_user (errno uid : Z) (data : list ascii) (ipmi_user : IPMI_USER_S) : Z * IPMI_USER_S :=
  get_user_loop uid errno (tokens NL data) ipmi_user.

Definition get_ipmi_user (e : pam_env) (opts : IMANA_OPTIONS) (uid : Z) (ipmi_user : IPMI_USER_S) : Z * IPMI_USER_S :=
  let on_error code := (if fail_on_error opts then code else PAM_SUCCESS, ipmi_user) in
  if (PATH_MAX <? length (filename opts))%nat then on_error PAM_AUTH_ERR
  else
    match real_path e (filename opts) with
    | None => on_error PAM_AUTH_ERR
    | Some path =>
        let f := the_file e path in
        if tf_open f <? 0 then on_error (tf_open f)
        else if negb (tf_stat f =? 0) then on_error (tf_stat f)
        else if (length (tf_bytes f) =? 0)%nat then (PAM_AUTH_ERR, ipmi_user)
        else if tf_read f <? 0 then on_error (tf_read f)
        else get_user (errno0 e) uid (tf_text f) ipmi_user
    end.

(** ** Checks *)
Definition check_user_login_interface (ipmi_user : IPMI_USER_S) (tty_name : option (list ascii)) : option Z :=
  if is_exclude_user ipmi_user =? 1 then Some PAM_SUCCESS
  else
    match tty_name with
    | None => UB
    | Some tty =>
        let offset :=
          if str_eqb tty UART2_NAME then Some LOGIN_INTERFACE_LOCAL_OFFSET
          else if str_eqb tty SSH_NAME then Some LOGIN_INTERFACE_SSH_OFFSET
          else if str_eqb tty FTP_NAME then Some LOGIN_INTERFACE_SFTP_OFFSET
          else if contains TELNET_NAME tty then Some LOGIN_INTERFACE_TELNET_OFFSET
          else None in
        match offset with
        | None => Some PAM_SUCCESS
        | Some offset =>
            let enabled := Z.shiftr (Z.land (user_login_interface ipmi_user) (Z.shiftl 1 offset)) offset in
            Some (if enabled =? LOGIN_INTERFACE_DISABLE then PAM_AUTH_ERR else PAM_SUCCESS)
        end
    end.

Definition check_user (e : pam_env) (user_name0 : list ascii) (tty_name ip_addr : option (list ascii))
    (ipmi_user : IPMI_USER_S) : option Z :=
  match c_str (user_name ipmi_user), tty_name with
  | Some name, Some tty =>
      if negb (str_eqb name user_name0) then Some PAM_AUTH_ERR
      else if user_enabled ipmi_user =? DISABLED then Some PAM_AUTH_ERR
      else if (privilege1 ipmi_user <? USER_PRIVILEGE_GENERAL) || (USER_PRIVILEGE_ADMIN <? privilege1 ipmi_user)
      then Some PAM_AUTH_ERR
      else if negb (has_prefix FTP_NAME tty) && (user_lock_status ipmi_user =? USER_LOCK)
      then Some PAM_PERM_DENIED
      else
        match check_user_login_rule (rules_env e) ipmi_user ip_addr tty_name with
        | None => UB
        | Some ret =>
            if negb (ret =? RET_OK) then Some PAM_AUTH_ERR
            else if str_eqb user_name0 RESERVED_ROOT_USER_NAME && negb (pam_set_user e =? PAM_SUCCESS)
            then Some PAM_AUTH_ERR
            else Some PAM_SUCCESS
        end
  | Some name, None =>
      (* the terminal is only looked at after the first tests *)
      if negb (str_eqb name user_name0) then Some PAM_AUTH_ERR
      else if user_enabled ipmi_user =? DISABLED then Some PAM_AUTH_ERR
      else if (privilege1 ipmi_user <? USER_PRIVILEGE_GENERAL) || (USER_PRIVILEGE_ADMIN <? privilege1 ipmi_user)
      then Some PAM_AUTH_ERR
      else UB
  | None, _ => UB
  end.

(** ** The entry points; [pamh] is null or not *)
Definition pam_sm_authenticate (pamh : bool) (e : pam_env) (argv : list (option (list ascii))) : option Z :=
  if negb pamh then Some PAM_SERVICE_ERR
  else
    let '(rv, opts) := parse_args argv in
    if negb (rv =? PAM_SUCCESS) then Some (if fail_on_error opts then rv else PAM_SUCCESS)
    else
      let '(rv, void_from) := pam_rhost e in
      let '(rv2, tty_name) := pam_tty e in
      if negb (PAM_SUCCESS =? rv) || negb (PAM_SUCCESS =? rv2) then Some PAM_AUTH_ERR
      else
        match pam_get_uid e with
        | (rv, None) => Some (if fail_on_error opts then rv else PAM_SUCCESS)
        | (rv, Some (uid, user)) =>
            if check_uid_is_local_user uid =? FALSE then Some PAM_SUCCESS
            else
              let '(rv, ipmi_user) := get_ipmi_user e opts (uid - IMANA_UID_BASE) zero_user in
              if negb (rv =? PAM_SUCCESS) then Some PAM_USER_UNKNOWN
              else
                match check_user e user tty_name void_from ipmi_user with
                | None => UB
                | Some rv => Some (if negb (rv =? PAM_SUCCESS) then PAM_PERM_DENIED else PAM_SUCCESS)
                end
        end.

Definition pam_sm_setcred : Z := PAM_SUCCESS.

Definition pam_sm_acct_mgmt (pamh : bool) (e : pam_env) (argv : list (option (list ascii))) : option Z :=
  if negb pamh then Some PAM_SERVICE_ERR
  else
    let '(rv, opts) := parse_args argv in
    if negb (rv =? PAM_SUCCESS) then Some (if fail_on_error opts then rv else PAM_SUCCESS)
    else
      let '(rv, tty_name) := pam_tty e in
      if negb (PAM_SUCCESS =? rv) then Some PAM_SERVICE_ERR
      else
        match pam_get_uid e with
        | (rv, None) => Some (if fail_on_error opts then rv else PAM_SUCCESS)
        | (rv, Some (uid, user)) =>
            if check_uid_is_local_user uid =? FALSE then Some PAM_SUCCESS
            else
              let '(rv, ipmi_user) := get_ipmi_user e opts (uid - IMANA_UID_BASE) zero_user in
              if negb (rv =? PAM_SUCCESS) then Some PAM_USER_UNKNOWN
              else
                match check_user_login_interface ipmi_user tty_name with
                | None => UB
                | Some rv => Some (if negb (rv =? PAM_SUCCESS) then PAM_PERM_DENIED else PAM_SUCCESS)
                end
        end.

(** ** Reading the user's line *)

Lemma pam_success_eqb : (PAM_SUCCESS =? RET_OK) = true.
Proof. rewrite PAM_SUCCESS_zero. done. Qed.

(** The steps of the loop: a position that is not used, a numeric field, the name. *)
Lemma loop_skip pos token ts u :
  (S pos =? INDEX_LINE_USER)%nat = false -> set_numeric (S pos) 0 u = None ->
  user_fields_loop pos (token :: ts) 0 u = user_fields_loop (S pos) ts 0 u.
Proof. intros Hp Hs. cbn [user_fields_loop]. unfold set_user_field. by rewrite Hp, Hs. Qed.

Lemma loop_numeric pos token ts v u u' :
  (S pos =? INDEX_LINE_USER)%nat = false -> parse_line_token_to_uint8 token = Some v ->
  set_numeric (S pos) v u = Some u' ->
  user_fields_loop pos (token :: ts) 0 u = user_fields_loop (S pos) ts 0 u'.
Proof.
  intros Hp Ht Hs. cbn [user_fields_loop]. unfold set_user_field. rewrite Hp, Ht, Hs.
  destruct (set_numeric (S pos) 0 u) eqn:E0; [done|].
  exfalso. unfold set_numeric in *. repeat (destruct pos as [|pos]; try discriminate).
Qed.

(** The name goes into the zeroed array. *)
Lemma loop_name token ts u :
  (length token <= 16)%nat -> user_name u = replicate 17 NUL ->
  user_fields_loop 1 (token :: ts) 0 u
  = user_fields_loop 2 ts 0 (set_user_name (token ++ replicate (17 - length token) NUL) u).
Proof.
  intros Hl Hu. cbn [user_fields_loop]. unfold set_user_field. cbn [Nat.eqb INDEX_LINE_USER].
  rewrite Hu, length_replicate. rewrite (proj2 (Nat.leb_gt _ _)) by lia. unfold memcpy_s. rewrite length_replicate.
  rewrite (proj2 (Nat.leb_le _ _)) by lia. cbn [snd]. rewrite take_ge, drop_replicate by lia.
  rewrite pam_success_eqb. cbn [negb]. by rewrite PAM_SUCCESS_zero.
Qed.

Ltac numeric_at k H :=
  erewrite (loop_numeric k _ _ _ _ _ eq_refl H); [|reflexivity];
  cbn [set_user_name user_id user_name user_enabled privilege1 user_lock_status user_login_rule
       user_login_interface is_exclude_user is_password_expired role_id zero_user].

Lemma parse_described ts u :
  describes ts u -> parse_line_to_struct (user_line ts) zero_user = (PAM_SUCCESS, u).
Proof.
  intros (Hl & HF & Hnum & Hn & Hname). unfold parse_line_to_struct.
  rewrite user_line_tokens by (by destruct ts || done).
  do 19 (destruct ts as [|? ts]; [discriminate|]). destruct ts; [|discriminate]. clear Hl HF.
  apply Forall_cons_1 in Hnum as [H1 Hnum]. apply Forall_cons_1 in Hnum as [H7 Hnum].
  apply Forall_cons_1 in Hnum as [H12 Hnum]. apply Forall_cons_1 in Hnum as [H14 Hnum].
  apply Forall_cons_1 in Hnum as [H15 Hnum]. apply Forall_cons_1 in Hnum as [H16 Hnum].
  apply Forall_cons_1 in Hnum as [H17 Hnum]. apply Forall_cons_1 in Hnum as [H18 Hnum].
  apply Forall_cons_1 in Hnum as [H19 _]. cbn [nth fst snd] in *.
  numeric_at 0%nat H1.
  rewrite (loop_name _ _ _ Hn) by reflexivity. do 4 rewrite loop_skip by reflexivity.
  numeric_at 6%nat H7.
  do 4 rewrite loop_skip by reflexivity.
  numeric_at 11%nat H12.
  rewrite loop_skip by reflexivity.
  numeric_at 13%nat H14. numeric_at 14%nat H15. numeric_at 15%nat H16. numeric_at 16%nat H17. numeric_at 17%nat H18. numeric_at 18%nat H19.
  cbn [user_fields_loop]. f_equal. rewrite <- Hname. by destruct u.
Qed.

(** ** Finding the user's line *)

Definition line_id (line : list ascii) : option Z :=
  let r := strtol (fst (strsep ":"%char line)) in
  if st_conv r then Some (s32 (st_val r)) else None.

Definition has_id (uid : Z) (line : list ascii) : bool := bool_decide (line_id line = Some uid).

Lemma get_user_loop_find uid errno ls u :
  uid <> 0 ->
  get_user_loop uid errno ls u
  = match find_line (has_id uid) ls with
    | Some line => parse_line_to_struct line u
    | None => (PAM_AUTH_ERR, u)
    end.
Proof.
  intros Hu. revert errno. induction ls as [|line ls IH]; intros errno; cbn [get_user_loop find_line]; [done|].
  destruct (length line =? 0)%nat; [done|]. unfold has_id, line_id.
  set (r := strtol (fst (strsep ":"%char line))). pose proof (s32_range (st_val r)) as Hr.
  set (errno' := if st_range r then ERANGE else errno).
  rewrite (proj2 (Z.eqb_neq (s32 (st_val r)) LONG_MAX)) by (unfold LONG_MAX; lia).
  rewrite (proj2 (Z.eqb_neq (s32 (st_val r)) LONG_MIN)) by (unfold LONG_MIN; lia).
  rewrite andb_false_r. cbn [orb]. destruct (st_conv r); cbn [negb].
  - rewrite orb_false_r. destruct (Z.eqb_spec (s32 (st_val r)) uid) as [He|He]; cbn [negb].
    + rewrite (bool_decide_eq_true_2 (Some _ = _)) by congruence.
      rewrite (proj2 (Z.eqb_neq (s32 (st_val r)) 0)) by congruence. by rewrite andb_false_r.
    + rewrite (bool_decide_eq_false_2 (Some _ = _)) by congruence. rewrite !IH. by destruct (_ && _).
  - by rewrite orb_true_r, IH.
Qed.

Lemma get_ipmi_user_good e opts path ls uid u :
  uid <> 0 -> (length (filename opts) <= 4096)%nat -> real_path e (filename opts) = Some path ->
  the_file e path = good_file (text_of ls) -> ls <> [] ->
  Forall (fun l => NL ∉ l /\ no_nul l) ls ->
  get_ipmi_user e opts uid u
  = match find_line (has_id uid) ls with
    | Some line => parse_line_to_struct line u
    | None => (PAM_AUTH_ERR, u)
    end.
Proof.
  intros Hu Hl Hp Hf Hne HF. unfold get_ipmi_user. change PATH_MAX with 4096%nat.
  rewrite (proj2 (Nat.ltb_ge _ _)) by done. rewrite Hp, Hf. cbn [good_file tf_open tf_stat tf_bytes tf_read].
  destruct (Nat.eqb_spec (length (text_of ls)) 0) as [E|_].
  { destruct ls; [done|]. cbn in E. rewrite length_app in E. cbn in E. lia. }
  rewrite (proj2 (Z.ltb_ge (Z.of_nat _) 0)) by lia. cbn [Z.ltb Z.eqb negb Z.compare].
  rewrite tf_text_good.
  2: { apply no_nul_text. eapply Forall_impl; [exact HF|]. by intros ? []. }
  unfold get_user. rewrite tokens_text by (eapply Forall_impl; [exact HF|]; by intros ? []).
  by rewrite get_user_loop_find, find_line_app.
Qed.

(** ** The claims *)

Lemma local_uid_nonzero uid : check_uid_is_local_user uid = TRUE -> uid - IMANA_UID_BASE <> 0.
Proof. intros Hl. apply check_uid_true in Hl. unfold IMANA_UID_BASE. lia. Qed.

Lemma pam_errors_nonzero :
  PAM_AUTH_ERR <> PAM_SUCCESS /\ PAM_PERM_DENIED <> PAM_SUCCESS /\ PAM_USER_UNKNOWN <> PAM_SUCCESS /\
  PAM_SERVICE_ERR <> PAM_SUCCESS.
Proof.
  pose proof PAM_errors as HF. pose proof PAM_SUCCESS_zero as H0. rewrite !Forall_cons in HF. lia.
Qed.

(** The tests of [check_user] on a user read from the file. *)
Definition user_admitted (e : pam_env) (u : IPMI_USER_S) (name user tty : list ascii) (rules_ret : Z) : Prop :=
  name = user /\ user_enabled u <> 0 /\ 2 <= privilege1 u <= 4 /\
  (has_prefix FTP_NAME tty = true \/ user_lock_status u <> 1) /\ rules_ret = RET_OK /\
  (user = RESERVED_ROOT_USER_NAME -> pam_set_user e = PAM_SUCCESS).

Lemma check_user_decides e u name user tty rhost rules_ret :
  c_str (user_name u) = Some name ->
  check_user_login_rule (rules_env e) u rhost (Some tty) = Some rules_ret ->
  exists rv, check_user e user (Some tty) rhost u = Some rv /\
    (rv = PAM_SUCCESS <-> user_admitted e u name user tty rules_ret).
Proof.
  intros Hn Hr. destruct pam_errors_nonzero as (A1 & A2 & _ & _). unfold check_user, user_admitted. rewrite Hn, Hr.
  destruct (str_eqb name user) eqn:E1; cbn [negb];
    [apply str_eqb_eq in E1|apply str_eqb_neq in E1; eexists; split; [done|]; naive_solver].
  unfold DISABLED, USER_PRIVILEGE_GENERAL, USER_PRIVILEGE_ADMIN, USER_LOCK.
  destruct (Z.eqb_spec (user_enabled u) 0); [eexists; split; [done|]; naive_solver|].
  destruct ((privilege1 u <? 2) || (4 <? privilege1 u)) eqn:E2.
  { eexists. split; [done|]. split; [done|]. intros (_ & _ & ? & _). apply orb_true_iff in E2. lia. }
  apply orb_false_iff in E2 as [E2 E3]. apply Z.ltb_ge in E2, E3.
  destruct (has_prefix FTP_NAME tty) eqn:E4; cbn [negb andb].
  2: destruct (Z.eqb_spec (user_lock_status u) 1); [eexists; split; [done|]; naive_solver|].
  all: destruct (Z.eqb_spec rules_ret RET_OK); cbn [negb]; [|eexists; split; [done|]; naive_solver].
  all: destruct (str_eqb user RESERVED_ROOT_USER_NAME) eqn:E5; cbn [andb];
    [apply str_eqb_eq in E5|apply str_eqb_neq in E5; eexists; split; [done|]; naive_solver].
  all: destruct (Z.eqb_spec (pam_set_user e) PAM_SUCCESS); cbn [negb]; eexists; (split; [done|]); naive_solver.
Qed.

(** C1: for a local user whose line in the permission file can be read, [pam_sm_authenticate] decides:
    it succeeds exactly when the name matches, the user is enabled, his privilege is between 2 and 4, he is not
    locked (or comes through ftp), the login rules admit him and, for root, the name can be set back in PAM. *)
Theorem authenticate_decides e argv opts rhost tty uid user path ls ts u rules_ret :
  parse_args argv = (PAM_SUCCESS, opts) ->
  pam_rhost e = (PAM_SUCCESS, rhost) -> pam_tty e = (PAM_SUCCESS, Some tty) ->
  pam_get_uid e = (PAM_SUCCESS, Some (uid, user)) -> check_uid_is_local_user uid = TRUE ->
  (length (filename opts) <= 4096)%nat -> real_path e (filename opts) = Some path ->
  the_file e path = good_file (text_of ls) -> Forall (fun l => NL ∉ l /\ no_nul l) ls ->
  find_line (has_id (uid - 500)) ls = Some (user_line ts) -> describes ts u ->
  check_user_login_rule (rules_env e) u rhost (Some tty) = Some rules_ret ->
  exists ret, pam_sm_authenticate true e argv = Some ret /\ (ret = PAM_SUCCESS \/ ret = PAM_PERM_DENIED) /\
    (ret = PAM_SUCCESS <-> user_admitted e u (nth 1 ts []) user tty rules_ret).
Proof.
  intros Ha Hrh Htty Hget Hloc Hlen Hpath Hfile HF Hfind Hd Hr.
  destruct pam_errors_nonzero as (A1 & A2 & A3 & _). unfold pam_sm_authenticate. cbn [negb].
  rewrite Ha, Hrh, Htty, Hget, !Z.eqb_refl. cbn [negb orb]. rewrite Hloc.
  change (TRUE =? FALSE) with false. cbv iota. change IMANA_UID_BASE with 500.
  rewrite (get_ipmi_user_good e opts path ls (uid - 500) zero_user (local_uid_nonzero uid Hloc) Hlen Hpath Hfile)
    by (done || by intros ->).
  rewrite Hfind, (parse_described ts u Hd), Z.eqb_refl. cbn [negb].
  destruct (check_user_decides e u (nth 1 ts []) user tty rhost rules_ret (described_name ts u Hd) Hr) as (rv & -> & Hiff).
  eexists. split; [done|]. destruct (Z.eqb_spec rv PAM_SUCCESS) as [->|Hne]; cbn [negb]; [naive_solver|].
  split; [by right|]. rewrite <- Hiff. naive_solver.
Qed.

Lemma pam_get_uid_some e rv uid user :
  pam_get_uid e = (rv, Some (uid, user)) -> user <> [] /\ rv = PAM_SUCCESS.
Proof.
  unfold pam_get_uid. destruct (pam_user e) as [n|]; [|done]. destruct (Nat.eqb_spec (length n) 0); [done|].
  destruct (getpwnam e _); [|done]. intros [= <- _ <-]. split; [|done].
  destruct (str_eqb n ACTUAL_ROOT_USER_NAME); [done|]. by intros ->.
Qed.

Lemma get_ipmi_user_success e opts uid u :
  uid <> 0 -> get_ipmi_user e opts uid zero_user = (PAM_SUCCESS, u) ->
  u = zero_user \/
  exists path line, real_path e (filename opts) = Some path /\ 0 <= tf_open (the_file e path) /\
    find_line (has_id uid) (tokens NL (tf_text (the_file e path))) = Some line /\
    parse_line_to_struct line zero_user = (PAM_SUCCESS, u).
Proof.
  intros Hu. destruct pam_errors_nonzero as (A1 & _ & _ & _). unfold get_ipmi_user, get_user.
  destruct (_ <? _)%nat; [intros [= _ <-]; by left|].
  destruct (real_path e (filename opts)) as [path|] eqn:Ep; [|intros [= _ <-]; by left].
  destruct (Z.ltb_spec (tf_open (the_file e path)) 0); [intros [= _ <-]; by left|].
  destruct (negb _); [intros [= _ <-]; by left|]. destruct (_ =? 0)%nat; [intros [= _ <-]; by left|].
  destruct (_ <? 0); [intros [= _ <-]; by left|]. rewrite get_user_loop_find by done.
  destruct (find_line _ _) as [line|] eqn:Ef; [|intros [= He _]; by rewrite He in A1].
  intros Hp. right. by exists path, line.
Qed.

(** The file opened and has a line with the id of the user; it describes an enabled user of that name with a privilege
    between 2 and 4. *)
Definition line_admits (e : pam_env) (opts : IMANA_OPTIONS) (uid : Z) (user : list ascii) : Prop :=
  exists path line u, real_path e (filename opts) = Some path /\ 0 <= tf_open (the_file e path) /\
    find_line (has_id (uid - 500)) (tokens NL (tf_text (the_file e path))) = Some line /\
    parse_line_to_struct line zero_user = (PAM_SUCCESS, u) /\
    c_str (user_name u) = Some user /\ user_enabled u <> 0 /\ 2 <= privilege1 u <= 4.

Lemma check_user_success e user tty rhost u :
  check_user e user tty rhost u = Some PAM_SUCCESS ->
  c_str (user_name u) = Some user /\ user_enabled u <> 0 /\ 2 <= privilege1 u <= 4.
Proof.
  intros Ec. destruct pam_errors_nonzero as (A1 & _). unfold check_user in Ec.
  destruct (c_str (user_name u)) as [name|]; [|done].
  destruct (str_eqb name user) eqn:E1; cbn [negb] in Ec.
  2: { destruct tty; injection Ec; intros E; by rewrite E in A1. }
  apply str_eqb_eq in E1 as ->. unfold DISABLED, USER_PRIVILEGE_GENERAL, USER_PRIVILEGE_ADMIN in Ec.
  destruct (Z.eqb_spec (user_enabled u) 0).
  { destruct tty; injection Ec; intros E; by rewrite E in A1. }
  destruct ((privilege1 u <? 2) || (4 <? privilege1 u)) eqn:E2.
  { destruct tty; injection Ec; intros E; by rewrite E in A1. }
  apply orb_false_iff in E2 as [E2 E3]. apply Z.ltb_ge in E2, E3. done.
Qed.


(** The interface bit a terminal stands for; other terminals are not checked. *)
Definition tty_interface (tty : list ascii) : option Z :=
  if str_eqb tty UART2_NAME then Some 6
  else if str_eqb tty SSH_NAME then Some 3
  else if str_eqb tty FTP_NAME then Some 4
  else if contains TELNET_NAME tty then Some 5
  else None.

Lemma interface_bit itf k : 0 <= k -> (Z.shiftr (Z.land itf (Z.shiftl 1 k)) k =? 0) = negb (Z.testbit itf k).
Proof.
  intros Hk. rewrite Z.shiftr_land, Z.shiftr_shiftl_l, Z.sub_diag, Z.shiftl_0_r by lia.
  change 1 with (Z.ones 1). rewrite Z.land_ones by lia. change (2 ^ 1) with 2.
  rewrite <- Z.bit0_mod, Z.shiftr_spec, Z.add_0_l by lia. by destruct (Z.testbit itf k).
Qed.

(** C29: for a local user whose line can be read, [pam_sm_acct_mgmt] lets the session through exactly when the
    user is exempt, the terminal is none of serial line, ssh, ftp or pts, or the bit of its interface is on. *)
Theorem acct_mgmt_decides e argv opts tty uid user path ls ts u :
  parse_args argv = (PAM_SUCCESS, opts) -> pam_tty e = (PAM_SUCCESS, Some tty) ->
  pam_get_uid e = (PAM_SUCCESS, Some (uid, user)) -> check_uid_is_local_user uid = TRUE ->
  (length (filename opts) <= 4096)%nat -> real_path e (filename opts) = Some path ->
  the_file e path = good_file (text_of ls) -> Forall (fun l => NL ∉ l /\ no_nul l) ls ->
  find_line (has_id (uid - 500)) ls = Some (user_line ts) -> describes ts u ->
  exists ret, pam_sm_acct_mgmt true e argv = Some ret /\ (ret = PAM_SUCCESS \/ ret = PAM_PERM_DENIED) /\
    (ret = PAM_SUCCESS <->
     is_exclude_user u = 1 \/
     match tty_interface tty with None => True | Some k => Z.testbit (user_login_interface u) k = true end).
Proof.
  intros Ha Htty Hget Hloc Hlen Hpath Hfile HF Hfind Hd.
  destruct pam_errors_nonzero as (A1 & A2 & A3 & _). unfold pam_sm_acct_mgmt. cbn [negb].
  rewrite Ha, Htty, Hget, !Z.eqb_refl. cbn [negb]. rewrite Hloc.
  change (TRUE =? FALSE) with false. cbv iota. change IMANA_UID_BASE with 500.
  rewrite (get_ipmi_user_good e opts path ls (uid - 500) zero_user (local_uid_nonzero uid Hloc) Hlen Hpath Hfile)
    by (done || by intros ->).
  rewrite Hfind, (parse_described ts u Hd), Z.eqb_refl. cbn [negb].
  unfold check_user_login_interface, tty_interface, LOGIN_INTERFACE_DISABLE.
  destruct (Z.eqb_spec (is_exclude_user u) 1) as [He|He].
  { rewrite Z.eqb_refl. eexists. split; [done|]. naive_solver. }
  assert (Hbit : forall k, 0 <= k -> exists ret,
    Some (if negb ((if Z.shiftr (Z.land (user_login_interface u) (Z.shiftl 1 k)) k =? 0 then PAM_AUTH_ERR else PAM_SUCCESS)
                   =? PAM_SUCCESS) then PAM_PERM_DENIED else PAM_SUCCESS) = Some ret /\
    (ret = PAM_SUCCESS \/ ret = PAM_PERM_DENIED) /\
    (ret = PAM_SUCCESS <-> is_exclude_user u = 1 \/ Z.testbit (user_login_interface u) k = true)).
  { intros k Hk. rewrite interface_bit by done. eexists. split; [done|].
    destruct (Z.testbit (user_login_interface u) k); cbn [negb].
    - rewrite Z.eqb_refl. cbn [negb]. naive_solver.
    - rewrite (proj2 (Z.eqb_neq PAM_AUTH_ERR PAM_SUCCESS)) by done. cbn [negb]. naive_solver. }
  destruct (str_eqb tty UART2_NAME); [by apply Hbit|]. destruct (str_eqb tty SSH_NAME); [by apply Hbit|].
  destruct (str_eqb tty FTP_NAME); [by apply Hbit|]. destruct (contains TELNET_NAME tty); [by apply Hbit|].
  rewrite Z.eqb_refl. eexists. split; [done|]. naive_solver.
Qed.
End pam.

(** ** The theorems at concrete inputs, with the codes of Linux-PAM *)

Definition admin_fields : list (list ascii) :=
  map lit ["2"; "Administrator"; "x"; "1"; "5"; "0"; "1"; "1"; "1"; "0"; "0"; "4"; "x"; "0"; "0"; "8"; "0"; "0"; "4"]%string.

Definition admin_user : IPMI_USER_S := {|
  user_id := 2; user_name := lit "Administrator" ++ replicate 4 NUL; user_enabled := 1; privilege1 := 4;
  user_lock_status := 0; user_login_rule := 0; user_login_interface := 8; is_exclude_user := 0;
  is_password_expired := 0; role_id := 4
|}.

Definition perm_lines : list (list ascii) :=
  [lit "17:guest:x:1:5:0:0:1:1:0:0:2:x:0:0:0"; user_line admin_fields].

Definition demo_pam (tty : string) : pam_env := {|
  pam_user := Some (lit "Administrator"); pam_rhost := (0, Some (lit "10.0.0.1")); pam_tty := (0, Some (lit tty));
  pam_set_user := 0; getpwnam := fun _ => Some 502; real_path := Some; the_file := fun _ => good_file (text_of perm_lines);
  errno0 := 0; rules_env := demo_env demo_rules {| tm_year := 124; tm_mon := 0; tm_mday := 1; tm_hour := 8; tm_min := 0 |}
|}.

Lemma clean_by_strchr t : strchr ":"%char t = None -> strchr NL t = None -> strchr NUL t = None -> clean_field t.
Proof. unfold clean_field, no_nul. by rewrite !strchr_None. Qed.

Lemma admin_described : describes admin_fields admin_user.
Proof.
  split; [reflexivity|]. split; [|split; [|split; [vm_compute; lia|reflexivity]]].
  - repeat (constructor; [apply clean_by_strchr; reflexivity|]). constructor.
  - repeat (constructor; [reflexivity|]). constructor.
Qed.

Lemma perm_lines_clean : Forall (fun l => NL ∉ l /\ no_nul l) perm_lines.
Proof.
  unfold no_nul. repeat (constructor; [rewrite <- !strchr_None; split; vm_compute; reflexivity|]). constructor.
Qed.

Definition demo_options : IMANA_OPTIONS := {| filename := DEFAULT_PRIVILEGE_FILE; ctrl := 1 |}.

Lemma authenticate_decides_witness :
  exists ret, pam_sm_authenticate true (demo_pam "ssh") [] = Some ret /\ ret = 0.
Proof.
  destruct (authenticate_decides (H := linux_pam) (demo_pam "ssh") [] demo_options (Some (lit "10.0.0.1")) (lit "ssh") 502
    (lit "Administrator") DEFAULT_PRIVILEGE_FILE perm_lines admin_fields admin_user 0 eq_refl eq_refl eq_refl eq_refl
    eq_refl ltac:(vm_compute; lia) eq_refl eq_refl perm_lines_clean ltac:(vm_compute; reflexivity) admin_described eq_refl)
    as (ret & He & _ & Hiff).
  exists ret. split; [exact He|]. apply Hiff. unfold user_admitted. cbn.
  repeat split; try lia; try discriminate; try (right; discriminate).
Defined.


Lemma acct_mgmt_decides_witness :
  exists ret, pam_sm_acct_mgmt true (demo_pam "ssh") [] = Some ret /\ ret = 0.
Proof.
  destruct (acct_mgmt_decides (H := linux_pam) (demo_pam "ssh") [] demo_options (lit "ssh") 502
    (lit "Administrator") DEFAULT_PRIVILEGE_FILE perm_lines admin_fields admin_user eq_refl eq_refl eq_refl
    eq_refl ltac:(vm_compute; lia) eq_refl eq_refl perm_lines_clean ltac:(vm_compute; reflexivity) admin_described)
    as (ret & He & _ & Hiff).
  exists ret. split; [exact He|]. apply Hiff. right. vm_compute. reflexivity.
Defined.
