(* ===== verification/PamSession.v ===== *)
(** * pam_bmc_session.c: at most four ssh sessions between chassis

    The output of the pipe to [ps] and the directories of /proc are arguments. [None] for the output stands
    for a popen that fails; the result [None] for a call that does not come back. *)
From S2P Require Export PamLogin.

Definition MAX_INTER_CHASSIS_PROCESSES : Z := 4.
Definition INTER_CHASSIS_USER_NAME : list ascii := lit "inter_chassis".

(** [proc_dir pid]: "/proc/pid" exists and is a directory. *)
Definition is_process_alive (proc_dir : Z -> bool) (pid : Z) : bool :=
  if pid <=? 0 then false else proc_dir pid.

(** The loop over the output of the pipe; it tests fscanf_s for EOF alone. Its fuel counts the rounds. *)
Fixpoint count_sessions (proc_dir : Z -> bool) (fuel : nat) (text : list ascii) (pid ppid session_count : Z) : option Z :=
  match fuel with
  | O => None
  | S fuel' =>
      match scan_pids text pid ppid with
      | None => Some session_count
      | Some (pid, ppid, text) =>
          count_sessions proc_dir fuel' text pid ppid
            (if is_process_alive proc_dir (s32 pid) then s32 (session_count + 1) else session_count)
      end
  end.

Section session.
Context `{PamCodes}.

(** [item]: the result of pam_get_item(PAM_USER). *)
Definition pam_sm_open_session (pamh : bool) (item : Z * option (list ascii))
    (ps : option (list ascii)) (proc_dir : Z -> bool) : option Z :=
  if negb pamh then Some PAM_SERVICE_ERR
  else
    let '(rv, user) := item in
    match user with
    | None => Some PAM_SESSION_ERR
    | Some user =>
        if negb (rv =? PAM_SUCCESS) || (length user =? 0)%nat then Some PAM_SESSION_ERR
        else if negb (str_eqb user INTER_CHASSIS_USER_NAME) then Some PAM_SUCCESS
        else
          match ps with
          | None => Some PAM_SESSION_ERR
          | Some text =>
              session_count ← count_sessions proc_dir (S (length text)) text 0 0 0;
              Some (if MAX_INTER_CHASSIS_PROCESSES <=? session_count then PAM_SESSION_ERR else PAM_SUCCESS)
          end
    end.

Definition pam_sm_close_session : Z := PAM_SUCCESS.

(** ** The loop *)
Section loop.
Context (proc_dir : Z -> bool).
Notation alive pid := (is_process_alive proc_dir (s32 pid)).

(** The lines one after the other, up to what follows them. *)
Lemma count_lines lines pairs tail :
  Forall2 ps_line lines pairs ->
  forall fuel text p q k, skip_space text = skip_space (text_of lines ++ tail) ->
  0 <= k -> k + Z.of_nat (length pairs) < 2 ^ 31 ->
  exists text' p' q', skip_space text' = skip_space tail /\
    count_sessions proc_dir (length lines + fuel) text p q k =
    count_sessions proc_dir fuel text' p' q' (k + Z.of_nat (length (filter (fun pq => alive pq.1 = true) pairs))).
Proof.
  induction 1 as [|line [p1 q1] lines pairs Hl HF IH]; intros fuel text p q k Ht Hk Hlen; cbn [length] in *.
  - exists text, p, q. split; [done|]. cbn. by rewrite Z.add_0_r.
  - assert (Hscan : scan_pids text p q = Some (p1, q1, NL :: text_of lines ++ tail)).
    { pose proof (scan_pids_line line (p1, q1) (text_of lines ++ tail) p q Hl) as Hs. unfold scan_pids in *.
      cbn [text_of] in Ht. rewrite <- app_assoc in Ht. cbn [app] in Ht. by rewrite Ht, Hs. }
    cbn [Nat.add count_sessions]. rewrite Hscan, filter_cons. cbn [fst].
    destruct (alive p1) eqn:Ea; case_decide; try done; cbn [length].
    + rewrite s32_small by lia.
      destruct (IH fuel (NL :: text_of lines ++ tail) p1 q1 (k + 1)) as (text' & p' & q' & Ht' & Hr); [done|lia..|].
      exists text', p', q'. split; [done|]. rewrite Hr. f_equal. lia.
    + by destruct (IH fuel (NL :: text_of lines ++ tail) p1 q1 k) as (text' & p' & q' & Ht' & Hr); [done|lia..|exists text', p', q'].
Qed.

(** Where no number starts the loop reads nothing for ever. *)
Lemma count_garbage fuel text p q k tail :
  no_number tail -> skip_space text = tail -> count_sessions proc_dir fuel text p q k = None.
Proof.
  intros Hno. revert text k. induction fuel as [|fuel IH]; intros text k Ht; [done|]. cbn [count_sessions].
  rewrite (scan_no_number text tail) by done. apply IH. apply Hno.
Qed.

(** The fuel given is enough: when the loop does not end within it, it never ends. *)
Lemma count_fuel_enough fuel text p q k :
  (length text < fuel)%nat -> count_sessions proc_dir fuel text p q k = None ->
  forall fuel', count_sessions proc_dir fuel' text p q k = None.
Proof.
  assert (Hstuck : forall s p q, scan_pids s p q = Some (p, q, s) -> forall fuel k, count_sessions proc_dir fuel s p q k = None).
  { intros s p0 q0 Hs fuel'. induction fuel' as [|fuel' IH]; intros k0; [done|]. cbn [count_sessions]. by rewrite Hs. }
  revert text p q k. induction fuel as [|fuel IH]; intros text p q k Hf; [lia|]. cbn [count_sessions].
  destruct (scan_pids text p q) as [[[p' q'] text']|] eqn:Hs; [|done].
  destruct (scan_pids_progress _ _ _ _ _ _ Hs) as [Hl|E]; [|injection E as -> -> ->].
  - intros Hnone [|fuel']; [done|]. cbn [count_sessions]. rewrite Hs. eapply IH; [lia|done].
  - intros _ fuel'. by apply Hstuck.
Qed.
End loop.

End session.

