(* ===== verification/LdapUsers.v ===== *)
(** * uip/uip_user.c, first part: the table of LDAP users on the command line

    /dev/shm/uip_ldap_users is an array of [LDAP_USER] structures; the slot of an entry is its uid
    less 1000. [uip_alloc_ldap_uid] takes a slot, [uip_renew_ldap_user] writes an entry at the slot
    of its uid, [uip_read_ldap_user] reads one. The refinement theorem states the three on the
    table as a list. *)
From S2P Require Export Stdio.

Definition LDAP_USER_FILE : list ascii := lit "/dev/shm/uip_ldap_users".
Definition LDAP_USER_ROLE_ID_NUM : nat := 32.
Definition LDAP_USER_NAME_LEN : nat := 300.
Definition LDAP_USER_FROM_IP : nat := 128.
Definition LDAP_USER_ID_BASE : Z := 1000.
Definition LDAP_USER_MAX_COUNT : Z := 32.

(** The structure as it is laid out, 472 bytes: [uid] at offset 4, [username] at 8, [fromip] at 308,
    then the ids. The padding is part of what the file keeps. *)
Record LDAP_USER := {
  used : Z;
  pad1 : list ascii;          (* 3 bytes *)
  uid : Z;
  username : list ascii;
  fromip : list ascii;
  serverid : Z;
  groupid : Z;
  privilege : Z;
  roleid : list Z;
  pad2 : Z                    (* 1 byte *)
}.

Definition byte (z : Z) : Prop := 0 <= z < 256.

(** The values the structure can hold. *)
Definition user_wf (u : LDAP_USER) : Prop :=
  byte (used u) /\ length (pad1 u) = 3%nat /\ - 2 ^ 31 <= uid u < 2 ^ 31 /\
  length (username u) = LDAP_USER_NAME_LEN /\ length (fromip u) = LDAP_USER_FROM_IP /\
  byte (serverid u) /\ byte (groupid u) /\ byte (privilege u) /\
  length (roleid u) = LDAP_USER_ROLE_ID_NUM /\ Forall byte (roleid u) /\ byte (pad2 u).

Definition user_enc (u : LDAP_USER) : list ascii :=
  chr (used u) :: pad1 u ++ le_encode 4 (uid u) ++ username u ++ fromip u ++
  [chr (serverid u); chr (groupid u); chr (privilege u)] ++ map chr (roleid u) ++ [chr (pad2 u)].

Definition byte_at (bs : list ascii) (i : nat) : Z := code (nth i bs NUL).

Definition user_dec (bs : list ascii) : LDAP_USER := {|
  used := byte_at bs 0;
  pad1 := take 3 (drop 1 bs);
  uid := s32 (le_decode (take 4 (drop 4 bs)));
  username := take 300 (drop 8 bs);
  fromip := take 128 (drop 308 bs);
  serverid := byte_at bs 436;
  groupid := byte_at bs 437;
  privilege := byte_at bs 438;
  roleid := map code (take 32 (drop 439 bs));
  pad2 := byte_at bs 471
|}.

Lemma map_code_chr zs : Forall byte zs -> map code (map chr zs) = zs.
Proof.
  induction 1 as [|z zs Hz HF IH]; cbn; [done|]. rewrite code_chr, IH. by rewrite Z.mod_small.
Qed.

Lemma s32_le_encode z : - 2 ^ 31 <= z < 2 ^ 31 -> s32 (le_decode (le_encode 4 z)) = z.
Proof.
  intros Hz. rewrite le_decode_encode. change (256 ^ Z.of_nat 4) with (2 ^ 32). unfold s32.
  rewrite Zplus_mod_idemp_l, Z.mod_small; lia.
Qed.

(** Reading past the fields in front of the one wanted. *)
Lemma slice_skip (a l : list ascii) k n m :
  length a = m -> (m <= n)%nat -> take k (drop n (a ++ l)) = take k (drop (n - m) l).
Proof. intros <- Hl. by rewrite drop_app_ge. Qed.

Lemma slice_here (a l : list ascii) k : length a = k -> take k (drop 0 (a ++ l)) = a.
Proof. intros <-. by rewrite drop_0, take_app_length. Qed.

Lemma nth_skip (a l : list ascii) n m :
  length a = m -> (m <= n)%nat -> nth n (a ++ l) NUL = nth (n - m) l NUL.
Proof. intros <- Hl. by rewrite app_nth2 by lia. Qed.

Ltac skip_field a m := rewrite ?(slice_skip a _ _ _ m), ?(nth_skip a _ _ m) by (done || lia); cbn [Nat.sub].

Lemma user_dec_enc u : user_wf u -> user_dec (user_enc u) = u.
Proof.
  unfold user_wf, byte, LDAP_USER_NAME_LEN, LDAP_USER_FROM_IP, LDAP_USER_ROLE_ID_NUM.
  destruct u as [us p1 id nm ip sv gr pr ro p2]. unfold user_dec, user_enc. cbn [used pad1 uid username fromip
    serverid groupid privilege roleid pad2].
  intros (Hus & Hp1 & Hid & Hnm & Hip & Hsv & Hgr & Hpr & Hro & HF & Hp2).
  pose proof (s32_le_encode id Hid) as He. assert (Hle : length (le_encode 4 id) = 4%nat) by apply length_le_encode.
  pose proof (map_code_chr ro HF) as Hrs. assert (Hrl : length (map chr ro) = 32%nat) by (by rewrite length_map).
  revert He Hle Hrs Hrl. generalize (le_encode 4 id) (map chr ro). intros e rs He Hle Hrs Hrl.
  change (chr us :: p1 ++ e ++ ?r) with ([chr us] ++ p1 ++ e ++ r). unfold byte_at.
  set (ids := [chr sv; chr gr; chr pr]). assert (Hids : length ids = 3%nat) by done.
  f_equal; try (skip_field [chr us] 1%nat); try (skip_field p1 3%nat); try (skip_field e 4%nat);
    try (skip_field nm 300%nat); try (skip_field ip 128%nat); try (skip_field ids 3%nat); try (skip_field rs 32%nat).
  all: try (by apply slice_here).
  all: try (rewrite slice_here by done; done).
  all: by (subst ids; cbn; rewrite code_chr, Z.mod_small).
Qed.

Lemma length_user_enc u : user_wf u -> length (user_enc u) = 472%nat.
Proof.
  unfold user_wf, LDAP_USER_NAME_LEN, LDAP_USER_FROM_IP, LDAP_USER_ROLE_ID_NUM.
  intros (_ & Hp1 & _ & Hnm & Hip & _ & _ & _ & Hro & _ & _). unfold user_enc. cbn [length].
  rewrite !length_app, length_le_encode, length_map, Hp1, Hnm, Hip, Hro. reflexivity.
Qed.

Lemma user_dec_wf bs : length bs = 472%nat -> user_wf (user_dec bs).
Proof.
  intros Hl. unfold user_wf, user_dec, byte, byte_at. cbn [used pad1 uid username fromip serverid groupid privilege
    roleid pad2].
  assert (HF : Forall (fun z => 0 <= z < 256) (map code (take 32 (drop 439 bs)))).
  { apply Forall_forall. intros z Hz. apply list_elem_of_fmap in Hz as (c & -> & _). apply code_range. }
  repeat split; try (apply code_range || apply s32_range || done); rewrite ?length_map, ?length_take, ?length_drop, Hl;
    reflexivity.
Qed.

#[export, program] Instance user_codec : RecordCodec LDAP_USER := {|
  rec_size := 472%nat; rec_enc := user_enc; rec_dec := user_dec; rec_wf := user_wf
|}.
Next Obligation. lia. Qed.
Next Obligation. by apply length_user_enc. Qed.
Next Obligation. by apply user_dec_enc. Qed.
Next Obligation. by apply user_dec_wf. Qed.

(** [LDAP_USER usr = {0};] *)
Definition zero_ldap_user : LDAP_USER := {|
  used := 0; pad1 := replicate 3 NUL; uid := 0; username := replicate LDAP_USER_NAME_LEN NUL;
  fromip := replicate LDAP_USER_FROM_IP NUL; serverid := 0; groupid := 0; privilege := 0;
  roleid := replicate LDAP_USER_ROLE_ID_NUM 0; pad2 := 0
|}.

(** ** Operations *)

(** [fread(&usr, sizeof(usr), 1, fp)] with [bs] from the file's position on: the structures read and
    what is in [usr] afterwards. Bytes of an incomplete structure are stored all the same. *)
Definition fread_user (e : os_env) (bs : list ascii) (usr : LDAP_USER) : Z * LDAP_USER :=
  if fread_ret e 1 =? 1 then
    let got := take (rec_size LDAP_USER) bs in
    (if (length got =? rec_size LDAP_USER)%nat then 1 else 0, rec_dec (got ++ drop (length got) (rec_enc usr)))
  else (0, usr).

(** [fwrite] at an offset; when no byte is written the file is as it was. *)
Definition fwrite_at (e : os_env) (off : nat) (data file : list ascii) : Z * list ascii :=
  let k := Nat.min (fwrite_bytes e (length data)) (length data) in
  (if (k =? length data)%nat then 1 else 0, if (k =? 0)%nat then file else write_at off (take k data) file).

(** The search for a free slot; [todo] structures are left according to the length of the file. *)
Fixpoint slot_loop (e : os_env) (todo : nat) (bs : list ascii) (usr : LDAP_USER) (n : Z) : LDAP_USER * Z :=
  match todo with
  | O => (usr, n)
  | S todo' =>
      let '(r, usr) := fread_user e bs usr in
      if negb (r =? 1) then (usr, n)
      else if used usr =? 0 then (usr, n)
      else slot_loop e todo' (drop (rec_size LDAP_USER) bs) usr (n + 1)
  end.

Definition take_slot (usr : LDAP_USER) (n : Z) : LDAP_USER := {|
  used := 1; pad1 := pad1 usr; uid := LDAP_USER_ID_BASE + n; username := username usr; fromip := fromip usr;
  serverid := serverid usr; groupid := groupid usr; privilege := privilege usr; roleid := roleid usr; pad2 := pad2 usr
|}.

(** A missing file is created ("w+"), an existing one opened as it is ("r+"). The seeks go to places
    inside the file and do not fail; fchmod and flock have no effect on the state. *)
Definition uip_alloc_ldap_uid (e : os_env) (f : fs) : Z * fs :=
  if negb (fopen_ok e) then (RET_ERR, f)
  else
    let f := create f LDAP_USER_FILE in
    let bs := content f LDAP_USER_FILE in
    let file_length := if ftell_ok e then u32 (Z.of_nat (length bs)) else u32 (-1) in
    let '(usr, n) := slot_loop e (Z.to_nat (file_length / Z.of_nat (rec_size LDAP_USER))) bs zero_ldap_user 0 in
    if LDAP_USER_MAX_COUNT <=? n then (RET_ERR, f)
    else
      let '(r, bs') := fwrite_at e (rec_size LDAP_USER * Z.to_nat n) (rec_enc (take_slot usr n)) bs in
      (if negb (r =? 1) then RET_ERR else LDAP_USER_ID_BASE + n, set_file f LDAP_USER_FILE bs').

(** [usr] is what the caller's structure holds. *)
Definition uip_read_ldap_user (e : os_env) (f : fs) (uid0 : Z) (usr : option LDAP_USER) : Z * option LDAP_USER :=
  match usr with
  | None => (RET_ERR, None)
  | Some usr0 =>
      if uid0 <? LDAP_USER_ID_BASE then (RET_ERR, usr)
      else
        match files f !! LDAP_USER_FILE with
        | None => (RET_ERR, usr)
        | Some bs =>
            if negb (fopen_ok e) then (RET_ERR, usr)
            else if fseek_ret e =? -1 then (RET_ERR, usr)
            else
              let '(r, usr1) := fread_user e (drop (Z.to_nat (uid0 - LDAP_USER_ID_BASE) * rec_size LDAP_USER) bs) usr0 in
              (if negb (r =? 1) then RET_ERR else RET_OK, Some usr1)
        end
  end.

Definition uip_renew_ldap_user (e : os_env) (f : fs) (usr : option LDAP_USER) : Z * fs :=
  match usr with
  | None => (RET_ERR, f)
  | Some usr =>
      if uid usr <? LDAP_USER_ID_BASE then (RET_ERR, f)
      else
        match files f !! LDAP_USER_FILE with
        | None => (RET_ERR, f)
        | Some bs =>
            if negb (fopen_ok e) then (RET_ERR, f)
            else if fseek_ret e =? -1 then (RET_ERR, f)
            else
              let '(r, bs') := fwrite_at e (Z.to_nat (uid usr - LDAP_USER_ID_BASE) * rec_size LDAP_USER) (rec_enc usr) bs in
              (if negb (r =? 1) then RET_ERR else RET_OK, set_file f LDAP_USER_FILE bs')
        end
  end.

Arguments uip_alloc_ldap_uid : simpl never.

(** ** The table the file holds *)

Definition holds (f : fs) (us : list LDAP_USER) : Prop :=
  content f LDAP_USER_FILE = encode_array us /\ Forall user_wf us.

Definition same_elsewhere (f f' : fs) : Prop := forall p, p <> LDAP_USER_FILE -> files f' !! p = files f !! p.

(** The table operations: an entry is put over a slot, or behind the end with empty slots between. *)
Definition put (us : list LDAP_USER) (n : nat) (u : LDAP_USER) : list LDAP_USER :=
  if (n <? length us)%nat then <[n := u]> us else us ++ replicate (n - length us) zero_ldap_user ++ [u].

Fixpoint first_free (us : list LDAP_USER) : nat :=
  match us with
  | [] => 0
  | u :: rest => if used u =? 0 then 0 else S (first_free rest)
  end.

(** The structure the new entry is made from: the free slot, or the last entry read before the end. *)
Definition slot_base (us : list LDAP_USER) (dflt : LDAP_USER) : LDAP_USER :=
  default (default dflt (last us)) (us !! first_free us).

Definition alloc_table (us : list LDAP_USER) : option nat * list LDAP_USER :=
  let n := first_free us in
  if Z.of_nat n <? LDAP_USER_MAX_COUNT
  then (Some n, put us n (take_slot (slot_base us zero_ldap_user) (Z.of_nat n)))
  else (None, us).

Lemma zero_user_wf : user_wf zero_ldap_user.
Proof. unfold user_wf, byte; cbn. repeat split; try lia. repeat (constructor; [lia|]). constructor. Qed.

Lemma zero_user_enc : user_enc zero_ldap_user = replicate 472 NUL.
Proof. vm_compute. reflexivity. Qed.

Lemma encode_zeros k : encode_array (replicate k zero_ldap_user) = replicate (k * 472) NUL.
Proof.
  induction k as [|k IH]; [done|]. change (S k * 472)%nat with (472 + k * 472)%nat.
  rewrite replicate_add, <- IH, <- zero_user_enc. done.
Qed.

Lemma put_wf us n u : Forall user_wf us -> user_wf u -> Forall user_wf (put us n u).
Proof.
  intros HF Hu. unfold put. destruct (_ <? _)%nat; [by apply Forall_insert|].
  apply Forall_app; split; [done|]. apply Forall_app; split; [|by constructor].
  apply Forall_replicate, zero_user_wf.
Qed.

(** Writing at a slot is [put] on the table. *)
Lemma write_at_put us n u :
  Forall user_wf us -> user_wf u ->
  write_at (n * rec_size LDAP_USER) (rec_enc u) (encode_array us) = encode_array (put us n u).
Proof.
  intros HF Hu. unfold put. destruct (Nat.ltb_spec n (length us)); [by apply write_at_insert|].
  rewrite write_at_behind by done. rewrite !encode_array_app, encode_zeros. do 2 f_equal.
  change (encode_array [u]) with (rec_enc u ++ []). by rewrite app_nil_r.
Qed.

Lemma fwrite_at_nominal t off data file :
  data <> [] -> fwrite_at (nominal t) off data file = (1, write_at off data file).
Proof.
  intros Hd. unfold fwrite_at. cbn [nominal fwrite_bytes]. rewrite Nat.min_id, Nat.eqb_refl, take_ge by done.
  destruct data; [done|]. done.
Qed.

Lemma user_enc_nonempty u : user_enc u <> [].
Proof. done. Qed.

Lemma fread_user_cons t u us usr :
  user_wf u -> user_wf usr -> fread_user (nominal t) (encode_array (u :: us)) usr = (1, u).
Proof.
  intros Hu Husr. unfold fread_user. change (fread_ret (nominal t) 1 =? 1) with true. cbv iota.
  change (encode_array (u :: us)) with (rec_enc u ++ encode_array us).
  pose proof (rec_enc_length u Hu) as Hl. pose proof (rec_enc_length usr Husr) as Hl'.
  rewrite take_app_length' by done. rewrite Hl, Nat.eqb_refl, drop_ge, app_nil_r by (by rewrite Hl').
  by rewrite rec_dec_enc.
Qed.

Lemma fread_user_end t usr : user_wf usr -> fread_user (nominal t) [] usr = (0, usr).
Proof.
  intros Hu. unfold fread_user. change (fread_ret (nominal t) 1 =? 1) with true. cbv iota.
  rewrite take_nil. cbn [length app drop]. by rewrite drop_0, rec_dec_enc.
Qed.

Lemma drop_encode u us : user_wf u -> drop (rec_size LDAP_USER) (encode_array (u :: us)) = encode_array us.
Proof. intros Hu. apply (drop_app_length' (rec_enc u)). symmetry. by apply (rec_enc_length u). Qed.

Lemma last_cons_default {A} (x : A) xs d : default d (last (x :: xs)) = default x (last xs).
Proof. destruct xs as [|y ys]; [done|]. rewrite last_cons_cons. by destruct (last (y :: ys)) eqn:E; [|apply last_None in E]. Qed.

(** The search finds the first free slot. *)
Lemma slot_loop_first t us usr n :
  Forall user_wf us -> user_wf usr ->
  slot_loop (nominal t) (length us) (encode_array us) usr n
  = (slot_base us usr, n + Z.of_nat (first_free us)).
Proof.
  intros HF. revert usr n. induction HF as [|u us Hu HF IH]; intros usr n Husr; [cbn; f_equal; lia|].
  cbn [length slot_loop]. rewrite fread_user_cons by done. change (negb (1 =? 1)) with false. cbv iota.
  unfold slot_base. cbn [first_free]. destruct (used u =? 0); [cbn; f_equal; lia|].
  rewrite drop_encode, IH by done. f_equal; [|lia].
  unfold slot_base. cbn [lookup list_lookup]. by rewrite last_cons_default.
Qed.

Lemma first_free_le us : (first_free us <= length us)%nat.
Proof. induction us as [|u us IH]; cbn; [lia|]. destruct (used u =? 0); lia. Qed.

Lemma slot_base_wf us d : Forall user_wf us -> user_wf d -> user_wf (slot_base us d).
Proof.
  intros HF Hd. rewrite Forall_lookup in HF. unfold slot_base.
  destruct (us !! first_free us) as [u|] eqn:E; [by apply (HF _ _ E)|]. cbn.
  destruct (last us) as [u|] eqn:El; [|done]. cbn. rewrite last_lookup in El.
  by apply (HF _ _ El).
Qed.

Lemma take_slot_wf u n : user_wf u -> 0 <= n < 32 -> user_wf (take_slot u n).
Proof. unfold user_wf, byte, take_slot, LDAP_USER_ID_BASE; cbn. intuition lia. Qed.

(** ** The claims *)

Lemma content_create_user f : content (create f LDAP_USER_FILE) LDAP_USER_FILE = content f LDAP_USER_FILE.
Proof. by rewrite content_create. Qed.

Lemma length_content f us : holds f us -> length (content f LDAP_USER_FILE) = (length us * 472)%nat.
Proof. intros [-> HF]. by rewrite length_encode_array. Qed.

Lemma create_elsewhere f p : p <> LDAP_USER_FILE -> files (create f LDAP_USER_FILE) !! p = files f !! p.
Proof. intros Hp. unfold create, set_file; cbn. by rewrite lookup_insert_ne. Qed.

Lemma set_elsewhere f c : same_elsewhere f (set_file f LDAP_USER_FILE c).
Proof. intros p Hp. unfold set_file; cbn. by rewrite lookup_insert_ne. Qed.

Lemma holds_set f us : Forall user_wf us -> holds (set_file f LDAP_USER_FILE (encode_array us)) us.
Proof. intros HF. split; [|done]. by rewrite content_set. Qed.

Definition alloc_result (n : option nat) : Z :=
  match n with Some n => LDAP_USER_ID_BASE + Z.of_nat n | None => RET_ERR end.

Lemma alloc_table_wf us : Forall user_wf us -> Forall user_wf (snd (alloc_table us)).
Proof.
  intros HF. unfold alloc_table, LDAP_USER_MAX_COUNT. destruct (Z.ltb_spec (Z.of_nat (first_free us)) 32); [|done].
  apply put_wf; [done|]. apply take_slot_wf; [|lia]. by apply slot_base_wf, zero_user_wf.
Qed.

(** [uip_alloc_ldap_uid] is the table operation. *)
Lemma alloc_on_table t f us :
  holds f us -> Z.of_nat (length us) * 472 < 2 ^ 32 ->
  let f' := snd (uip_alloc_ldap_uid (nominal t) f) in
  fst (uip_alloc_ldap_uid (nominal t) f) = alloc_result (fst (alloc_table us)) /\
  holds f' (snd (alloc_table us)) /\ same_elsewhere f f'.
Proof.
  intros Hh Hlen. pose proof (length_content f us Hh) as Hl. destruct Hh as [Hc HF].
  unfold uip_alloc_ldap_uid. change (negb (fopen_ok (nominal t))) with false. cbv iota.
  rewrite content_create_user, Hl. change (ftell_ok (nominal t)) with true. cbv iota.
  change (Z.of_nat (rec_size LDAP_USER)) with 472. rewrite u32_small by lia. rewrite Nat2Z.inj_mul, Z.div_mul by lia.
  rewrite Nat2Z.id, Hc, slot_loop_first by (done || apply zero_user_wf). rewrite Z.add_0_l, Nat2Z.id.
  unfold alloc_table. rewrite Z.leb_antisym.
  destruct (Z.ltb_spec (Z.of_nat (first_free us)) LDAP_USER_MAX_COUNT) as [Hn|Hn]; cbn [negb fst snd].
  - rewrite fwrite_at_nominal by done. rewrite Nat.mul_comm. unfold LDAP_USER_MAX_COUNT in Hn.
    assert (Hwf : user_wf (take_slot (slot_base us zero_ldap_user) (Z.of_nat (first_free us)))).
    { apply take_slot_wf; [|lia]. by apply slot_base_wf, zero_user_wf. }
    rewrite write_at_put by done. cbn [fst snd]. split; [done|]. split; [by apply holds_set, put_wf|].
    intros p Hp. rewrite set_elsewhere by done. by apply create_elsewhere.
  - split; [done|]. split; [by split; [rewrite content_create_user|]|]. intros p Hp. by apply create_elsewhere.
Qed.

Lemma renew_on_table t f us u :
  holds f us -> is_Some (files f !! LDAP_USER_FILE) -> user_wf u -> LDAP_USER_ID_BASE <= uid u ->
  let f' := snd (uip_renew_ldap_user (nominal t) f (Some u)) in
  fst (uip_renew_ldap_user (nominal t) f (Some u)) = RET_OK /\
  holds f' (put us (Z.to_nat (uid u - LDAP_USER_ID_BASE)) u) /\ same_elsewhere f f'.
Proof.
  intros [Hc HF] [bs Hbs] Hu Hid. unfold content in Hc. rewrite Hbs in Hc. cbn in Hc.
  unfold uip_renew_ldap_user. rewrite (proj2 (Z.ltb_ge _ _)) by done. rewrite Hbs, Hc.
  change (negb (fopen_ok (nominal t))) with false. change (fseek_ret (nominal t) =? -1) with false. cbv iota.
  rewrite fwrite_at_nominal, write_at_put by done. cbn [fst snd]. split; [done|].
  split; [by apply holds_set, put_wf|apply set_elsewhere].
Qed.

Lemma read_on_table t f us usr id :
  holds f us -> is_Some (files f !! LDAP_USER_FILE) -> user_wf usr -> LDAP_USER_ID_BASE <= id ->
  uip_read_ldap_user (nominal t) f id (Some usr)
  = match us !! Z.to_nat (id - LDAP_USER_ID_BASE) with
    | Some u => (RET_OK, Some u)
    | None => (RET_ERR, Some usr)
    end.
Proof.
  intros [Hc HF] [bs Hbs] Hu Hid. unfold content in Hc. rewrite Hbs in Hc. cbn in Hc.
  unfold uip_read_ldap_user. rewrite (proj2 (Z.ltb_ge _ _)) by done. rewrite Hbs, Hc.
  change (negb (fopen_ok (nominal t))) with false. change (fseek_ret (nominal t) =? -1) with false. cbv iota.
  generalize (Z.to_nat (id - LDAP_USER_ID_BASE)). intros k. clear Hc Hbs.
  revert k. induction HF as [|u us Hwf HF IH]; intros k.
  - change (encode_array []) with (@nil ascii). rewrite drop_nil, fread_user_end by done. done.
  - destruct k as [|k]; cbn [lookup list_lookup].
    + rewrite Nat.mul_0_l, drop_0, fread_user_cons by done. done.
    + rewrite Nat.mul_succ_l, (Nat.add_comm _ (rec_size _)), <- drop_drop, drop_encode by done. apply IH.
Qed.

Lemma lookup_put us n u : put us n u !! n = Some u.
Proof.
  unfold put. destruct (Nat.ltb_spec n (length us)); [by apply list_lookup_insert_eq|].
  rewrite lookup_app_r by lia. rewrite lookup_app_r by (rewrite length_replicate; lia).
  by rewrite length_replicate, Nat.sub_diag.
Qed.

(** An entry of the new table is the one put there, an old one or an empty slot. *)
Lemma lookup_put_inv us n u j v :
  put us n u !! j = Some v -> (j = n /\ v = u) \/ (j <> n /\ us !! j = Some v) \/ v = zero_ldap_user.
Proof.
  unfold put. destruct (Nat.ltb_spec n (length us)) as [Hn|Hn].
  - destruct (decide (n = j)) as [<-|Hj].
    + rewrite list_lookup_insert_eq by done. naive_solver.
    + rewrite list_lookup_insert_ne by done. naive_solver.
  - intros H. apply lookup_app_Some in H as [H|[Hj H]].
    + right; left. split; [|done]. apply lookup_lt_Some in H. lia.
    + apply lookup_app_Some in H as [H|[Hj2 H]]; [right; right; by apply lookup_replicate in H as [-> _]|].
      rewrite length_replicate in *. apply list_lookup_singleton_Some in H as [? <-]. left. split; [lia|done].
Qed.

Lemma length_put us n u : length (put us n u) = Nat.max (length us) (S n).
Proof.
  unfold put. destruct (Nat.ltb_spec n (length us)); [rewrite length_insert; lia|].
  rewrite !length_app, length_replicate. cbn [length]. lia.
Qed.

Lemma renew_exists t f us u :
  holds f us -> is_Some (files f !! LDAP_USER_FILE) -> user_wf u -> 1000 <= uid u ->
  is_Some (files (snd (uip_renew_ldap_user (nominal t) f (Some u))) !! LDAP_USER_FILE).
Proof.
  intros Hh [bs Hbs] Hu Hid. unfold uip_renew_ldap_user. unfold LDAP_USER_ID_BASE.
  rewrite (proj2 (Z.ltb_ge _ _)) by done. rewrite Hbs. cbn [nominal fopen_ok fseek_ret negb Z.eqb].
  destruct (fwrite_at _ _ _ _). cbn [snd set_file files]. rewrite lookup_insert_eq. by eexists.
Qed.

(** C15: on a file that holds the table [us], the three functions are the table operations: allocating
    puts a used entry with its uid into the first free slot (behind the end when there is none) and fails when
    32 slots are used; refreshing puts the entry at the slot of its uid, with empty slots before it where the
    table was shorter; reading returns the entry of the slot. No other file changes. *)
Theorem ldap_table_refines t f us :
  holds f us -> Z.of_nat (length us) * 472 < 2 ^ 32 ->
  (exists f', uip_alloc_ldap_uid (nominal t) f = (alloc_result (fst (alloc_table us)), f') /\
     holds f' (snd (alloc_table us)) /\ same_elsewhere f f') /\
  (forall u, is_Some (files f !! LDAP_USER_FILE) -> user_wf u -> 1000 <= uid u ->
     exists f', uip_renew_ldap_user (nominal t) f (Some u) = (RET_OK, f') /\
       holds f' (put us (Z.to_nat (uid u - 1000)) u) /\ same_elsewhere f f' /\
       forall usr, user_wf usr -> uip_read_ldap_user (nominal t) f' (uid u) (Some usr) = (RET_OK, Some u)) /\
  (forall id usr, is_Some (files f !! LDAP_USER_FILE) -> user_wf usr -> 1000 <= id ->
     uip_read_ldap_user (nominal t) f id (Some usr)
     = match us !! Z.to_nat (id - 1000) with Some u => (RET_OK, Some u) | None => (RET_ERR, Some usr) end).
Proof.
  intros Hh Hl. split; [|split].
  - destruct (alloc_on_table t f us Hh Hl) as (H1 & H2 & H3). eexists. split; [|split; [exact H2|exact H3]].
    by rewrite <- H1, <- surjective_pairing.
  - intros u Hex Hu Hid. destruct (renew_on_table t f us u Hh Hex Hu Hid) as (H1 & H2 & H3).
    eexists. split; [by rewrite <- H1, <- surjective_pairing|]. split; [exact H2|]. split; [exact H3|].
    intros usr Husr. erewrite read_on_table by (exact H2 || done || by eapply renew_exists).
    by rewrite lookup_put.
  - intros id usr Hex Hu Hid. by apply read_on_table.
Qed.

(** ** Sequences of operations *)

(** The operations that change the file, in any order and by any process. *)
Inductive step (f : fs) : fs -> Prop :=
| step_alloc t : step f (snd (uip_alloc_ldap_uid (nominal t) f))
| step_renew t u :
    user_wf u -> uid u < 1000 + 2 ^ 23 -> step f (snd (uip_renew_ldap_user (nominal t) f (Some u))).

(** The used entry of slot [i] has the uid of the slot. *)
Definition uids_match (us : list LDAP_USER) : Prop :=
  forall (i : nat) u, us !! i = Some u -> used u <> 0 -> uid u = 1000 + Z.of_nat i.

Definition table_inv (f : fs) (us : list LDAP_USER) : Prop :=
  holds f us /\ (files f !! LDAP_USER_FILE = None -> us = []) /\ Z.of_nat (length us) <= 2 ^ 23 /\ uids_match us.

Lemma first_free_spec us u : us !! first_free us = Some u -> used u = 0.
Proof.
  induction us as [|a us IH]; cbn [first_free]; [done|]. destruct (Z.eqb_spec (used a) 0) as [E|E]; [|apply IH].
  by intros [= <-].
Qed.

Lemma uids_match_put us n u :
  uids_match us -> uid u = 1000 + Z.of_nat n -> uids_match (put us n u).
Proof.
  intros Hm Hu i v Hi Hv. apply lookup_put_inv in Hi as [[-> ->]|[[_ Hi]| ->]]; [done|by apply Hm|done].
Qed.

Lemma holds_missing f us : holds f us -> files f !! LDAP_USER_FILE = None -> us = [].
Proof.
  intros Hh Hf. pose proof (length_content f us Hh) as Hl. unfold content in Hl. rewrite Hf in Hl. cbn in Hl.
  destruct us; [done|]. cbn [length] in Hl. lia.
Qed.

Lemma alloc_inv t f us : table_inv f us -> table_inv (snd (uip_alloc_ldap_uid (nominal t) f)) (snd (alloc_table us)).
Proof.
  intros (Hh & Hno & Hlen & Hm). destruct (alloc_on_table t f us Hh ltac:(lia)) as (_ & Hh' & _).
  split; [exact Hh'|]. split; [by apply holds_missing|]. unfold alloc_table, LDAP_USER_MAX_COUNT in *.
  pose proof (first_free_le us). destruct (Z.ltb_spec (Z.of_nat (first_free us)) 32); [|done]. cbn [snd]. split.
  - rewrite length_put. lia.
  - by apply uids_match_put.
Qed.

Lemma step_inv f f' us : table_inv f us -> step f f' -> exists us', table_inv f' us'.
Proof.
  intros Hinv [t|t u Hu Hid]; [eexists; by apply alloc_inv|]. destruct Hinv as (Hh & Hno & Hlen & Hm).
  destruct (decide (1000 <= uid u)) as [Hge|Hlt].
  2: { exists us. unfold uip_renew_ldap_user, LDAP_USER_ID_BASE. by rewrite (proj2 (Z.ltb_lt _ _)) by lia. }
  destruct (files f !! LDAP_USER_FILE) as [bs|] eqn:Hf.
  2: { exists us. unfold uip_renew_ldap_user, LDAP_USER_ID_BASE. rewrite (proj2 (Z.ltb_ge _ _)) by lia. rewrite Hf.
       cbn [snd]. split; [exact Hh|]. split; [intros _; by apply Hno|]. done. }
  destruct (renew_on_table t f us u Hh ltac:(by rewrite Hf; eexists) Hu Hge) as (_ & Hh' & _). unfold LDAP_USER_ID_BASE in *.
  eexists. split; [exact Hh'|]. split; [by apply holds_missing|]. split; [rewrite length_put; lia|].
  apply uids_match_put; [done|]. lia.
Qed.

Lemma reach_inv f f' us : rtc step f f' -> table_inv f us -> exists us', table_inv f' us'.
Proof.
  intros Hr. revert us. induction Hr as [f|f g h Hs Hr IH]; intros us Hinv; [by exists us|].
  destruct (step_inv f g us Hinv Hs) as [us' ?]. by apply (IH us').
Qed.

Lemma missing_inv f : files f !! LDAP_USER_FILE = None -> table_inv f [].
Proof.
  intros Hf. split; [|split; [done|split; [cbn; lia|done]]]. split; [|done]. unfold content. by rewrite Hf.
Qed.

(** C25: started without the file, whatever allocations and refreshes (of uids below 1000 + 2^23) follow, the
    used entry of every slot has the uid of its slot, and the next allocation fails or returns a uid between
    1000 and 1031 that no used entry has. *)
Theorem allocated_uids_are_fresh f0 f :
  files f0 !! LDAP_USER_FILE = None -> rtc step f0 f ->
  exists us, holds f us /\ uids_match us /\
    forall t, let r := fst (uip_alloc_ldap_uid (nominal t) f) in
      r = RET_ERR \/ (1000 <= r < 1032 /\ Forall (fun u => used u <> 0 -> uid u <> r) us).
Proof.
  intros Hf Hr. destruct (reach_inv f0 f [] Hr (missing_inv f0 Hf)) as (us & Hh & _ & Hlen & Hm).
  exists us. split; [done|]. split; [done|]. intros t. destruct (alloc_on_table t f us Hh ltac:(lia)) as (-> & _ & _).
  unfold alloc_table, LDAP_USER_MAX_COUNT. destruct (Z.ltb_spec (Z.of_nat (first_free us)) 32); [right|by left].
  cbn [fst alloc_result]. unfold LDAP_USER_ID_BASE. split; [lia|]. apply Forall_lookup. intros i u Hi Hus Hid.
  rewrite (Hm i u Hi Hus) in Hid. assert (i = first_free us) as -> by lia. apply Hus. by apply (first_free_spec us).
Qed.

(** Allocating again and again. *)
Fixpoint allocs (k : nat) (t : Z) (f : fs) : list Z :=
  match k with
  | O => []
  | S k' => let '(r, f') := uip_alloc_ldap_uid (nominal t) f in r :: allocs k' t f'
  end.

Lemma first_free_all us : Forall (fun u => used u <> 0) us -> first_free us = length us.
Proof. induction 1 as [|u us Hu HF IH]; cbn; [done|]. by rewrite (proj2 (Z.eqb_neq _ _)), IH. Qed.

Definition alloc_number (i : nat) : Z := if Z.of_nat i <? 32 then 1000 + Z.of_nat i else RET_ERR.

Lemma alloc_numbers_over j k : (32 <= j)%nat -> map alloc_number (seq j k) = replicate k RET_ERR.
Proof.
  revert j. induction k as [|k IH]; intros j Hj; cbn; [done|]. rewrite IH by lia.
  unfold alloc_number. by rewrite (proj2 (Z.ltb_ge _ _)) by lia.
Qed.

Lemma allocs_from k t f us :
  holds f us -> Forall (fun u => used u <> 0) us -> (length us <= 32)%nat ->
  allocs k t f = map alloc_number (seq (length us) k).
Proof.
  revert f us. induction k as [|k IH]; intros f us Hh HF Hlen; [done|].
  destruct (alloc_on_table t f us Hh ltac:(lia)) as (H1 & H2 & _). cbn [allocs].
  destruct (uip_alloc_ldap_uid (nominal t) f) as [r f']. cbn [fst snd] in *. subst r.
  unfold alloc_table, LDAP_USER_MAX_COUNT in *. rewrite first_free_all in * by done.
  destruct (Z.ltb_spec (Z.of_nat (length us)) 32) as [Hn|Hn]; cbn [fst snd alloc_result seq map] in *.
  - apply IH in H2.
    + rewrite length_put, Nat.max_r in H2 by lia. rewrite H2. f_equal. unfold alloc_number, LDAP_USER_ID_BASE.
      by rewrite (proj2 (Z.ltb_lt _ _)) by lia.
    + unfold put. rewrite (proj2 (Nat.ltb_ge _ _)), Nat.sub_diag by lia. apply Forall_app; split; [done|]. by constructor.
    + rewrite length_put. lia.
  - rewrite (IH f' us H2 HF Hlen), !alloc_numbers_over by lia. unfold alloc_number.
    by rewrite (proj2 (Z.ltb_ge _ _)) by lia.
Qed.

(** With 32 entries the table is full: allocating [k] times, starting without the file, returns
    1000, 1001, .. 1031 and then an error each time. *)
Theorem allocs_exhaust_table k t f :
  files f !! LDAP_USER_FILE = None ->
  allocs k t f = map (fun i => if Z.of_nat i <? 32 then 1000 + Z.of_nat i else RET_ERR) (seq 0 k).
Proof. intros Hf. apply (allocs_from k t f []); [|constructor|cbn; lia]. by destruct (missing_inv f Hf) as [? _]. Qed.

Definition no_files : fs := Fs ∅ ∅.

Lemma allocs_exhaust_table_witness : allocs 2 5 no_files = [1000; 1001].
Proof. rewrite (allocs_exhaust_table 2 5 no_files) by reflexivity. reflexivity. Defined.

(** What the file keeps of one user reaches the next: a slot behind the end is filled from the last entry read. *)
Definition alice : LDAP_USER := {|
  used := 1; pad1 := replicate 3 NUL; uid := 1000; username := lit "alice" ++ replicate 295 NUL;
  fromip := replicate 128 NUL; serverid := 1; groupid := 2; privilege := 4; roleid := 4 :: replicate 31 0; pad2 := 0
|}.

Definition one_user : fs := set_file no_files LDAP_USER_FILE (user_enc alice).

Lemma alice_wf : user_wf alice.
Proof. unfold user_wf, byte; cbn. repeat split; try lia. repeat (constructor; [lia|]). constructor. Qed.

Lemma one_user_holds : holds one_user [alice].
Proof.
  split; [|constructor; [exact alice_wf|constructor]]. unfold one_user. rewrite content_set.
  change (encode_array [alice]) with (user_enc alice ++ []). by rewrite app_nil_r.
Qed.

Definition alice_on (ip : string) : LDAP_USER := {|
  used := used alice; pad1 := pad1 alice; uid := uid alice; username := username alice;
  fromip := lit ip ++ replicate (128 - String.length ip) NUL; serverid := serverid alice; groupid := groupid alice;
  privilege := privilege alice; roleid := roleid alice; pad2 := pad2 alice
|}.

Lemma ldap_table_refines_witness :
  exists f1 f2, uip_alloc_ldap_uid (nominal 7) one_user = (1001, f1) /\
    holds f1 [alice; take_slot alice 1] /\
    uip_renew_ldap_user (nominal 7) one_user (Some (alice_on "10.0.0.9")) = (0, f2) /\
    uip_read_ldap_user (nominal 7) f2 1000 (Some zero_ldap_user) = (0, Some (alice_on "10.0.0.9")).
Proof.
  destruct (ldap_table_refines 7 one_user [alice] one_user_holds ltac:(cbn; lia)) as ((f1 & H1 & H2 & _) & Hr & _).
  assert (Hw : user_wf (alice_on "10.0.0.9")).
  { unfold user_wf, byte; cbn. repeat split; try lia. repeat (constructor; [lia|]). constructor. }
  destruct (Hr (alice_on "10.0.0.9") ltac:(by eexists) Hw ltac:(cbn; lia)) as (f2 & H3 & _ & _ & H4).
  exists f1, f2. split; [exact H1|]. split; [exact H2|]. split; [exact H3|]. apply (H4 zero_ldap_user zero_user_wf).
Defined.

Lemma allocated_uids_are_fresh_witness :
  exists us, holds (snd (uip_alloc_ldap_uid (nominal 7) no_files)) us /\ uids_match us /\
    forall t, let r := fst (uip_alloc_ldap_uid (nominal t) (snd (uip_alloc_ldap_uid (nominal 7) no_files))) in
      r = RET_ERR \/ (1000 <= r < 1032 /\ Forall (fun u => used u <> 0 -> uid u <> r) us).
Proof.
  apply (allocated_uids_are_fresh no_files); [reflexivity|].
  apply rtc_once. apply step_alloc.
Defined.

(** A new slot is written from the structure last read: behind the end of the table it starts with the name, the
    address and the privilege of the last user, until it is refreshed. *)
Lemma new_slot_keeps_last_user us u :
  Forall (fun v => used v <> 0) us -> last us = Some u -> (length us < 32)%nat ->
  exists v, snd (alloc_table us) = us ++ [v] /\ username v = username u /\ privilege v = privilege u.
Proof.
  intros HF Hl Hlen. unfold alloc_table, LDAP_USER_MAX_COUNT. rewrite first_free_all by done.
  rewrite (proj2 (Z.ltb_lt _ _)) by lia. unfold put. rewrite (proj2 (Nat.ltb_ge _ _)), Nat.sub_diag by lia.
  eexists. split; [done|]. unfold slot_base. rewrite first_free_all by done.
  rewrite lookup_ge_None_2 by lia. by rewrite Hl.
Qed.
