(* ===== verification/UipUser.v ===== *)
(** * uip/uip_user.c: what other programs ask about users

    Local users come from the permission file (by name here, by id in pam_bmc_login.c), LDAP users from the
    authentication service over D-Bus. The messages the functions send are values of [dbus_call]; the answer
    is a function of the call in [uip_env]. The table of LDAP users is in LdapUsers.v. *)
From S2P Require Import LoginRule TallyLog PamLogin.
From S2P Require Export LdapUsers.

(** ** Constants of uip_user.h *)
Definition IAM_SERVICE : list ascii := lit "bmc.kepler.iam".
Definition ACCOUNT_SERVICE : list ascii := lit "bmc.kepler.account".
Definition AUTHENTICATION_PATH : list ascii := lit "/bmc/kepler/AccountService/Authentication".
Definition AUTHENTICATION_INTF : list ascii := lit "bmc.kepler.AccountService.Authentication".
Definition ACCOUNT_PATH : list ascii := lit "/bmc/kepler/AccountService/Accounts/".
Definition SNMP_PATH : list ascii := lit "/bmc/kepler/AccountService/Accounts/20".
Definition ACCOUNT_INTF : list ascii := lit "bmc.kepler.AccountService.ManagerAccount".
Definition PROPERTIES_INTF : list ascii := lit "org.freedesktop.DBus.Properties".
Definition LOGIN_INTERFACE_DISABLE : Z := 0.
Definition LOGIN_INTERFACE_ENABLE : Z := 1.
Definition LOGIN_INTERFACE_ALL_ENABLE : Z := 2 ^ 32 - 1.
Definition USER_NOT_FOUND_IN_IPMI : Z := 1.
Definition FILE_NOT_REAL_PATH : Z := 2.
Definition FILE_OPEN_FAILED : Z := 3.
Definition FILE_STAT_FAILED : Z := 4.
Definition FILE_SIZE_ZERO : Z := 5.
Definition FILE_READ_FAILED : Z := 6.
Definition TOKEN_TOO_LONG : Z := 7.
Definition USER_LOGIN_INTERFACE_MAX : Z := 8.
Definition USER_TYPE_LOCAL : Z := 0.
Definition USER_TYPE_LDAP : Z := 1.
Definition USER_TYPE_SNMPV1V2C : Z := 2.
Definition BUFF_LEN : nat := 128.

(** ** Messages *)
Inductive dbus_arg :=
| DInt32 (z : Z)
| DByte (z : Z)
| DString (s : list ascii)
| DBytes (s : list ascii)
| DVariant (a : dbus_arg)
| DStrings (l : list (list ascii))                 (* "as" *)
| DMap (l : list (list ascii * list ascii))        (* "a{ss}" *)
| DOther.

(** The context is the first argument of a call that carries one. *)
Record dbus_call := {
  destination : list ascii; object_path : list ascii; interface : list ascii; method : list ascii;
  arguments : list dbus_arg
}.

Record uip_env := {
  bus : bus_env;
  privilege_path : option (list ascii);             (* realpath of the permission file *)
  privilege_file : list ascii -> text_file;
  login_rules_env : login_env;
  getpwnam_r : list ascii -> Z * option (Z * Z);
  call_created : bool;                              (* dbus_message_new_method_call gave a message *)
  args_appended : bool;
  answer : dbus_call -> option (list dbus_arg)      (* the reply; none, or with the error set *)
}.

(** ** The permission file *)

Definition parse_line_token_to_user_name (token : list ascii) (ipmi_user : IPMI_USER_S) : Z * IPMI_USER_S :=
  if (length (user_name ipmi_user) <=? length token)%nat then (TOKEN_TOO_LONG, ipmi_user)
  else
    let '(ret, name) := memcpy_s (user_name ipmi_user) token (length token) in
    (if negb (ret =? RET_OK) then ret else RET_OK, set_user_name name ipmi_user).

(** The switch on the position of a field. *)
Definition set_user_field (pos : nat) (token : list ascii) (ret : Z) (u : IPMI_USER_S) : Z * IPMI_USER_S :=
  if (pos =? INDEX_LINE_USER)%nat then parse_line_token_to_user_name token u
  else
    match set_numeric pos 0 u with
    | None => (ret, u)
    | Some _ =>
        match parse_line_token_to_uint8 token with
        | None => (RET_ERR, u)
        | Some v => (RET_OK, default u (set_numeric pos v u))
        end
    end.

Fixpoint user_fields_loop (pos : nat) (ts : list (list ascii)) (ret : Z) (u : IPMI_USER_S) : Z * IPMI_USER_S :=
  match ts with
  | [] => (RET_OK, u)
  | token :: rest =>
      let '(ret, u) := set_user_field (S pos) token ret u in
      if negb (ret =? RET_OK) then (ret, u) else user_fields_loop (S pos) rest ret u
  end.

Definition parse_line_to_struct (line : list ascii) (ipmi_user : IPMI_USER_S) : Z * IPMI_USER_S :=
  user_fields_loop 0 (tokens ":"%char line) 0 ipmi_user.

(** The second field of a line; a line without ':' leaves a null pointer. *)
Definition name_field (line : list ascii) : option (list ascii) :=
  match snd (strsep ":"%char line) with
  | None => None
  | Some rest => Some (fst (strsep ":"%char rest))
  end.

(** The loop of [get_user]: [strcmp] of a null pointer is undefined. *)
Fixpoint get_user_loop (username : list ascii) (ls : list (list ascii)) (ipmi_user : IPMI_USER_S)
    : option (Z * IPMI_USER_S) :=
  match ls with
  | [] => Some (USER_NOT_FOUND_IN_IPMI, ipmi_user)
  | line :: rest =>
      if (length line =? 0)%nat then Some (USER_NOT_FOUND_IN_IPMI, ipmi_user)
      else
        match name_field line with
        | None => UB
        | Some token =>
            if negb (str_eqb token username) then get_user_loop username rest ipmi_user
            else Some (parse_line_to_struct line ipmi_user)
        end
  end.

Definition get_user (username data : list ascii) (ipmi_user : IPMI_USER_S) : option (Z * IPMI_USER_S) :=
  get_user_loop username (tokens NL data) ipmi_user.

Definition get_ipmi_user (e : uip_env) (username : list ascii) (ipmi_user : IPMI_USER_S) : option (Z * IPMI_USER_S) :=
  let tmp_user_name := if str_eqb username ACTUAL_ROOT_USER_NAME then RESERVED_ROOT_USER_NAME else username in
  match privilege_path e with
  | None => Some (FILE_NOT_REAL_PATH, ipmi_user)
  | Some path =>
      let f := privilege_file e path in
      if tf_open f <? 0 then Some (FILE_OPEN_FAILED, ipmi_user)
      else if negb (tf_stat f =? 0) then Some (FILE_STAT_FAILED, ipmi_user)
      else if (length (tf_bytes f) =? 0)%nat then Some (FILE_SIZE_ZERO, ipmi_user)
      else if tf_read f <? 0 then Some (FILE_READ_FAILED, ipmi_user)
      else get_user tmp_user_name (tf_text f) ipmi_user
  end.

Definition uip_is_login_interface_enable (e : uip_env) (username : option (list ascii)) (offset : Z) : option Z :=
  match username with
  | None => Some LOGIN_INTERFACE_DISABLE
  | Some username =>
      if USER_LOGIN_INTERFACE_MAX <=? offset then Some LOGIN_INTERFACE_ENABLE
      else
        match get_ipmi_user e username zero_user with
        | None => UB
        | Some (ret, ipmi_user) =>
            if negb (ret =? RET_OK) then Some LOGIN_INTERFACE_DISABLE
            else
              let login_interface :=
                if is_exclude_user ipmi_user =? 1 then LOGIN_INTERFACE_ALL_ENABLE else user_login_interface ipmi_user in
              Some (Z.shiftr (Z.land login_interface (Z.shiftl 1 offset)) offset)
        end
  end.

(** ** The D-Bus functions *)

(** uip_user.c has its own copies of the two functions of common.c, and its own connection. *)
Definition init_dbus_env : bus_env -> bus_state -> Z * bus_state := Common.init_dbus_env.
Definition init_dbus_connection (e : bus_env) (st : bus_state) : Z * bus_state :=
  if g_dbus_conn st then (RET_OK, st)
  else
    let '(ret, st1) := init_dbus_env e st in
    if negb (ret =? RET_OK) then (ret, st1)
    else
      let '(conn, error_set) := bus_get e in
      let st2 := {| g_dbus_conn := conn; bus_address := bus_address st1; bus_pid := bus_pid st1 |} in
      if negb conn || error_set then (RET_ERR, st2) else (RET_OK, st2).

(** The dictionary of [append_user_context]; null strings cannot be sent. *)
Definition append_user_context (user_name ip intf : list ascii) : dbus_arg :=
  DMap [(lit "Interface", intf); (lit "UserName", user_name); (lit "ClientAddr", ip)].

(** [sscanf_s(token, "%u", ..)] of one token. *)
Definition scan_u (token : list ascii) : option Z :=
  match scan_unsigned token with inl (v, _) => Some v | inr _ => None end.

(** The conversion stores an [unsigned int] through a pointer to the byte [roleid[count]]: four bytes, of
    which the last may be the padding behind the array; further ones lie outside the structure. *)
Definition store_role (count : nat) (v : Z) (u : LDAP_USER) : option LDAP_USER :=
  let bytes := roleid u ++ [pad2 u] in
  if (length bytes <? count + 4)%nat then UB
  else
    let bytes := take count bytes ++ map code (le_encode 4 v) ++ drop (count + 4) bytes in
    Some {| used := used u; pad1 := pad1 u; uid := uid u; username := username u; fromip := fromip u;
            serverid := serverid u; groupid := groupid u; privilege := privilege u;
            roleid := take LDAP_USER_ROLE_ID_NUM bytes; pad2 := nth LDAP_USER_ROLE_ID_NUM bytes 0 |}.

Fixpoint roles_loop (ts : list (list ascii)) (count : nat) (u : LDAP_USER) : option LDAP_USER :=
  match ts with
  | [] => Some u
  | token :: rest =>
      if negb (count <? LDAP_USER_ROLE_ID_NUM)%nat then Some u
      else
        match scan_u token with
        | None => Some u
        | Some v =>
            match store_role count v u with
            | None => UB
            | Some u => roles_loop rest (S count) u
            end
        end
  end.

Definition parse_role_id (value : list ascii) (u : LDAP_USER) : option LDAP_USER :=
  let '(ret, value_cp) := strncpy_s (LDAP_USER_ROLE_ID_NUM * 2 + 1) value (LDAP_USER_ROLE_ID_NUM * 2) in
  if negb (ret =? RET_OK) then Some u else roles_loop (strtok_tokens ","%char value_cp) 0 u.

Definition with_ids (u : LDAP_USER) (id : Z) (name : list ascii) (sv gr pr : Z) (roles : list Z) : LDAP_USER := {|
  used := used u; pad1 := pad1 u; uid := id; username := name; fromip := fromip u; serverid := sv; groupid := gr;
  privilege := pr; roleid := roles; pad2 := pad2 u
|}.

(** [strcpy_s] into the array of the name: a name too long empties the array. *)
Definition store_name (value arr : list ascii) : Z * list ascii :=
  let '(ret, s) := strcpy_s LDAP_USER_NAME_LEN value in
  (ret, (s ++ [NUL]) ++ drop (length s + 1) arr).

(** The loop of [parse_extra_data] over the dictionary; it ends at a name that does not fit. *)
Fixpoint extra_loop (l : list (list ascii * list ascii)) (u : LDAP_USER) : option LDAP_USER :=
  match l with
  | [] => Some u
  | (key, value) :: rest =>
      let '(ret, u) :=
        if str_eqb key (lit "UserName") then
          let '(ret, name) := store_name value (username u) in
          (ret, with_ids u (uid u) name (serverid u) (groupid u) (privilege u) (roleid u))
        else (RET_OK, u) in
      if negb (ret =? RET_OK) then Some u
      else
        let u :=
          if str_eqb key (lit "ServerId")
          then with_ids u (uid u) (username u) (u8 (st_val (strtol value))) (groupid u) (privilege u) (roleid u) else u in
        let u :=
          if str_eqb key (lit "GroupId")
          then with_ids u (uid u) (username u) (serverid u) (u8 (st_val (strtol value))) (privilege u) (roleid u) else u in
        match (if str_eqb key (lit "RoleId") then parse_role_id value u else Some u) with
        | None => UB
        | Some u => extra_loop rest u
        end
  end.

Definition parse_extra_data (arg : option dbus_arg) (u : LDAP_USER) : option LDAP_USER :=
  match arg with
  | Some (DMap l) => extra_loop l u
  | _ => Some u
  end.

Definition auth_user (e : uip_env) (user_name pw ip_addr : list ascii) (intf : option (list ascii)) (u : LDAP_USER)
    : option (Z * LDAP_USER) :=
  if negb (call_created e) then Some (RET_ERR, u)
  else
    match intf with
    | None => UB
    | Some intf =>
        let call := {|
          destination := IAM_SERVICE; object_path := AUTHENTICATION_PATH; interface := AUTHENTICATION_INTF;
          method := lit "Authenticate";
          arguments := [append_user_context user_name ip_addr intf; DString user_name; DBytes pw;
                        DString (lit "RemoteAutoMatching")] |} in
        if negb (args_appended e) then Some (RET_ERR, u)
        else
          match answer e call with
          | None => Some (RET_ERR, u)
          | Some reply =>
              match reply !! 0%nat with
              | Some (DInt32 id) =>
                  let u := with_ids u id (username u) (serverid u) (groupid u) (privilege u) (roleid u) in
                  match reply !! 2%nat with
                  | Some (DByte b) =>
                      let u := with_ids u (uid u) (username u) (serverid u) (groupid u) b (<[0%nat := b]> (roleid u)) in
                      match parse_extra_data (reply !! 3%nat) u with
                      | None => UB
                      | Some u => Some (RET_OK, u)
                      end
                  | _ => Some (RET_ERR, u)
                  end
              | _ => Some (RET_ERR, u)
              end
          end
    end.

Definition uip_auth_ldap_user (e : uip_env) (st : bus_state) (user_name pw ip_addr intf : option (list ascii))
    (user : option LDAP_USER) : option (Z * option LDAP_USER * bus_state) :=
  match user_name, pw, ip_addr, user with
  | Some name, Some pw, Some ip, Some u =>
      let '(ret, st1) := init_dbus_connection (bus e) st in
      if negb (ret =? RET_OK) then Some (ret, user, st1)
      else
        match auth_user e name pw ip intf u with
        | None => UB
        | Some (ret, u) => Some (ret, Some u, st1)
        end
  | _, _, _, _ => Some (RET_ERR, user, st)
  end.

Definition set_last_login_info (e : uip_env) (user_id : Z) (user_name ip_addr login_interface : list ascii) : Z :=
  let account_path := ACCOUNT_PATH ++ show_int user_id in
  if (BUFF_LEN <=? length account_path)%nat then RET_ERR
  else if negb (call_created e) then RET_ERR
  else
    let call := {|
      destination := ACCOUNT_SERVICE; object_path := account_path; interface := ACCOUNT_INTF;
      method := lit "SetLastLogin";
      arguments := [append_user_context user_name ip_addr login_interface; DString ip_addr; DString login_interface] |} in
    if negb (args_appended e) then RET_ERR
    else
      match answer e call with
      | Some (DByte result :: _) => result
      | _ => RET_ERR
      end.

Definition uip_record_login_info (e : uip_env) (st : bus_state) (user_name ip_addr login_interface : option (list ascii))
    : Z * bus_state :=
  match user_name, ip_addr, login_interface with
  | Some name, Some ip, Some intf =>
      if (length name =? 0)%nat || (length ip =? 0)%nat || (length intf =? 0)%nat then (RET_ERR, st)
      else
        let tmp_user_name := if str_eqb name ACTUAL_ROOT_USER_NAME then RESERVED_ROOT_USER_NAME else name in
        let '(ret, st1) := init_dbus_connection (bus e) st in
        if negb (ret =? RET_OK) then (RET_ERR, st1)
        else
          let '(ret, ids) := get_uid_gid_by_name (getpwnam_r e) (Some tmp_user_name) (Some (0, 0)) in
          let '(uid, gid) := default (0, 0) ids in
          if negb (ret =? RET_OK) then (RET_ERR, st1)
          else if check_uid_is_local_user uid =? FALSE then (RET_ERR, st1)
          else (set_last_login_info e (s32 (u32 (uid - IMANA_UID_BASE))) tmp_user_name ip intf, st1)
  | _, _, _ => (RET_ERR, st)
  end.

(** [org.freedesktop.DBus.Properties.Get]; the answer holds one variant. *)
Definition get_msg_from_mdb (e : uip_env) (dest path intf property_name : list ascii) : option (list dbus_arg) :=
  if negb (call_created e) then None
  else if negb (args_appended e) then None
  else answer e {| destination := dest; object_path := path; interface := PROPERTIES_INTF; method := lit "Get";
                   arguments := [DString intf; DString property_name] |}.

(** The loop over the elements and [out_val]; what the array held beyond them stays. *)
Fixpoint store_strings (reply out_val : list (option (list ascii))) : list (option (list ascii)) :=
  match reply, out_val with
  | Some priv :: reply', _ :: out' => Some priv :: store_strings reply' out'
  | None :: reply', o :: out' => o :: store_strings reply' out'
  | _, _ => out_val
  end.

(** A reply that is no variant of an array has no elements. *)
Definition get_property_value_string_array (e : uip_env) (dest path intf property_name : list ascii)
    (out_val : option (list (option (list ascii)))) : Z * option (list (option (list ascii))) :=
  match out_val with
  | None => (RET_ERR, None)
  | Some out =>
      match get_msg_from_mdb e dest path intf property_name with
      | None => (RET_ERR, out_val)
      | Some (DVariant (DStrings l) :: _) => (RET_OK, Some (store_strings (map Some l) out))
      | Some _ => (RET_OK, out_val)
      end
  end.

Definition rule_value (rule : list ascii) : Z :=
  if str_eqb rule (lit "Rule1") then 1
  else if str_eqb rule (lit "Rule2") then 2
  else if str_eqb rule (lit "Rule3") then 4
  else 0.

Fixpoint convert_loop (rules : list (option (list ascii))) (result : Z) : Z :=
  match rules with
  | [] => result
  | None :: rest => convert_loop rest result
  | Some rule :: rest => convert_loop rest (result + rule_value rule)
  end.

Definition convert_login_rule_ids_str_to_num (rules : list (option (list ascii))) : Z := convert_loop rules 0.

Definition uip_check_login_rule (e : uip_env) (st : bus_state) (type : Z) (user_name : list ascii)
    (ip_addr : option (list ascii)) : option (Z * bus_state) :=
  if type =? USER_TYPE_LOCAL then
    match get_ipmi_user e user_name zero_user with
    | None => UB
    | Some (ret, ipmi_user) =>
        if negb (ret =? RET_OK) then Some (RET_ERR, st)
        else
          match check_user_login_rule (login_rules_env e) ipmi_user ip_addr (Some OTHER_NAME) with
          | None => UB
          | Some ret => Some (if negb (ret =? RET_OK) then ret else RET_OK, st)
          end
    end
  else if type =? USER_TYPE_SNMPV1V2C then
    let '(ret, st1) := init_dbus_connection (bus e) st in
    if negb (ret =? RET_OK) || negb (g_dbus_conn st1) then Some (RET_ERR, st1)
    else
      let '(ret, rules) := get_property_value_string_array e ACCOUNT_SERVICE SNMP_PATH ACCOUNT_INTF
                             (lit "LoginRuleIds") (Some (replicate MAX_RULE_COUNT None)) in
      if negb (ret =? RET_OK) then Some (RET_ERR, st1)
      else
        let ruleids := convert_login_rule_ids_str_to_num (default [] rules) in
        match check_snmpv1v2_login_rule (login_rules_env e) ruleids ip_addr with
        | None => UB
        | Some ret => Some (ret, st1)
        end
  else Some (RET_ERR, st).

(** [out_val] tells whether the pointer is not null; the string is what it points to afterwards. *)
Definition uip_get_local_account_auth_mode (e : uip_env) (st : bus_state) (out_val : bool)
    : Z * option (list ascii) * bus_state :=
  if negb out_val then (RET_ERR, None, st)
  else
    let '(ret, st1) := init_dbus_connection (bus e) st in
    if negb (ret =? RET_OK) || negb (g_dbus_conn st1) then (RET_ERR, None, st1)
    else if negb (call_created e) then (RET_ERR, None, st1)
    else if negb (args_appended e) then (RET_ERR, None, st1)
    else
      match answer e {| destination := IAM_SERVICE; object_path := AUTHENTICATION_PATH; interface := PROPERTIES_INTF;
                        method := lit "Get";
                        arguments := [DString AUTHENTICATION_INTF; DString (lit "LocalAccountAuth")] |} with
      | Some (DVariant (DString value) :: _) => (RET_OK, Some value, st1)
      | _ => (RET_ERR, None, st1)
      end.

Definition PRIVILEGE_NO_ACCESS : Z := 15.

(** [user_privilege] is what the caller's variable holds. *)
Definition uip_get_privilege (e : uip_env) (user_name : list ascii) (user_privilege : Z) : option (Z * Z) :=
  let '(ret, ids) := get_uid_gid_by_name (getpwnam_r e) (Some user_name) (Some (0, 0)) in
  let '(uid, gid) := default (0, 0) ids in
  if negb (ret =? RET_OK) then Some (RET_ERR, PRIVILEGE_NO_ACCESS)
  else if check_uid_is_local_user uid =? FALSE then Some (RET_ERR, PRIVILEGE_NO_ACCESS)
  else
    match get_ipmi_user e user_name zero_user with
    | None => UB
    | Some (ret, ipmi_user) =>
        if negb (ret =? RET_OK) then Some (RET_ERR, user_privilege)
        else if user_enabled ipmi_user =? DISABLED then Some (RET_ERR, PRIVILEGE_NO_ACCESS)
        else if role_id ipmi_user =? 0 then Some (RET_OK, PRIVILEGE_NO_ACCESS)
        else Some (RET_OK, user_privilege)
    end.

(** The configuration is read over common.c's own connection [b]. *)
Definition uip_get_user_is_lock_by_username (o : os_env) (b : bus_env) (bs : bus_state) (f : fs)
    (dir : option (list ascii)) (username : list ascii) : bool * bus_state * fs :=
  let '(ret, conf, bs1) := dbus_get_auth_lockout_conf b bs {| duration := 0; threshold := 0; time_interval := 0 |} in
  if negb (ret =? RET_OK) then (false, bs1, f)
  else
    let '(ret, record, f1) := get_pam_tally_with_fail_interval o f username dir (u64 (duration conf))
      (s64 (u64 (time_interval conf))) (Some {| fail_cnt := 0; fail_time := 0 |}) in
    if negb (ret =? RET_OK) then (false, bs1, f1)
    else
      (match record with
       | Some r => if negb (threshold conf =? 0) then threshold conf <=? fail_cnt r else false
       | None => false
       end, bs1, f1).

(** ** The two readers of the permission file agree *)

Lemma set_user_field_agrees `{PamCodes} pos token u :
  PamLogin.set_user_field pos token 0 u
  = (let '(ret, u') := set_user_field pos token 0 u in
     if (pos =? INDEX_LINE_USER)%nat then (if ret =? RET_OK then PAM_SUCCESS else PAM_AUTH_ERR, u') else (ret, u')).
Proof.
  unfold PamLogin.set_user_field, set_user_field, parse_line_token_to_user_name, memcpy_s.
  destruct (pos =? INDEX_LINE_USER)%nat.
  - destruct (Nat.leb_spec (length (user_name u)) (length token)) as [Hl|Hl]; [done|].
    rewrite (proj2 (Nat.leb_le _ _)) by lia. done.
  - destruct (set_numeric pos 0 u); [|done]. by destruct (parse_line_token_to_uint8 token).
Qed.

Lemma user_fields_agree `{PamCodes} pos ts u ret u' :
  user_fields_loop pos ts 0 u = (ret, u') ->
  PamLogin.user_fields_loop pos ts 0 u = (if ret =? RET_OK then PAM_SUCCESS else PAM_AUTH_ERR, u').
Proof.
  destruct pam_errors_nonzero as (A1 & _ & _ & _). pose proof PAM_SUCCESS_zero as H0.
  revert pos u. induction ts as [|token ts IH]; intros pos u; cbn [user_fields_loop PamLogin.user_fields_loop].
  { by intros [= <- <-]. }
  rewrite set_user_field_agrees. destruct (set_user_field (S pos) token 0 u) as [r v].
  destruct (Z.eqb_spec r RET_OK) as [->|Hr]; cbn [negb].
  - intros Hu. assert (E : PamLogin.user_fields_loop (S pos) ts PAM_SUCCESS v = PamLogin.user_fields_loop (S pos) ts 0 v)
      by (by rewrite H0).
    destruct (S pos =? INDEX_LINE_USER)%nat; rewrite ?pam_success_eqb; cbn [Z.eqb negb RET_OK]; rewrite ?E; by apply IH.
  - intros [= <- <-]. rewrite (proj2 (Z.eqb_neq r RET_OK)) by done.
    destruct (S pos =? INDEX_LINE_USER)%nat.
    + rewrite H0 in A1. by rewrite (proj2 (Z.eqb_neq PAM_AUTH_ERR RET_OK)) by done.
    + by rewrite (proj2 (Z.eqb_neq r RET_OK)) by done.
Qed.

(** The reader of the permission file that serves other programs and the one of the PAM module agree:
    on every line and every structure they fill in, both give the same structure and both or neither succeed. *)
Theorem readers_agree `{PamCodes} line u :
  let '(ret, u') := parse_line_to_struct line u in
  PamLogin.parse_line_to_struct line u = (if ret =? RET_OK then PAM_SUCCESS else PAM_AUTH_ERR, u').
Proof.
  unfold parse_line_to_struct, PamLogin.parse_line_to_struct.
  destruct (user_fields_loop 0 _ 0 u) as [ret u'] eqn:E. by apply user_fields_agree.
Qed.

Lemma name_line_described ts u : describes ts u -> parse_line_to_struct (user_line ts) zero_user = (RET_OK, u).
Proof.
  intros Hd. pose proof (PamLogin.parse_described (H := linux_pam) ts u Hd) as Hp.
  unfold parse_line_to_struct. destruct (user_fields_loop 0 _ 0 zero_user) as [ret u'] eqn:E.
  unfold PamLogin.parse_line_to_struct in Hp. rewrite (user_fields_agree (H := linux_pam) _ _ _ _ _ E) in Hp.
  injection Hp as Hr ->. destruct (Z.eqb_spec ret RET_OK); [by subst|]. done.
Qed.

(** ** Finding the user *)

Definition has_name (username line : list ascii) : bool := bool_decide (name_field line = Some username).

(** Lines [get_user] can compare: free of newlines, with a second field. *)
Definition line_ok (l : list ascii) : Prop := NL ∉ l /\ no_nul l /\ is_Some (name_field l).

Lemma name_loop_find username ls u :
  Forall (fun l => l = [] \/ is_Some (name_field l)) ls ->
  get_user_loop username ls u
  = Some (match find_line (has_name username) ls with
          | Some line => parse_line_to_struct line u
          | None => (USER_NOT_FOUND_IN_IPMI, u)
          end).
Proof.
  induction 1 as [|l ls Hl HF IH]; cbn [get_user_loop find_line]; [done|].
  destruct (Nat.eqb_spec (length l) 0) as [E|E]; [done|]. destruct Hl as [->|[nm Hn]]; [done|].
  unfold has_name. rewrite Hn. destruct (str_eqb nm username) eqn:Es; cbn [negb].
  - apply str_eqb_eq in Es as ->. by rewrite bool_decide_eq_true_2.
  - apply str_eqb_neq in Es. rewrite bool_decide_eq_false_2 by congruence. exact IH.
Qed.

Definition file_name (username : list ascii) : list ascii :=
  if str_eqb username ACTUAL_ROOT_USER_NAME then RESERVED_ROOT_USER_NAME else username.

Lemma name_lookup_good e path ls username u :
  privilege_path e = Some path -> privilege_file e path = good_file (text_of ls) -> ls <> [] -> Forall line_ok ls ->
  get_ipmi_user e username u
  = Some (match find_line (has_name (file_name username)) ls with
          | Some line => parse_line_to_struct line u
          | None => (USER_NOT_FOUND_IN_IPMI, u)
          end).
Proof.
  intros Hp Hf Hne HF. unfold get_ipmi_user. rewrite Hp, Hf. cbn [good_file tf_open tf_stat tf_bytes tf_read].
  destruct (Nat.eqb_spec (length (text_of ls)) 0) as [E|_].
  { destruct ls; [done|]. cbn in E. rewrite length_app in E. cbn in E. lia. }
  rewrite (proj2 (Z.ltb_ge (Z.of_nat _) 0)) by lia. cbn [Z.ltb Z.eqb negb Z.compare].
  rewrite tf_text_good by (apply no_nul_text; eapply Forall_impl; [exact HF|]; by intros ? (? & ? & ?)).
  unfold get_user. rewrite tokens_text by (eapply Forall_impl; [exact HF|]; by intros ? (? & ? & ?)).
  rewrite name_loop_find; [by rewrite find_line_app|].
  apply Forall_app; split; [eapply Forall_impl; [exact HF|]|repeat constructor; by left].
  intros l (_ & _ & ?). by right.
Qed.

Lemma land_ones_bit offset : 0 <= offset < 8 ->
  Z.shiftr (Z.land LOGIN_INTERFACE_ALL_ENABLE (Z.shiftl 1 offset)) offset = 1.
Proof.
  intros Ho. assert (offset = 0 \/ offset = 1 \/ offset = 2 \/ offset = 3 \/ offset = 4 \/ offset = 5 \/ offset = 6 \/ offset = 7)
    as H by lia. by destruct_or! H; subst.
Qed.

Lemma interface_value itf k : 0 <= k -> Z.shiftr (Z.land itf (Z.shiftl 1 k)) k = Z.b2z (Z.testbit itf k).
Proof.
  intros Hk. rewrite Z.shiftr_land, Z.shiftr_shiftl_l, Z.sub_diag, Z.shiftl_0_r by lia.
  change 1 with (Z.ones 1). rewrite Z.land_ones by lia. change (2 ^ 1) with 2.
  by rewrite <- Z.bit0_mod, Z.shiftr_spec, Z.add_0_l by lia.
Qed.

(** C32: with a readable permission file the question whether a user may use an interface is answered by
    his line: 1 for an exempt user, otherwise the bit of the interface; 0 for a user without a line or a null
    name and 1 for an interface number past the last, whatever the file. *)
Theorem login_interface_decides e path ls username offset :
  privilege_path e = Some path -> privilege_file e path = good_file (text_of ls) -> ls <> [] -> Forall line_ok ls ->
  (forall ts u, find_line (has_name (file_name username)) ls = Some (user_line ts) -> describes ts u -> 0 <= offset < 8 ->
     uip_is_login_interface_enable e (Some username) offset
     = Some (if (is_exclude_user u =? 1) || Z.testbit (user_login_interface u) offset then 1 else 0)) /\
  (find_line (has_name (file_name username)) ls = None -> 0 <= offset < 8 ->
     uip_is_login_interface_enable e (Some username) offset = Some 0) /\
  (8 <= offset -> uip_is_login_interface_enable e (Some username) offset = Some 1) /\
  uip_is_login_interface_enable e None offset = Some 0.
Proof.
  intros Hp Hf Hne HF. unfold uip_is_login_interface_enable, USER_LOGIN_INTERFACE_MAX.
  rewrite (name_lookup_good e path ls username zero_user Hp Hf Hne HF). split; [|split; [|split; [|done]]].
  - intros ts u Hl Hd Ho. rewrite Hl, (name_line_described ts u Hd). rewrite (proj2 (Z.leb_gt _ _)) by lia. cbn [RET_OK Z.eqb negb].
    destruct (Z.eqb_spec (is_exclude_user u) 1); cbn [orb]; [by rewrite land_ones_bit|].
    rewrite interface_value by lia. by destruct (Z.testbit _ _).
  - intros -> Ho. by rewrite (proj2 (Z.leb_gt _ _)) by lia.
  - intros Ho. by rewrite (proj2 (Z.leb_le _ _)) by lia.
Qed.

(** ** Role ids *)

Lemma scan_u_number ds v : number ds v -> scan_u ds = Some v.
Proof.
  intros (Hne & HF & <- & Hv). unfold scan_u. rewrite <- (app_nil_r ds) at 1. by rewrite scan_unsigned_digits by (done || lia).
Qed.

Lemma le_bytes_small v : byte v -> map code (le_encode 4 v) = [v; 0; 0; 0].
Proof.
  intros Hv. unfold byte in Hv. cbn [le_encode map]. rewrite !code_chr.
  rewrite (Z.div_small v 256), (Z.mod_small v 256) by lia. done.
Qed.

Definition role_bytes (u : LDAP_USER) : list Z := roleid u ++ [pad2 u].

(** [u] with the bytes [bytes] in the array and its padding. *)
Definition with_roles (u : LDAP_USER) (bytes : list Z) : LDAP_USER := {|
  used := used u; pad1 := pad1 u; uid := uid u; username := username u; fromip := fromip u; serverid := serverid u;
  groupid := groupid u; privilege := privilege u; roleid := take 32 bytes; pad2 := nth 32 bytes 0
|}.

Lemma role_bytes_with u bytes : length bytes = 33%nat -> role_bytes (with_roles u bytes) = bytes.
Proof.
  intros Hl. unfold role_bytes, with_roles; cbn [roleid pad2].
  destruct (nth_lookup_or_length bytes 32 0) as [Hn|?]; [|lia].
  by rewrite <- (take_S_r _ _ _ Hn), take_ge by lia.
Qed.

Lemma with_roles_twice u b c : with_roles (with_roles u b) c = with_roles u c.
Proof. done. Qed.

(** Storing a small number at [k] zeroes the three bytes behind it. *)
Lemma store_role_small k v u :
  length (roleid u) = 32%nat -> byte v -> (k + 4 <= 33)%nat ->
  store_role k v u = Some (with_roles u (take k (role_bytes u) ++ [v; 0; 0; 0] ++ drop (k + 4) (role_bytes u))).
Proof.
  intros Hl Hv Hk. unfold store_role. fold (role_bytes u).
  assert (Hlen : length (role_bytes u) = 33%nat) by (unfold role_bytes; rewrite length_app, Hl; done).
  rewrite (proj2 (Nat.ltb_ge _ _)) by lia. by rewrite le_bytes_small.
Qed.

Lemma store_role_outside k v u :
  length (roleid u) = 32%nat -> (33 < k + 4)%nat -> store_role k v u = UB.
Proof.
  intros Hl Hk. unfold store_role. rewrite length_app, Hl. cbn [length]. by rewrite (proj2 (Nat.ltb_lt _ _)) by lia.
Qed.

Definition id_number (t : list ascii) (v : Z) : Prop := number t v /\ byte v.

Lemma roles_loop_small ts vs k u :
  Forall2 id_number ts vs -> vs <> [] -> length (roleid u) = 32%nat -> (k + length vs <= 30)%nat ->
  roles_loop ts k u
  = Some (with_roles u (take k (role_bytes u) ++ vs ++ [0; 0; 0] ++ drop (k + length vs + 3) (role_bytes u))).
Proof.
  intros H2. revert k u. induction H2 as [|t v ts vs [Ht Hv] H2 IH]; intros k u Hne Hl Hk; [done|].
  cbn [length] in Hk. assert (Hlen : length (role_bytes u) = 33%nat) by (unfold role_bytes; rewrite length_app, Hl; done).
  cbn [roles_loop]. change LDAP_USER_ROLE_ID_NUM with 32%nat. rewrite (proj2 (Nat.ltb_lt _ _)) by lia. cbn [negb].
  rewrite (scan_u_number t v Ht), store_role_small by (done || lia).
  set (b := take k (role_bytes u) ++ [v; 0; 0; 0] ++ drop (k + 4) (role_bytes u)).
  assert (Hb : length b = 33%nat).
  { unfold b. rewrite !length_app, length_take, length_drop, Hlen. cbn [length]. lia. }
  destruct H2 as [|t' v' ts vs H' H2].
  - cbn [roles_loop length]. unfold b. by replace (k + 1 + 3)%nat with (k + 4)%nat by lia.
  - rewrite IH; [|done|cbn [with_roles roleid]; by rewrite length_take, Hb|cbn [length] in *; lia].
    rewrite role_bytes_with, with_roles_twice by done. do 2 f_equal. unfold b.
    assert (Hk' : length (take k (role_bytes u)) = k) by (rewrite length_take; lia).
    rewrite take_app_ge by lia. rewrite Hk'. replace (S k - k)%nat with 1%nat by lia.
    rewrite drop_app_ge by (cbn [length]; lia). rewrite Hk'.
    replace (S k + length (v' :: vs) + 3 - k)%nat with (4 + length (v' :: vs))%nat by lia.
    rewrite drop_app_ge by (cbn [length]; lia). cbn [length take app]. rewrite drop_drop, <- app_assoc. cbn [app].
    by replace (k + 4 + (4 + S (length vs) - 4))%nat with (k + S (S (length vs)) + 3)%nat by lia.
Qed.

(** Past thirty ids a store leaves the structure. *)
Lemma roles_loop_outside ts vs k u :
  Forall2 id_number ts vs -> vs <> [] -> length (roleid u) = 32%nat -> (30 < k + length vs)%nat -> (k <= 31)%nat ->
  roles_loop ts k u = UB.
Proof.
  intros H2. revert k u. induction H2 as [|t v ts vs [Ht Hv] H2 IH]; intros k u Hne Hl Hk Hk'; [done|].
  cbn [length] in Hk. cbn [roles_loop]. change LDAP_USER_ROLE_ID_NUM with 32%nat.
  rewrite (proj2 (Nat.ltb_lt _ _)) by lia. cbn [negb]. rewrite (scan_u_number t v Ht).
  destruct (decide (k + 4 <= 33)%nat) as [Hs|Hs]; [|by rewrite store_role_outside by (done || lia)].
  rewrite store_role_small by done. assert (Hlen : length (role_bytes u) = 33%nat) by (unfold role_bytes; rewrite length_app, Hl; done).
  destruct vs as [|v' vs]; [cbn [length] in Hk; lia|].
  apply IH; [done| |cbn [length] in *; lia|lia].
  cbn [with_roles roleid]. rewrite !length_take, !length_app, length_take, length_drop, Hlen. cbn [length]. lia.
Qed.

Lemma number_no c t v : number t v -> is_digit c = false -> c ∉ t.
Proof. intros (_ & HF & _) Hc Hin. rewrite Forall_forall in HF. apply HF in Hin. congruence. Qed.

Lemma role_tokens ts vs :
  Forall2 id_number ts vs -> ts <> [] -> strtok_tokens ","%char (join_fields ","%char ts) = ts.
Proof.
  intros H2 Hne. unfold strtok_tokens. rewrite tokens_join; [|done|].
  - clear Hne. induction H2 as [|t v ts vs [Ht _] H2 IH]; [done|]. rewrite filter_cons_True, IH; [done|]. apply Ht.
  - clear Hne. induction H2 as [|t v ts vs [Ht _] H2 IH]; [constructor|]. constructor; [|done]. by eapply number_no.
Qed.

(** A list of role ids below 256, written with commas in at most 64 characters, is stored id by id and the
    three bytes behind the last are zeroed, as long as there are at most thirty ids; with thirty-one or
    thirty-two the four-byte stores of the conversion leave the structure. *)
Theorem role_ids_stored ts vs u :
  Forall2 (fun t v => number t v /\ 0 <= v < 256) ts vs -> vs <> [] -> length (roleid u) = 32%nat ->
  (length (join_fields ","%char ts) <= 64)%nat ->
  parse_role_id (join_fields ","%char ts) u
  = if (length vs <=? 30)%nat
    then Some (with_roles u (vs ++ [0; 0; 0] ++ drop (length vs + 3) (roleid u ++ [pad2 u])))
    else UB.
Proof.
  intros H2 Hne Hl Ht. unfold parse_role_id, strncpy_s. change (LDAP_USER_ROLE_ID_NUM * 2 + 1)%nat with 65%nat.
  change (LDAP_USER_ROLE_ID_NUM * 2)%nat with 64%nat. rewrite (proj2 (Nat.ltb_lt _ _)) by lia.
  cbn [EOK RET_OK Z.eqb negb]. rewrite take_ge by done. change (Forall2 id_number ts vs) in H2.
  rewrite (role_tokens ts vs H2) by (intros ->; inversion H2; by subst).
  destruct (Nat.leb_spec (length vs) 30).
  - by rewrite (roles_loop_small ts vs 0 u) by (done || lia).
  - by apply (roles_loop_outside ts vs 0 u); try lia.
Qed.

(** ** The login rules of SNMP *)

Definition rule_name (i : Z) : list ascii := if i =? 0 then lit "Rule1" else if i =? 1 then lit "Rule2" else lit "Rule3".

Definition rule_bit (i : Z) (l : list (list ascii)) : Z := if bool_decide (rule_name i ∈ l) then 1 else 0.

Lemma rule_bit_cons i a l : a ∉ l -> rule_bit i (a :: l) = rule_bit i l + (if bool_decide (a = rule_name i) then 1 else 0).
Proof.
  intros Ha. unfold rule_bit. repeat case_bool_decide; rewrite ?elem_of_cons in *; subst; naive_solver.
Qed.

Lemma rule_value_bits a :
  rule_value a = (if bool_decide (a = rule_name 0) then 1 else 0) + 2 * (if bool_decide (a = rule_name 1) then 1 else 0)
                 + 4 * (if bool_decide (a = rule_name 2) then 1 else 0).
Proof.
  unfold rule_value. change (rule_name 0) with (lit "Rule1"). change (rule_name 1) with (lit "Rule2").
  change (rule_name 2) with (lit "Rule3").
  destruct (str_eqb a (lit "Rule1")) eqn:E1; [apply str_eqb_eq in E1 as ->; reflexivity|].
  destruct (str_eqb a (lit "Rule2")) eqn:E2; [apply str_eqb_eq in E2 as ->; reflexivity|].
  destruct (str_eqb a (lit "Rule3")) eqn:E3; [apply str_eqb_eq in E3 as ->; reflexivity|].
  apply str_eqb_neq in E1, E2, E3. by rewrite !bool_decide_eq_false_2.
Qed.

Lemma convert_loop_bits l k r :
  NoDup l ->
  convert_loop (map Some l ++ replicate k None) r = r + (rule_bit 0 l + 2 * rule_bit 1 l + 4 * rule_bit 2 l).
Proof.
  intros HN. revert r. induction HN as [|a l Ha HN IH]; intros r.
  - assert (Hn : forall i, rule_bit i [] = 0) by (intros i; unfold rule_bit; by rewrite bool_decide_eq_false_2 by apply not_elem_of_nil).
    rewrite !Hn, Z.add_0_r. cbn [map app]. induction k; [done|]. done.
  - cbn [map app convert_loop]. rewrite IH, !rule_bit_cons, rule_value_bits by done. lia.
Qed.

Lemma store_strings_spec l k :
  store_strings (map Some l) (replicate k None) = map Some (take k l) ++ replicate (k - length l) None.
Proof.
  revert l. induction k as [|k IH]; intros l; [by destruct l|]. destruct l as [|a l]; [done|].
  cbn [map replicate store_strings take length Nat.sub app]. by rewrite IH.
Qed.

Definition snmp_ids (l : list (list ascii)) : Z := rule_bit 0 l + 2 * rule_bit 1 l + 4 * rule_bit 2 l.

Lemma snmp_ids_bits l i : 0 <= i < 3 -> Z.testbit (snmp_ids l) i = bool_decide (rule_name i ∈ l).
Proof.
  intros Hi. unfold snmp_ids, rule_bit. assert (i = 0 \/ i = 1 \/ i = 2) as H by lia.
  destruct_or! H; subst; repeat (destruct (bool_decide (rule_name _ ∈ l))); reflexivity.
Qed.

(** The rules the SNMP account names (the first three, all different) select the login rules: bit [i] of
    the ids handed to [check_snmpv1v2_login_rule] is on exactly when "Rule<i+1>" is among them. *)
Theorem snmp_rules_select e st st1 user_name ip_addr l rest :
  init_dbus_connection (bus e) st = (RET_OK, st1) -> g_dbus_conn st1 = true ->
  get_msg_from_mdb e ACCOUNT_SERVICE SNMP_PATH ACCOUNT_INTF (lit "LoginRuleIds") = Some (DVariant (DStrings l) :: rest) ->
  NoDup (take 3 l) ->
  exists ids, (forall i, 0 <= i < 3 -> Z.testbit ids i = bool_decide (rule_name i ∈ take 3 l)) /\ 0 <= ids < 8 /\
    uip_check_login_rule e st USER_TYPE_SNMPV1V2C user_name ip_addr
    = (fun ret => (ret, st1)) <$> check_snmpv1v2_login_rule (login_rules_env e) ids ip_addr.
Proof.
  intros Hb Hc Hg HN. exists (snmp_ids (take 3 l)). split; [intros; by apply snmp_ids_bits|]. split.
  { unfold snmp_ids, rule_bit. repeat case_bool_decide; lia. }
  unfold uip_check_login_rule. change (USER_TYPE_SNMPV1V2C =? USER_TYPE_LOCAL) with false.
  change (USER_TYPE_SNMPV1V2C =? USER_TYPE_SNMPV1V2C) with true. cbv iota. rewrite Hb, Hc.
  cbn [RET_OK Z.eqb negb orb]. unfold get_property_value_string_array. rewrite Hg. cbn [RET_OK Z.eqb negb default].
  unfold MAX_RULE_COUNT. rewrite store_strings_spec. unfold convert_login_rule_ids_str_to_num.
  cbv [id]. rewrite convert_loop_bits by done. rewrite Z.add_0_l. fold (snmp_ids (take 3 l)).
  by destruct (check_snmpv1v2_login_rule _ _ _).
Qed.

(** Naming a rule twice selects another one: the values are added. *)
Example repeated_rule :
  convert_login_rule_ids_str_to_num [Some (lit "Rule1"); Some (lit "Rule1"); None]
  = convert_login_rule_ids_str_to_num [Some (lit "Rule2"); None; None].
Proof. reflexivity. Qed.

(** ** Whether a user is locked *)

Lemma interval_s64 z : 0 <= z < 2 ^ 31 -> s64 (u64 z) = z.
Proof. intros Hz. rewrite u64_small by lia. unfold s64. rewrite Z.mod_small; lia. Qed.

(** When the configuration can be read, a user is reported locked exactly when a threshold is set, the
    unlock time since his last failure has not passed and the failures in the window before it reach the
    threshold; no record file changes. Without the configuration nobody is locked. *)
Theorem user_lock_status t b bs bs1 f dir user ts conf :
  dir <> [] -> good_user user -> represents (content f (tally_path user dir)) ts ->
  dbus_get_auth_lockout_conf b bs {| duration := 0; threshold := 0; time_interval := 0 |} = (RET_OK, conf, bs1) ->
  0 <= t < 2 ^ 64 -> 0 <= threshold conf -> 0 <= time_interval conf < 2 ^ 31 -> 0 <= duration conf ->
  latest ts + duration conf < 2 ^ 64 -> 0 <= latest ts ->
  exists f', uip_get_user_is_lock_by_username (nominal t) b bs f (Some dir) user
    = (bool_decide (threshold conf <> 0 /\ t <= latest ts + duration conf /\
                    threshold conf <= Z.of_nat (recent (latest ts) (time_interval conf) ts)), bs1, f') /\
    forall q, content f' q = content f q.
Proof.
  intros Hd Hu Hrep Hb Ht Hth Hti Hdu Hl Hl0. unfold uip_get_user_is_lock_by_username. rewrite Hb.
  cbn [RET_OK Z.eqb negb]. unfold get_pam_tally_with_fail_interval. rewrite interval_s64 by done.
  destruct (open_tally_nominal t f user dir Hd Hu) as (f1 & Ho & Hc). rewrite <- Hc in Hrep.
  destruct (read_represents t _ _ Hrep) as (rs & Hr & Hwf & Hlen & Hv & Hts).
  rewrite (get_user_info_exact _ _ _ _ _ _ _ _ _ _ _ Ho Hr). cbn [RET_OK Z.eqb negb].
  eexists. split.
  - f_equal. f_equal. assert (Hvt : valid_times rs = ts).
    { rewrite <- Hts. unfold valid_times. f_equal. clear -Hv. induction Hv as [|r rs Hr HF IH]; [done|].
      by rewrite filter_cons_True, IH. }
    rewrite Hvt. unfold tally_answer, window_of, NO_INTERVAL. cbn [now nominal].
    rewrite (proj2 (Z.eqb_neq (time_interval conf) _)) by lia.
    rewrite (u64_small t), (u64_small (duration conf)), (u64_small (time_interval conf)), u64_small by lia.
    destruct (Z.eqb_spec (threshold conf) 0) as [E|E]; cbn [negb].
    + rewrite bool_decide_eq_false_2; [done|]. by intros [? _].
    + destruct (Z.leb_spec t (latest ts + duration conf)); cbn [fail_cnt].
      * destruct (Z.leb_spec (threshold conf) (Z.of_nat (recent (latest ts) (time_interval conf) ts))).
        -- rewrite bool_decide_eq_true_2; [done|]. by split.
        -- rewrite bool_decide_eq_false_2; [done|]. intros (_ & _ & ?). lia.
      * rewrite bool_decide_eq_false_2; [|intros (_ & ? & _); lia]. apply Z.leb_gt. lia.
  - intros q. destruct (decide (q = tally_path user dir)) as [->|Hq]; [by rewrite content_set|].
    by rewrite content_set_ne.
Qed.

(** ** The privilege of a user *)

(** For a name the system resolves, [uip_get_privilege] stores 15 (no access) for everyone but the local
    users, for a disabled user and for a user without a role, and succeeds exactly for the enabled local users
    with a line. A local user without a line gets an error with the caller's variable as it was. *)
Theorem privilege_of_user e path ls user_name privilege0 wid gid :
  privilege_path e = Some path -> privilege_file e path = good_file (text_of ls) -> ls <> [] -> Forall line_ok ls ->
  getpwnam_r e user_name = (0, Some (wid, gid)) ->
  (check_uid_is_local_user wid = FALSE -> uip_get_privilege e user_name privilege0 = Some (RET_ERR, 15)) /\
  (check_uid_is_local_user wid = TRUE ->
     (find_line (has_name (file_name user_name)) ls = None ->
        uip_get_privilege e user_name privilege0 = Some (RET_ERR, privilege0)) /\
     (forall ts u, find_line (has_name (file_name user_name)) ls = Some (user_line ts) -> describes ts u ->
        uip_get_privilege e user_name privilege0
        = Some (if user_enabled u =? 0 then RET_ERR else RET_OK,
                if (user_enabled u =? 0) || (role_id u =? 0) then 15 else privilege0))).
Proof.
  intros Hp Hf Hne HF Hpw. unfold uip_get_privilege, get_uid_gid_by_name. rewrite Hpw. cbn [RET_OK Z.eqb negb default from_option id].
  split; [intros ->; done|]. intros ->. change (TRUE =? FALSE) with false. cbv iota.
  rewrite (name_lookup_good e path ls user_name zero_user Hp Hf Hne HF). split.
  - by intros ->.
  - intros ts u Hl Hd. rewrite Hl, (name_line_described ts u Hd). cbn [RET_OK Z.eqb negb]. unfold DISABLED.
    destruct (user_enabled u =? 0); cbn [orb]; [done|]. by destruct (role_id u =? 0).
Qed.

(** ** The theorems at concrete inputs *)

Definition admin_lines : list (list ascii) := [lit "17:guest:x:1:5:0:0:1:1:0:0:2:x:0:0:0"; user_line admin_fields].

Definition demo_bus : bus_env := {|
  env_file := None; env_regex := fun _ => None; bus_get := (true, false); call_built := true;
  call_reply := Some [(PROPERTY_LOCKOUT_DURATION, 60); (PROPERTY_LOCKOUT_THRESHOLD, 2); (PROPERTY_LOCKOUT_TIME_INTERVAL, 30)]
|}.

Definition demo_uip : uip_env := {|
  bus := demo_bus; privilege_path := Some (lit "/data/trust/ipmi"); privilege_file := fun _ => good_file (text_of admin_lines);
  login_rules_env := demo_env demo_rules {| tm_year := 124; tm_mon := 0; tm_mday := 1; tm_hour := 8; tm_min := 0 |};
  getpwnam_r := fun _ => (0, Some (502, 100)); call_created := true; args_appended := true;
  answer := fun _ => Some [DVariant (DStrings (map lit ["Rule3"; "Rule1"]%string))]
|}.

Definition connected : bus_state := {| g_dbus_conn := true; bus_address := None; bus_pid := None |}.

Lemma admin_lines_ok : Forall line_ok admin_lines.
Proof.
  unfold line_ok, no_nul.
  repeat (constructor; [split; [rewrite <- strchr_None; vm_compute; reflexivity|
    split; [rewrite <- strchr_None; vm_compute; reflexivity|vm_compute; eauto]]|]).
  constructor.
Qed.

Lemma login_interface_decides_witness :
  uip_is_login_interface_enable demo_uip (Some (lit "Administrator")) 3 = Some 1 /\
  uip_is_login_interface_enable demo_uip (Some (lit "Administrator")) 4 = Some 0.
Proof.
  destruct (login_interface_decides demo_uip (lit "/data/trust/ipmi") admin_lines (lit "Administrator") 3
    eq_refl eq_refl ltac:(done) admin_lines_ok) as (H3 & _).
  destruct (login_interface_decides demo_uip (lit "/data/trust/ipmi") admin_lines (lit "Administrator") 4
    eq_refl eq_refl ltac:(done) admin_lines_ok) as (H4 & _).
  split.
  - rewrite (H3 admin_fields admin_user ltac:(vm_compute; reflexivity) admin_described ltac:(lia)). reflexivity.
  - rewrite (H4 admin_fields admin_user ltac:(vm_compute; reflexivity) admin_described ltac:(lia)). reflexivity.
Defined.

Lemma role_ids_stored_witness :
  (exists u, parse_role_id (lit "4,12,7") zero_ldap_user = Some u /\ take 4 (roleid u) = [4; 12; 7; 0]) /\
  parse_role_id (join_fields ","%char (replicate 31 (lit "1"))) zero_ldap_user = UB.
Proof.
  assert (Hn : forall s v, s <> [] -> Forall (fun c => is_digit c = true) s -> dec_value s = v -> 0 <= v < 256 ->
    number s v /\ 0 <= v < 256) by (intros; split; [split_and!; (done || lia)|done]).
  assert (Hd : forall s, forallb is_digit s = true -> Forall (fun c => is_digit c = true) s).
  { intros s Hs. rewrite Forall_forall. intros c Hc. rewrite forallb_forall in Hs. by apply Hs, list_elem_of_In. }
  split.
  - exists (with_roles zero_ldap_user ([4; 12; 7] ++ [0; 0; 0] ++ replicate 27 0)). split; [|reflexivity].
    pose proof (role_ids_stored (map lit ["4"; "12"; "7"]%string) [4; 12; 7] zero_ldap_user) as H. cbn in H.
    refine (H _ ltac:(done) eq_refl ltac:(lia)).
    repeat (constructor; [apply Hn; [done|by apply Hd|reflexivity|lia]|]). constructor.
  - refine (role_ids_stored (replicate 31 (lit "1")) (replicate 31 1) zero_ldap_user _ ltac:(done) eq_refl ltac:(vm_compute; lia)).
    repeat (constructor; [apply Hn; [done|by apply Hd|reflexivity|lia]|]). constructor.
Defined.

Lemma snmp_rules_select_witness :
  exists ids, (forall i, 0 <= i < 3 -> Z.testbit ids i = bool_decide (rule_name i ∈ map lit ["Rule3"; "Rule1"]%string)) /\
    0 <= ids < 8 /\
    uip_check_login_rule demo_uip connected 2 [] (Some (lit "2001:db8::9"))
    = (fun ret => (ret, connected)) <$> check_snmpv1v2_login_rule (login_rules_env demo_uip) ids (Some (lit "2001:db8::9")).
Proof.
  apply (snmp_rules_select demo_uip connected connected [] (Some (lit "2001:db8::9")) (map lit ["Rule3"; "Rule1"]%string) []
    eq_refl eq_refl eq_refl).
  repeat (constructor; [rewrite ?elem_of_cons, ?elem_of_nil; cbn; naive_solver|]). constructor.
Defined.

Definition shm_dir : list ascii := lit "/dev/shm/tallylog".

(** Two failures of root at times 100 and 110, as [increment_pam_tally] records them. *)
Lemma two_fails : exists f, represents (content f (tally_path (lit "root") shm_dir)) [100; 110].
Proof.
  destruct (increment_adds 100 (Fs ∅ ∅) (lit "root") shm_dir [] ltac:(lia) ltac:(done) eq_refl represents_empty)
    as (f1 & _ & H1 & _).
  destruct (increment_adds 110 f1 (lit "root") shm_dir _ ltac:(lia) ltac:(done) eq_refl H1) as (f2 & _ & H2 & _).
  by exists f2.
Qed.

Lemma user_lock_status_witness :
  exists f, fst (fst (uip_get_user_is_lock_by_username (nominal 130) demo_bus connected f (Some shm_dir) (lit "root"))) = true /\
    fst (fst (uip_get_user_is_lock_by_username (nominal 171) demo_bus connected f (Some shm_dir) (lit "root"))) = false.
Proof.
  destruct two_fails as [f Hf]. exists f.
  destruct (user_lock_status 130 demo_bus connected connected f shm_dir (lit "root") [100; 110]
    {| duration := 60; threshold := 2; time_interval := 30 |} ltac:(done) eq_refl Hf eq_refl) as (f1 & -> & _);
    [lia|cbn; lia|cbn; lia|cbn; lia|cbn; lia|cbn; lia|].
  destruct (user_lock_status 171 demo_bus connected connected f shm_dir (lit "root") [100; 110]
    {| duration := 60; threshold := 2; time_interval := 30 |} ltac:(done) eq_refl Hf eq_refl) as (f2 & -> & _);
    [lia|cbn; lia|cbn; lia|cbn; lia|cbn; lia|cbn; lia|].
  split; vm_compute; reflexivity.
Defined.

Lemma privilege_of_user_witness : uip_get_privilege demo_uip (lit "Administrator") 4 = Some (0, 4).
Proof.
  destruct (privilege_of_user demo_uip (lit "/data/trust/ipmi") admin_lines (lit "Administrator") 4 502 100
    eq_refl eq_refl ltac:(done) admin_lines_ok eq_refl) as (_ & H).
  destruct (H eq_refl) as (_ & H').
  rewrite (H' admin_fields admin_user ltac:(vm_compute; reflexivity) admin_described). reflexivity.
Defined.
