(* ===== verification/Password.v ===== *)
(** * password.c and comm_utils.c: password rules, VNC authentication, key pairs

    The rules a new password has to satisfy, the DES step of VNC authentication and the SM2 key pairs with
    their text form. OpenSSL and the regular expressions of GLib are arguments: the record [openssl] and
    the functions [regex_new] and [regex_match]. *)
From S2P Require Export CString.

(** ** OpenSSL *)
Record openssl := {
  EVP_PKEY : Type;
  SHA256 : list ascii -> option (list Z);                     (* the digest, 32 bytes *)
  cipher_ctx_new : bool;
  des_init : list Z -> bool;                                  (* EVP_EncryptInit_ex with the key *)
  des_update : list Z -> list Z -> option (list Z);           (* bytes written for a key and an input *)
  des_final : list Z -> list Z -> option (list Z);
  pkey_ctx_new : bool;
  keygen_init : Z;
  keygen : Z * option EVP_PKEY;
  bio_new : bool;
  pem_write_private : EVP_PKEY -> option (list ascii);
  pem_write_public : EVP_PKEY -> option (list ascii);
  pem_read_private : list ascii -> option EVP_PKEY;
  pem_read_public : list ascii -> option EVP_PKEY;
  malloc_ok : Z -> bool;
  encrypt_init : Z;
  encrypt_size : EVP_PKEY -> list Z -> Z * Z;                 (* return value and length *)
  pkey_encrypt : EVP_PKEY -> list Z -> Z * list Z;            (* return value and the bytes written *)
  decrypt_init : Z;
  decrypt_size : EVP_PKEY -> list Z -> Z * Z;
  pkey_decrypt : EVP_PKEY -> list Z -> Z * list Z
}.

Definition KEY_MAX_SIZE : Z := 100 * 1024.
Definition KEYLENS : nat := 8.
Definition PWD_PASS_SPECIAL : list ascii :=
  lit "`~!@#$%^&*()-_=+|\[{}];:'" ++ [chr 34] ++ lit ",<.>/? ".

(** ** Comparing *)

(** The loop over the 32 bytes of the digests. *)
Fixpoint xor_loop (ret : Z) (old_sha new_sha : list Z) : Z :=
  match old_sha, new_sha with
  | a :: old', b :: new' => xor_loop (Z.lor ret (Z.lxor a b)) old' new'
  | _, _ => ret
  end.

Definition user_strcmp_s (o : openssl) (old_str new_str : option (list ascii)) : Z :=
  match old_str, new_str with
  | Some old_str, Some new_str =>
      match SHA256 o old_str, SHA256 o new_str with
      | Some old_sha, Some new_sha => if negb (xor_loop 0 (take 32 old_sha) (take 32 new_sha) =? 0) then RET_ERR else RET_OK
      | _, _ => RET_ERR
      end
  | _, _ => RET_ERR
  end.

(** [i] counts up, [todo] down; indices are taken modulo the lengths. *)
Fixpoint rev_loop (new_str old_str : list ascii) (todo i : nat) (ret : Z) : Z :=
  match todo with
  | O => ret
  | S todo' =>
      let new_len := length new_str in
      let a := code (nth (i mod new_len) new_str NUL) in
      let b := code (nth ((new_len - 1 - i) mod length old_str) old_str NUL) in
      rev_loop new_str old_str todo' (S i) (Z.lor ret (Z.lxor a b))
  end.

Definition isstrrev (new_str old_str : option (list ascii)) : Z :=
  match new_str, old_str with
  | Some new_str, Some old_str =>
      let new_len := Z.of_nat (length new_str) in
      let old_len := Z.of_nat (length old_str) in
      if (new_len =? 0) || (old_len =? 0) then FALSE
      else
        let ret := u32 (Z.lxor (u32 new_len) old_len) in
        if negb (rev_loop new_str old_str (length new_str) 0 ret =? 0) then FALSE else TRUE
  | _, _ => FALSE
  end.

(** ** The rules *)
Definition isspecial (c : ascii) : Z :=
  match strchr c PWD_PASS_SPECIAL with Some _ => 1 | None => 0 end.

(** The loop over the characters and its four flags. *)
Fixpoint class_loop (pw : list ascii) (isconlows isconsups iscondigs isconspcs : Z) : Z * Z * Z * Z :=
  match pw with
  | [] => (isconlows, isconsups, iscondigs, isconspcs)
  | c :: pw' =>
      class_loop pw'
        (if isconlows =? 0 then if is_lower c then 1 else 0 else isconlows)
        (if isconsups =? 0 then if is_upper c then 1 else 0 else isconsups)
        (if iscondigs =? 0 then if is_digit c then 1 else 0 else iscondigs)
        (if isconspcs =? 0 then isspecial c else isconspcs)
  end.

Definition dal_check_complexity_status (pw : option (list ascii)) : Z :=
  match pw with
  | None => RET_ERR
  | Some pw =>
      let '(isconlows, isconsups, iscondigs, isconspcs) := class_loop pw 0 0 0 0 in
      if negb (1 =? isconspcs) || (isconlows + isconsups + iscondigs <? 2) then RET_ERR else RET_OK
  end.

Definition is_pass_complexity_check_pass (o : openssl) (name passwd : option (list ascii)) (min_pwd_length : Z) : Z :=
  match name, passwd with
  | Some n, Some p =>
      if (length n =? 0)%nat then FALSE
      else if Z.of_nat (length p) <? min_pwd_length then FALSE
      else if (user_strcmp_s o name passwd =? 0) || negb (isstrrev passwd name =? 0) then FALSE
      else if negb (dal_check_complexity_status passwd =? RET_OK) then FALSE
      else TRUE
  | _, _ => FALSE
  end.

Definition is_vnc_password_complexity_check_pass (password : option (list ascii)) : Z :=
  match password with
  | None => FALSE
  | Some p =>
      if negb (length p =? 8)%nat then FALSE
      else if negb (dal_check_complexity_status password =? RET_OK) then FALSE
      else TRUE
  end.

(** ** The DES step of VNC *)
Definition reverse (byte : Z) : Z :=
  let byte := u8 (Z.lor (Z.shiftr (Z.land byte 240) 4) (Z.shiftl (Z.land byte 15) 4)) in
  let byte := u8 (Z.lor (Z.shiftr (Z.land byte 204) 2) (Z.shiftl (Z.land byte 51) 2)) in
  u8 (Z.lor (Z.shiftr (Z.land byte 170) 1) (Z.shiftl (Z.land byte 85) 1)).

(** The return code with the bytes in [output]; [*outlen] is their number. *)
Definition vnc_encrypt_bytes (o : openssl) (key input : list Z) : Z * list Z :=
  let Revkey := map reverse (take KEYLENS key) in
  if negb (cipher_ctx_new o) then (RET_ERR, [])
  else if negb (des_init o Revkey) then (RET_ERR, [])
  else
    match des_update o Revkey input with
    | None => (RET_ERR, [])
    | Some out =>
        match des_final o Revkey input with
        | None => (RET_ERR, out)
        | Some last => (RET_OK, out ++ last)
        end
    end.

(** ** Keys as text (comm_utils.c); what a failed function leaves in the caller's buffer is [old] *)
Definition convert_key_to_string (o : openssl) (pem : option (list ascii)) (old : list ascii) : Z * list ascii :=
  if negb (bio_new o) then (RET_ERR, old)
  else
    match pem with
    | None => (RET_ERR, old)
    | Some written =>
        if KEY_MAX_SIZE <=? Z.of_nat (length written) then (RET_ERR, old)
        else if (length written =? 0)%nat then (RET_ERR, old)
        else (RET_OK, written ++ drop (length written) old)
    end.

Definition convert_private_key_to_string (o : openssl) (pkey : option (EVP_PKEY o)) (key_str : option (list ascii))
    : Z * option (list ascii) :=
  match pkey, key_str with
  | Some k, Some old => let '(ret, s) := convert_key_to_string o (pem_write_private o k) old in (ret, Some s)
  | _, _ => (RET_ERR, key_str)
  end.

Definition convert_public_key_to_string (o : openssl) (pkey : option (EVP_PKEY o)) (key_str : option (list ascii))
    : Z * option (list ascii) :=
  match pkey, key_str with
  | Some k, Some old => let '(ret, s) := convert_key_to_string o (pem_write_public o k) old in (ret, Some s)
  | _, _ => (RET_ERR, key_str)
  end.

(** [BIO_write] of the first [key_len] bytes; [None] is a null key. *)
Definition convert_string_to_pkey (o : openssl) (key : option (list ascii)) (key_len : Z) (is_private_key : bool)
    : option (EVP_PKEY o) :=
  match key with
  | None => None
  | Some key =>
      if negb (bio_new o) then None
      else if key_len <=? 0 then None
      else if is_private_key then pem_read_private o (take (Z.to_nat key_len) key)
      else pem_read_public o (take (Z.to_nat key_len) key)
  end.

(** [stat_s] gives the size of a file; 0 stands for a null name and for an error. *)
Definition get_file_length (stat_size : list ascii -> option Z) (filename : option (list ascii)) : Z :=
  match filename with
  | None => 0
  | Some name => default 0 (stat_size name)
  end.

(** ** Key pairs *)

(** The buffers the caller provides; only the value -1 of the generators counts as a failure. *)
Definition generate_key_pair (o : openssl) (public_key private_key : option (list ascii))
    : Z * option (list ascii) * option (list ascii) :=
  if negb (pkey_ctx_new o) then (RET_ERR, public_key, private_key)
  else if keygen_init o =? RET_ERR then (RET_ERR, public_key, private_key)
  else
    let '(ret, pkey) := keygen o in
    if ret =? RET_ERR then (RET_ERR, public_key, private_key)
    else
      let '(ret, private_key) := convert_private_key_to_string o pkey private_key in
      if negb (ret =? RET_OK) then (ret, public_key, private_key)
      else
        let '(ret, public_key) := convert_public_key_to_string o pkey public_key in
        if negb (ret =? RET_OK) then (ret, public_key, private_key) else (RET_OK, public_key, private_key).

(** The part the two directions share: the length is asked for, the space allocated, the operation run. [text]
    is what the caller's pointer points to: an allocated buffer or null. *)
Definition crypt (o : openssl) (pkey : option (EVP_PKEY o)) (init : Z) (size : EVP_PKEY o -> list Z -> Z * Z)
    (op : EVP_PKEY o -> list Z -> Z * list Z) (input : list Z) (text : option (list Z)) : Z * option (list Z) :=
  match pkey with
  | None => (RET_ERR, text)
  | Some k =>
      if negb (pkey_ctx_new o) then (RET_ERR, text)
      else if init <=? 0 then (RET_ERR, text)
      else
        let '(ret, len) := size k input in
        if ret <=? 0 then (RET_ERR, text)
        else if len =? 0 then (RET_ERR, text)
        else if negb (malloc_ok o len) then (RET_ERR, None)
        else
          let '(ret, out) := op k input in
          let len := Z.of_nat (length out) in
          if (ret <=? 0) || (len <=? 0) then (RET_ERR, None) else (s32 len, Some out)
  end.

Definition encrypt_with_public_key (o : openssl) (pub_key : option (list ascii)) (pub_key_len : Z) (passwd : list Z)
    (cipher_text : option (list Z)) : Z * option (list Z) :=
  crypt o (convert_string_to_pkey o pub_key pub_key_len false) (encrypt_init o) (encrypt_size o) (pkey_encrypt o)
    passwd cipher_text.

Definition decrypt_with_private_key (o : openssl) (priv_key : option (list ascii)) (priv_key_len : Z)
    (ciphertext : list Z) (plaintext : option (list Z)) : Z * option (list Z) :=
  crypt o (convert_string_to_pkey o priv_key priv_key_len true) (decrypt_init o) (decrypt_size o) (pkey_decrypt o)
    ciphertext plaintext.

(** ** Patterns *)
Definition pattern_validator (pattern : list ascii) : Z :=
  let len := length pattern in
  if (len =? 0)%nat then RET_ERR
  else if negb (char_eqb (nth 0 pattern NUL) "^") || negb (char_eqb (nth (len - 1) pattern NUL) "$") then RET_ERR
  else RET_OK.

Section patterns.
Context {GRegex : Type} (g_regex_new : list ascii -> option GRegex) (g_regex_match : GRegex -> list ascii -> bool).

Definition check_pattern (pattern : list ascii) : Z :=
  if negb (pattern_validator pattern =? RET_OK) then RET_ERR
  else match g_regex_new pattern with None => RET_ERR | Some _ => RET_OK end.

Definition verify_passwd_with_pattern (pattern passwd : list ascii) : Z :=
  if negb (pattern_validator pattern =? RET_OK) then RET_ERR
  else
    match g_regex_new pattern with
    | None => RET_ERR
    | Some regex => if negb (g_regex_match regex passwd) then RET_ERR else RET_OK
    end.
End patterns.

(** ** Comparing *)

Lemma lor_zero a b : Z.lor a b = 0 <-> a = 0 /\ b = 0.
Proof. apply Z.lor_eq_0_iff. Qed.

Lemma xor_loop_zero ret xs ys :
  length xs = length ys -> (xor_loop ret xs ys = 0 <-> ret = 0 /\ xs = ys).
Proof.
  revert ret ys. induction xs as [|x xs IH]; intros ret [|y ys] Hl; try discriminate; cbn [xor_loop]; [naive_solver|].
  rewrite IH by (cbn in Hl; lia). rewrite lor_zero, Z.lxor_eq_0_iff. naive_solver.
Qed.

(** [SHA256] works on both strings and tells them apart. *)
Definition digests_differ (o : openssl) (s t : list ascii) : Prop :=
  exists a b, SHA256 o s = Some a /\ SHA256 o t = Some b /\ length a = 32%nat /\ length b = 32%nat /\ (a = b -> s = t).

Lemma user_strcmp_spec o s t :
  digests_differ o s t -> user_strcmp_s o (Some s) (Some t) = if decide (s = t) then RET_OK else RET_ERR.
Proof.
  intros (a & b & Ha & Hb & Hla & Hlb & Hinj). unfold user_strcmp_s. rewrite Ha, Hb, !take_ge by lia.
  pose proof (xor_loop_zero 0 a b ltac:(congruence)) as Hx.
  destruct (Z.eqb_spec (xor_loop 0 a b) 0) as [E|E]; cbn [negb].
  - apply Hx in E as [_ E]. rewrite decide_True by auto. done.
  - rewrite decide_False; [done|]. intros ->. rewrite Ha in Hb. apply E, Hx. split; [done|]. congruence.
Qed.

Lemma rev_loop_zero new old todo i ret :
  (i + todo = length new)%nat -> length old = length new ->
  rev_loop new old todo i ret = 0 <->
  ret = 0 /\ forall k, (i <= k < length new)%nat -> nth k new NUL = nth (length new - 1 - k) old NUL.
Proof.
  intros Hi Hl. revert i ret Hi. induction todo as [|todo IH]; intros i ret Hi; cbn [rev_loop].
  - split; [intros ->; split; [done|]; intros; lia|by intros [-> _]].
  - rewrite IH by lia. rewrite Hl, !Nat.mod_small by lia. rewrite lor_zero, Z.lxor_eq_0_iff. split.
    + intros [[Hr Hc] Hk]. split; [done|]. intros k Hk'. destruct (decide (k = i)) as [->|]; [by apply code_inj|apply Hk; lia].
    + intros [Hr Hk]. split; [split; [done|]|intros k ?; apply Hk; lia]. f_equal. apply Hk. lia.
Qed.

Lemma rev_by_nth (s t : list ascii) :
  length t = length s -> (s = rev t <-> forall k, (0 <= k < length s)%nat -> nth k s NUL = nth (length s - 1 - k) t NUL).
Proof.
  intros Hl. split.
  - intros -> k Hk. rewrite rev_nth by (rewrite <- Hl in Hk; lia). rewrite length_rev. f_equal. lia.
  - intros Hk. apply (nth_ext _ _ NUL NUL); [by rewrite length_rev|]. intros k Hlt.
    rewrite rev_nth by lia. rewrite Hk by lia. f_equal. lia.
Qed.

Lemma rev_loop_mono new old todo i ret : rev_loop new old todo i ret = 0 -> ret = 0.
Proof.
  revert i ret. induction todo as [|todo IH]; intros i ret H; cbn [rev_loop] in H; [done|].
  apply IH, lor_zero in H. naive_solver.
Qed.

Lemma u32_lxor_zero a b : 0 <= a < 2 ^ 32 -> 0 <= b < 2 ^ 32 -> u32 (Z.lxor a b) = 0 -> a = b.
Proof.
  intros Ha Hb H. unfold u32 in H. rewrite <- Z.land_ones in H by lia. apply Z.bits_inj'. intros k Hk.
  destruct (decide (k < 32)).
  - assert (Hb' : Z.testbit (Z.land (Z.lxor a b) (Z.ones 32)) k = false) by (rewrite H; apply Z.bits_0).
    rewrite Z.land_spec, Z.lxor_spec, Z.ones_spec_low, andb_true_r in Hb' by lia.
    destruct (Z.testbit a k), (Z.testbit b k); done.
  - rewrite <- (Z.mod_small a (2 ^ 32)), <- (Z.mod_small b (2 ^ 32)) by done.
    by rewrite !Z.mod_pow2_bits_high by lia.
Qed.

Lemma isstrrev_spec new old :
  Z.of_nat (length new) < 2 ^ 32 -> Z.of_nat (length old) < 2 ^ 32 ->
  isstrrev (Some new) (Some old) = if decide (new <> [] /\ new = rev old) then TRUE else FALSE.
Proof.
  intros Hn Ho. unfold isstrrev. destruct (Z.eqb_spec (Z.of_nat (length new)) 0) as [E|E]; cbn [orb].
  { rewrite decide_False; [done|]. intros [Hne _]. apply Hne. apply length_zero_iff_nil. lia. }
  destruct (Z.eqb_spec (Z.of_nat (length old)) 0) as [E'|E'].
  { rewrite decide_False; [done|]. intros [_ ->]. rewrite length_rev in E. lia. }
  rewrite (u32_small (Z.of_nat (length new))) by lia.
  destruct (decide (length old = length new)) as [Hl|Hl].
  - rewrite Hl, Z.lxor_nilpotent. pose proof (rev_loop_zero new old (length new) 0 (u32 0) eq_refl Hl) as Hz.
    destruct (Z.eqb_spec (rev_loop new old (length new) 0 (u32 0)) 0) as [Er|Er]; cbn [negb].
    + rewrite decide_True; [done|]. split; [by intros ->|]. apply Hz in Er as [_ Hk]. by apply (rev_by_nth new old Hl).
    + rewrite decide_False; [done|]. intros [_ Hr]. apply Er, Hz. split; [done|]. by apply (rev_by_nth new old Hl).
  - rewrite decide_False; [|intros [_ ->]; by rewrite length_rev in Hl].
    destruct (Z.eqb_spec (rev_loop new old (length new) 0 (u32 (Z.lxor (Z.of_nat (length new)) (Z.of_nat (length old))))) 0)
      as [Er|Er]; cbn [negb]; [|done].
    apply rev_loop_mono, u32_lxor_zero in Er; lia.
Qed.

(** ** The character classes *)

Definition has_class (f : ascii -> bool) (s : list ascii) : bool := existsb f s.
Definition is_special (c : ascii) : bool := bool_decide (c ∈ PWD_PASS_SPECIAL).

Lemma isspecial_b2z c : isspecial c = Z.b2z (is_special c).
Proof.
  unfold isspecial, is_special. destruct (strchr c PWD_PASS_SPECIAL) as [i|] eqn:E.
  - rewrite bool_decide_eq_true_2; [done|]. apply strchr_Some in E as (b & -> & _). apply elem_of_app. right. left.
  - apply strchr_None in E. by rewrite bool_decide_eq_false_2.
Qed.

Lemma class_loop_b2z pw a b c d :
  class_loop pw (Z.b2z a) (Z.b2z b) (Z.b2z c) (Z.b2z d)
  = (Z.b2z (a || has_class is_lower pw), Z.b2z (b || has_class is_upper pw), Z.b2z (c || has_class is_digit pw),
     Z.b2z (d || has_class is_special pw)).
Proof.
  revert a b c d. induction pw as [|ch pw IH]; intros a b c d; cbn [class_loop has_class existsb]; [by rewrite !orb_false_r|].
  assert (Hf : forall x y, (if Z.b2z x =? 0 then if y : bool then 1 else 0 else Z.b2z x) = Z.b2z (x || y)) by (by intros [] []).
  rewrite isspecial_b2z, !Hf.
  replace (if Z.b2z d =? 0 then _ else _) with (Z.b2z (d || is_special ch)) by (by destruct d, (is_special ch)).
  rewrite IH. by rewrite !orb_assoc.
Qed.

(** A special character and two of the three other classes. *)
Definition mixed (p : list ascii) : Prop :=
  Exists (fun c => c ∈ PWD_PASS_SPECIAL) p /\
  (2 <= Nat.b2n (has_class is_lower p) + Nat.b2n (has_class is_upper p) + Nat.b2n (has_class is_digit p))%nat.

Lemma special_exists p : has_class is_special p = true <-> Exists (fun c => c ∈ PWD_PASS_SPECIAL) p.
Proof.
  unfold has_class. rewrite existsb_exists, Exists_exists. split; intros (c & H1 & H2); exists c.
  - split; [by apply list_elem_of_In|]. by apply bool_decide_eq_true in H2.
  - split; [by apply list_elem_of_In|]. by apply bool_decide_eq_true.
Qed.

Lemma complexity_spec p : dal_check_complexity_status (Some p) = RET_OK <-> mixed p.
Proof.
  unfold dal_check_complexity_status, mixed. change 0 with (Z.b2z false) at 1 2 3 4. rewrite class_loop_b2z. cbn [orb].
  rewrite <- special_exists. destruct (has_class is_special p); cbn [Z.b2z Z.eqb Pos.eqb negb orb]; [|naive_solver].
  destruct (has_class is_lower p), (has_class is_upper p), (has_class is_digit p); cbn; split; intros H; try lia; try done;
    split; try done; lia.
Qed.

(** C20: a password is accepted for a user exactly when it is long enough, is neither his name nor its reverse,
    and has a special character with two of lower case, upper case and digits; a VNC password when it has
    eight characters and the same mixture. *)
Theorem password_policy o name passwd min_pwd_length :
  digests_differ o name passwd -> Z.of_nat (length name) < 2 ^ 32 -> Z.of_nat (length passwd) < 2 ^ 32 ->
  (is_pass_complexity_check_pass o (Some name) (Some passwd) min_pwd_length = TRUE <->
   name <> [] /\ min_pwd_length <= Z.of_nat (length passwd) /\ passwd <> name /\ passwd <> rev name /\ mixed passwd) /\
  (is_vnc_password_complexity_check_pass (Some passwd) = TRUE <-> length passwd = 8%nat /\ mixed passwd).
Proof.
  intros Hd Hn Hp. rewrite <- complexity_spec. split.
  - unfold is_pass_complexity_check_pass. destruct (Nat.eqb_spec (length name) 0) as [E|E].
    { apply length_zero_iff_nil in E as ->. split; [done|]. by intros [? _]. }
    assert (name <> []) by (by intros ->). destruct (Z.ltb_spec (Z.of_nat (length passwd)) min_pwd_length) as [Hm|Hm].
    { split; [done|]. intros (_ & ? & _). lia. }
    rewrite user_strcmp_spec, isstrrev_spec by done.
    destruct (decide (name = passwd)) as [->|Hne]; cbn [RET_OK RET_ERR Z.eqb negb orb]; [naive_solver|].
    destruct (Z.eqb_spec (dal_check_complexity_status (Some passwd)) RET_OK) as [Hc|Hc]; cbn [negb].
    + destruct (decide (passwd <> [] /\ passwd = rev name)) as [[? Hr]|Hr]; cbn; [naive_solver|].
      split; [|done]. intros _. split_and!; try done. intros ->. apply Hr. split; [|done].
      intros Hr'. apply (f_equal (@length ascii)) in Hr'. rewrite length_rev in Hr'. cbn in Hr'. lia.
    + destruct (decide _); cbn; naive_solver.
  - unfold is_vnc_password_complexity_check_pass. destruct (Nat.eqb_spec (length passwd) 8); cbn [negb]; [|naive_solver].
    destruct (Z.eqb_spec (dal_check_complexity_status (Some passwd)) RET_OK); cbn [negb]; naive_solver.
Qed.

(** ** The DES key of VNC *)

(** [r] has the bits of the byte [b] in the opposite order. *)
Definition mirrors (b r : Z) : Prop := 0 <= r < 256 /\ forall i, 0 <= i < 8 -> Z.testbit r i = Z.testbit b (7 - i).

Definition mirrors_b (b r : Z) : bool :=
  (0 <=? r) && (r <? 256) && forallb (fun i => Bool.eqb (Z.testbit r i) (Z.testbit b (7 - i))) [0; 1; 2; 3; 4; 5; 6; 7].

Lemma mirrors_b_spec b r : mirrors_b b r = true -> mirrors b r.
Proof.
  unfold mirrors_b, mirrors. rewrite !andb_true_iff, forallb_forall. intros [[? ?] HF]. split; [lia|].
  intros i Hi. apply eqb_prop, HF. cbn. lia.
Qed.

Lemma reverse_mirrors b : 0 <= b < 256 -> mirrors b (reverse b).
Proof.
  intros Hb. apply mirrors_b_spec.
  assert (HF : forallb (fun n => mirrors_b (Z.of_nat n) (reverse (Z.of_nat n))) (seq 0 256) = true) by (vm_compute; reflexivity).
  rewrite forallb_forall in HF. rewrite <- (Z2Nat.id b) by lia. apply HF. apply in_seq. lia.
Qed.

(** VNC authentication encrypts the challenge with DES under the password with the bits of each of its eight
    bytes mirrored; the output is what DES writes for the blocks and at the end, and any failing step is an error. *)
Theorem vnc_uses_mirrored_key o key input :
  Forall (fun b => 0 <= b < 256) key -> (8 <= length key)%nat ->
  exists rk, Forall2 mirrors (take 8 key) rk /\
    (forall out last, cipher_ctx_new o = true -> des_init o rk = true ->
       des_update o rk input = Some out -> des_final o rk input = Some last ->
       vnc_encrypt_bytes o key input = (RET_OK, out ++ last)) /\
    (cipher_ctx_new o = false \/ des_init o rk = false \/ des_update o rk input = None \/ des_final o rk input = None ->
     fst (vnc_encrypt_bytes o key input) = RET_ERR).
Proof.
  intros HF Hl. exists (map reverse (take 8 key)). split.
  - clear Hl. assert (HF' : Forall (fun b => 0 <= b < 256) (take 8 key)) by (by apply Forall_take).
    induction HF' as [|b bs Hb HF' IH]; [constructor|]. constructor; [by apply reverse_mirrors|done].
  - unfold vnc_encrypt_bytes, KEYLENS. set (rk := map reverse (take 8 key)). split.
    + intros out last H1 H2 H3 H4. by rewrite H1, H2, H3, H4.
    + destruct (cipher_ctx_new o); cbn [negb]; [|done]. destruct (des_init o rk); cbn [negb]; [|done].
      destruct (des_update o rk input); [|done]. destruct (des_final o rk input); naive_solver.
Qed.

(** ** Key pairs *)

(** What the documentation of OpenSSL promises of a generated key [k] and its public part [pk]: the PEM texts
    read back, and what the public part encrypts the private one decrypts. *)
Record key_laws (o : openssl) (k pk : EVP_PKEY o) (priv pub : list ascii) := {
  kl_gen : keygen o = (1, Some k);
  kl_priv : pem_write_private o k = Some priv;
  kl_pub : pem_write_public o k = Some pub;
  kl_priv_text : no_nul priv /\ 0 < Z.of_nat (length priv) < KEY_MAX_SIZE;
  kl_pub_text : no_nul pub /\ 0 < Z.of_nat (length pub) < KEY_MAX_SIZE;
  kl_read_priv : pem_read_private o priv = Some k;
  kl_read_pub : pem_read_public o pub = Some pk;
  kl_crypt m : m <> [] -> exists c, pkey_encrypt o pk m = (1, c) /\ c <> [] /\ pkey_decrypt o k c = (1, m);
  kl_sizes m : 0 < fst (encrypt_size o pk m) /\ snd (encrypt_size o pk m) <> 0 /\
               0 < fst (decrypt_size o k m) /\ snd (decrypt_size o k m) <> 0;
  kl_ok : pkey_ctx_new o = true /\ bio_new o = true /\ keygen_init o = 1 /\ encrypt_init o = 1 /\ decrypt_init o = 1 /\
          forall n, malloc_ok o n = true
}.

Lemma convert_key_zeroed o pem n :
  bio_new o = true -> 0 < Z.of_nat (length pem) < KEY_MAX_SIZE ->
  convert_key_to_string o (Some pem) (replicate n NUL) = (RET_OK, pem ++ replicate (n - length pem) NUL).
Proof.
  intros Hb Hl. unfold convert_key_to_string. rewrite Hb. cbn [negb]. rewrite (proj2 (Z.leb_gt _ _)) by lia.
  rewrite (proj2 (Nat.eqb_neq _ _)) by lia. by rewrite drop_replicate.
Qed.

Lemma c_str_zeroed pem n : no_nul pem -> (length pem < n)%nat -> c_str (pem ++ replicate (n - length pem) NUL) = Some pem.
Proof. intros Hn Hl. replace (n - length pem)%nat with (S (n - length pem - 1)) by lia. by apply c_str_app. Qed.

Lemma crypt_ok o k init size op input out text :
  pkey_ctx_new o = true -> init = 1 -> 0 < fst (size k input) -> snd (size k input) <> 0 ->
  (forall n, malloc_ok o n = true) -> op k input = (1, out) -> out <> [] ->
  crypt o (Some k) init size op input text = (s32 (Z.of_nat (length out)), Some out).
Proof.
  intros Hc -> Hr Hs Hm Ho Hne. unfold crypt. rewrite Hc. cbn [negb]. change (1 <=? 0) with false. cbv iota.
  destruct (size k input) as [r len]. cbn [fst snd] in *. rewrite (proj2 (Z.leb_gt _ _)) by lia.
  rewrite (proj2 (Z.eqb_neq _ _)) by done. rewrite Hm, Ho. cbn [negb]. change (1 <=? 0) with false.
  destruct out as [|x out]; [done|]. by rewrite (proj2 (Z.leb_gt _ _)) by (cbn [length]; lia).
Qed.

Lemma pkey_of_text o pem (k : EVP_PKEY o) (is_private : bool) :
  bio_new o = true -> 0 < Z.of_nat (length pem) ->
  (if is_private then pem_read_private o pem else pem_read_public o pem) = Some k ->
  convert_string_to_pkey o (Some pem) (Z.of_nat (length pem)) is_private = Some k.
Proof.
  intros Hb Hl Hr. unfold convert_string_to_pkey. rewrite Hb. cbn [negb]. rewrite (proj2 (Z.leb_gt _ _)) by lia.
  by rewrite Nat2Z.id, take_ge.
Qed.

(** C34: a generated pair works: the two texts left in zeroed buffers of at least [KEY_MAX_SIZE] bytes are such that
    what [encrypt_with_public_key] makes of a password, [decrypt_with_private_key] turns back into it. *)
Theorem key_pair_roundtrip o k pk priv pub n passwd :
  key_laws o k pk priv pub -> KEY_MAX_SIZE <= Z.of_nat n -> passwd <> [] ->
  exists pub_buf priv_buf c,
    generate_key_pair o (Some (replicate n NUL)) (Some (replicate n NUL)) = (RET_OK, Some pub_buf, Some priv_buf) /\
    c_str pub_buf = Some pub /\ c_str priv_buf = Some priv /\
    encrypt_with_public_key o (Some pub) (Z.of_nat (length pub)) passwd None = (s32 (Z.of_nat (length c)), Some c) /\
    decrypt_with_private_key o (Some priv) (Z.of_nat (length priv)) c None
    = (s32 (Z.of_nat (length passwd)), Some passwd).
Proof.
  intros L Hn Hp. destruct (kl_ok _ _ _ _ _ L) as (O1 & O2 & O3 & O4 & O5 & O6).
  destruct (kl_priv_text _ _ _ _ _ L) as [T1 T2]. destruct (kl_pub_text _ _ _ _ _ L) as [T3 T4].
  destruct (kl_crypt _ _ _ _ _ L passwd Hp) as (c & C1 & C2 & C3).
  exists (pub ++ replicate (n - length pub) NUL), (priv ++ replicate (n - length priv) NUL), c.
  split; [|split; [apply c_str_zeroed; [done|lia]|split; [apply c_str_zeroed; [done|lia]|split]]].
  - unfold generate_key_pair, convert_private_key_to_string, convert_public_key_to_string.
    rewrite O1, O3, (kl_gen _ _ _ _ _ L). cbn [negb]. change (1 =? RET_ERR) with false. cbv iota.
    rewrite (kl_priv _ _ _ _ _ L), (kl_pub _ _ _ _ _ L), !convert_key_zeroed by done. done.
  - unfold encrypt_with_public_key. rewrite (pkey_of_text o pub pk false O2) by (lia || apply (kl_read_pub _ _ _ _ _ L)).
    destruct (kl_sizes _ _ _ _ _ L passwd) as (S1 & S2 & _ & _). by apply crypt_ok.
  - unfold decrypt_with_private_key. rewrite (pkey_of_text o priv k true O2) by (lia || apply (kl_read_priv _ _ _ _ _ L)).
    destruct (kl_sizes _ _ _ _ _ L c) as (_ & _ & S3 & S4). by apply crypt_ok.
Qed.

(** ** Patterns *)

Lemma pattern_validator_spec p : pattern_validator p = RET_OK <-> exists mid, p = "^"%char :: mid ++ ["$"%char].
Proof.
  unfold pattern_validator. destruct p as [|a p]; [split; [done|intros (? & ?); discriminate]|].
  cbn [length Nat.eqb nth]. rewrite Nat.sub_succ, Nat.sub_0_r.
  destruct (char_eqb a "^") eqn:Ea; cbn [negb orb].
  2: { apply char_eqb_neq in Ea. split; [done|]. intros (mid & [= -> _]). done. }
  apply char_eqb_eq in Ea as ->. induction p as [|b q _] using rev_ind.
  - cbn. split; [done|]. intros (mid & [= H]). by destruct mid.
  - rewrite length_app. cbn [length]. rewrite Nat.add_1_r. cbn [nth]. rewrite nth_middle.
    destruct (char_eqb b "$") eqn:Eb; cbn [negb].
    + apply char_eqb_eq in Eb as ->. split; [intros _; by exists q|done].
    + apply char_eqb_neq in Eb. split; [done|]. intros (mid & [= H]). apply app_inj_tail in H as [_ ->]. done.
Qed.

(** A pattern is accepted exactly when it starts with '^', ends with '$' and compiles, and a password passes
    exactly when moreover the pattern matches. *)
Theorem patterns_are_anchored {GRegex} (new : list ascii -> option GRegex) (match_ : GRegex -> list ascii -> bool) p passwd :
  (check_pattern new p = RET_OK <-> (exists mid, p = "^"%char :: mid ++ ["$"%char]) /\ is_Some (new p)) /\
  (verify_passwd_with_pattern new match_ p passwd = RET_OK <->
   (exists mid, p = "^"%char :: mid ++ ["$"%char]) /\ exists r, new p = Some r /\ match_ r passwd = true).
Proof.
  rewrite <- pattern_validator_spec. unfold check_pattern, verify_passwd_with_pattern.
  destruct (Z.eqb_spec (pattern_validator p) RET_OK) as [E|E]; cbn [negb].
  2: { split; (split; [done|]); by intros [? _]. }
  destruct (new p) as [r|]; split; split.
  - intros _. split; [done|]. by exists r.
  - done.
  - destruct (match_ r passwd) eqn:Em; cbn [negb]; [|done]. intros _. split; [done|]. by exists r.
  - intros (_ & r' & [= <-] & ->). done.
  - done.
  - by intros [_ [? ?]].
  - done.
  - by intros (_ & r & ? & _).
Qed.

(** The test of the ends does not anchor a pattern with alternatives. *)
Example alternatives_pass : pattern_validator (lit "^a|b$") = RET_OK.
Proof. reflexivity. Qed.

(** ** The theorems at concrete inputs *)

(** A toy instance: the digest is the text filled up to 32 bytes, the ciphers add the key to every byte. *)
Definition toy : openssl := {|
  EVP_PKEY := Z; SHA256 := fun s => Some (take 32 (map code s ++ replicate 32 0)); cipher_ctx_new := true;
  des_init := fun _ => true; des_update := fun k m => Some (map (Z.add (nth 0 k 0)) m); des_final := fun _ _ => Some [8; 8];
  pkey_ctx_new := true; keygen_init := 1; keygen := (1, Some 5); bio_new := true;
  pem_write_private := fun _ => Some (lit "private 5"); pem_write_public := fun _ => Some (lit "public 5");
  pem_read_private := fun _ => Some 5; pem_read_public := fun _ => Some 5; malloc_ok := fun _ => true;
  encrypt_init := 1; encrypt_size := fun _ _ => (1, 9); pkey_encrypt := fun k m => (1, map (Z.add k) m);
  decrypt_init := 1; decrypt_size := fun _ _ => (1, 9); pkey_decrypt := fun k c => (1, map (fun b => b - k) c)
|}.

Lemma toy_digests : digests_differ toy (lit "root") (lit "Admin@9000").
Proof.
  exists (take 32 (map code (lit "root") ++ replicate 32 0)), (take 32 (map code (lit "Admin@9000") ++ replicate 32 0)).
  split; [done|]. split; [done|]. split; [done|]. split; [done|]. discriminate.
Qed.

Lemma password_policy_witness :
  is_pass_complexity_check_pass toy (Some (lit "root")) (Some (lit "Admin@9000")) 8 = TRUE /\
  is_vnc_password_complexity_check_pass (Some (lit "Admin@9000")) <> TRUE.
Proof.
  destruct (password_policy toy (lit "root") (lit "Admin@9000") 8 toy_digests eq_refl eq_refl) as [H1 H2]. split.
  - apply H1. split; [done|]. split; [cbn; lia|]. split; [done|]. split; [done|]. split; [|vm_compute; lia].
    apply special_exists. reflexivity.
  - rewrite H2. intros [? _]. discriminate.
Defined.

Lemma vnc_uses_mirrored_key_witness :
  exists rk, Forall2 mirrors (map code (lit "Admin@90")) rk /\
    vnc_encrypt_bytes toy (map code (lit "Admin@90")) [1; 2; 3] = (RET_OK, map (Z.add (nth 0 rk 0)) [1; 2; 3] ++ [8; 8]).
Proof.
  destruct (vnc_uses_mirrored_key toy (map code (lit "Admin@90")) [1; 2; 3]) as (rk & H1 & H2 & _).
  - apply Forall_forall. intros z Hz. apply list_elem_of_fmap in Hz as (c & -> & _). apply code_range.
  - cbn. lia.
  - exists rk. split; [exact H1|]. by apply H2.
Defined.

Lemma toy_laws : key_laws toy 5 5 (lit "private 5") (lit "public 5").
Proof.
  constructor; try done.
  - split; [unfold no_nul; by rewrite <- strchr_None|cbn; unfold KEY_MAX_SIZE; lia].
  - split; [unfold no_nul; by rewrite <- strchr_None|cbn; unfold KEY_MAX_SIZE; lia].
  - intros m Hm. exists (map (Z.add 5) m). split; [done|]. split; [by destruct m|]. cbn. f_equal.
    rewrite map_map. rewrite <- (map_id m) at 2. apply map_ext. intros z. lia.
Qed.

Lemma key_pair_roundtrip_witness :
  exists pub_buf priv_buf c,
    generate_key_pair toy (Some (replicate (Z.to_nat 102400) NUL)) (Some (replicate (Z.to_nat 102400) NUL))
    = (RET_OK, Some pub_buf, Some priv_buf) /\
    c_str pub_buf = Some (lit "public 5") /\ c_str priv_buf = Some (lit "private 5") /\
    encrypt_with_public_key toy (Some (lit "public 5")) 8 [65; 66] None = (s32 (Z.of_nat (length c)), Some c) /\
    decrypt_with_private_key toy (Some (lit "private 5")) 9 c None = (2, Some [65; 66]).
Proof.
  apply (key_pair_roundtrip toy 5 5 (lit "private 5") (lit "public 5") (Z.to_nat 102400) [65; 66] toy_laws); [|done].
  rewrite Z2Nat.id by lia. unfold KEY_MAX_SIZE. lia.
Defined.
