(* ===== verification/LdapConfig.v ===== *)
(** * ldap_auth_parse_info.c: the configuration of the LDAP authentication

    The configuration the authentication service hands over is turned into the distinguished names the
    directory is searched with: the base from the domain and the user folder, one name per group from its
    name, its folder (escaped) and the domain. Strings written into buffers of fixed size are cut off at the
    size, as [snprintf_truncated_s] does. *)
From S2P Require Export CString.

(** The constants of <ldap.h>. *)
Class LdapCodes := {
  LDAP_SCOPE_BASE : Z;
  LDAP_SCOPE_ONELEVEL : Z;
  LDAP_SCOPE_SUBTREE : Z;
  LDAP_DEREF_NEVER : Z;
  LDAP_VERSION3 : Z;
  LDAP_NO_LIMIT : Z;
  LDAP_PORT : Z;
  LDAP_SERVER_DOWN : Z;
  LDAP_PARAM_ERROR : Z;
  LDAP_UNAVAILABLE : Z;
  LDAP_OTHER : Z;
  LDAP_AUTH_UNKNOWN : Z;
  LDAP_TIMELIMIT_EXCEEDED : Z;
  LDAP_SIZELIMIT_EXCEEDED : Z;
  LDAP_SASL_AUTOMATIC : Z;
  LDAP_SASL_QUIET : Z;
  LDAP_OPT_X_TLS_NEVER : Z;
  LDAP_OPT_X_TLS_ALLOW : Z;
  LDAP_OPT_X_TLS_CRL_NONE : Z;
  LDAP_OPT_X_TLS_CRL_PEER : Z;
  LDAP_OPT_X_TLS_PROTOCOL_TLS1_2 : Z;
  ldap_codes_fail : Forall (fun c => c <> 0) [LDAP_PARAM_ERROR; LDAP_UNAVAILABLE; LDAP_OTHER; LDAP_AUTH_UNKNOWN]
}.

(** The values of OpenLDAP. *)
#[export] Instance openldap : LdapCodes := {|
  LDAP_SCOPE_BASE := 0; LDAP_SCOPE_ONELEVEL := 1; LDAP_SCOPE_SUBTREE := 2; LDAP_DEREF_NEVER := 0; LDAP_VERSION3 := 3;
  LDAP_NO_LIMIT := 0; LDAP_PORT := 389; LDAP_SERVER_DOWN := -1; LDAP_PARAM_ERROR := -9; LDAP_UNAVAILABLE := 52;
  LDAP_OTHER := 80; LDAP_AUTH_UNKNOWN := -6; LDAP_TIMELIMIT_EXCEEDED := 3; LDAP_SIZELIMIT_EXCEEDED := 4;
  LDAP_SASL_AUTOMATIC := 0; LDAP_SASL_QUIET := 2; LDAP_OPT_X_TLS_NEVER := 0; LDAP_OPT_X_TLS_ALLOW := 3;
  LDAP_OPT_X_TLS_CRL_NONE := 0; LDAP_OPT_X_TLS_CRL_PEER := 1; LDAP_OPT_X_TLS_PROTOCOL_TLS1_2 := 771;
  ldap_codes_fail := ltac:(repeat constructor; discriminate)
|}.

Definition LDAP_AUTH_SUCCESS : Z := 0.
Definition LDAP_AUTH_ERROR : Z := -1.
Definition MAX_USER_GROUP : nat := 5.
Definition LDAP_TAG_CASE_UPPER : Z := 0.
Definition LDAP_TAG_CASE_LOWER : Z := 1.
Definition LDAP_GROUPFOLDER_MAX_LEN : nat := 255.
Definition LDAP_USERFOLDER_MAX_LEN : nat := 255.
Definition LDAP_USERDOMAIN_MAX_LEN : nat := 255.
Definition LDAP_GROUPDOMAIN_MAX_LEN : nat := 255.
Definition LDAP_GROUPNAME_MAX_LEN : nat := 255.
Definition LDAP_GROUPDN_MAX_LEN : nat :=
  LDAP_GROUPDOMAIN_MAX_LEN + LDAP_GROUPFOLDER_MAX_LEN + LDAP_GROUPNAME_MAX_LEN + 256.
Definition LDAP_USERDN_MAX_LEN : nat := LDAP_USERFOLDER_MAX_LEN + LDAP_USERDOMAIN_MAX_LEN + 256.

Record LDAP_GROUP_INFO := { group_inner_id : Z; group_name : list ascii; group_folder : list ascii; group_priv : Z }.

(** The arrays of characters are the strings they hold. *)
Record LDAP_AUTH_INFO := {
  serverid : Z; hostaddr : list ascii; auth_port : Z; user_domain : list ascii; auth_folder : list ascii;
  bind_dn : list ascii; bind_dn_pwd : list ascii;
  cert_verify_enabled : Z; cert_verify_level : Z; cert_inner_dir : list ascii; auth_scope : list ascii;
  time_limit : Z; bind_time_limit : Z; auth_version : Z; tls_cipher : list ascii;
  group_cnt : Z; group : list LDAP_GROUP_INFO;      (* the array, [group_cnt] of its elements are in use *)
  username : list ascii; password : list ascii
}.

Definition groups (i : LDAP_AUTH_INFO) : list LDAP_GROUP_INFO := take (Z.to_nat (group_cnt i)) (group i).

Record PAM_LDAP_CONFIG_S := {
  uri : option (list ascii); host : option (list ascii); port : Z; base : option (list ascii);
  groupdn : list (option (list ascii));
  ldap_enable : Z; scope : Z; deref : Z; filter_ : option (list ascii); version : Z; timelimit : Z; bind_timelimit : Z;
  restart : Z; cert_status : Z; cert_verifi_Level : Z; dn_with_uid : Z
}.

(** [snprintf_truncated_s(buf + len, size - len, ..)] behind the string [acc] of length [len]; the strings
    written here leave room for the NUL, so [len] stays below [size]. *)
Definition append_trunc (size : nat) (acc s : list ascii) : list ascii := acc ++ take (size - length acc - 1) s.

(** ** The base of the search *)

Fixpoint append_labels (size : nat) (tag : list ascii) (labels : list (list ascii)) (acc : list ascii) : list ascii :=
  match labels with
  | [] => acc
  | l :: rest => append_labels size tag rest (append_trunc size acc (tag ++ l ++ lit ","))
  end.

(** The last character written, a comma, is replaced by the end of the string; before the first character
    there is nothing to replace. *)
Definition drop_last (acc : list ascii) : option (list ascii) :=
  match acc with [] => UB | _ => Some (take (length acc - 1) acc) end.

Definition parse_ldap_base_info (domain : option (list ascii)) (domain_size : Z) (folder : option (list ascii))
    (base0 : option (list ascii)) (base_size : nat) : option (Z * option (list ascii)) :=
  match domain, folder, base0 with
  | Some domain, Some folder, Some b0 =>
      if (domain_size =? 0) || (base_size =? 0)%nat then Some (LDAP_AUTH_ERROR, base0)
      else
        let acc :=
          if str_eqb folder (lit "Users") then append_trunc base_size [] (lit "CN=" ++ folder ++ lit ",")
          else if negb (length folder =? 0)%nat then append_trunc base_size [] (folder ++ lit ",")
          else [] in
        match strtok_tokens "."%char domain with
        | [] => Some (LDAP_AUTH_SUCCESS, Some (append_trunc base_size acc (lit "DC=" ++ domain)))
        | labels =>
            match drop_last (append_labels base_size (lit "DC=") labels acc) with
            | None => UB
            | Some b => Some (LDAP_AUTH_SUCCESS, Some b)
            end
        end
  | _, _, _ => Some (LDAP_AUTH_ERROR, base0)
  end.

(** ** Names of groups *)
Definition ldap_group_forder_check (folder : option (list ascii)) : Z :=
  match folder with
  | None => RET_ERR
  | Some folder =>
      if negb (has_case_prefix (lit "OU=") folder) && negb (has_case_prefix (lit "CN=") folder) then RET_ERR else RET_OK
  end.

(** The rows of [tag]: organizational unit, domain component, common name. *)
Definition tag (tag_case : Z) (i : nat) : list ascii :=
  nth i (if tag_case =? LDAP_TAG_CASE_UPPER then map lit ["OU"; "DC"; "CN"]%string else map lit ["ou"; "dc"; "cn"]%string) [].

(** The list is built by prepending, so the path comes out innermost folder first. *)
Definition parse_mutil_path (size : nat) (group_info folder_cp : list ascii) (tag_case : Z) : list ascii :=
  let l := match strtok_tokens "/"%char folder_cp with [] => [folder_cp] | fs => rev fs end in
  append_labels size (tag tag_case 0 ++ lit "=") l group_info.

Definition parse_ldap_group_info (domain folder name group_info : option (list ascii)) (tag_case : Z)
    : option (Z * option (list ascii)) :=
  match domain, folder, name, group_info with
  | Some domain, Some folder, Some name, Some _ =>
      if negb (tag_case =? LDAP_TAG_CASE_UPPER) && negb (tag_case =? LDAP_TAG_CASE_LOWER)
      then Some (LDAP_AUTH_ERROR, group_info)
      else
        let size := LDAP_GROUPDN_MAX_LEN in
        let folder_cp := snd (strncpy_s (LDAP_GROUPFOLDER_MAX_LEN + 1) folder LDAP_GROUPFOLDER_MAX_LEN) in
        let domain_cp := snd (strncpy_s (LDAP_GROUPFOLDER_MAX_LEN + 1) domain LDAP_GROUPFOLDER_MAX_LEN) in
        let acc := append_trunc size [] (tag tag_case 2 ++ lit "=" ++ name ++ lit ",") in
        let acc :=
          if ldap_group_forder_check (Some folder_cp) =? RET_OK then append_trunc size acc (folder_cp ++ lit ",")
          else if negb (length folder_cp =? 0)%nat then parse_mutil_path size acc folder_cp tag_case
          else acc in
        match strtok_tokens "."%char domain_cp with
        | [] => Some (LDAP_AUTH_SUCCESS, Some (append_trunc size acc (tag tag_case 1 ++ lit "=" ++ domain_cp)))
        | labels =>
            match drop_last (append_labels size (tag tag_case 1 ++ lit "=") labels acc) with
            | None => UB
            | Some b => Some (LDAP_AUTH_SUCCESS, Some b)
            end
        end
  | _, _, _, _ => Some (LDAP_AUTH_ERROR, group_info)
  end.

(** ** Escaping *)

(** [strncpy_s(tmp, n + 1, &string[i], n)]: up to [n] characters from [i] on. *)
Definition slice (s : list ascii) (i n : nat) : list ascii := take n (drop i s).

Definition ldap_check_special_char_escape (string : list ascii) (i : nat) : bool :=
  let c := nth i string NUL in
  let '(tmp_str, tmp_uid_str) :=
    if char_eqb c "=" && (2 <=? i)%nat then
      (slice string (i - 2) 3, if (3 <=? i)%nat then slice string (i - 3) 4 else [])
    else if char_eqb c "," && (Z.of_nat i <? u64 (Z.of_nat (length string) - 3)) then (slice string (i + 1) 3, [])
    else ([], []) in
  negb (existsb (fun dn => str_case_eqb dn tmp_str || str_case_eqb (lit "UID=") tmp_uid_str)
          (map lit ["CN="; "OU="; "DC="]%string)).

Definition ldap_special_char1 : list ascii := lit "\" ++ [chr 34] ++ lit ";<>#+=,".

(** The loop from index [i]; it ends when [i] reaches the length of the string. *)
Fixpoint escape_loop (fuel i : nat) (string : list ascii) (string_max_len : nat) : option (list ascii) :=
  match fuel with
  | O => None
  | S fuel' =>
      match string !! i with
      | None => Some string
      | Some c =>
          match strchr c ldap_special_char1 with
          | None => escape_loop fuel' (S i) string string_max_len
          | Some _ =>
              let is_need_escape :=
                if char_eqb c "=" || char_eqb c "," then ldap_check_special_char_escape string i else true in
              if negb is_need_escape then escape_loop fuel' (S i) string string_max_len
              else
                let folder_tmp := take LDAP_USERFOLDER_MAX_LEN string in
                let string' := take i string ++ take (string_max_len - i - 1) ("\"%char :: drop i folder_tmp) in
                escape_loop fuel' (S (S i)) string' string_max_len
          end
      end
  end.

(** Each turn advances [i], and the string has at most [LDAP_USERFOLDER_MAX_LEN] characters. *)
Definition ldap_special_char_escape (string : list ascii) (string_max_len : nat) : option (list ascii) :=
  escape_loop (LDAP_USERFOLDER_MAX_LEN + 1) 0 string string_max_len.

(** ** The configuration *)

Definition zero_config : PAM_LDAP_CONFIG_S := {|
  uri := None; host := None; port := 0; base := None; groupdn := replicate MAX_USER_GROUP None; ldap_enable := 0;
  scope := 0; deref := 0; filter_ := None; version := 0; timelimit := 0; bind_timelimit := 0; restart := 0;
  cert_status := 0; cert_verifi_Level := 0; dn_with_uid := 0
|}.

Section config.
Context `{LdapCodes}.

(** [calloc_ok]: whether a missing configuration can be allocated. *)
Definition alloc_config (calloc_ok : bool) (presult : option PAM_LDAP_CONFIG_S) : Z * option PAM_LDAP_CONFIG_S :=
  let fill c := {|
    uri := uri c; host := None; port := 0; base := None; groupdn := replicate MAX_USER_GROUP None; ldap_enable := 0;
    scope := LDAP_SCOPE_SUBTREE; deref := LDAP_DEREF_NEVER; filter_ := None; version := LDAP_VERSION3;
    timelimit := LDAP_NO_LIMIT; bind_timelimit := 10; restart := 1; cert_status := cert_status c;
    cert_verifi_Level := cert_verifi_Level c; dn_with_uid := dn_with_uid c |} in
  match presult with
  | Some c => (LDAP_AUTH_SUCCESS, Some (fill c))
  | None => if calloc_ok then (LDAP_AUTH_SUCCESS, Some (fill zero_config)) else (LDAP_AUTH_ERROR, None)
  end.

(** What one group contributes: the slot and the name, or an error of [parse_ldap_group_info]. *)
Definition group_dn (user_domain : list ascii) (g : LDAP_GROUP_INFO) : option (Z * option (list ascii)) :=
  let groupname := snd (strncpy_s (LDAP_GROUPNAME_MAX_LEN + 1) (group_name g) LDAP_GROUPNAME_MAX_LEN) in
  let folder := snd (strncpy_s (LDAP_GROUPFOLDER_MAX_LEN + 1) (group_folder g) LDAP_GROUPFOLDER_MAX_LEN) in
  match ldap_special_char_escape folder LDAP_GROUPFOLDER_MAX_LEN with
  | None => None
  | Some folder =>
      let domain := snd (strncpy_s (LDAP_GROUPDOMAIN_MAX_LEN + 1) user_domain LDAP_GROUPDOMAIN_MAX_LEN) in
      parse_ldap_group_info (Some domain) (Some folder) (Some groupname) (Some []) LDAP_TAG_CASE_UPPER
  end.

(** The slots are [groupdn[group_inner_id - 1]] with an 8-bit index; the array has five. *)
Fixpoint read_groupdn (user_domain : list ascii) (gs : list LDAP_GROUP_INFO) (dns : list (option (list ascii)))
    : option (list (option (list ascii))) :=
  match gs with
  | [] => Some dns
  | g :: rest =>
      let ldap_group_id := Z.to_nat (u8 (group_inner_id g - 1)) in
      if negb (ldap_group_id <? length dns)%nat then UB
      else
        match group_dn user_domain g with
        | None => UB
        | Some (ret, dn) =>
            let dns := <[ldap_group_id := dn]> dns in
            if ret =? LDAP_AUTH_ERROR then Some dns else read_groupdn user_domain rest dns
        end
  end.

Definition get_ldap_scope (scope0 : Z) (auth_scope : list ascii) : Z :=
  if has_case_prefix (lit "sub") auth_scope then LDAP_SCOPE_SUBTREE
  else if has_case_prefix (lit "one") auth_scope then LDAP_SCOPE_ONELEVEL
  else if has_case_prefix (lit "base") auth_scope then LDAP_SCOPE_BASE
  else scope0.

(** The allocations of GLib do not fail: it ends the process instead. *)
Definition read_ldap_config (calloc_ok : bool) (presult : option PAM_LDAP_CONFIG_S) (i : LDAP_AUTH_INFO)
    : option (Z * option PAM_LDAP_CONFIG_S) :=
  match alloc_config calloc_ok presult with
  | (_, None) => Some (LDAP_AUTH_SUCCESS, None)
  | (_, Some c) =>
      let host' := snd (strncpy_s (LDAP_USERDOMAIN_MAX_LEN + 1) (hostaddr i) (length (hostaddr i))) in
      let userdomain := snd (strncpy_s (LDAP_USERDOMAIN_MAX_LEN + 1) (user_domain i) LDAP_USERDOMAIN_MAX_LEN) in
      let folder := snd (strncpy_s (LDAP_USERFOLDER_MAX_LEN + 1) (auth_folder i) LDAP_USERFOLDER_MAX_LEN) in
      match parse_ldap_base_info (Some userdomain) (Z.of_nat LDAP_USERDOMAIN_MAX_LEN + 1) (Some folder) (Some []) LDAP_USERDN_MAX_LEN with
      | None => UB
      | Some (ret, b) =>
          let cfg scope_ deref_ port_ tl btl ver rst dns := {|
            uri := uri c; host := Some host'; port := port_; base := b; groupdn := dns; ldap_enable := ldap_enable c;
            scope := scope_; deref := deref_; filter_ := filter_ c; version := ver; timelimit := tl; bind_timelimit := btl;
            restart := rst; cert_status := cert_verify_enabled i; cert_verifi_Level := cert_verify_level i; dn_with_uid := 0 |} in
          if ret =? LDAP_AUTH_ERROR
          then Some (LDAP_AUTH_ERROR, Some (cfg LDAP_SCOPE_SUBTREE (deref c) (port c) (timelimit c) (bind_timelimit c)
                                              (version c) (restart c) (groupdn c)))
          else
            match (if Z.of_nat (length (group i)) <? group_cnt i then UB
                   else read_groupdn (user_domain i) (groups i) (groupdn c)) with
            | None => UB
            | Some dns =>
                let port' := if auth_port i =? 0 then LDAP_PORT else auth_port i in
                Some (LDAP_AUTH_SUCCESS,
                      Some (cfg (get_ldap_scope LDAP_SCOPE_SUBTREE (auth_scope i)) LDAP_DEREF_NEVER port' (time_limit i)
                              (bind_time_limit i) (auth_version i) 0 dns))
            end
      end
  end.
End config.

Example config_run :
  let i := {| serverid := 0; hostaddr := lit "10.1.1.1"; auth_port := 0; user_domain := lit "it.huawei.com"; auth_folder := lit "Users";
              bind_dn := []; bind_dn_pwd := []; cert_verify_enabled := 0; cert_verify_level := 0; cert_inner_dir := [];
              auth_scope := lit "sub"; time_limit := 0; bind_time_limit := 10; auth_version := 3; tls_cipher := [];
              username := []; password := []; group_cnt := 2; group := [{| group_inner_id := 1; group_name := lit "ops"; group_folder := lit "a/b+c"; group_priv := 4 |};
                        {| group_inner_id := 3; group_name := lit "adm"; group_folder := lit "OU=x,OU=y"; group_priv := 4 |}] |} in
  match read_ldap_config true None i with
  | Some (0, Some c) =>
      base c = Some (lit "CN=Users,DC=it,DC=huawei,DC=com") /\ port c = 389 /\
      groupdn c = [Some (lit "CN=ops,OU=b\+c,OU=a,DC=it,DC=huawei,DC=com"); None;
                   Some (lit "CN=adm,OU=x,OU=y,DC=it,DC=huawei,DC=com"); None; None]
  | _ => False
  end.
Proof. vm_compute. repeat split. Qed.

(** Near the limit the loop cuts a character off behind its backslash, which then escapes the separator. *)
Example dangling_backslash :
  ldap_special_char_escape (replicate 253 "a"%char ++ lit "+") LDAP_GROUPFOLDER_MAX_LEN
  = Some (replicate 253 "a"%char ++ lit "\").
Proof. vm_compute. reflexivity. Qed.

(** ** Names as lists of components *)

Definition comma : ascii := ","%char.

(** Components, each followed by a comma. *)
Definition commas (cs : list (list ascii)) : list ascii := concat (map (fun c => c ++ [comma]) cs).

Lemma commas_app cs ds : commas (cs ++ ds) = commas cs ++ commas ds.
Proof. unfold commas. by rewrite map_app, concat_app. Qed.

Lemma commas_one c : commas [c] = c ++ [comma].
Proof. unfold commas. cbn. by rewrite app_nil_r. Qed.

Lemma commas_join cs : cs <> [] -> commas cs = join_fields comma cs ++ [comma].
Proof.
  induction cs as [|c cs IH]; [done|]. intros _. destruct cs as [|d cs]; [apply commas_one|].
  change (c :: d :: cs) with ([c] ++ d :: cs) at 1. rewrite commas_app, commas_one, IH by done.
  change (join_fields comma (c :: d :: cs)) with (c ++ comma :: join_fields comma (d :: cs)).
  by rewrite <- !app_assoc.
Qed.

Lemma drop_last_commas cs : cs <> [] -> drop_last (commas cs) = Some (join_fields comma cs).
Proof.
  intros Hne. rewrite commas_join by done. unfold drop_last. rewrite length_app. cbn [length].
  rewrite Nat.add_sub, take_app_length. by destruct (join_fields comma cs).
Qed.

Lemma append_fits size acc s : (length acc + length s < size)%nat -> append_trunc size acc s = acc ++ s.
Proof. intros Hl. unfold append_trunc. by rewrite take_ge by lia. Qed.

Lemma append_labels_fits size tg ls acc :
  (length (acc ++ commas (map (app tg) ls)) < size)%nat ->
  append_labels size tg ls acc = acc ++ commas (map (app tg) ls).
Proof.
  revert acc. induction ls as [|l ls IH]; intros acc Hl; cbn [append_labels map].
  { unfold commas. cbn. by rewrite app_nil_r. }
  assert (He : acc ++ commas (map (app tg) (l :: ls)) = (acc ++ tg ++ l ++ lit ",") ++ commas (map (app tg) ls)).
  { cbn [map]. change ((tg ++ l) :: map (app tg) ls) with ([tg ++ l] ++ map (app tg) ls).
    rewrite commas_app, commas_one. by rewrite <- !app_assoc. }
  cbn [map] in He, Hl. rewrite He in *. rewrite append_fits; [by rewrite IH|].
  rewrite length_app in Hl. rewrite length_app in Hl. lia.
Qed.

(** The labels of a domain; a domain of dots only is used as it is. *)
Definition domain_labels (domain : list ascii) : list (list ascii) :=
  match strtok_tokens "."%char domain with [] => [domain] | ls => ls end.

(** The components of a group's folder: a path is turned around, a folder that is a name already is kept. *)
Definition folder_components (tag_case : Z) (folder : list ascii) : list (list ascii) :=
  if has_case_prefix (lit "OU=") folder || has_case_prefix (lit "CN=") folder then [folder]
  else if (length folder =? 0)%nat then []
  else map (app (tag tag_case 0 ++ lit "="))
         (match strtok_tokens "/"%char folder with [] => [folder] | fs => rev fs end).

Definition group_components (tag_case : Z) (name folder domain : list ascii) : list (list ascii) :=
  (tag tag_case 2 ++ lit "=" ++ name) :: folder_components tag_case folder
    ++ map (app (tag tag_case 1 ++ lit "=")) (domain_labels domain).

Definition base_components (folder domain : list ascii) : list (list ascii) :=
  (if str_eqb folder (lit "Users") then [lit "CN=" ++ folder] else if (length folder =? 0)%nat then [] else [folder])
    ++ map (app (lit "DC=")) (domain_labels domain).

(** The end both parsers share. *)
Lemma append_domain size tg cs domain :
  (length (commas (cs ++ map (app tg) (domain_labels domain))) < size)%nat ->
  match strtok_tokens "."%char domain with
  | [] => Some (LDAP_AUTH_SUCCESS, Some (append_trunc size (commas cs) (tg ++ domain)))
  | labels => match drop_last (append_labels size tg labels (commas cs)) with
              | None => UB
              | Some b => Some (LDAP_AUTH_SUCCESS, Some b)
              end
  end = Some (LDAP_AUTH_SUCCESS, Some (join_fields comma (cs ++ map (app tg) (domain_labels domain)))).
Proof.
  unfold domain_labels. destruct (strtok_tokens "."%char domain) as [|l ls].
  - cbn [map]. rewrite commas_app, commas_one. intros Hl. rewrite append_fits.
    2: { rewrite !length_app in Hl. rewrite length_app. cbn [length] in Hl. lia. }
    do 3 f_equal. apply (app_inj_tail _ _ comma comma). rewrite <- commas_join by (by destruct cs).
    by rewrite commas_app, commas_one, <- app_assoc.
  - rewrite commas_app. intros Hl. rewrite append_labels_fits by done. rewrite <- commas_app.
    rewrite drop_last_commas by (by destruct cs). done.
Qed.

Lemma lit_app_one (s t : list ascii) : s ++ t ++ lit "," = (s ++ t) ++ [comma].
Proof. by rewrite <- app_assoc. Qed.

Lemma folder_appended size tag_case folder cs :
  (length (commas (cs ++ folder_components tag_case folder)) < size)%nat ->
  (if ldap_group_forder_check (Some folder) =? RET_OK then append_trunc size (commas cs) (folder ++ lit ",")
   else if negb (length folder =? 0)%nat then parse_mutil_path size (commas cs) folder tag_case
   else commas cs) = commas (cs ++ folder_components tag_case folder).
Proof.
  unfold folder_components, ldap_group_forder_check.
  destruct (has_case_prefix (lit "OU=") folder), (has_case_prefix (lit "CN=") folder); cbn [negb andb orb RET_OK RET_ERR Z.eqb];
    rewrite commas_app; intros Hl.
  1-3: rewrite commas_one in *; apply append_fits; rewrite !length_app in *; cbn [length] in *; lia.
  destruct (length folder =? 0)%nat; cbn [negb]; [by rewrite app_nil_r|]. unfold parse_mutil_path.
  by apply append_labels_fits.
Qed.

Lemma commas_mono size cs ds : (length (commas (cs ++ ds)) < size)%nat -> (length (commas cs) < size)%nat.
Proof. rewrite commas_app, length_app. lia. Qed.

Lemma strncpy_255 s : (length s <= 255)%nat -> snd (strncpy_s 256 s 255) = s.
Proof. intros Hl. unfold strncpy_s. rewrite (proj2 (Nat.ltb_lt _ _)) by lia. cbn [snd]. by apply take_ge. Qed.

(** As long as they fit their buffers, the name of a group is its common name, its folder from the innermost
    out and the labels of the domain, and the base is the folder and the labels, separated by commas. *)
Theorem names_of_components domain folder name buf tag_case :
  (length folder <= 255)%nat -> (length domain <= 255)%nat -> tag_case = 0 \/ tag_case = 1 ->
  ((length (commas (group_components tag_case name folder domain)) < 1021)%nat ->
   parse_ldap_group_info (Some domain) (Some folder) (Some name) (Some buf) tag_case
   = Some (LDAP_AUTH_SUCCESS, Some (join_fields comma (group_components tag_case name folder domain)))) /\
  ((length (commas (base_components folder domain)) < 766)%nat ->
   parse_ldap_base_info (Some domain) 256 (Some folder) (Some buf) 766
   = Some (LDAP_AUTH_SUCCESS, Some (join_fields comma (base_components folder domain)))).
Proof.
  intros Hf Hd Ht. split; intros Hl.
  - unfold parse_ldap_group_info. replace (negb _ && negb _) with false by (by destruct Ht as [-> | ->]).
    change LDAP_GROUPDN_MAX_LEN with 1021%nat. change (LDAP_GROUPFOLDER_MAX_LEN + 1)%nat with 256%nat.
    change LDAP_GROUPFOLDER_MAX_LEN with 255%nat. rewrite !strncpy_255 by done. unfold group_components in *.
    set (c0 := tag tag_case 2 ++ lit "=" ++ name) in *.
    rewrite (app_comm_cons _ _ c0) in *. change (c0 :: folder_components tag_case folder) with ([c0] ++ folder_components tag_case folder) in *.
    pose proof (commas_mono _ _ _ Hl) as Hl1. pose proof (commas_mono _ _ _ Hl1) as Hl0.
    replace (append_trunc 1021 [] (tag tag_case 2 ++ lit "=" ++ name ++ lit ",")) with (commas [c0]).
    2: { rewrite commas_one in *. unfold c0 in *. rewrite !app_assoc in *. by rewrite append_fits. }
    cbv zeta. rewrite folder_appended, (app_assoc (tag tag_case 1)) by exact Hl1. by apply append_domain.
  - unfold parse_ldap_base_info. change ((256 =? 0) || (766 =? 0)%nat) with false. cbv iota zeta. unfold base_components in *.
    pose proof (commas_mono _ _ _ Hl) as Hl0.
    set (cs := if str_eqb folder (lit "Users") then [lit "CN=" ++ folder] else if (length folder =? 0)%nat then [] else [folder]) in *.
    assert (Hacc : (if str_eqb folder (lit "Users") then append_trunc 766 [] (lit "CN=" ++ folder ++ lit ",")
          else if negb (length folder =? 0)%nat then append_trunc 766 [] (folder ++ lit ",") else []) = commas cs).
    { unfold cs in *. destruct (str_eqb folder (lit "Users")).
      - rewrite commas_one in *. rewrite lit_app_one. by rewrite append_fits.
      - destruct (length folder =? 0)%nat; cbn [negb]; [done|]. rewrite commas_one in *. by rewrite append_fits. }
    rewrite Hacc. by apply append_domain.
Qed.

(** ** Escaping *)

(** The text without its escapes, and the characters of it that stand without one. *)
Fixpoint unescape (s : list ascii) : list ascii :=
  match s with
  | [] => []
  | c :: rest =>
      if char_eqb c "\" then match rest with [] => [] | d :: rest' => d :: unescape rest' end
      else c :: unescape rest
  end.

Fixpoint bare (s : list ascii) : list ascii :=
  match s with
  | [] => []
  | c :: rest =>
      if char_eqb c "\" then match rest with [] => [c] | _ :: rest' => bare rest' end
      else c :: bare rest
  end.

Definition special (c : ascii) : bool := bool_decide (c ∈ ldap_special_char1).

Definition needs_escape (string : list ascii) (i : nat) (c : ascii) : bool :=
  special c && (if char_eqb c "=" || char_eqb c "," then ldap_check_special_char_escape string i else true).

(** The loop without its buffers: [acc] is the part already written. *)
Fixpoint escape_ref (acc s : list ascii) : list ascii :=
  match s with
  | [] => acc
  | c :: r =>
      if needs_escape (acc ++ c :: r) (length acc) c then escape_ref (acc ++ ["\"%char; c]) r
      else escape_ref (acc ++ [c]) r
  end.

Lemma special_strchr c : special c = match strchr c ldap_special_char1 with Some _ => true | None => false end.
Proof.
  unfold special. destruct (strchr c ldap_special_char1) as [i|] eqn:E.
  - apply bool_decide_eq_true_2. apply strchr_Some in E as (b & -> & _). apply elem_of_app. right. left.
  - apply bool_decide_eq_false_2. by apply strchr_None.
Qed.

Lemma escape_ref_length acc s : (length acc + length s <= length (escape_ref acc s))%nat.
Proof.
  revert acc. induction s as [|c s IH]; intros acc; cbn [escape_ref length]; [lia|].
  destruct (needs_escape _ _ _); (etransitivity; [|apply IH]); rewrite length_app; cbn [length]; lia.
Qed.

Lemma escape_ref_bound acc s :
  (length (escape_ref acc s) <= length acc + length s + length (filter (fun c => special c = true) s))%nat.
Proof.
  revert acc. induction s as [|c s IH]; intros acc; cbn [escape_ref length]; [lia|]. unfold needs_escape.
  rewrite filter_cons. destruct (special c) eqn:E; cbn [andb].
  - rewrite decide_True by done. cbn [length]. destruct (if char_eqb c "=" || char_eqb c "," then _ else true); rewrite IH, length_app; cbn [length]; lia.
  - rewrite decide_False by done. rewrite IH, length_app. cbn [length]. lia.
Qed.

Lemma lookup_middle_eq {A} (acc : list A) c r : (acc ++ c :: r) !! length acc = Some c.
Proof. by rewrite list_lookup_middle. Qed.

Lemma escape_loop_ref fuel acc s :
  (length s < fuel)%nat -> (length (escape_ref acc s) < 255)%nat ->
  escape_loop fuel (length acc) (acc ++ s) 255 = Some (escape_ref acc s).
Proof.
  revert acc s. induction fuel as [|fuel IH]; intros acc s Hf Hl; [lia|]. cbn [escape_loop].
  destruct s as [|c s]; [by rewrite app_nil_r, lookup_ge_None_2 by lia|]. rewrite lookup_middle_eq.
  cbn [escape_ref length] in *. unfold needs_escape in *. rewrite special_strchr in *.
  assert (Hstep : (length (escape_ref (acc ++ [c]) s) < 255)%nat ->
    escape_loop fuel (S (length acc)) (acc ++ c :: s) 255 = Some (escape_ref (acc ++ [c]) s)).
  { intros Hl'. change (c :: s) with ([c] ++ s). rewrite app_assoc. rewrite <- IH by (done || lia). f_equal.
    rewrite length_app. cbn [length]. lia. }
  destruct (strchr c ldap_special_char1); cbn [andb] in *; [|by apply Hstep].
  revert Hl.
  destruct (if char_eqb c "=" || char_eqb c "," then ldap_check_special_char_escape (acc ++ c :: s) (length acc) else true);
    cbn [negb]; intros Hl; [|by apply Hstep].
  pose proof (escape_ref_length (acc ++ ["\"%char; c]) s) as Hb. rewrite length_app in Hb. cbn [length] in Hb.
  change LDAP_USERFOLDER_MAX_LEN with 255%nat. rewrite (take_ge (acc ++ c :: s) 255) by (rewrite length_app; cbn [length]; lia).
  rewrite take_app_length, drop_app_length, (take_ge ("\"%char :: c :: s)) by (cbn [length]; lia).
  change ("\"%char :: c :: s) with (["\"%char; c] ++ s). rewrite app_assoc. rewrite <- IH by (done || lia). f_equal.
  rewrite length_app. cbn [length]. lia.
Qed.

(** What is appended reads back and has no bare special characters but '=' and ','. *)
Lemma escape_ref_reads acc s :
  exists t, escape_ref acc s = acc ++ t /\ unescape t = s /\
    Forall (fun c => special c = true -> c = "="%char \/ c = comma) (bare t).
Proof.
  revert acc. induction s as [|c s IH]; intros acc; cbn [escape_ref].
  { exists []. split; [by rewrite app_nil_r|]. split; [done|constructor]. }
  destruct (needs_escape (acc ++ c :: s) (length acc) c) eqn:E.
  - destruct (IH (acc ++ ["\"%char; c])) as (t & -> & Ht & HF). exists ("\"%char :: c :: t).
    split; [by rewrite <- app_assoc|]. cbn. split; [by rewrite Ht|done].
  - destruct (IH (acc ++ [c])) as (t & -> & Ht & HF). exists (c :: t). split; [by rewrite <- app_assoc|].
    assert (Hc : special c = true -> c = "="%char \/ c = comma).
    { intros Hs. unfold needs_escape in E. rewrite Hs in E. cbn [andb] in E.
      destruct (char_eqb c "=") eqn:E1; [left; by apply char_eqb_eq|].
      destruct (char_eqb c ",") eqn:E2; [right; by apply char_eqb_eq|]. done. }
    cbn [unescape bare]. destruct (char_eqb c "\") eqn:Eb.
    + apply char_eqb_eq in Eb as ->. destruct (Hc eq_refl); discriminate.
    + split; [by rewrite Ht|]. constructor; done.
Qed.

(** Every turn advances by at least one and the string keeps at most 255 characters. *)
Lemma escape_loop_total fuel i s n :
  (length s <= 255)%nat -> (n <= 255)%nat -> (255 - i < fuel)%nat -> is_Some (escape_loop fuel i s n).
Proof.
  revert i s. induction fuel as [|fuel IH]; intros i s Hs Hn Hf; [lia|]. cbn [escape_loop].
  destruct (s !! i) as [c|] eqn:E; [|by eexists]. apply lookup_lt_Some in E.
  destruct (strchr c ldap_special_char1); [|apply IH; lia].
  destruct (negb _); [apply IH; lia|]. apply IH; [|done|lia].
  rewrite length_app, !length_take. cbn [length]. lia.
Qed.

(** Of the special characters only '=' and ',' stand without an escape. *)
Definition escaped (t : list ascii) : Prop := Forall (fun c => special c = true -> c = "="%char \/ c = ","%char) (bare t).

Lemma escaped_pair c t : escaped t -> escaped ("\"%char :: c :: t).
Proof. done. Qed.

Lemma escaped_cons c t : (special c = true -> c = "="%char \/ c = ","%char) -> escaped t -> escaped (c :: t).
Proof.
  intros Hc Ht. unfold escaped. cbn [bare]. destruct (char_eqb c "\") eqn:E; [|by constructor].
  apply char_eqb_eq in E as ->. destruct (Hc eq_refl); discriminate.
Qed.

(** What is cut off at the end of the buffer: possibly the character behind a backslash. *)
Definition cut_escaped (n : nat) (t : list ascii) : Prop :=
  escaped t \/ n = 254%nat /\ exists t0, t = t0 ++ ["\"%char] /\ escaped t0 /\ unescape t = unescape t0.

Lemma cut_cons n c t : (special c = true -> c = "="%char \/ c = ","%char) -> cut_escaped n t -> cut_escaped n (c :: t).
Proof.
  intros Hc [Ht|(Hn & t0 & -> & Ht & Hu)]; [left; by apply escaped_cons|]. right. split; [done|].
  exists (c :: t0). split; [done|]. split; [by apply escaped_cons|]. cbn [app unescape] in *.
  destruct (char_eqb c "\") eqn:E; [|by rewrite Hu]. apply char_eqb_eq in E as ->. destruct (Hc eq_refl); discriminate.
Qed.

Lemma cut_pair n c t : cut_escaped n t -> cut_escaped n ("\"%char :: c :: t).
Proof.
  intros [Ht|(Hn & t0 & -> & Ht & Hu)]; [by left|]. right. split; [done|].
  exists ("\"%char :: c :: t0). split; [done|]. split; [done|]. cbn. by rewrite Hu.
Qed.

(** The loop on any string of the array: a prefix of the rest is escaped, all of it unless the buffer is used up. *)
Definition escapes (acc r out : list ascii) : Prop :=
  exists t, out = acc ++ t /\ (Nat.min 254 (length (acc ++ r)) <= length out <= 255)%nat /\ unescape t `prefix_of` r /\
    ((length out < 254)%nat -> unescape t = r) /\ cut_escaped (length out) t.

Lemma unescape_plain c t : (special c = true -> c = "="%char \/ c = ","%char) -> unescape (c :: t) = c :: unescape t.
Proof.
  intros Hc. cbn. destruct (char_eqb c "\") eqn:E; [|done]. apply char_eqb_eq in E as ->. destruct (Hc eq_refl); discriminate.
Qed.

Lemma escapes_skip acc c r out :
  (special c = true -> c = "="%char \/ c = ","%char) -> escapes (acc ++ [c]) r out -> escapes acc (c :: r) out.
Proof.
  intros Hc (t & -> & Hl & Hp & He & Hcut). rewrite <- app_assoc in *. cbn [app] in *. exists (c :: t).
  split; [done|]. rewrite <- app_assoc in Hl. cbn [app] in Hl. split; [done|]. rewrite unescape_plain by done.
  split; [by apply prefix_cons|]. split; [intros Hlt; by rewrite He|]. by apply cut_cons.
Qed.

Lemma escapes_pair acc c r k out :
  (252 - length acc)%nat = k -> (length acc <= 252)%nat -> escapes (acc ++ ["\"%char; c]) (take k r) out -> escapes acc (c :: r) out.
Proof.
  intros Hk Hacc (t & -> & Hl & Hp & He & Hcut). rewrite <- app_assoc in *. cbn [app] in *. exists ("\"%char :: c :: t).
  split; [done|]. rewrite !length_app in *. cbn [length] in *. rewrite length_take in Hl. split; [lia|]. cbn [unescape].
  rewrite char_eqb_refl. split.
  { apply prefix_cons. etrans; [exact Hp|]. apply prefix_take. }
  split; [|by apply cut_pair]. intros Hlt. rewrite He by lia. rewrite take_ge; [done|]. lia.
Qed.

Lemma escape_loop_escapes fuel acc r out :
  (length (acc ++ r) <= 255)%nat -> escape_loop fuel (length acc) (acc ++ r) 255 = Some out -> escapes acc r out.
Proof.
  revert acc r. induction fuel as [|fuel IH]; intros acc r Hl; [done|]. cbn [escape_loop].
  destruct r as [|c r].
  { rewrite app_nil_r in *. rewrite lookup_ge_None_2 by done. intros [= <-]. exists []. rewrite !app_nil_r.
    split; [done|]. split; [lia|]. split; [done|]. split; [done|]. left. constructor. }
  rewrite lookup_middle_eq. pose proof (special_strchr c) as Hsp.
  assert (Hskip : (special c = true -> c = "="%char \/ c = ","%char) ->
    escape_loop fuel (S (length acc)) (acc ++ c :: r) 255 = Some out -> escapes acc (c :: r) out).
  { intros Hc He. apply escapes_skip; [done|]. change (c :: r) with ([c] ++ r) in *. rewrite app_assoc in *. apply IH; [done|].
    rewrite <- He. f_equal. rewrite length_app. cbn [length]. lia. }
  assert (Hins : escape_loop fuel (S (S (length acc)))
      (take (length acc) (acc ++ c :: r) ++ take (255 - length acc - 1) ("\"%char :: drop (length acc) (take 255 (acc ++ c :: r)))) 255
      = Some out -> escapes acc (c :: r) out).
  { rewrite (take_ge (acc ++ c :: r) 255), take_app_length, drop_app_length by done. rewrite length_app in Hl. cbn [length] in Hl.
    intros He. destruct (decide (length acc <= 252)%nat) as [Hs|Hs].
    - apply (escapes_pair acc c r (252 - length acc)%nat); [done|done|]. apply IH; [rewrite !length_app, length_take; cbn [length]; lia|].
      rewrite <- He. rewrite length_app, Nat.add_comm. cbn [length]. rewrite <- app_assoc. do 2 f_equal.
      replace (255 - length acc - 1)%nat with (S (S (252 - length acc)))%nat by lia. done.
    - destruct fuel as [|fuel]; [done|]. cbn [escape_loop] in He.
      assert (Hk : (255 - length acc - 1 = 0 \/ 255 - length acc - 1 = 1)%nat) by lia.
      rewrite lookup_ge_None_2 in He by (rewrite length_app, length_take; cbn [length]; lia). injection He as <-.
      destruct Hk as [Hk|Hk]; rewrite Hk; cbn [take].
      + exists []. rewrite app_nil_r. split; [done|].
        split; [rewrite length_app; cbn [length]; lia|]. split; [apply prefix_nil|]. split; [lia|]. left. constructor.
      + assert (Hout : length (acc ++ ["\"%char]) = 254%nat) by (rewrite length_app; cbn [length]; lia).
        exists ["\"%char]. split; [done|]. rewrite Hout. split; [rewrite length_app; cbn [length]; lia|].
        split; [apply prefix_nil|]. split; [lia|]. right.
        split; [done|]. exists []. split; [done|]. split; [constructor|done]. }
  destruct (strchr c ldap_special_char1); [|apply Hskip; congruence].
  destruct (char_eqb c "=" || char_eqb c ",") eqn:E; cbn [negb]; [|exact Hins].
  assert (Hc : special c = true -> c = "="%char \/ c = ","%char).
  { intros _. apply orb_true_iff in E as [E|E]; apply char_eqb_eq in E; auto. }
  destruct (negb _); [by apply Hskip|exact Hins].
Qed.

(** C27: escaping a folder ends for every folder that the arrays can hold and never leaves the buffer. Removing the
    escapes gives a prefix of the folder back: the whole folder whenever the result has fewer than 254 characters, as it does when
    the folder and its special characters together are fewer than 255; at the end of the buffer the rest is cut off. Of the
    special characters only '=' and ',' can stand without an escape, but for a backslash in the last place whose
    character has been cut off. *)
Theorem escape_roundtrip s :
  (length s <= 255)%nat ->
  exists out, ldap_special_char_escape s LDAP_GROUPFOLDER_MAX_LEN = Some out /\
    (Nat.min 254 (length s) <= length out <= 255)%nat /\ unescape out `prefix_of` s /\
    ((length out < 254)%nat \/ (length s + length (filter (fun c => special c = true) s) < 255)%nat -> unescape out = s) /\
    (escaped out \/ length out = 254%nat /\ exists t, out = t ++ ["\"%char] /\ escaped t).
Proof.
  intros Hs. unfold ldap_special_char_escape. change LDAP_GROUPFOLDER_MAX_LEN with 255%nat.
  change (LDAP_USERFOLDER_MAX_LEN + 1)%nat with 256%nat.
  destruct (escape_loop_total 256 0 s 255 Hs ltac:(lia) ltac:(lia)) as [out Ho]. exists out. split; [done|].
  destruct (escape_loop_escapes 256 [] s out Hs Ho) as (t & -> & Hl & Hp & He & Hcut). cbn [app] in *.
  split; [done|]. split; [done|]. split.
  - intros [Hlt|Hfit]; [by apply He|]. pose proof (escape_ref_bound [] s) as Hb. cbn [length] in Hb.
    destruct (escape_ref_reads [] s) as (t' & Ht' & Hu & _). cbn [app] in Ht'.
    pose proof (escape_loop_ref 256 [] s ltac:(lia) ltac:(lia)) as Hr. cbn [length app] in Hr. congruence.
  - destruct Hcut as [Hcut|(Hn & t0 & -> & Ht & _)]; [by left|]. right. split; [done|]. by exists t0.
Qed.

(** ** The configuration *)

Lemma append_labels_nonempty size tg ls acc : acc <> [] -> append_labels size tg ls acc <> [].
Proof.
  revert acc. induction ls as [|l ls IH]; intros acc Hne; cbn [append_labels]; [done|]. apply IH. unfold append_trunc. by destruct acc.
Qed.

Lemma append_label_nonempty size t tg ls l acc :
  (length acc + 1 < size)%nat -> append_labels size (t :: tg) (l :: ls) acc <> [].
Proof.
  intros Hl. cbn [append_labels]. apply append_labels_nonempty. unfold append_trunc.
  destruct (size - length acc - 1)%nat eqn:E; [lia|]. by destruct acc.
Qed.

Lemma drop_last_total acc : acc <> [] -> exists b, drop_last acc = Some b.
Proof. intros Hne. destruct acc as [|a acc]; [done|]. by eexists. Qed.

Lemma length_strncpy n s k : (length (snd (strncpy_s n s k)) <= k)%nat.
Proof. unfold strncpy_s. destruct (_ <? _)%nat; cbn [snd length]; [rewrite length_take|]; lia. Qed.

Lemma group_dn_total dom g : exists dn, group_dn dom g = Some (LDAP_AUTH_SUCCESS, Some dn).
Proof.
  unfold group_dn. set (folder := snd (strncpy_s _ (group_folder g) _)).
  assert (Hf : (length folder <= 255)%nat) by apply length_strncpy.
  destruct (escape_loop_total 256 0 folder 255 Hf ltac:(lia) ltac:(lia)) as [f Hesc].
  change (ldap_special_char_escape folder LDAP_GROUPFOLDER_MAX_LEN) with (escape_loop 256 0 folder 255). rewrite Hesc.
  unfold parse_ldap_group_info. cbn [negb andb LDAP_TAG_CASE_UPPER Z.eqb]. cbv zeta.
  set (acc0 := append_trunc LDAP_GROUPDN_MAX_LEN [] _). assert (H0 : acc0 <> []) by done.
  set (acc1 := if _ =? _ then _ else _). assert (H1 : acc1 <> []).
  { unfold acc1. destruct (_ =? _); [unfold append_trunc; by destruct acc0|]. destruct (negb _); [|done].
    by apply append_labels_nonempty. }
  destruct (strtok_tokens _ _); [by eexists|].
  match goal with |- context [drop_last ?x] =>
    destruct (drop_last_total x) as [b ->]; [by apply append_labels_nonempty|] end.
  by eexists.
Qed.

Definition slot (g : LDAP_GROUP_INFO) : nat := Z.to_nat (group_inner_id g - 1).

Lemma read_groupdn_spec dom gs dns :
  length dns = 5%nat -> Forall (fun g => 1 <= group_inner_id g <= 5) gs -> NoDup (map slot gs) ->
  exists dns', read_groupdn dom gs dns = Some dns' /\ length dns' = 5%nat /\
    Forall (fun g => exists dn, group_dn dom g = Some (LDAP_AUTH_SUCCESS, Some dn) /\ dns' !! slot g = Some (Some dn)) gs /\
    forall k, k ∉ map slot gs -> dns' !! k = dns !! k.
Proof.
  intros Hl HF. revert dns Hl. induction HF as [|g gs Hg HF IH]; intros dns Hl HN; [by exists dns|].
  cbn [map] in HN. apply NoDup_cons in HN as [Hnin HN]. cbn [read_groupdn].
  assert (Hs : Z.to_nat (u8 (group_inner_id g - 1)) = slot g) by (unfold slot; by rewrite u8_small by lia).
  assert (Hlt : (slot g < 5)%nat) by (unfold slot; lia).
  rewrite Hs, Hl. rewrite (proj2 (Nat.ltb_lt _ _)) by done. cbn [negb].
  destruct (group_dn_total dom g) as [dn Hdn]. rewrite Hdn. change (LDAP_AUTH_SUCCESS =? LDAP_AUTH_ERROR) with false. cbv iota.
  destruct (IH (<[slot g := Some dn]> dns)) as (dns' & -> & Hl' & Hgs & Hk); [by rewrite length_insert|done|].
  exists dns'. split; [done|]. split; [done|]. split.
  - constructor; [|done]. exists dn. split; [done|]. rewrite Hk by done. apply list_lookup_insert_eq. lia.
  - intros k Hk'. cbn [map] in Hk'. rewrite not_elem_of_cons in Hk'. destruct Hk' as [? ?]. rewrite Hk by done.
    by apply list_lookup_insert_ne.
Qed.

Lemma parse_base_total domain folder :
  (length folder <= 255)%nat -> exists b, parse_ldap_base_info (Some domain) 256 (Some folder) (Some []) 766 = Some (LDAP_AUTH_SUCCESS, Some b).
Proof.
  intros Hf. unfold parse_ldap_base_info. change ((256 =? 0) || (766 =? 0)%nat) with false. cbv iota zeta.
  set (acc := if str_eqb folder (lit "Users") then _ else _).
  assert (Ha : (length acc <= 300)%nat).
  { unfold acc. destruct (str_eqb folder (lit "Users")) eqn:E.
    - apply str_eqb_eq in E as ->. vm_compute. lia.
    - destruct (negb _); [|cbn; lia]. unfold append_trunc. rewrite app_nil_l, length_take, length_app. cbn [length lit list_ascii_of_string]. lia. }
  destruct (strtok_tokens _ _) as [|l ls]; [by eexists|].
  destruct (drop_last_total (append_labels 766 (lit "DC=") (l :: ls) acc)) as [b Hb]; [|rewrite Hb; by eexists].
  apply (append_label_nonempty 766 "D"%char (lit "C=")). lia.
Qed.

(** C36: reading a configuration whose groups have different ids from 1 to 5 succeeds: every group has its name in
    the slot of its id, the other slots are empty, the port is 389 when none is given and the scope is the subtree
    unless "one" or "base" is asked for. A group with another id is written outside the array. *)
Theorem config_of_groups `{LdapCodes} i :
  group_cnt i <= Z.of_nat (length (group i)) ->
  (NoDup (map slot (groups i)) -> Forall (fun g => 1 <= group_inner_id g <= 5) (groups i) ->
   exists c, read_ldap_config true None i = Some (LDAP_AUTH_SUCCESS, Some c) /\
     Forall (fun g => exists dn, group_dn (user_domain i) g = Some (LDAP_AUTH_SUCCESS, Some dn) /\
                                 groupdn c !! slot g = Some (Some dn)) (groups i) /\
     (forall k, (k < 5)%nat -> k ∉ map slot (groups i) -> groupdn c !! k = Some None) /\
     port c = (if auth_port i =? 0 then LDAP_PORT else auth_port i) /\
     scope c = (if has_case_prefix (lit "sub") (auth_scope i) then LDAP_SCOPE_SUBTREE
                else if has_case_prefix (lit "one") (auth_scope i) then LDAP_SCOPE_ONELEVEL
                else if has_case_prefix (lit "base") (auth_scope i) then LDAP_SCOPE_BASE else LDAP_SCOPE_SUBTREE)) /\
  (forall g rest, groups i = g :: rest -> 0 <= group_inner_id g < 256 -> ~ 1 <= group_inner_id g <= 5 ->
   read_ldap_config true None i = UB).
Proof.
  intros Hcnt. unfold read_ldap_config, alloc_config.
  destruct (parse_base_total (snd (strncpy_s (LDAP_USERDOMAIN_MAX_LEN + 1) (user_domain i) LDAP_USERDOMAIN_MAX_LEN))
    (snd (strncpy_s (LDAP_USERFOLDER_MAX_LEN + 1) (auth_folder i) LDAP_USERFOLDER_MAX_LEN)) ltac:(apply length_strncpy)) as [b Hb].
  change (Z.of_nat LDAP_USERDOMAIN_MAX_LEN + 1) with 256. change LDAP_USERDN_MAX_LEN with 766%nat. rewrite Hb.
  change (LDAP_AUTH_SUCCESS =? LDAP_AUTH_ERROR) with false. cbv iota zeta. cbn [groupdn].
  rewrite (proj2 (Z.ltb_ge _ _)) by done. split.
  - intros HN HF. destruct (read_groupdn_spec (user_domain i) (groups i) (replicate MAX_USER_GROUP None) eq_refl HF HN)
      as (dns & -> & Hl & Hg & Hk).
    eexists. split; [done|]. cbn [groupdn port scope]. split; [done|]. split; [|done].
    intros k Hk5 Hnin. rewrite Hk by done. by apply lookup_replicate.
  - intros g rest -> Hb8 Hid. cbn [read_groupdn]. rewrite length_replicate. change MAX_USER_GROUP with 5%nat.
    rewrite (proj2 (Nat.ltb_ge _ _)); [done|]. unfold u8. dlia.
Qed.

(** ** The theorems at concrete inputs *)

Lemma names_of_components_witness :
  parse_ldap_group_info (Some (lit "it.huawei.com")) (Some (lit "a/b")) (Some (lit "ops")) (Some []) 0
  = Some (0, Some (lit "CN=ops,OU=b,OU=a,DC=it,DC=huawei,DC=com")) /\
  parse_ldap_base_info (Some (lit "it.huawei.com")) 256 (Some (lit "a/b")) (Some []) 766
  = Some (0, Some (lit "a/b,DC=it,DC=huawei,DC=com")).
Proof.
  destruct (names_of_components (lit "it.huawei.com") (lit "a/b") (lit "ops") [] 0
    ltac:(vm_compute; lia) ltac:(vm_compute; lia) ltac:(by left)) as [H1 H2].
  split; [exact (H1 ltac:(vm_compute; lia))|exact (H2 ltac:(vm_compute; lia))].
Defined.

Lemma escape_roundtrip_witness :
  (exists out, ldap_special_char_escape (lit "a+b,CN=c,d\e") LDAP_GROUPFOLDER_MAX_LEN = Some out /\
    out = lit "a\+b,CN=c\,d\\e" /\ unescape out = lit "a+b,CN=c,d\e") /\
  (exists out, ldap_special_char_escape (replicate 253 "a"%char ++ lit "+") LDAP_GROUPFOLDER_MAX_LEN = Some out /\
    unescape out `prefix_of` replicate 253 "a"%char ++ lit "+" /\ ~ escaped out).
Proof.
  split.
  - destruct (escape_roundtrip (lit "a+b,CN=c,d\e") ltac:(vm_compute; lia)) as (out & He & _ & _ & Hu & _).
    exists out. split; [exact He|]. split; [injection He as <-; reflexivity|]. apply Hu. right. vm_compute. lia.
  - destruct (escape_roundtrip (replicate 253 "a"%char ++ lit "+") ltac:(vm_compute; lia)) as (out & He & _ & Hp & _).
    exists out. split; [exact He|]. split; [exact Hp|]. rewrite dangling_backslash in He. injection He as <-.
    unfold escaped. intros HF. apply (proj1 (Forall_forall _ _)) with (x := "\"%char) in HF;
      [destruct HF; [reflexivity|discriminate|discriminate]|]. vm_compute. set_solver.
Defined.

Definition demo_config : LDAP_AUTH_INFO := {|
  serverid := 0; hostaddr := lit "10.1.1.1"; auth_port := 0; user_domain := lit "it.huawei.com"; auth_folder := lit "Users";
  bind_dn := []; bind_dn_pwd := []; cert_verify_enabled := 0; cert_verify_level := 0; cert_inner_dir := [];
  auth_scope := lit "one"; time_limit := 0; bind_time_limit := 10; auth_version := 3; tls_cipher := [];
  username := lit "bob"; password := lit "secret"; group_cnt := 1;
  group := [{| group_inner_id := 3; group_name := lit "adm"; group_folder := lit "OU=x"; group_priv := 4 |}]
|}.

Lemma config_of_groups_witness :
  exists c, read_ldap_config true None demo_config = Some (0, Some c) /\
    groupdn c !! 2%nat = Some (Some (lit "CN=adm,OU=x,DC=it,DC=huawei,DC=com")) /\ groupdn c !! 0%nat = Some None /\
    port c = 389 /\ scope c = 1.
Proof.
  destruct (config_of_groups demo_config ltac:(done)) as [H _].
  destruct H as (c & Hc & Hg & Hk & Hp & Hs).
  - cbn. apply NoDup_singleton.
  - constructor; [cbn; lia|constructor].
  - exists c. split; [exact Hc|]. split.
    + apply Forall_cons_1 in Hg as [(dn & Hd & Hl) _]. refine (eq_trans Hl _). revert Hd. vm_compute. by intros [= <-].
    + split; [apply Hk; [lia|]|split; [exact Hp|exact Hs]]. vm_compute. intros Hin. apply list_elem_of_singleton in Hin. discriminate.
Defined.
