(* ===== verification/LdapServer.v ===== *)
(** * ldap_auth.c, first part: the connection to the directory server and the binds

    The LDAP library and the server behind it are the record [openldap_lib]: every call is answered as a function
    of the calls made so far, which the session keeps as its [trace] (newest first). The functions are computations
    of the monad [M] on the session; a call with the null handle is undefined behaviour. At the end of the file the
    protocol a client has to keep to ([step], [trace_to]) and what each function does with respect to it. *)
From S2P Require Export LdapConfig Network.

(** ** Constants of ldap_auth.h, of <ldap.h> and of the platform *)
Definition LDAP_SUCCESS : Z := 0.
Definition LDAP_AUTH_INVALID_PASSWD : Z := -2.
Definition LDAP_USERDN_TRY_UID : Z := 1.
Definition LDAP_USERDN_START_WITH_UID : Z := 2.
Definition ENABLE : Z := 1.

(** *** Sizes of buffers, from comm_utils.h *)
Definition SMALL_BUFFER_SIZE : nat := 256.
Definition MAX_RSC_URI_LEN : nat := 256.

(** ** What the library is asked, and what it answers *)

Inductive ldap_option :=
  | OPT_SIZELIMIT (n : Z)
  | OPT_X_TLS_CACERTFILE (path : list ascii)
  | OPT_X_TLS_CACERTDIR (path : option (list ascii))
  | OPT_X_TLS_CRLCHECK (mode : Z)
  | OPT_X_TLS_CONNECT_CB
  | OPT_X_TLS_REQUIRE_CERT (level : Z)
  | OPT_X_TLS_PROTOCOL_MIN (version : Z)
  | OPT_X_TLS_CIPHER_SUITE (ciphers : list ascii)
  | OPT_X_TLS_NEWCTX (n : Z)
  | OPT_PROTOCOL_VERSION (version : Z)
  | OPT_REBIND_PROC
  | OPT_DEREF (n : Z)
  | OPT_TIMELIMIT (n : Z)
  | OPT_NETWORK_TIMEOUT (seconds : Z)
  | OPT_RESTART (on : bool)
  | OPT_TIMEOUT (seconds : Z).

(** The string options [alloc_sasl_defaults] may ask for. *)
Inductive sasl_option := OPT_X_SASL_MECH | OPT_X_SASL_REALM | OPT_X_SASL_AUTHCID | OPT_X_SASL_AUTHZID.

Record SASL_DEFAULT := {
  authentication_id : option (list ascii); authorization_id : option (list ascii); mechanisms : option (list ascii);
  pwd : option (list ascii); realm : option (list ascii); response_number : Z
}.

(** One prompt of SASL: what it asks for and the default it proposes. A list of prompts ends with SASL_CB_LIST_END. *)
Inductive sasl_cb :=
  | SASL_CB_GETREALM | SASL_CB_AUTHNAME | SASL_CB_PASS | SASL_CB_USER | SASL_CB_NOECHOPROMPT | SASL_CB_ECHOPROMPT
  | SASL_CB_OTHER (n : Z).
Record sasl_interact_t := { cb_id : sasl_cb; defresult : option (list ascii) }.

(** What the callback answers to a list of prompts: its code and the results it stored. *)
Definition sasl_callback : Type := list sasl_interact_t -> Z * list (list ascii).

(** A message of a search result: an entry, as the values of its attributes ([ldap_get_values]; NULL when there
    are none), or a message that is not an entry. *)
Definition entry : Type := list ascii -> option (list (list ascii)).
Definition message : Type := option entry.

(** [ldap_simple_bind], [ldap_result], [ldap_parse_result] for one bind: the message id, the type of the
    message received (0 or -1: none), and the result code in it, if it can be parsed. *)
Record simple_answer := { msgid : Z; received : Z; parsed : option Z }.

Inductive event :=
  | Initialize (url : list ascii) (rc : Z) (handle : bool)
  | SetOption (o : ldap_option) (rc : Z)
  | SimpleBind (who pw : list ascii) (timeout : Z) (a : simple_answer)
  | SimpleBindS (who pw : list ascii) (rc : Z)
  | SaslBind (dn mech : list ascii) (d : SASL_DEFAULT) (rc : Z)
  | Unbind (rc : Z)
  | Search (base : list ascii) (scope : Z) (filter : list ascii) (attr : option (list ascii)) (rc : Z) (res : list message).

Record openldap_lib := {
  l_initialize : list event -> list ascii -> Z * bool;
  l_set_option : list event -> ldap_option -> Z;
  l_simple_bind : list event -> list ascii -> list ascii -> Z -> simple_answer;
  l_simple_bind_s : list event -> list ascii -> list ascii -> Z;
  l_sasl_bind : list event -> list ascii -> list ascii -> sasl_callback -> Z;
  l_unbind : list event -> Z;
  l_search : list event -> list ascii -> Z -> list ascii -> option (list ascii) -> Z * list message;
  l_sasl_set_path : list event -> list ascii -> Z;
  l_get_option : list event -> sasl_option -> option (list ascii);
  l_strdup : list event -> list ascii -> option (list ascii)    (* None: no memory *)
}.

(** ** Sessions *)
Record session := { ld : bool; conf : PAM_LDAP_CONFIG_S; trace : list event }.

Definition M (A : Type) : Type := session -> option (A * session).
#[export] Instance M_ret : MRet M := fun A a s => Some (a, s).
#[export] Instance M_bind : MBind M := fun A B f m s => match m s with Some (a, s') => f a s' | None => UB end.

Definition gets {A} (f : session -> A) : M A := fun s => Some (f s, s).
Definition set_ld (b : bool) : M unit := fun s => Some (tt, {| ld := b; conf := conf s; trace := trace s |}).
Definition log (e : event) (s : session) : session := {| ld := ld s; conf := conf s; trace := e :: trace s |}.

Definition with_uid (u : Z) (c : PAM_LDAP_CONFIG_S) : PAM_LDAP_CONFIG_S := {|
  uri := uri c; host := host c; port := port c; base := base c; groupdn := groupdn c; ldap_enable := ldap_enable c;
  scope := scope c; deref := deref c; filter_ := filter_ c; version := version c; timelimit := timelimit c;
  bind_timelimit := bind_timelimit c; restart := restart c; cert_status := cert_status c;
  cert_verifi_Level := cert_verifi_Level c; dn_with_uid := u |}.
Definition set_dn_with_uid (u : Z) : M unit :=
  fun s => Some (tt, {| ld := ld s; conf := with_uid u (conf s); trace := trace s |}).

(** The base of the search; a null pointer is not handled. *)
Definition base_dn : M (list ascii) := fun s => match base (conf s) with Some b => Some (b, s) | None => UB end.

(** A call on the handle. *)
Definition call {A} (ask : list event -> A) (ev : A -> event) : M A :=
  fun s => if ld s then let a := ask (trace s) in Some (a, log (ev a) s) else UB.

(** ** Certificates *)

(** The codes of <openssl/x509.h> for certificate revocation lists. *)
Class X509Codes := { X509_V_ERR_UNABLE_TO_GET_CRL : Z; X509_V_ERR_CRL_HAS_EXPIRED : Z; X509_V_ERR_CRL_NOT_YET_VALID : Z }.

(** [sslRet]: the error OpenSSL found. *)
Definition verify_callback `{X509Codes} (ok sslRet : Z) : Z :=
  if negb (ok =? 0) then ok
  else if (sslRet =? X509_V_ERR_UNABLE_TO_GET_CRL) || (sslRet =? X509_V_ERR_CRL_HAS_EXPIRED) ||
          (sslRet =? X509_V_ERR_CRL_NOT_YET_VALID) then 1
  else 0.

Section server.
Context `{LdapCodes} (lib : openldap_lib).

Definition ldap_set_option (o : ldap_option) : M Z := call (fun tr => l_set_option lib tr o) (SetOption o).
Definition ldap_unbind : M Z := call (l_unbind lib) Unbind.
Definition ldap_simple_bind_s (who pw : list ascii) : M Z :=
  call (fun tr => l_simple_bind_s lib tr who pw) (SimpleBindS who pw).
Definition ldap_search_ext_s (b : list ascii) (sc : Z) (f : list ascii) (attr : option (list ascii)) : M (Z * list message) :=
  call (fun tr => l_search lib tr b sc f attr) (fun a => Search b sc f attr (fst a) (snd a)).

(** The new handle replaces the old one. *)
Definition ldap_initialize (url : list ascii) : M Z :=
  fun s => let '(rc, h) := l_initialize lib (trace s) url in
    Some (rc, {| ld := h; conf := conf s; trace := Initialize url rc h :: trace s |}).

Definition set_ldap_ca_and_crl_conf (i : LDAP_AUTH_INFO) : M unit :=
  _ ← ldap_set_option (OPT_X_TLS_CACERTFILE (cert_inner_dir i));
  _ ← ldap_set_option (OPT_X_TLS_CRLCHECK LDAP_OPT_X_TLS_CRL_PEER);
  _ ← ldap_set_option OPT_X_TLS_CONNECT_CB;
  mret tt.

Definition clear_ldap_ca_and_crl_conf : M unit :=
  _ ← ldap_set_option (OPT_X_TLS_CACERTDIR None);
  _ ← ldap_set_option (OPT_X_TLS_CRLCHECK LDAP_OPT_X_TLS_CRL_NONE);
  mret tt.

(** The URL; a host that is no IPv6 address, and so also a missing one, is written without brackets. *)
Definition secure_url (c : PAM_LDAP_CONFIG_S) : list ascii :=
  let h := default (lit "(null)") (host c) in
  snprintf_s MAX_RSC_URI_LEN
    (if vos_ipv6_addr_valid_check (host c) =? RET_OK then lit "ldaps://[" ++ h ++ lit "]:" ++ show_int (port c) ++ lit "/"
     else lit "ldaps://" ++ h ++ lit ":" ++ show_int (port c) ++ lit "/").

Definition ldap_initialize_handle : M Z :=
  c ← gets conf;
  ret ← ldap_initialize (secure_url c);
  if negb (ret =? LDAP_SUCCESS) then mret LDAP_AUTH_ERROR
  else
    h ← gets ld;
    mret (if negb h then LDAP_AUTH_ERROR else LDAP_SUCCESS).

Definition ldap_set_certificate_option (i : LDAP_AUTH_INFO) : M Z :=
  c ← gets conf;
  if negb (cert_status c =? ENABLE) then
    _ ← clear_ldap_ca_and_crl_conf;
    _ ← ldap_set_option (OPT_X_TLS_REQUIRE_CERT LDAP_OPT_X_TLS_NEVER);
    mret LDAP_SUCCESS
  else
    _ ← (if cert_verifi_Level c =? 3 then clear_ldap_ca_and_crl_conf else set_ldap_ca_and_crl_conf i);
    _ ← ldap_set_option (OPT_X_TLS_REQUIRE_CERT (cert_verifi_Level c));
    mret LDAP_SUCCESS.

Definition ldap_set_context_option (i : LDAP_AUTH_INFO) : M unit :=
  c ← gets conf;
  if (cert_status c =? ENABLE) && negb (cert_verifi_Level c =? LDAP_OPT_X_TLS_ALLOW) then
    _ ← ldap_set_option (OPT_X_TLS_PROTOCOL_MIN LDAP_OPT_X_TLS_PROTOCOL_TLS1_2);
    _ ← ldap_set_option (OPT_X_TLS_CIPHER_SUITE (tls_cipher i));
    _ ← ldap_set_option (OPT_X_TLS_NEWCTX LDAP_OPT_X_TLS_PROTOCOL_TLS1_2);
    mret tt
  else
    _ ← ldap_set_option (OPT_X_TLS_NEWCTX 0);
    mret tt.

Definition open_session (i : LDAP_AUTH_INFO) : M Z :=
  ret ← ldap_initialize_handle;
  if negb (ret =? LDAP_SUCCESS) then mret ret
  else
    ret ← ldap_set_certificate_option i;
    if negb (ret =? LDAP_SUCCESS) then mret ret
    else
      _ ← ldap_set_context_option i;
      c ← gets conf;
      _ ← ldap_set_option (OPT_PROTOCOL_VERSION (version c));
      _ ← ldap_set_option OPT_REBIND_PROC;
      _ ← ldap_set_option (OPT_DEREF (deref c));
      _ ← ldap_set_option (OPT_TIMELIMIT (timelimit c));
      _ ← ldap_set_option (OPT_NETWORK_TIMEOUT (bind_timelimit c));
      _ ← ldap_set_option (OPT_RESTART (negb (restart c =? 0)));
      _ ← ldap_set_option (OPT_TIMEOUT 30);
      mret LDAP_AUTH_SUCCESS.

(** [rc] after [ldap_parse_result]: the code in the message, or still the type of the message. *)
Definition parse_result (a : simple_answer) : Z := default (received a) (parsed a).

Definition simple_bind (who pw : list ascii) : M simple_answer :=
  c ← gets conf;
  call (fun tr => l_simple_bind lib tr who pw (bind_timelimit c)) (SimpleBind who pw (bind_timelimit c)).

Definition do_ldap_simple_bind (userdn : list ascii) (userdn_len : Z) (userpw : list ascii) : M Z :=
  if userdn_len =? 0 then mret LDAP_AUTH_ERROR
  else
    a ← simple_bind userdn userpw;
    mret (if msgid a =? -1 then LDAP_AUTH_INVALID_PASSWD
          else if (received a =? LDAP_SERVER_DOWN) || (received a =? 0) then LDAP_AUTH_INVALID_PASSWD
          else if negb (parse_result a =? LDAP_SUCCESS) then LDAP_AUTH_INVALID_PASSWD
          else LDAP_AUTH_SUCCESS).

(** "CN=name" and "UID=name" in their arrays, and the names bound with. *)
Definition name_tag (tag name : list ascii) : list ascii := snprintf_s (LDAP_USERFOLDER_MAX_LEN + 1) (tag ++ lit "=" ++ name).
Definition tagged_dn (tag name b : list ascii) : list ascii :=
  snprintf_s LDAP_USERDN_MAX_LEN (tag ++ lit "=" ++ name ++ lit "," ++ b).

(** The flag and the name to bind with. *)
Definition add_prefix_userdn (b cn uid username : list ascii) : Z * list ascii :=
  if negb (strcasestr b cn) && negb (strcasestr b uid)
  then (LDAP_USERDN_TRY_UID, tagged_dn (lit "CN") username b)
  else if strcasestr b cn then (0, snprintf_s LDAP_USERDN_MAX_LEN b)
  else (LDAP_USERDN_START_WITH_UID, snprintf_s LDAP_USERDN_MAX_LEN b).

(** [if (session->ld == NULL) open_session(..)] in front of every bind. *)
Definition ensure_open (i : LDAP_AUTH_INFO) : M Z :=
  h ← gets ld;
  if negb h then open_session i else mret LDAP_AUTH_SUCCESS.

Definition do_direct_bind (username : list ascii) (i : LDAP_AUTH_INFO) : M Z :=
  rc ← ensure_open i;
  if negb (rc =? LDAP_AUTH_SUCCESS) then mret rc
  else
    b ← base_dn;
    let '(flag, userdn) := add_prefix_userdn b (name_tag (lit "CN") username) (name_tag (lit "UID") username) username in
    rc ← do_ldap_simple_bind userdn (Z.of_nat LDAP_USERDN_MAX_LEN) (password i);
    rc ← (if (flag =? LDAP_USERDN_TRY_UID) && negb (rc =? LDAP_AUTH_SUCCESS) then
            rc ← do_ldap_simple_bind (tagged_dn (lit "UID") username b) (Z.of_nat LDAP_USERDN_MAX_LEN) (password i);
            _ ← (if rc =? LDAP_AUTH_SUCCESS then set_dn_with_uid 1 else mret tt);
            mret rc
          else mret rc);
    _ ← (if (flag =? LDAP_USERDN_START_WITH_UID) && (rc =? LDAP_AUTH_SUCCESS) then set_dn_with_uid 1 else mret tt);
    mret rc.

(** ** SASL *)

(** A copy of a string; when there is no memory, the option of the handle instead. *)
Definition dup_or_option (o : sasl_option) (s : list ascii) : M (option (list ascii)) :=
  tr ← gets trace;
  mret (match l_strdup lib tr s with Some c => Some c | None => l_get_option lib tr o end).

Definition alloc_sasl_defaults (mech rlm authc passwd authz : list ascii) : M SASL_DEFAULT :=
  m ← dup_or_option OPT_X_SASL_MECH mech;
  r ← dup_or_option OPT_X_SASL_REALM rlm;
  a ← dup_or_option OPT_X_SASL_AUTHCID authc;
  z ← dup_or_option OPT_X_SASL_AUTHZID authz;
  tr ← gets trace;
  mret {| authentication_id := a; authorization_id := z; mechanisms := m; pwd := l_strdup lib tr passwd; realm := r;
          response_number := 0 |}.

(** The code and the result stored in the prompt. *)
Definition interaction (flags : Z) (interact : sasl_interact_t) (defaults : option SASL_DEFAULT) : Z * list ascii :=
  match defaults with
  | None => (LDAP_UNAVAILABLE, [])
  | Some d =>
      let dflt :=
        match cb_id interact with
        | SASL_CB_GETREALM => realm d
        | SASL_CB_AUTHNAME => authentication_id d
        | SASL_CB_PASS => pwd d
        | SASL_CB_USER => authorization_id d
        | _ => defresult interact
        end in
      if flags =? LDAP_SASL_QUIET then (LDAP_OTHER, []) else (LDAP_SUCCESS, default [] dflt)
  end.

Fixpoint interact_loop (flags : Z) (defaults : option SASL_DEFAULT) (interacts : list sasl_interact_t) : Z * list (list ascii) :=
  match interacts with
  | [] => (LDAP_AUTH_SUCCESS, [])
  | i :: rest =>
      let '(rc, result) := interaction flags i defaults in
      if negb (rc =? 0) then (rc, [])
      else let '(rc, results) := interact_loop flags defaults rest in (rc, result :: results)
  end.

Definition sasl_interact_callback (ld : bool) (flags : Z) (defaults : option SASL_DEFAULT) : sasl_callback :=
  fun interacts => if negb ld then (LDAP_PARAM_ERROR, []) else interact_loop flags defaults interacts.

Definition ldap_sasl_interactive_bind_s (dn mech : list ascii) (flags : Z) (d : SASL_DEFAULT) : M Z :=
  h ← gets ld;
  call (fun tr => l_sasl_bind lib tr dn mech (sasl_interact_callback h flags (Some d))) (SaslBind dn mech d).

(** The flag starts as 0; the branches for a base with the name differ from [add_prefix_userdn]. *)
Definition do_sasl_bind_set_userdn (b username : list ascii) : Z * list ascii :=
  let cn := name_tag (lit "CN") username in
  let uid := name_tag (lit "UID") username in
  if negb (strcasestr b cn) && negb (strcasestr b uid)
  then (LDAP_USERDN_TRY_UID, tagged_dn (lit "CN") username b)
  else if negb (strcasestr b cn) then (0, snprintf_s LDAP_USERDN_MAX_LEN b)
  else (LDAP_USERDN_START_WITH_UID, snprintf_s LDAP_USERDN_MAX_LEN b).

(** The code and the copy of the password. *)
Definition set_sasl_config (i : LDAP_AUTH_INFO) : M (Z * list ascii) :=
  tr ← gets trace;
  mret (if negb (l_sasl_set_path lib tr (lit "/usr/lib") =? 0) then (LDAP_AUTH_ERROR, [])
        else match l_strdup lib tr (password i) with
             | None => (LDAP_AUTH_ERROR, [])
             | Some p => (LDAP_AUTH_SUCCESS, p)
             end).

Definition sasl_mech : list ascii := lit "GSS-SPNEGO".
Definition sasl_defaults (i : LDAP_AUTH_INFO) (passwd : list ascii) : M SASL_DEFAULT :=
  alloc_sasl_defaults sasl_mech (lit " ") (username i) passwd (username i).

Definition try_ldap_sasl_interactive_bind (i : LDAP_AUTH_INFO) (passwd : list ascii) : M Z :=
  defaults ← sasl_defaults i passwd;
  b ← base_dn;
  let '(flag, userdn) := do_sasl_bind_set_userdn b (username i) in
  rc ← ldap_sasl_interactive_bind_s userdn sasl_mech LDAP_SASL_AUTOMATIC defaults;
  _ ← (if (flag =? LDAP_USERDN_START_WITH_UID) && (rc =? LDAP_SUCCESS) then set_dn_with_uid 1 else mret tt);
  if (flag =? LDAP_USERDN_TRY_UID) && negb (rc =? LDAP_SUCCESS) then
    defaults ← sasl_defaults i passwd;
    rc ← ldap_sasl_interactive_bind_s (tagged_dn (lit "UID") (username i) b) sasl_mech LDAP_SASL_AUTOMATIC defaults;
    _ ← (if rc =? LDAP_SUCCESS then set_dn_with_uid 1 else mret tt);
    mret rc
  else mret rc.

Definition do_sasl_bind (i : LDAP_AUTH_INFO) : M Z :=
  rc ← ensure_open i;
  if negb (rc =? LDAP_AUTH_SUCCESS) then mret rc
  else
    r ← set_sasl_config i;
    let '(rc, passwd) := r in
    if negb (rc =? LDAP_AUTH_SUCCESS) then mret rc
    else
      rc ← try_ldap_sasl_interactive_bind i passwd;
      mret (if negb (rc =? LDAP_SUCCESS) && negb (rc =? 1) then LDAP_AUTH_INVALID_PASSWD
            else if negb (rc =? LDAP_SUCCESS) then LDAP_AUTH_ERROR else LDAP_AUTH_SUCCESS).

(** ** Binding as the proxy user *)

Definition do_direct_bind_dn (i : LDAP_AUTH_INFO) : M Z :=
  rc ← ensure_open i;
  if negb (rc =? LDAP_AUTH_SUCCESS) then mret rc
  else
    a ← simple_bind (bind_dn i) (bind_dn_pwd i);
    mret (if msgid a =? -1 then LDAP_AUTH_INVALID_PASSWD
          else if (received a =? -1) || (received a =? 0) then LDAP_AUTH_INVALID_PASSWD
          else if negb (parse_result a =? LDAP_SUCCESS) then LDAP_AUTH_INVALID_PASSWD
          else LDAP_AUTH_SUCCESS).

(** [if (session->ld != NULL) { ldap_unbind(..); session->ld = NULL; }] *)
Definition close_handle : M unit :=
  h ← gets ld;
  if (h : bool) then _ ← ldap_unbind; set_ld false else mret tt.

(** Result codes of the LDAP library and of this code meet here: both call success 0. *)
Definition ldap_bind_user (i : LDAP_AUTH_INFO) : M Z :=
  ret ← do_sasl_bind i;
  if negb (ret =? LDAP_AUTH_SUCCESS) then
    _ ← close_handle;
    do_direct_bind (username i) i
  else mret ret.
End server.

(** ** Total correctness of computations on a session *)

Definition wp {A} (m : M A) (Q : A -> session -> Prop) (s : session) : Prop := exists a s', m s = Some (a, s') /\ Q a s'.

Lemma wp_ret {A} (a : A) Q s : Q a s -> wp (mret a) Q s.
Proof. intros HQ. by exists a, s. Qed.

Lemma wp_bind {A B} (m : M A) (f : A -> M B) Q s : wp m (fun a s' => wp (f a) Q s') s -> wp (m ≫= f) Q s.
Proof. intros (a & s' & Hm & b & s'' & Hf & HQ). exists b, s''. split; [|done].
  unfold mbind, M_bind. by rewrite Hm.
Qed.

Lemma wp_mono {A} (m : M A) (P Q : A -> session -> Prop) s : wp m P s -> (forall a s', P a s' -> Q a s') -> wp m Q s.
Proof. intros (a & s' & Hm & HP) HI. exists a, s'. auto. Qed.

Lemma wp_gets {A} (f : session -> A) Q s : Q (f s) s -> wp (gets f) Q s.
Proof. intros HQ. by exists (f s), s. Qed.

Lemma wp_base b Q s : base (conf s) = Some b -> Q b s -> wp base_dn Q s.
Proof. intros Hb HQ. exists b, s. split; [|done]. unfold base_dn. by rewrite Hb. Qed.

Lemma wp_call {A} (ask : list event -> A) ev Q s :
  ld s = true -> (forall a, Q a (log (ev a) s)) -> wp (call ask ev) Q s.
Proof. intros Hl HQ. unfold wp, call. rewrite Hl. eauto. Qed.

(** The computations of the control structure; what remains are calls and conditions. *)
Ltac wp_steps :=
  repeat lazymatch goal with
  | |- wp (mret _) _ _ => apply wp_ret
  | |- wp (_ ≫= _) _ _ => apply wp_bind
  | |- wp (gets _) _ _ => apply wp_gets
  end.

(** ** The protocol of a client *)

(** How far a client is: whether it has a handle, the options set on it, and as whom it is bound. *)
Record phase := { handle : bool; set_options : list ldap_option; bound : option (list ascii * list ascii) }.

Definition no_handle : phase := {| handle := false; set_options := []; bound := None |}.
Definition add_option (o : ldap_option) (p : phase) : phase :=
  {| handle := handle p; set_options := o :: set_options p; bound := bound p |}.
Definition bind_as (b : option (list ascii * list ascii)) (p : phase) : phase :=
  {| handle := handle p; set_options := set_options p; bound := b |}.

(** The server has accepted a simple bind and the client has seen it. *)
Definition bind_ok (a : simple_answer) : bool :=
  negb (msgid a =? -1) && negb (received a =? 0) && bool_decide (parsed a = Some 0).

(** A handle is opened when there is none, binds need the options of the policy, searches need a bind. *)
Inductive step (policy : list ldap_option) : phase -> event -> phase -> Prop :=
  | step_initialize p url rc h :
      handle p = false -> step policy p (Initialize url rc h) {| handle := h; set_options := []; bound := None |}
  | step_option p o rc : handle p = true -> step policy p (SetOption o rc) (add_option o p)
  | step_simple p who pw t a :
      handle p = true -> policy ⊆ set_options p ->
      step policy p (SimpleBind who pw t a) (bind_as (if bind_ok a then Some (who, pw) else None) p)
  | step_simple_s p who pw rc :
      handle p = true -> policy ⊆ set_options p ->
      step policy p (SimpleBindS who pw rc) (bind_as (if rc =? 0 then Some (who, pw) else None) p)
  | step_sasl p dn mech d rc :
      handle p = true -> policy ⊆ set_options p ->
      step policy p (SaslBind dn mech d rc)
        (bind_as (if rc =? 0 then Some (default [] (authentication_id d), default [] (LdapServer.pwd d)) else None) p)
  | step_unbind p rc : handle p = true -> step policy p (Unbind rc) no_handle
  | step_search p b sc f attr rc res : handle p = true -> is_Some (bound p) -> step policy p (Search b sc f attr rc res) p.

Inductive trace_to (policy : list ldap_option) : list event -> phase -> Prop :=
  | trace_nil : trace_to policy [] no_handle
  | trace_step tr e p p' : trace_to policy tr p -> step policy p e p' -> trace_to policy (e :: tr) p'.

(** The options a configuration asks for. *)
Definition tls_policy `{LdapCodes} (c : PAM_LDAP_CONFIG_S) (i : LDAP_AUTH_INFO) : list ldap_option :=
  if negb (cert_status c =? ENABLE) then [OPT_X_TLS_REQUIRE_CERT LDAP_OPT_X_TLS_NEVER]
  else
    (if cert_verifi_Level c =? 3 then []
     else [OPT_X_TLS_CACERTFILE (cert_inner_dir i); OPT_X_TLS_CRLCHECK LDAP_OPT_X_TLS_CRL_PEER; OPT_X_TLS_CONNECT_CB]) ++
    OPT_X_TLS_REQUIRE_CERT (cert_verifi_Level c) ::
    (if cert_verifi_Level c =? LDAP_OPT_X_TLS_ALLOW then []
     else [OPT_X_TLS_PROTOCOL_MIN LDAP_OPT_X_TLS_PROTOCOL_TLS1_2; OPT_X_TLS_CIPHER_SUITE (tls_cipher i);
           OPT_X_TLS_NEWCTX LDAP_OPT_X_TLS_PROTOCOL_TLS1_2]).

(** Configurations that differ in [dn_with_uid] only. *)
Definition same_config (c c' : PAM_LDAP_CONFIG_S) : Prop := with_uid 0 c = with_uid 0 c'.

#[export] Instance same_config_equiv : Equivalence same_config.
Proof. unfold same_config. split; repeat intro; congruence. Qed.

Lemma same_config_uid u c : same_config c (with_uid u c).
Proof. done. Qed.

Lemma same_config_fields c c' :
  same_config c c' ->
  base c' = base c /\ groupdn c' = groupdn c /\ scope c' = scope c /\ cert_status c' = cert_status c /\
  cert_verifi_Level c' = cert_verifi_Level c.
Proof. destruct c, c'. unfold same_config, with_uid. cbn. by intros [=]; subst. Qed.

Lemma same_config_policy `{LdapCodes} c c' i : same_config c c' -> tls_policy c' i = tls_policy c i.
Proof. intros Hc. apply same_config_fields in Hc as (_ & _ & _ & E1 & E2). unfold tls_policy. by rewrite E1, E2. Qed.

(** ** What the functions do with respect to the protocol *)

(** What the theorems rely on. [init_law] is documented behaviour of the library: a failing [ldap_initialize] leaves no
    handle. [memory_law] is an assumption on the machine: strdup finds memory. It is needed: see [password_copy_lost]. *)
Record well_behaved (lib : openldap_lib) : Prop := {
  init_law tr url : fst (l_initialize lib tr url) <> 0 -> snd (l_initialize lib tr url) = false;
  memory_law tr s : l_strdup lib tr s = Some s
}.

(** Without memory for the copy of the password the bind goes on, and SASL is told that the password is empty. *)
Lemma password_copy_lost `{LdapCodes} lib mech rlm authc passwd authz s flags prompt :
  l_strdup lib (trace s) passwd = None -> cb_id prompt = SASL_CB_PASS -> flags <> LDAP_SASL_QUIET ->
  exists d, alloc_sasl_defaults lib mech rlm authc passwd authz s = Some (d, s) /\
    interaction flags prompt (Some d) = (LDAP_SUCCESS, []).
Proof.
  intros Hp Hc Hf. eexists. split; [reflexivity|]. unfold interaction. cbn [pwd]. rewrite Hc, Hp.
  by rewrite (proj2 (Z.eqb_neq _ _) Hf).
Qed.

Definition closed (p : phase) : Prop := handle p = false.
Definition ready (policy : list ldap_option) (p : phase) : Prop := handle p = true /\ policy ⊆ set_options p.
Definition usable (policy : list ldap_option) (p : phase) : Prop := closed p \/ ready policy p.
Definition bound_by (policy : list ldap_option) (C : list ascii * list ascii -> Prop) (p : phase) : Prop :=
  ready policy p /\ exists cr, bound p = Some cr /\ C cr.

(** The session is in a phase: the calls made follow the protocol, extend [since], and the configuration is [c0]. *)
Record in_phase (policy : list ldap_option) (c0 : PAM_LDAP_CONFIG_S) (since : list event) (s : session) (p : phase) : Prop := {
  phase_since : since `suffix_of` trace s;
  phase_trace : trace_to policy (trace s) p;
  phase_handle : handle p = ld s;
  phase_conf : same_config c0 (conf s)
}.

(** The names a simple bind of a user tries. *)
Definition login_names (b name : list ascii) : list (list ascii) :=
  [snd (add_prefix_userdn b (name_tag (lit "CN") name) (name_tag (lit "UID") name) name); tagged_dn (lit "UID") name b].

Section protocol.
Context `{LdapCodes} (lib : openldap_lib) (laws : well_behaved lib).
Context (policy : list ldap_option) (c0 : PAM_LDAP_CONFIG_S) (b : list ascii).
Context (since : list event).
Hypothesis c0_base : base c0 = Some b.

Notation at_phase := (in_phase policy c0 since).
Definition holds (P : phase -> Prop) (s : session) : Prop := exists p, at_phase s p /\ P p.

Lemma log_phase s p e p' :
  at_phase s p -> step policy p e p' -> handle p' = ld s -> at_phase (log e s) p'.
Proof.
  intros [Hs Ht Hh Hc] Hstep Hh'. constructor; [by apply suffix_cons_r|by eapply trace_step|done|done].
Qed.

Lemma phase_base s p : at_phase s p -> base (conf s) = Some b.
Proof. intros [_ _ _ Hc]. apply same_config_fields in Hc as (-> & _). done. Qed.

Lemma wp_set_option o Q s p :
  at_phase s p -> handle p = true ->
  (forall a s', at_phase s' (add_option o p) -> conf s' = conf s -> Q a s') -> wp (ldap_set_option lib o) Q s.
Proof.
  intros Hp Hh HQ. apply wp_call; [by rewrite <- (phase_handle _ _ _ _ _ Hp)|]. intros rc. apply HQ; [|done].
  eapply log_phase; [done|by apply step_option|]. cbn. by rewrite <- (phase_handle _ _ _ _ _ Hp).
Qed.

Lemma close_handle_spec s : holds (usable policy) s -> wp (close_handle lib) (fun _ => holds closed) s.
Proof.
  intros (p & Hp & Hu). unfold close_handle. wp_steps. pose proof (phase_handle _ _ _ _ _ Hp) as Hh.
  destruct (ld s) eqn:El.
  - wp_steps. apply wp_call; [done|]. intros rc. eexists _, _. split; [done|]. exists no_handle.
    destruct Hp as [Hs Ht _ Hc]. split; [|done]. split; [by apply suffix_cons_r| |done|done].
    cbn. eapply trace_step; [done|]. by apply step_unbind.
  - wp_steps. by exists p.
Qed.

Lemma set_uid_spec u P s : holds P s -> wp (set_dn_with_uid u) (fun _ => holds P) s.
Proof. intros (p & [] & HP). eexists _, _. split; [done|]. exists p. split; [|done]. by split. Qed.

(** The session has a handle with at least the options [os] set. *)
Definition configured (os : list ldap_option) (c : PAM_LDAP_CONFIG_S) (s : session) : Prop :=
  conf s = c /\ holds (fun p => handle p = true /\ os ⊆ set_options p) s.

Lemma wp_configure o os c Q s :
  configured os c s -> (forall a s', configured (o :: os) c s' -> Q a s') -> wp (ldap_set_option lib o) Q s.
Proof.
  intros (Hc & p & Hp & Hh & Ho) HQ. eapply wp_set_option; [done..|]. intros a s' Hp' Hc'. apply HQ.
  split; [congruence|]. exists (add_option o p). split; [done|]. split; [done|]. cbn.
  by apply list_subseteq_skip.
Qed.

Ltac configure := repeat (wp_steps; eapply wp_configure; [eassumption|]; intros ? ? ?); wp_steps.

Lemma certificate_option_spec i c s :
  configured [] c s ->
  wp (ldap_set_certificate_option lib i) (fun rc s' => rc = LDAP_SUCCESS /\
    exists os, configured os c s' /\
      (if negb (cert_status c =? ENABLE) then [OPT_X_TLS_REQUIRE_CERT LDAP_OPT_X_TLS_NEVER]
       else (if cert_verifi_Level c =? 3 then []
             else [OPT_X_TLS_CACERTFILE (cert_inner_dir i); OPT_X_TLS_CRLCHECK LDAP_OPT_X_TLS_CRL_PEER; OPT_X_TLS_CONNECT_CB]) ++
            [OPT_X_TLS_REQUIRE_CERT (cert_verifi_Level c)]) ⊆ os) s.
Proof.
  intros Hc. unfold ldap_set_certificate_option, clear_ldap_ca_and_crl_conf, set_ldap_ca_and_crl_conf. wp_steps.
  destruct Hc as [<- Hc]. assert (configured [] (conf s) s) by done.
  destruct (negb _); [configure|wp_steps; destruct (_ =? 3); configure];
    (split; [done|]; eexists; split; [eassumption|]; clear; set_solver).
Qed.

Lemma context_option_spec i c os s :
  configured os c s ->
  wp (ldap_set_context_option lib i) (fun _ s' => exists os', configured os' c s' /\
      (if (cert_status c =? ENABLE) && negb (cert_verifi_Level c =? LDAP_OPT_X_TLS_ALLOW)
       then [OPT_X_TLS_PROTOCOL_MIN LDAP_OPT_X_TLS_PROTOCOL_TLS1_2; OPT_X_TLS_CIPHER_SUITE (tls_cipher i);
             OPT_X_TLS_NEWCTX LDAP_OPT_X_TLS_PROTOCOL_TLS1_2] else []) ++ os ⊆ os') s.
Proof.
  intros Hc. unfold ldap_set_context_option. wp_steps. destruct Hc as [<- Hc]. assert (configured os (conf s) s) by done.
  destruct (_ && _); configure; (eexists; split; [eassumption|]; clear; set_solver).
Qed.

Lemma initialize_handle_spec s :
  holds closed s ->
  wp (ldap_initialize_handle lib) (fun rc s' => if rc =? 0 then configured [] (conf s) s' else rc <> 0 /\ holds closed s') s.
Proof.
  intros (p & Hp & Hcl). unfold ldap_initialize_handle. wp_steps. unfold ldap_initialize.
  pose proof (init_law _ laws (trace s) (secure_url (conf s))) as Hlaw. unfold wp at 1.
  destruct (l_initialize lib (trace s) (secure_url (conf s))) as [rc h]. cbn [fst snd] in Hlaw.
  eexists _, _. split; [done|]. cbv beta. set (s1 := {| ld := h; conf := conf s; trace := _ |}).
  assert (Hp1 : at_phase s1 {| handle := h; set_options := []; bound := None |}).
  { destruct Hp as [Hs Ht _ Hc]. split; [by apply suffix_cons_r| |done|done].
    eapply trace_step; [done|]. by apply step_initialize. }
  assert (Hclosed : h = false -> holds closed s1) by (intros ->; eexists; split; [done|done]).
  destruct (rc =? LDAP_SUCCESS) eqn:Erc; cbn [negb].
  - wp_steps. cbn [ld s1]. destruct h; cbn [negb]; wp_steps; [|split; [done|auto]].
    split; [done|]. eexists. split; [done|]. split; [done|]. set_solver.
  - wp_steps. split; [done|]. apply Hclosed, Hlaw. by apply Z.eqb_neq.
Qed.

(** Opening a session sets all options of the policy before anything else. *)
Lemma open_session_spec i s :
  tls_policy c0 i = policy -> holds closed s ->
  wp (open_session lib i) (fun rc => holds (if rc =? 0 then ready policy else closed)) s.
Proof.
  intros Hpol Hcl. unfold open_session. wp_steps.
  assert (Hpol' : tls_policy (conf s) i = policy).
  { destruct Hcl as (p & Hp & _). rewrite (same_config_policy c0); [done|apply Hp]. }
  eapply wp_mono; [by apply initialize_handle_spec|]. intros rc s1 Hrc. change LDAP_SUCCESS with 0 at 1.
  cbv beta in Hrc. destruct (rc =? 0) eqn:E; cbn [negb].
  2:{ wp_steps. rewrite E. apply Hrc. }
  wp_steps. eapply wp_mono; [by apply certificate_option_spec|]. intros rc2 s2 (-> & os & Hc2 & Hos).
  cbn [LDAP_SUCCESS Z.eqb negb]. wp_steps. eapply wp_mono; [by apply context_option_spec|].
  intros _ s3 (os' & Hc3 & Hos'). wp_steps. destruct Hc3 as [Hc3 Hp3].
  assert (configured os' (conf s3) s3) by done. configure. cbn [LDAP_AUTH_SUCCESS Z.eqb].
  match goal with Hx : configured (_ :: _) _ ?s' |- holds _ ?s' => destruct Hx as (_ & p & Hp & Hh & Ho) end.
  exists p. split; [done|]. split; [done|]. rewrite <- Hpol'. unfold tls_policy.
  assert (Hsub : os' ⊆ set_options p) by (intros o Hx; apply Ho; by do 7 apply list_elem_of_further).
  revert Hos Hos' Hsub. clear. destruct (cert_status (conf s) =? ENABLE); cbn [negb andb].
  - destruct (_ =? 3), (_ =? LDAP_OPT_X_TLS_ALLOW); cbn [negb app]; set_solver.
  - cbn [app]. set_solver.
Qed.
(** *** The binds *)

Lemma holds_mono (P Q : phase -> Prop) s : holds P s -> (forall p, P p -> Q p) -> holds Q s.
Proof. intros (p & Hp & HP) HI. exists p. auto. Qed.

Lemma holds_base P s : holds P s -> base (conf s) = Some b.
Proof. intros (p & Hp & _). by eapply phase_base. Qed.

Definition bound_with (C : list ascii * list ascii -> Prop) : session -> Prop := holds (bound_by policy C).

Lemma bound_ready C s : bound_with C s -> holds (ready policy) s.
Proof. intros Hb. eapply holds_mono; [exact Hb|]. by intros p [? _]. Qed.

Lemma ready_usable s : holds (ready policy) s -> holds (usable policy) s.
Proof. intros Hr. eapply holds_mono; [exact Hr|]. intros p ?. by right. Qed.

(** A call that binds moves to the phase in which its outcome is known. *)
Lemma wp_bind_call {A} (ask : list event -> A) ev outcome Q s :
  holds (ready policy) s ->
  (forall a p, handle p = true -> policy ⊆ set_options p -> step policy p (ev a) (bind_as (outcome a) p)) ->
  (forall a s', match outcome a with Some cr => bound_with (eq cr) s' | None => holds (ready policy) s' end -> Q a s') ->
  wp (call ask ev) Q s.
Proof.
  intros (p & Hp & Hh & Hpol) Hstep HQ. pose proof (phase_handle _ _ _ _ _ Hp) as Hld.
  apply wp_call; [congruence|]. intros a. apply HQ.
  assert (Hp' : at_phase (log (ev a) s) (bind_as (outcome a) p)) by (eapply log_phase; [done|auto|done]).
  destruct (outcome a) as [cr|]; eexists; (split; [exact Hp'|]); [|done].
  split; [done|]. by exists cr.
Qed.

Lemma simple_bind_spec who pw s :
  holds (ready policy) s ->
  wp (simple_bind lib who pw)
     (fun a s' => if bind_ok a then bound_with (eq (who, pw)) s' else holds (ready policy) s') s.
Proof.
  intros Hr. unfold simple_bind. wp_steps.
  apply wp_bind_call with (outcome := fun a => if bind_ok a then Some (who, pw) else None); [done|by constructor|].
  intros a s'. by destruct (bind_ok a).
Qed.

Lemma simple_bind_s_spec who pw s :
  holds (ready policy) s ->
  wp (ldap_simple_bind_s lib who pw)
     (fun rc s' => if rc =? 0 then bound_with (eq (who, pw)) s' else holds (ready policy) s') s.
Proof.
  intros Hr. unfold ldap_simple_bind_s.
  apply wp_bind_call with (outcome := fun rc => if rc =? 0 then Some (who, pw) else None); [done|by constructor|].
  intros a s'. by destruct (_ =? _).
Qed.

(** What the code takes for success is an accepted bind. *)
Lemma accepted a :
  msgid a =? -1 = false -> received a =? 0 = false -> parse_result a =? LDAP_SUCCESS = true -> bind_ok a = true.
Proof.
  unfold bind_ok, parse_result. intros -> Hr Hp. rewrite Hr. cbn [negb andb]. apply bool_decide_eq_true.
  unfold LDAP_SUCCESS in Hp.
  destruct (parsed a) as [z|]; simpl in Hp; [|congruence]. apply Z.eqb_eq in Hp. by subst.
Qed.

Lemma do_ldap_simple_bind_spec dn len pw s :
  len <> 0 -> holds (ready policy) s ->
  wp (do_ldap_simple_bind lib dn len pw)
     (fun rc s' => if rc =? 0 then bound_with (eq (dn, pw)) s' else holds (ready policy) s') s.
Proof.
  intros Hl Hr. unfold do_ldap_simple_bind. rewrite (proj2 (Z.eqb_neq _ _)) by done. wp_steps.
  eapply wp_mono; [by apply simple_bind_spec|]. intros a s' Ha. cbv beta in Ha. wp_steps.
  assert (Hr' : holds (ready policy) s') by (destruct (bind_ok a); [by eapply bound_ready|done]).
  destruct (msgid a =? -1) eqn:E1; [done|]. destruct (received a =? LDAP_SERVER_DOWN); [done|].
  destruct (received a =? 0) eqn:E2; [done|]. cbn [orb]. destruct (parse_result a =? LDAP_SUCCESS) eqn:E3; [|done].
  by rewrite accepted in Ha.
Qed.

Lemma ensure_open_spec i s :
  tls_policy c0 i = policy -> holds (usable policy) s ->
  wp (ensure_open lib i) (fun rc => holds (if rc =? 0 then ready policy else usable policy)) s.
Proof.
  intros Hpol (p & Hp & Hu). unfold ensure_open. wp_steps. pose proof (phase_handle _ _ _ _ _ Hp) as Hh.
  destruct (ld s); cbn [negb].
  - wp_steps. exists p. split; [done|]. destruct Hu as [Hc|]; [unfold closed in Hc; congruence|done].
  - eapply wp_mono; [apply open_session_spec; [done|by exists p]|]. intros rc s' Hs'. cbv beta in Hs'.
    destruct (rc =? 0); [done|]. eapply holds_mono; [done|]. intros ? ?. by left.
Qed.

(** The prefix shared by all binds: [m] runs on a handle with the options set. *)
Lemma wp_opened i (m : M Z) (C : list ascii * list ascii -> Prop) s :
  tls_policy c0 i = policy -> holds (usable policy) s ->
  (forall s, holds (ready policy) s ->
     wp m (fun rc s' => if rc =? 0 then bound_with C s' else holds (ready policy) s') s) ->
  wp (rc ← ensure_open lib i; if negb (rc =? LDAP_AUTH_SUCCESS) then mret rc else m)
     (fun rc s' => if rc =? 0 then bound_with C s' else holds (usable policy) s') s.
Proof.
  intros Hpol Hu Hm. wp_steps. eapply wp_mono; [by apply ensure_open_spec|]. intros rc s1 H1. cbv beta in H1.
  unfold LDAP_AUTH_SUCCESS. destruct (rc =? 0) eqn:E; cbn [negb].
  - eapply wp_mono; [by apply Hm|]. intros a s'. cbv beta. destruct (a =? 0); [done|]. apply ready_usable.
  - wp_steps. by rewrite E.
Qed.

Lemma do_direct_bind_dn_spec i s :
  tls_policy c0 i = policy -> holds (usable policy) s ->
  wp (do_direct_bind_dn lib i)
     (fun rc s' => if rc =? 0 then bound_with (eq (bind_dn i, bind_dn_pwd i)) s' else holds (usable policy) s') s.
Proof.
  intros Hpol Hu. unfold do_direct_bind_dn. apply wp_opened; [done..|]. clear s Hu. intros s Hr. wp_steps.
  eapply wp_mono; [by apply simple_bind_spec|]. intros a s' Ha. cbv beta in Ha. wp_steps.
  assert (Hr' : holds (ready policy) s') by (destruct (bind_ok a); [by eapply bound_ready|done]).
  destruct (msgid a =? -1) eqn:E1; [done|]. destruct (received a =? -1); [done|].
  destruct (received a =? 0) eqn:E2; [done|]. cbn [orb]. destruct (parse_result a =? LDAP_SUCCESS) eqn:E3; [|done].
  by rewrite accepted in Ha.
Qed.

(** The credentials a simple bind as [name] may use. *)
Definition named (name pw : list ascii) (cr : list ascii * list ascii) : Prop := fst cr ∈ login_names b name /\ snd cr = pw.

Lemma bound_mono (C C' : list ascii * list ascii -> Prop) s : bound_with C s -> (forall cr, C cr -> C' cr) -> bound_with C' s.
Proof. intros Hb HI. eapply holds_mono; [exact Hb|]. intros p (Hr & cr & Hc & HC). split; [done|]. exists cr. auto. Qed.

Lemma do_direct_bind_spec name i s :
  tls_policy c0 i = policy -> holds (usable policy) s ->
  wp (do_direct_bind lib name i)
     (fun rc s' => if rc =? 0 then bound_with (named name (password i)) s' else holds (usable policy) s') s.
Proof.
  intros Hpol Hu. unfold do_direct_bind. apply wp_opened; [done..|]. clear s Hu. intros s Hr. wp_steps.
  eapply wp_base; [by eapply holds_base|]. destruct (add_prefix_userdn _ _ _ _) as [flag dn] eqn:Edn. wp_steps.
  assert (Hdn : dn ∈ login_names b name) by (unfold login_names; rewrite Edn; apply list_elem_of_here).
  eapply wp_mono; [by apply do_ldap_simple_bind_spec|]. intros rc s1 H1. cbv beta in H1.
  assert (H1' : if rc =? 0 then bound_with (named name (password i)) s1 else holds (ready policy) s1).
  { destruct (rc =? 0); [|done]. eapply bound_mono; [done|]. intros cr <-. by split. }
  unfold LDAP_AUTH_SUCCESS. destruct (rc =? 0) eqn:E1; cbn [negb].
  - rewrite andb_false_r. wp_steps. rewrite E1. cbn [negb].
    destruct (flag =? LDAP_USERDN_START_WITH_UID); cbn [andb]; wp_steps; [|by rewrite E1].
    eapply wp_mono; [by apply set_uid_spec|]. intros ? s2 H2. cbv beta in H2. wp_steps. by rewrite E1.
  - rewrite andb_true_r. destruct (flag =? LDAP_USERDN_TRY_UID) eqn:Ef; wp_steps.
    2:{ rewrite E1, andb_false_r. wp_steps. by rewrite E1. }
    eapply wp_mono; [by apply do_ldap_simple_bind_spec|]. intros rc2 s2 H2. cbv beta in H2.
    assert (Eflag : flag =? LDAP_USERDN_START_WITH_UID = false) by (apply Z.eqb_eq in Ef as ->; done).
    assert (H2' : if rc2 =? 0 then bound_with (named name (password i)) s2 else holds (ready policy) s2).
    { destruct (rc2 =? 0); [|done]. eapply bound_mono; [done|]. intros cr <-. split; [|done].
      apply list_elem_of_further, list_elem_of_here. }
    destruct (rc2 =? 0) eqn:E2; wp_steps; rewrite Eflag; cbn [andb].
    + eapply wp_mono; [by apply set_uid_spec|]. intros ? s3 H3. cbv beta in H3. wp_steps. by rewrite E2.
    + wp_steps. by rewrite E2.
Qed.

(** *** SASL *)

Lemma sasl_bind_call dn mech flags d s :
  holds (ready policy) s ->
  wp (ldap_sasl_interactive_bind_s lib dn mech flags d)
     (fun rc s' => if rc =? 0 then bound_with (eq (default [] (authentication_id d), default [] (pwd d))) s'
                   else holds (ready policy) s') s.
Proof.
  intros Hr. unfold ldap_sasl_interactive_bind_s. wp_steps.
  apply wp_bind_call with (outcome := fun rc => if rc =? 0 then Some (default [] (authentication_id d), default [] (pwd d)) else None);
    [done|by constructor|].
  intros rc s'. by destruct (rc =? 0).
Qed.

(** With memory for the copies the defaults are the name and the password. *)
Lemma sasl_defaults_spec i pw Q s :
  (forall d, authentication_id d = Some (username i) -> pwd d = Some pw -> Q d s) -> wp (sasl_defaults lib i pw) Q s.
Proof.
  intros HQ. unfold sasl_defaults, alloc_sasl_defaults, dup_or_option. wp_steps.
  apply HQ; cbn; by rewrite (memory_law _ laws).
Qed.

Lemma try_sasl_spec i pw s :
  holds (ready policy) s ->
  wp (try_ldap_sasl_interactive_bind lib i pw)
     (fun rc s' => if rc =? 0 then bound_with (eq (username i, pw)) s' else holds (ready policy) s') s.
Proof.
  intros Hr. unfold try_ldap_sasl_interactive_bind. wp_steps. apply sasl_defaults_spec. intros d Ha Hw. wp_steps.
  eapply wp_base; [by eapply holds_base|]. destruct (do_sasl_bind_set_userdn _ _) as [flag dn]. wp_steps.
  eapply wp_mono; [by apply sasl_bind_call|]. intros rc s1 H1. cbv beta in H1. rewrite Ha, Hw in H1. simpl in H1.
  unfold LDAP_SUCCESS. destruct (rc =? 0) eqn:E1; cbn [negb].
  - rewrite andb_false_r, andb_true_r. wp_steps. destruct (flag =? _).
    + eapply wp_mono; [by apply set_uid_spec|]. intros ? s2 H2. wp_steps. by rewrite E1.
    + wp_steps. by rewrite E1.
  - rewrite andb_true_r, andb_false_r. wp_steps. destruct (flag =? _); [|wp_steps; by rewrite E1].
    wp_steps. apply sasl_defaults_spec. intros d2 Ha2 Hw2. wp_steps.
    eapply wp_mono; [by apply sasl_bind_call|]. intros rc2 s2 H2. cbv beta in H2. rewrite Ha2, Hw2 in H2. simpl in H2.
    destruct (rc2 =? 0) eqn:E2; wp_steps.
    + eapply wp_mono; [by apply set_uid_spec|]. intros ? s3 H3. wp_steps. by rewrite E2.
    + by rewrite E2.
Qed.

Lemma do_sasl_bind_spec i s :
  tls_policy c0 i = policy -> holds (usable policy) s ->
  wp (do_sasl_bind lib i)
     (fun rc s' => if rc =? 0 then bound_with (eq (username i, password i)) s' else holds (usable policy) s') s.
Proof.
  intros Hpol Hu. unfold do_sasl_bind. apply wp_opened; [done..|]. clear s Hu. intros s Hr. unfold set_sasl_config. wp_steps.
  destruct (negb (_ =? 0)).
  { cbn [LDAP_AUTH_ERROR LDAP_AUTH_SUCCESS Z.eqb negb]. by wp_steps. }
  rewrite (memory_law _ laws). cbn [LDAP_AUTH_SUCCESS Z.eqb negb]. wp_steps.
  eapply wp_mono; [by apply try_sasl_spec|]. intros rc s' Hs. cbv beta in Hs. wp_steps. unfold LDAP_SUCCESS.
  destruct (rc =? 0); cbn [negb andb]; [done|]. by destruct (negb _).
Qed.

Lemma bound_usable C s : bound_with C s -> holds (usable policy) s.
Proof. intros Hb. by eapply ready_usable, bound_ready. Qed.

(** SASL first, then a simple bind on a new handle. *)
Lemma bind_or_direct_spec name i s :
  tls_policy c0 i = policy -> holds (usable policy) s ->
  wp (ret ← do_sasl_bind lib i;
      if negb (ret =? LDAP_AUTH_SUCCESS) then _ ← close_handle lib; do_direct_bind lib name i else mret ret)
     (fun rc s' => if rc =? 0
                   then bound_with (fun cr => cr = (username i, password i) \/ named name (password i) cr) s'
                   else holds (usable policy) s') s.
Proof.
  intros Hpol Hu. wp_steps. eapply wp_mono; [by apply do_sasl_bind_spec|]. intros rc s1 H1. cbv beta in H1.
  unfold LDAP_AUTH_SUCCESS. destruct (rc =? 0) eqn:E1; cbn [negb]; wp_steps.
  - rewrite E1. eapply bound_mono; [done|]. intros cr <-. by left.
  - eapply wp_mono; [by apply close_handle_spec|]. intros ? s2 H2. cbv beta in H2.
    eapply wp_mono; [apply (do_direct_bind_spec name); [done|]|].
    { eapply holds_mono; [done|]. intros ? ?. by left. }
    intros rc2 s3. cbv beta. destruct (rc2 =? 0); [|done]. intros Hb. eapply bound_mono; [done|]. intros cr ?. by right.
Qed.
End protocol.
