(* ===== verification/LdapGroups.v ===== *)
(** * ldap_auth.c, second part: the groups of a user

    A user belongs to a configured group when one of his entries names it in memberOf, directly or through nested
    groups ([do_search_by_memberof]), or when the group lists him as a member, directly or through nested groups
    ([do_search_by_username]). Both searches follow the answers of the directory to a depth of fifty, remember the
    names they have been at, and stop at two thousand of them. *)
From S2P Require Export LdapServer.

Definition MAX_TREE_DEPTH : Z := 50.
Definition MAX_LDAP_GRP_HASH_SIZE : nat := 2000.
Definition LDAP_FILT_MAXSIZ : nat := 1024.
Definition LDAP_TAG_SIZE : nat := 3.
Definition LDAP_MEMBEROF : list ascii := lit "memberOf".
Definition LDAP_MEMBER : list ascii := lit "member".
Definition LDAP_SEARCH_FILTER_G : list ascii := lit "(objectClass=*)".

(** ** Filters *)

Definition ESCAPE_LEN : Z := 3.
Definition escape_char (c : ascii) : list ascii :=
  if char_eqb c "(" then lit "\28" else if char_eqb c ")" then lit "\29"
  else if char_eqb c "*" then lit "\2a" else if char_eqb c "\" then lit "\5c" else [c].

(** [count] characters have been written. *)
Fixpoint escape_from (name : list ascii) (count str_len : Z) : Z * list ascii :=
  match name with
  | [] => (LDAP_AUTH_SUCCESS, [])
  | c :: rest =>
      if count <? u64 (str_len - ESCAPE_LEN) then
        let '(ret, out) := escape_from rest (u16 (count + Z.of_nat (length (escape_char c)))) str_len in
        (ret, escape_char c ++ out)
      else (LDAP_AUTH_ERROR, [])
  end.
Definition escape_string (name : list ascii) (str_len : Z) : Z * list ascii := escape_from name 0 str_len.

(** "(&(objectClass=*)(attribute=name))" *)
Definition name_filter (attribute name : list ascii) : list ascii :=
  snprintf_s LDAP_FILT_MAXSIZ (lit "(&(objectClass=*)(" ++ attribute ++ lit "=" ++ name ++ lit "))").

(** ** Comparison of names *)

(** Behind a tag; a comma ends the component and the next three characters are the next tag. *)
Fixpoint compare_content (src dst : list ascii) : Z :=
  match src with
  | [] => RET_OK
  | c :: s =>
      if negb (char_eqb c (hd NUL dst)) then RET_ERR
      else if char_eqb c "," then
        match s with
        | _ :: _ :: _ :: s' => compare_content s' (drop (1 + LDAP_TAG_SIZE) dst)
        | _ => RET_OK
        end
      else compare_content s (tl dst)
  end.

Definition compare_ldap_sentence_without_tag (src_tag dst_tag : option (list ascii)) : Z :=
  match src_tag, dst_tag with
  | Some src, Some dst =>
      if negb (str_case_eqb src dst) then RET_ERR
      else if (length src <? LDAP_TAG_SIZE)%nat then RET_OK
      else compare_content (drop LDAP_TAG_SIZE src) (drop LDAP_TAG_SIZE dst)
  | _, _ => RET_ERR
  end.

(** ** Search results *)

(** [ldap_first_entry], and [ldap_next_entry] behind the message at an index: the first message from an index on that is an entry. *)
Fixpoint entry_from (k : nat) (ms : list message) : option (nat * entry) :=
  match ms with
  | [] => None
  | Some e :: _ => Some (k, e)
  | None :: rest => entry_from (S k) rest
  end.
Definition ldap_first_entry (res : list message) : option (nat * entry) := entry_from 0 res.
Definition ldap_next_entry (res : list message) (k : nat) : option (nat * entry) := entry_from (S k) (drop (S k) res).

Definition s16 (z : Z) : Z := (z + 2 ^ 15) mod 2 ^ 16 - 2 ^ 15.
(** The values a loop up to the 16-bit [ldap_count_values] visits. *)
Definition counted (vals : list (list ascii)) : list (list ascii) := take (Z.to_nat (s16 (Z.of_nat (length vals)))) vals.

(** The names the search has been at. *)
Definition visited : Type := gset (list ascii).

Section groups.
Context `{LdapCodes} (lib : openldap_lib).

Definition search_answered (ret : Z) : bool :=
  (ret =? LDAP_SUCCESS) || (ret =? LDAP_TIMELIMIT_EXCEEDED) || (ret =? LDAP_SIZELIMIT_EXCEEDED).

Definition do_search_user_group_check_hash (grp_hash : visited) (group_name : list ascii) (tree_level : Z) : Z :=
  if (MAX_LDAP_GRP_HASH_SIZE <=? size grp_hash)%nat then LDAP_AUTH_UNKNOWN
  else if bool_decide (group_name ∈ grp_hash) then LDAP_AUTH_UNKNOWN
  else if MAX_TREE_DEPTH <? tree_level then LDAP_AUTH_UNKNOWN
  else RET_OK.

(** The second loop over the members: the first one that leads to the user ends the search. *)
Fixpoint search_members (search : list ascii -> visited -> M (Z * visited)) (member : list (list ascii)) (h : visited)
    : M (Z * visited) :=
  match member with
  | [] => mret (LDAP_AUTH_ERROR, h)
  | m :: rest =>
      r ← search m h;
      let '(ret, h) := r in
      if ret =? LDAP_AUTH_SUCCESS then mret (LDAP_AUTH_SUCCESS, h) else search_members search rest h
  end.

(** The name of the user, as a member of a group has to spell it. *)
Definition member_dn (name : list ascii) (b : list ascii) (uid : Z) : list ascii :=
  if uid =? 0 then tagged_dn (lit "CN") name b else tagged_dn (lit "UID") name b.

Fixpoint do_search_user_group (fuel : nat) (name group_name : list ascii) (filter : list ascii) (tree_level : Z)
    (grp_hash : visited) : M (Z * visited) :=
  match fuel with
  | O => fun _ => UB
  | S fuel =>
      if negb (do_search_user_group_check_hash grp_hash group_name tree_level =? RET_OK)
      then mret (LDAP_AUTH_UNKNOWN, grp_hash)
      else
        let tree_level := tree_level + 1 in
        let grp_hash := {[ group_name ]} ∪ grp_hash in
        b ← base_dn;
        c ← gets conf;
        let userdn := member_dn name b (dn_with_uid c) in
        a ← ldap_search_ext_s lib group_name (scope c) filter None;
        let '(ret, res) := a in
        if negb (search_answered ret) then mret (LDAP_AUTH_UNKNOWN, grp_hash)
        else
          match ldap_first_entry res with
          | None => mret (LDAP_AUTH_UNKNOWN, grp_hash)
          | Some (_, msg) =>
              match msg LDAP_MEMBER with
              | None => mret (LDAP_AUTH_UNKNOWN, grp_hash)
              | Some member =>
                  if existsb (fun m => compare_ldap_sentence_without_tag (Some m) (Some userdn) =? RET_OK) member
                  then mret (LDAP_AUTH_SUCCESS, grp_hash)
                  else search_members (fun m h => do_search_user_group fuel name m filter tree_level h) member grp_hash
              end
          end
  end.

(** A level deeper than [MAX_TREE_DEPTH] ends a search, so the fuel is never used up. *)
Definition search_fuel : nat := 52.

(** The state of the loop over the configured groups: names searched, groups found, the answer and the flag. *)
Fixpoint username_loop (js : list nat) (name filter : list ascii) (find_h found_h : visited) (group : list Z) (flag : Z)
    : M (list Z * Z) :=
  match js with
  | [] => mret (group, flag)
  | j :: js =>
      c ← gets conf;
      match groupdn c !! j with
      | None | Some None => username_loop js name filter find_h found_h group flag
      | Some (Some dn) =>
          if bool_decide (dn ∈ find_h) && bool_decide (dn ∈ found_h)
          then username_loop js name filter find_h found_h (<[j := Z.of_nat j]> group) flag
          else
            r ← do_search_user_group search_fuel name dn filter 0 find_h;
            let '(ret, find_h) := r in
            if ret =? LDAP_AUTH_SUCCESS
            then username_loop js name filter find_h ({[ dn ]} ∪ found_h) (<[j := Z.of_nat j]> group) 1
            else username_loop js name filter find_h found_h group flag
      end
  end.

Definition do_search_by_username (name : list ascii) (group : list Z) : M (Z * list Z) :=
  r ← username_loop (seq 0 MAX_USER_GROUP) name LDAP_SEARCH_FILTER_G ∅ ∅ group 0;
  let '(group, flag) := r in
  mret (if flag =? 1 then LDAP_AUTH_SUCCESS else LDAP_AUTH_UNKNOWN, group).

(** The configured groups a name is equal to: [match_flag] and the answer. *)
Definition mark_group (group_name : list ascii) (dns : list (option (list ascii))) (acc : Z * list Z) (i : nat) : Z * list Z :=
  if compare_ldap_sentence_without_tag (Some group_name) (default None (dns !! i)) =? RET_OK
  then (1, <[i := Z.of_nat i]> (snd acc)) else acc.
Definition mark_groups (group_name : list ascii) (dns : list (option (list ascii))) (group : list Z) : Z * list Z :=
  foldl (mark_group group_name dns) (0, group) (seq 0 MAX_USER_GROUP).

(** The owners of an entry: one search each; [search_result] is set when one of them succeeds. *)
Fixpoint search_owners (search : list ascii -> list Z -> visited -> M (Z * list Z * visited)) (owners : list (list ascii))
    (group : list Z) (h : visited) (result : Z) : M (Z * list Z * visited) :=
  match owners with
  | [] => mret (result, group, h)
  | o :: rest =>
      r ← search o group h;
      let '(ret, group, h) := r in
      search_owners search rest group h (if ret =? LDAP_AUTH_SUCCESS then 1 else result)
  end.

(** The loop over the entries: the next one is looked for behind the first message [res] each time; an entry that
    has been seen ends the loop. *)
Fixpoint owner_entries (fuel : nat) (search : list ascii -> list Z -> visited -> M (Z * list Z * visited))
    (res : list message) (msg : option (nat * entry)) (seen : gset nat) (group : list Z) (h : visited) (result : Z)
    : M (Z * list Z * visited) :=
  match fuel with
  | O => fun _ => UB
  | S fuel =>
      match msg with
      | None => mret (result, group, h)
      | Some (k, e) =>
          if (MAX_LDAP_GRP_HASH_SIZE <=? size seen)%nat || bool_decide (k ∈ seen) then mret (result, group, h)
          else
            r ← (match e LDAP_MEMBEROF with
                 | None => mret (result, group, h)
                 | Some vals => search_owners search (counted vals) group h result
                 end);
            let '(result, group, h) := r in
            owner_entries fuel search res (ldap_next_entry res 0) ({[ k ]} ∪ seen) group h result
      end
  end.

Fixpoint do_search_group_owner (fuel : nat) (group_name : list ascii) (group : list Z) (tree_level : Z) (grp_hash : visited)
    : M (Z * list Z * visited) :=
  match fuel with
  | O => fun _ => UB
  | S fuel =>
      if negb (do_search_user_group_check_hash grp_hash group_name tree_level =? RET_OK)
      then mret (LDAP_AUTH_UNKNOWN, group, grp_hash)
      else
        let tree_level := tree_level + 1 in
        let grp_hash := {[ group_name ]} ∪ grp_hash in
        c ← gets conf;
        let '(match_flag, group) := mark_groups group_name (groupdn c) group in
        a ← ldap_search_ext_s lib group_name (scope c) LDAP_SEARCH_FILTER_G (Some LDAP_MEMBEROF);
        let '(ret, res) := a in
        if negb (search_answered ret)
        then mret (if match_flag =? 1 then LDAP_AUTH_SUCCESS else LDAP_AUTH_UNKNOWN, group, grp_hash)
        else
          r ← owner_entries 3 (fun o g h => do_search_group_owner fuel o g tree_level h) res (ldap_first_entry res) ∅
                group grp_hash 0;
          let '(search_result, group, grp_hash) := r in
          mret (if (match_flag =? 1) || (search_result =? 1) then LDAP_AUTH_SUCCESS else LDAP_AUTH_ERROR, group, grp_hash)
  end.

(** All entries of the result: here the next entry is looked for behind the current one. *)
Fixpoint memberof_entries (res : list message) (group : list Z) (h : visited) (flag : Z) : M (Z * list Z * visited) :=
  match res with
  | [] => mret (flag, group, h)
  | m :: rest =>
      r ← (match m ≫= (fun e => e LDAP_MEMBEROF) with
           | None => mret (flag, group, h)
           | Some vals =>
               search_owners (fun o g h => do_search_group_owner search_fuel o g 1 h) (counted vals) group h flag
           end);
      let '(flag, group, h) := r in
      memberof_entries rest group h flag
  end.

(** The code, the flag and the answer. *)
Definition do_search_by_memberof_ext (group : list Z) (flag : Z) (filter : list ascii) : M (Z * Z * list Z) :=
  b ← base_dn;
  c ← gets conf;
  a ← ldap_search_ext_s lib b (scope c) filter (Some LDAP_MEMBEROF);
  let '(ret, res) := a in
  if negb (search_answered ret) then mret (LDAP_AUTH_UNKNOWN, flag, group)
  else
    r ← memberof_entries res group ∅ flag;
    let '(flag, group, _) := r in
    mret (LDAP_AUTH_SUCCESS, flag, group).

Definition do_search_by_memberof (name : list ascii) (group : list Z) : M (Z * list Z) :=
  c ← gets conf;
  let filter := name_filter (if dn_with_uid c =? 0 then lit "cn" else lit "uid") name in
  r ← do_search_by_memberof_ext group 0 filter;
  let '(ret, flag, group) := r in
  mret (if negb (ret =? LDAP_AUTH_SUCCESS) then LDAP_AUTH_UNKNOWN
        else if flag =? 1 then LDAP_AUTH_SUCCESS else LDAP_AUTH_UNKNOWN, group).

Definition do_get_user_group (name : list ascii) (group : list Z) : M (Z * list Z) :=
  _ ← ldap_set_option lib (OPT_SIZELIMIT 1);
  let '(rc, escaped_user) := escape_string name (Z.of_nat LDAP_FILT_MAXSIZ) in
  if negb (rc =? LDAP_AUTH_SUCCESS) then mret (rc, group)
  else
    r ← do_search_by_memberof escaped_user group;
    let '(rc, group) := r in
    if rc =? LDAP_AUTH_SUCCESS then mret (rc, group)
    else do_search_by_username escaped_user group.
End groups.

(** ** What the searches do *)

Fixpoint searches (tr : list event) : nat :=
  match tr with
  | [] => 0
  | Search _ _ _ _ _ _ :: tr => S (searches tr)
  | _ :: tr => searches tr
  end.

(** The directory has answered a search below [dn] with [res]. *)
Definition answered (tr : list event) (dn filter : list ascii) (attr : option (list ascii)) (res : list message) : Prop :=
  exists sc rc, Search dn sc filter attr rc res ∈ tr.

(** [userdn] is a member of the group [dn], directly or through members that are groups: what the answers say. *)
Inductive leads (tr : list event) (filter userdn : list ascii) : list ascii -> Prop :=
  | leads_direct dn res k e member m :
      answered tr dn filter None res -> ldap_first_entry res = Some (k, e) -> e LDAP_MEMBER = Some member -> m ∈ member ->
      compare_ldap_sentence_without_tag (Some m) (Some userdn) = RET_OK -> leads tr filter userdn dn
  | leads_nested dn res k e member m :
      answered tr dn filter None res -> ldap_first_entry res = Some (k, e) -> e LDAP_MEMBER = Some member -> m ∈ member ->
      leads tr filter userdn m -> leads tr filter userdn dn.

(** A group is an owner when an entry of the user's search, or of the search for an owner, names it in memberOf. *)
Inductive owner (tr : list event) (b filter : list ascii) : list ascii -> Prop :=
  | owner_user res e vals g :
      answered tr b filter (Some LDAP_MEMBEROF) res -> Some e ∈ res -> e LDAP_MEMBEROF = Some vals -> g ∈ vals ->
      owner tr b filter g
  | owner_nested dn res e vals g :
      owner tr b filter dn -> answered tr dn LDAP_SEARCH_FILTER_G (Some LDAP_MEMBEROF) res -> Some e ∈ res ->
      e LDAP_MEMBEROF = Some vals -> g ∈ vals -> owner tr b filter g.

Lemma answered_mono tr tr' dn f a res : tr `suffix_of` tr' -> answered tr dn f a res -> answered tr' dn f a res.
Proof. intros [k ->] (sc & rc & Hin). exists sc, rc. apply elem_of_app. by right. Qed.

Lemma leads_mono tr tr' f u dn : tr `suffix_of` tr' -> leads tr f u dn -> leads tr' f u dn.
Proof.
  intros Hs. induction 1; [eapply leads_direct|eapply leads_nested]; eauto using answered_mono.
Qed.

Lemma owner_mono tr tr' b f g : tr `suffix_of` tr' -> owner tr b f g -> owner tr' b f g.
Proof.
  intros Hs. induction 1; [eapply owner_user|eapply owner_nested]; eauto using answered_mono.
Qed.

Lemma unknown_fails `{LdapCodes} : LDAP_AUTH_UNKNOWN =? 0 = false.
Proof. apply Z.eqb_neq. pose proof ldap_codes_fail as Hf. rewrite !Forall_cons in Hf. tauto. Qed.

(** *** The answer: slot [j] holds [j] when the group is one of the user's *)

Definition marks (P : nat -> Prop) (group group' : list Z) : Prop :=
  length group' = length group /\
  forall j, group' !! j = group !! j \/ (group' !! j = Some (Z.of_nat j) /\ P j).
Definition marked (group : list Z) : Prop := exists j, group !! j = Some (Z.of_nat j).

Lemma marks_refl P g : marks P g g.
Proof. split; [done|]. by left. Qed.

Lemma marks_mono (P Q : nat -> Prop) g g' : marks P g g' -> (forall j, P j -> Q j) -> marks Q g g'.
Proof. intros [Hl Hm] HI. split; [done|]. intros j. destruct (Hm j) as [|[]]; auto. Qed.

Lemma marks_trans P g1 g2 g3 : marks P g1 g2 -> marks P g2 g3 -> marks P g1 g3.
Proof.
  intros [Hl Hm] [Hl' Hm']. split; [congruence|]. intros j. destruct (Hm' j) as [->|]; [|by right]. done.
Qed.

Lemma marks_insert P g j : P j -> marks P g (<[j := Z.of_nat j]> g).
Proof.
  intros HP. split; [by rewrite length_insert|]. intros k. destruct (decide (k = j)) as [->|Hne].
  - destruct (decide (j < length g)%nat); [right; split; [by apply list_lookup_insert_eq|done]|left].
    by rewrite list_insert_ge by lia.
  - left. by apply list_lookup_insert_ne.
Qed.

Lemma marked_insert g j : (j < length g)%nat -> marked (<[j := Z.of_nat j]> g).
Proof. intros Hj. exists j. by apply list_lookup_insert_eq. Qed.

Lemma marked_stays P g g' : marks P g g' -> marked g -> marked g'.
Proof. intros [_ Hm] [j Hj]. exists j. destruct (Hm j) as [->|[]]; done. Qed.

Section search.
Context `{LdapCodes} (lib : openldap_lib).
Context (policy : list ldap_option) (c0 : PAM_LDAP_CONFIG_S) (b : list ascii) (since : list event).
Context (C : list ascii * list ascii -> Prop) (c : PAM_LDAP_CONFIG_S).
Hypothesis c0_base : base c0 = Some b.

(** The client is bound by a credential of [C] and its configuration is [c]. *)
Definition searching (s : session) : Prop := bound_with policy c0 since C s /\ conf s = c.

(** From [s] with the names [h] to [s'] with [h']: every search is for a new name. *)
Record grown (s : session) (h : visited) (s' : session) (h' : visited) : Prop := {
  grown_searching : searching s';
  grown_trace : trace s `suffix_of` trace s';
  grown_visited : h ⊆ h';
  grown_count : (searches (trace s') + size h <= searches (trace s) + size h')%nat;
  grown_size : (size h' <= MAX_LDAP_GRP_HASH_SIZE)%nat
}.

Lemma grown_refl s h : searching s -> (size h <= MAX_LDAP_GRP_HASH_SIZE)%nat -> grown s h s h.
Proof. intros Hs Hh. by split. Qed.

Lemma grown_trans s1 h1 s2 h2 s3 h3 : grown s1 h1 s2 h2 -> grown s2 h2 s3 h3 -> grown s1 h1 s3 h3.
Proof. intros [] []. split; [done|by etrans|by etrans|lia|done]. Qed.

Lemma wp_search_call dn sc f attr Q s :
  searching s ->
  (forall rc res s', searching s' -> trace s' = Search dn sc f attr rc res :: trace s -> Q (rc, res) s') ->
  wp (ldap_search_ext_s lib dn sc f attr) Q s.
Proof.
  intros [(p & Hp & (Hh & Hpol) & cr & Hcr & HC) Hc] HQ. apply wp_call; [by rewrite <- (phase_handle _ _ _ _ _ Hp)|].
  intros [rc res]. apply HQ; [|done]. split; [|done]. exists p. split; [|split; [by split|by exists cr]].
  eapply log_phase; [done| |by apply (phase_handle _ _ _ _ _ Hp)]. by apply step_search.
Qed.

Lemma wp_search_option o Q s :
  searching s ->
  (forall rc s', searching s' -> trace s' = SetOption o rc :: trace s -> Q rc s') -> wp (ldap_set_option lib o) Q s.
Proof.
  intros [(p & Hp & (Hh & Hpol) & cr & Hcr & HC) Hc] HQ. apply wp_call; [by rewrite <- (phase_handle _ _ _ _ _ Hp)|].
  intros rc. apply HQ; [|done]. split; [|done]. exists (add_option o p). split.
  - eapply log_phase; [done|by apply step_option|]. cbn. by rewrite <- (phase_handle _ _ _ _ _ Hp).
  - split; [split; [done|]|by exists cr]. cbn. intros x Hx. apply list_elem_of_further. by apply Hpol.
Qed.

Lemma searching_base s : searching s -> base (conf s) = Some b.
Proof. intros [Hb _]. by eapply holds_base. Qed.

(** The answer of the check of the names visited lets a new name in. *)
Lemma check_hash_ok h dn level :
  do_search_user_group_check_hash h dn level = RET_OK ->
  (size h < MAX_LDAP_GRP_HASH_SIZE)%nat /\ dn ∉ h /\ level <= MAX_TREE_DEPTH.
Proof.
  unfold do_search_user_group_check_hash. pose proof unknown_fails as Hu. apply Z.eqb_neq in Hu. unfold RET_OK.
  destruct (_ <=? size h)%nat eqn:E1; [done|]. case_bool_decide; [done|]. destruct (_ <? level) eqn:E2; [done|].
  intros _. apply Nat.leb_gt in E1. apply Z.ltb_ge in E2. done.
Qed.

Lemma visit_grown s h dn s' sc f attr rc res :
  (size h < MAX_LDAP_GRP_HASH_SIZE)%nat -> dn ∉ h -> searching s' -> trace s' = Search dn sc f attr rc res :: trace s ->
  grown s h s' ({[dn]} ∪ h).
Proof.
  intros Hl Hn Hs Ht. assert (Hsz : size ({[dn]} ∪ h) = S (size h)).
  { rewrite size_union; [by rewrite size_singleton|]. apply disjoint_singleton_l. exact Hn. }
  split; [done| |set_solver| |lia].
  - rewrite Ht. by apply suffix_cons_r.
  - rewrite Ht, Hsz. cbn. lia.
Qed.

(** *** Down from the configured groups *)

(** What a search below one name establishes. *)
Definition finds (filter userdn dn : list ascii) (s : session) (h : visited) (r : Z * visited) (s' : session) : Prop :=
  grown s h s' (snd r) /\ (fst r = 0 -> leads (trace s') filter userdn dn).

Lemma search_members_spec search filter userdn ms s h :
  (forall m s h, searching s -> (size h <= MAX_LDAP_GRP_HASH_SIZE)%nat -> wp (search m h) (finds filter userdn m s h) s) ->
  searching s -> (size h <= MAX_LDAP_GRP_HASH_SIZE)%nat ->
  wp (search_members search ms h)
     (fun r s' => grown s h s' (snd r) /\ (fst r = 0 -> exists m, m ∈ ms /\ leads (trace s') filter userdn m)) s.
Proof.
  intros Hsearch. revert s h. induction ms as [|m ms IH]; intros s h Hs Hh; cbn [search_members].
  { apply wp_ret. split; [by apply grown_refl|done]. }
  wp_steps. eapply wp_mono; [by apply Hsearch|]. intros [ret h1] s1 [Hg Hl]. cbn [fst snd] in Hg, Hl.
  unfold LDAP_AUTH_SUCCESS. destruct (ret =? 0) eqn:E.
  - wp_steps. split; [done|]. intros _. exists m. split; [apply list_elem_of_here|]. apply Hl. by apply Z.eqb_eq.
  - eapply wp_mono; [apply IH; apply Hg|]. intros r s2 [Hg2 Hl2]. split; [by eapply grown_trans|].
    intros Hr. destruct (Hl2 Hr) as (m' & Hin & Hm'). exists m'. split; [by apply list_elem_of_further|done].
Qed.

(** The fuel covers the levels that are left. *)
Lemma search_user_group_spec fuel name filter level dn s h :
  let userdn := member_dn name b (dn_with_uid c) in
  MAX_TREE_DEPTH + 2 <= level + Z.of_nat fuel -> level <= MAX_TREE_DEPTH + 1 ->
  searching s -> (size h <= MAX_LDAP_GRP_HASH_SIZE)%nat ->
  wp (do_search_user_group lib fuel name dn filter level h) (finds filter userdn dn s h) s.
Proof.
  intros userdn. revert level dn s h. induction fuel as [|fuel IH]; intros level dn s h Hf Hlev Hs Hh; [lia|].
  assert (Hfail : forall s' h', grown s h s' h' -> finds filter userdn dn s h (LDAP_AUTH_UNKNOWN, h') s').
  { intros s' h' Hg. split; [done|]. cbn. intros Hu. pose proof unknown_fails as Hx. by rewrite Hu in Hx. }
  cbn [do_search_user_group].
  destruct (do_search_user_group_check_hash h dn level =? RET_OK) eqn:Ec; cbn [negb].
  2:{ wp_steps. by apply Hfail, grown_refl. }
  apply Z.eqb_eq, check_hash_ok in Ec as (Hlt & Hnew & Hdepth). wp_steps.
  eapply wp_base; [by apply searching_base|]. wp_steps. rewrite (proj2 Hs). fold userdn.
  apply wp_search_call; [done|]. intros rc res s1 Hs1 Ht. pose proof (visit_grown _ _ _ _ _ _ _ _ _ Hlt Hnew Hs1 Ht) as Hg.
  assert (Hans : answered (trace s1) dn filter None res) by (exists (scope c), rc; rewrite Ht; apply list_elem_of_here).
  destruct (search_answered rc); cbn [negb]; [|by wp_steps; apply Hfail].
  destruct (ldap_first_entry res) as [[k e]|] eqn:Ee; [|by wp_steps; apply Hfail].
  destruct (e LDAP_MEMBER) as [member|] eqn:Em; [|by wp_steps; apply Hfail].
  destruct (existsb _ member) eqn:Ex.
  { wp_steps. split; [done|]. intros _. apply existsb_exists in Ex as (m & Hin & Hm). apply Z.eqb_eq in Hm.
    eapply leads_direct; [done..| |done]. by apply list_elem_of_In. }
  eapply wp_mono.
  { apply (search_members_spec _ filter userdn); [|done|by apply Hg]. intros m s2 h2 Hs2 Hh2.
    apply IH; [lia|lia|done|done]. }
  intros r s2 [Hg2 Hl2]. split; [by eapply grown_trans|]. intros Hr. destruct (Hl2 Hr) as (m & Hin & Hm).
  eapply leads_nested; [|done..]. eapply answered_mono; [|done]. apply Hg2.
Qed.

(** The group at [j] leads to the user. *)
Definition member_group (tr : list event) (filter userdn : list ascii) (j : nat) : Prop :=
  exists dn, groupdn c !! j = Some (Some dn) /\ leads tr filter userdn dn.

Lemma username_loop_spec js name filter fh dh group flag s :
  let userdn := member_dn name b (dn_with_uid c) in
  searching s -> (size fh <= MAX_LDAP_GRP_HASH_SIZE)%nat ->
  (forall dn, dn ∈ dh -> leads (trace s) filter userdn dn) ->
  length group = MAX_USER_GROUP -> Forall (fun j => j < MAX_USER_GROUP)%nat js -> (flag = 1 -> marked group) ->
  wp (username_loop lib js name filter fh dh group flag)
     (fun r s' => exists fh', grown s fh s' fh' /\ marks (member_group (trace s') filter userdn) group (fst r) /\
                              (snd r = 1 -> marked (fst r))) s.
Proof.
  intros userdn. revert fh dh group flag s. induction js as [|j js IH]; intros fh dh group flag s Hs Hfh Hdh Hl HF Hflag;
    cbn [username_loop].
  { wp_steps. exists fh. split; [by apply grown_refl|]. split; [apply marks_refl|done]. }
  apply Forall_cons in HF as [Hj HF]. wp_steps. rewrite (proj2 Hs).
  destruct (groupdn c !! j) as [[dn|]|] eqn:Edn; [|by apply IH..].
  assert (Hjl : (j < length group)%nat) by (by rewrite Hl).
  destruct (bool_decide (dn ∈ fh) && bool_decide (dn ∈ dh)) eqn:Eseen.
  - apply andb_true_iff in Eseen as [_ Ed]. apply bool_decide_eq_true in Ed.
    eapply wp_mono; [apply IH; [done|done|done|by rewrite length_insert|done|by intros; apply marked_insert]|].
    intros r s' (fh' & Hg & Hm & Hk). exists fh'. split; [done|]. split; [|done].
    eapply marks_trans; [|done]. apply marks_insert. exists dn. split; [done|]. eapply leads_mono; [apply Hg|auto].
  - wp_steps. eapply wp_mono; [apply (search_user_group_spec search_fuel name filter 0 dn); [vm_compute; done..|done|done]|].
    intros [ret fh1] s1 [Hg1 Hl1]. cbn [fst snd] in Hg1, Hl1. unfold LDAP_AUTH_SUCCESS.
    assert (Hdh1 : forall d, d ∈ dh -> leads (trace s1) filter userdn d).
    { intros d Hd. eapply leads_mono; [apply Hg1|auto]. }
    destruct (ret =? 0) eqn:Er.
    + apply Z.eqb_eq in Er.
      eapply wp_mono; [apply IH; [apply Hg1|apply Hg1| |by rewrite length_insert|done|by intros; apply marked_insert]|].
      { intros d Hd. apply elem_of_union in Hd as [Hd|Hd]; [|auto]. apply elem_of_singleton in Hd as ->. auto. }
      intros r s' (fh' & Hg & Hm & Hk). exists fh'. split; [by eapply grown_trans|]. split; [|done].
      eapply marks_trans; [|done]. apply marks_insert. exists dn. split; [done|]. eapply leads_mono; [apply Hg|auto].
    + eapply wp_mono; [apply IH; [apply Hg1|apply Hg1|done..]|].
      intros r s' (fh' & Hg & Hm & Hk). exists fh'. split; [by eapply grown_trans|done].
Qed.

(** One search for each name: at most two thousand. *)
Lemma search_by_username_spec name group s :
  let userdn := member_dn name b (dn_with_uid c) in
  searching s -> length group = MAX_USER_GROUP ->
  wp (do_search_by_username lib name group)
     (fun r s' => searching s' /\ trace s `suffix_of` trace s' /\
        (searches (trace s') <= searches (trace s) + MAX_LDAP_GRP_HASH_SIZE)%nat /\
        marks (member_group (trace s') LDAP_SEARCH_FILTER_G userdn) group (snd r) /\
        (fst r = 0 -> marked (snd r))) s.
Proof.
  intros userdn Hs Hl. unfold do_search_by_username. wp_steps.
  eapply wp_mono.
  { apply username_loop_spec; [done|rewrite size_empty; lia|by intros dn Hd; apply not_elem_of_empty in Hd|done| |done].
    repeat constructor. }
  intros [g flag] s' (fh & Hg & Hm & Hk). wp_steps. split; [apply Hg|]. split; [apply Hg|].
  pose proof (grown_count _ _ _ _ Hg) as Hc. pose proof (grown_size _ _ _ _ Hg). rewrite size_empty in Hc.
  split; [lia|]. split; [done|]. cbn [fst snd]. intros Hr. apply Hk. pose proof unknown_fails as Hu. cbn [snd].
  destruct (flag =? 1) eqn:E; [by apply Z.eqb_eq|]. by rewrite Hr in Hu.
Qed.

(** *** Up from the user's entries *)

(** An owner is equal to the group at [j]. *)
Definition owned_group (filter : list ascii) (tr : list event) (j : nat) : Prop :=
  exists g dn, owner tr b filter g /\ groupdn c !! j = Some (Some dn) /\
               compare_ldap_sentence_without_tag (Some g) (Some dn) = RET_OK.

Lemma owned_mono filter tr tr' j : tr `suffix_of` tr' -> owned_group filter tr j -> owned_group filter tr' j.
Proof. intros Hs (g & dn & Ho & Hd). exists g, dn. split; [by eapply owner_mono|done]. Qed.

Lemma mark_groups_spec filter tr g group :
  owner tr b filter g -> length group = MAX_USER_GROUP ->
  marks (owned_group filter tr) group (snd (mark_groups g (groupdn c) group)) /\
  (fst (mark_groups g (groupdn c) group) = 1 -> marked (snd (mark_groups g (groupdn c) group))).
Proof.
  intros Ho Hl. unfold mark_groups.
  cut (forall js acc, Forall (fun j => j < MAX_USER_GROUP)%nat js ->
         marks (owned_group filter tr) group (snd acc) -> (fst acc = 1 -> marked (snd acc)) ->
         let r := foldl (mark_group g (groupdn c)) acc js in
         marks (owned_group filter tr) group (snd r) /\ (fst r = 1 -> marked (snd r))).
  { intros Hcut. apply (Hcut _ (0, group)); [repeat constructor|apply marks_refl|done]. }
  induction js as [|j js IH]; intros acc HF Hm Hk; [done|]. apply Forall_cons in HF as [Hj HF].
  cbn [foldl]. apply IH; [done|..]; unfold mark_group; destruct (_ =? RET_OK) eqn:E; try done.
  - eapply marks_trans; [done|]. apply marks_insert. apply Z.eqb_eq in E.
    destruct (groupdn c !! j) as [[dn|]|] eqn:Ed; [|done..]. by exists g, dn.
  - intros _. apply marked_insert. rewrite (proj1 Hm), Hl. done.
Qed.

(** What the search for the owners of a name, or of several, establishes; [good] is the answer of success. *)
Definition owns (filter : list ascii) (good : Z) (group : list Z) (s : session) (h : visited) (r : Z * list Z * visited)
    (s' : session) : Prop :=
  grown s h s' (snd r) /\ marks (owned_group filter (trace s')) group (snd (fst r)) /\
  (fst (fst r) = good -> marked (snd (fst r))).

Lemma owns_trans filter good good' group s h r1 s1 r2 s2 :
  owns filter good group s h r1 s1 -> owns filter good' (snd (fst r1)) s1 (snd r1) r2 s2 -> owns filter good' group s h r2 s2.
Proof.
  intros (Hg1 & Hm1 & Hk1) (Hg2 & Hm2 & Hk2). split; [by eapply grown_trans|]. split; [|done].
  eapply marks_trans; [|done]. eapply marks_mono; [done|]. intros j. apply owned_mono, Hg2.
Qed.

(** A search that may be used for the names found. *)
Definition owner_search (filter : list ascii) (search : list ascii -> list Z -> visited -> M (Z * list Z * visited)) : Prop :=
  forall o group s h, searching s -> owner (trace s) b filter o -> length group = MAX_USER_GROUP ->
    (size h <= MAX_LDAP_GRP_HASH_SIZE)%nat -> wp (search o group h) (owns filter 0 group s h) s.

Lemma search_owners_spec filter search os group h result s :
  owner_search filter search -> searching s -> Forall (owner (trace s) b filter) os -> length group = MAX_USER_GROUP ->
  (size h <= MAX_LDAP_GRP_HASH_SIZE)%nat -> (result = 1 -> marked group) ->
  wp (search_owners search os group h result) (owns filter 1 group s h) s.
Proof.
  intros Hsearch. revert group h result s. induction os as [|o os IH]; intros group h result s Hs HF Hl Hh Hr; cbn [search_owners].
  { wp_steps. split; [by apply grown_refl|]. split; [apply marks_refl|done]. }
  apply Forall_cons in HF as [Ho HF]. wp_steps. eapply wp_mono; [by apply Hsearch|].
  intros [[ret g1] h1] s1 H1. pose proof H1 as (Hg1 & Hm1 & Hk1). cbn [fst snd] in *.
  eapply wp_mono.
  - apply IH; [apply Hg1| |by rewrite (proj1 Hm1)|apply Hg1|].
    + eapply Forall_impl; [done|]. intros x Hx. eapply owner_mono; [apply Hg1|done].
    + unfold LDAP_AUTH_SUCCESS. destruct (ret =? 0) eqn:E; [intros _; apply Hk1; by apply Z.eqb_eq|].
      intros Hres. eapply marked_stays; [done|auto].
  - intros r s2 H2. by eapply owns_trans.
Qed.

Lemma counted_owners filter tr dn res e vals :
  owner tr b filter dn -> answered tr dn LDAP_SEARCH_FILTER_G (Some LDAP_MEMBEROF) res -> Some e ∈ res ->
  e LDAP_MEMBEROF = Some vals -> Forall (owner tr b filter) (counted vals).
Proof.
  intros Ho Ha Hin He. apply Forall_take, Forall_forall. intros g Hg. by eapply owner_nested.
Qed.

Lemma entry_from_in k ms n e : entry_from k ms = Some (n, e) -> Some e ∈ ms.
Proof.
  revert k. induction ms as [|[m|] ms IH]; intros k; cbn [entry_from]; [done|intros [= _ <-]; apply list_elem_of_here|].
  intros Hm. apply list_elem_of_further. by eapply IH.
Qed.

Lemma next_entry_in res k n e : ldap_next_entry res k = Some (n, e) -> Some e ∈ res.
Proof. intros Hn. apply entry_from_in in Hn. rewrite <- (take_drop (S k) res). apply elem_of_app. by right. Qed.

(** The rounds the loop over the entries still takes: the entry behind the first message is visited once. *)
Definition entry_rounds (res : list message) (msg : option (nat * entry)) (seen : gset nat) : nat :=
  match msg with
  | None => 1
  | Some (k, _) =>
      if bool_decide (k ∈ seen) then 1
      else match ldap_next_entry res 0 with
           | None => 2
           | Some (k', _) => if bool_decide (k' ∈ ({[k]} ∪ seen : gset nat)) then 2 else 3
           end
  end.

Lemma entry_rounds_next res k e seen :
  k ∉ seen -> (entry_rounds res (ldap_next_entry res 0) ({[k]} ∪ seen) < entry_rounds res (Some (k, e)) seen)%nat.
Proof.
  intros Hk. unfold entry_rounds. rewrite (bool_decide_eq_false_2 (k ∈ seen)) by done.
  destruct (ldap_next_entry res 0) as [[k' e']|]; [|lia]. destruct (bool_decide _); [lia|].
  rewrite (bool_decide_eq_true_2 _); [lia|]. apply elem_of_union. left. by apply elem_of_singleton.
Qed.

Lemma entry_rounds_le res msg seen : (1 <= entry_rounds res msg seen <= 3)%nat.
Proof. unfold entry_rounds. repeat case_match; lia. Qed.

Lemma owner_entries_spec fuel filter search dn res msg seen group h result s :
  owner_search filter search -> owner (trace s) b filter dn ->
  answered (trace s) dn LDAP_SEARCH_FILTER_G (Some LDAP_MEMBEROF) res ->
  (entry_rounds res msg seen <= fuel)%nat -> (forall k e, msg = Some (k, e) -> Some e ∈ res) ->
  searching s -> length group = MAX_USER_GROUP -> (size h <= MAX_LDAP_GRP_HASH_SIZE)%nat -> (result = 1 -> marked group) ->
  wp (owner_entries fuel search res msg seen group h result) (owns filter 1 group s h) s.
Proof.
  intros Hsearch. revert msg seen group h result s.
  induction fuel as [|fuel IH]; intros msg seen group h result s Ho Ha Hf Hin Hs Hl Hh Hr.
  { pose proof (entry_rounds_le res msg seen). lia. }
  cbn [owner_entries].
  assert (Hstop : owns filter 1 group s h (result, group, h) s).
  { split; [by apply grown_refl|]. split; [apply marks_refl|done]. }
  destruct msg as [[k e]|]; [|by wp_steps].
  destruct (_ <=? size seen)%nat; cbn [orb]; [by wp_steps|]. case_bool_decide as Hk; [by wp_steps|].
  assert (Hnext : forall g1 h1 r1 s1, owns filter 1 group s h (r1, g1, h1) s1 ->
            wp (owner_entries fuel search res (ldap_next_entry res 0) ({[k]} ∪ seen) g1 h1 r1) (owns filter 1 group s h) s1).
  { intros g1 h1 r1 s1 H1. pose proof H1 as (Hg1 & Hm1 & Hk1). cbn [fst snd] in *. eapply wp_mono.
    - apply IH; [eapply owner_mono; [apply Hg1|done]|eapply answered_mono; [apply Hg1|done]| | |apply Hg1|
                 by rewrite (proj1 Hm1)|apply Hg1|done].
      + pose proof (entry_rounds_next res k e seen Hk). lia.
      + intros k' e'. apply next_entry_in.
    - intros r s2 H2. by eapply owns_trans. }
  wp_steps. destruct (e LDAP_MEMBEROF) as [vals|] eqn:Ee.
  - eapply wp_mono; [apply search_owners_spec; try done; eapply counted_owners; [done..|by eapply Hin|done]|].
    intros [[r1 g1] h1] s1 H1. by apply Hnext.
  - wp_steps. by apply Hnext.
Qed.

Lemma search_group_owner_spec fuel filter level dn group s h :
  MAX_TREE_DEPTH + 2 <= level + Z.of_nat fuel -> level <= MAX_TREE_DEPTH + 1 ->
  searching s -> owner (trace s) b filter dn -> length group = MAX_USER_GROUP -> (size h <= MAX_LDAP_GRP_HASH_SIZE)%nat ->
  wp (do_search_group_owner lib fuel dn group level h) (owns filter 0 group s h) s.
Proof.
  revert level dn group s h. induction fuel as [|fuel IH]; intros level dn group s h Hf Hlev Hs Ho Hl Hh; [lia|].
  cbn [do_search_group_owner]. pose proof unknown_fails as Hu. apply Z.eqb_neq in Hu.
  destruct (do_search_user_group_check_hash h dn level =? RET_OK) eqn:Ec; cbn [negb].
  2:{ wp_steps. split; [by apply grown_refl|]. split; [apply marks_refl|done]. }
  apply Z.eqb_eq, check_hash_ok in Ec as (Hlt & Hnew & Hdepth). wp_steps. rewrite (proj2 Hs).
  destruct (mark_groups_spec filter (trace s) dn group Ho Hl) as [Hm Hk].
  destruct (mark_groups dn (groupdn c) group) as [flag g1]. cbn [fst snd] in Hm, Hk. wp_steps.
  apply wp_search_call; [done|]. intros rc res s1 Hs1 Ht. pose proof (visit_grown _ _ _ _ _ _ _ _ _ Hlt Hnew Hs1 Ht) as Hg.
  assert (Ha : answered (trace s1) dn LDAP_SEARCH_FILTER_G (Some LDAP_MEMBEROF) res).
  { exists (scope c), rc. rewrite Ht. apply list_elem_of_here. }
  assert (Hm1 : marks (owned_group filter (trace s1)) group g1).
  { eapply marks_mono; [done|]. intros j. apply owned_mono, Hg. }
  destruct (search_answered rc); cbn [negb].
  2:{ wp_steps. split; [done|]. split; [done|]. cbn [fst snd]. destruct (flag =? 1) eqn:E; [|done].
      intros _. apply Hk. by apply Z.eqb_eq. }
  wp_steps. eapply wp_mono.
  - apply (owner_entries_spec 3 filter _ dn); [|eapply owner_mono; [apply Hg|done]|done|apply entry_rounds_le| |done|
      by rewrite (proj1 Hm1)|apply Hg|done].
    + intros o g s2 h2 Hs2 Ho2 Hl2 Hh2. apply IH; [lia|lia|done..].
    + intros k e. apply entry_from_in.
  - intros [[r2 g2] h2] s2 (Hg2 & Hm2 & Hk2). cbn [fst snd] in *. wp_steps. split; [by eapply grown_trans|]. cbn [fst snd].
    split; [eapply marks_trans; [|done]; eapply marks_mono; [done|]; intros j; apply owned_mono, Hg2|].
    destruct (flag =? 1) eqn:E1; cbn [orb]; [|destruct (r2 =? 1) eqn:E2; [|done]]; intros _.
    + eapply marked_stays; [done|]. apply Hk. by apply Z.eqb_eq.
    + apply Hk2. by apply Z.eqb_eq.
Qed.

Lemma memberof_entries_spec filter full res group h flag s :
  answered (trace s) b filter (Some LDAP_MEMBEROF) full -> res ⊆ full -> searching s -> length group = MAX_USER_GROUP ->
  (size h <= MAX_LDAP_GRP_HASH_SIZE)%nat -> (flag = 1 -> marked group) ->
  wp (memberof_entries lib res group h flag) (owns filter 1 group s h) s.
Proof.
  revert group h flag s. induction res as [|m res IH]; intros group h flag s Ha Hsub Hs Hl Hh Hf; cbn [memberof_entries].
  { wp_steps. split; [by apply grown_refl|]. split; [apply marks_refl|done]. }
  assert (Hnext : forall r1 g1 h1 s1, owns filter 1 group s h (r1, g1, h1) s1 ->
            wp (memberof_entries lib res g1 h1 r1) (owns filter 1 group s h) s1).
  { intros r1 g1 h1 s1 H1. pose proof H1 as (Hg1 & Hm1 & Hk1). cbn [fst snd] in *. eapply wp_mono.
    - apply IH; [eapply answered_mono; [apply Hg1|done]| |apply Hg1|by rewrite (proj1 Hm1)|apply Hg1|done].
      intros x Hx. apply Hsub. by apply list_elem_of_further.
    - intros r s2 H2. by eapply owns_trans. }
  wp_steps. destruct (m ≫= (fun e => e LDAP_MEMBEROF)) as [vals|] eqn:Em.
  - eapply wp_mono; [apply search_owners_spec; try done|].
    + intros o g s2 h2 Hs2 Ho2 Hl2 Hh2. apply search_group_owner_spec; [vm_compute; done..|done|done|done|done].
    + destruct m as [e|]; [|done]. cbn in Em. apply Forall_take, Forall_forall. intros g Hg.
      eapply owner_user; [done| |done|done]. apply Hsub, list_elem_of_here.
    + intros [[r1 g1] h1] s1 H1. by apply Hnext.
  - wp_steps. apply Hnext. split; [by apply grown_refl|]. split; [apply marks_refl|done].
Qed.

(** The filter of the user's entries. *)
Definition user_filter (name : list ascii) : list ascii :=
  name_filter (if dn_with_uid c =? 0 then lit "cn" else lit "uid") name.

Lemma search_by_memberof_spec name group s :
  searching s -> length group = MAX_USER_GROUP ->
  wp (do_search_by_memberof lib name group)
     (fun r s' => searching s' /\ trace s `suffix_of` trace s' /\
        (searches (trace s') <= searches (trace s) + 1 + MAX_LDAP_GRP_HASH_SIZE)%nat /\
        marks (owned_group (user_filter name) (trace s')) group (snd r) /\
        (fst r = 0 -> marked (snd r))) s.
Proof.
  intros Hs Hl. unfold do_search_by_memberof, do_search_by_memberof_ext. wp_steps. rewrite (proj2 Hs).
  fold (user_filter name). pose proof unknown_fails as Hu. apply Z.eqb_neq in Hu.
  eapply wp_base; [by apply searching_base|]. wp_steps. rewrite (proj2 Hs).
  apply wp_search_call; [done|]. intros rc res s1 Hs1 Ht.
  assert (Hsuf : trace s `suffix_of` trace s1) by (rewrite Ht; by apply suffix_cons_r).
  assert (Hcount : searches (trace s1) = S (searches (trace s))) by (by rewrite Ht).
  destruct (search_answered rc); cbn [negb].
  2:{ wp_steps. unfold LDAP_AUTH_SUCCESS. rewrite unknown_fails. cbn [negb fst snd].
      split; [done|]. split; [done|]. split; [lia|]. split; [apply marks_refl|done]. }
  wp_steps. eapply wp_mono.
  - apply (memberof_entries_spec (user_filter name) res); [|done|done|done|rewrite size_empty; lia|done].
    exists (scope c), rc. rewrite Ht. apply list_elem_of_here.
  - intros [[flag g] h] s2 (Hg & Hm & Hk). cbn [fst snd] in *. wp_steps. cbn [LDAP_AUTH_SUCCESS Z.eqb negb fst snd].
    pose proof (grown_count _ _ _ _ Hg) as Hc. pose proof (grown_size _ _ _ _ Hg). rewrite size_empty in Hc.
    split; [apply Hg|]. split; [etrans; [done|apply Hg]|]. split; [lia|]. split; [done|].
    destruct (flag =? 1) eqn:E; [|done]. intros _. apply Hk. by apply Z.eqb_eq.
Qed.

(** Why a slot of the answer is set, for the user of that name. *)
Definition belongs (name : list ascii) (tr : list event) (j : nat) : Prop :=
  owned_group (user_filter name) tr j \/
  member_group tr LDAP_SEARCH_FILTER_G (member_dn name b (dn_with_uid c)) j.

(** Both searches together, on the escaped name. *)
Lemma get_user_group_spec name group s :
  let escaped := snd (escape_string name (Z.of_nat LDAP_FILT_MAXSIZ)) in
  searching s -> length group = MAX_USER_GROUP ->
  wp (do_get_user_group lib name group)
     (fun r s' => searching s' /\ trace s `suffix_of` trace s' /\
        (searches (trace s') <= searches (trace s) + 1 + 2 * MAX_LDAP_GRP_HASH_SIZE)%nat /\
        marks (belongs escaped (trace s')) group (snd r) /\ (fst r = 0 -> marked (snd r))) s.
Proof.
  intros escaped Hs Hl. unfold do_get_user_group. wp_steps. apply wp_search_option; [done|]. intros rc0 s1 Hs1 Ht1.
  assert (Hsuf1 : trace s `suffix_of` trace s1) by (rewrite Ht1; by apply suffix_cons_r).
  assert (Hn1 : searches (trace s1) = searches (trace s)) by (by rewrite Ht1).
  unfold escaped. destruct (escape_string name (Z.of_nat LDAP_FILT_MAXSIZ)) as [rc esc]. cbn [snd].
  destruct (rc =? LDAP_AUTH_SUCCESS) eqn:Erc; cbn [negb].
  2:{ wp_steps. cbn [fst snd]. split; [done|]. split; [done|]. split; [lia|]. split; [apply marks_refl|].
      intros ->. discriminate. }
  wp_steps. eapply wp_mono; [by apply search_by_memberof_spec|]. intros [rc2 g2] s2 (Hs2 & Hsuf2 & Hn2 & Hm2 & Hk2).
  cbn [fst snd] in *. assert (Hm2' : marks (belongs esc (trace s2)) group g2).
  { eapply marks_mono; [done|]. intros j. by left. }
  destruct (rc2 =? LDAP_AUTH_SUCCESS) eqn:Erc2.
  { wp_steps. cbn [fst snd]. split; [done|]. split; [by etrans|]. split; [lia|]. done. }
  eapply wp_mono; [apply search_by_username_spec; [done|by rewrite (proj1 Hm2)]|].
  intros [rc3 g3] s3 (Hs3 & Hsuf3 & Hn3 & Hm3 & Hk3). cbn [fst snd] in *.
  split; [done|]. split; [by do 2 (etrans; [done|])|]. split; [lia|]. split; [|done].
  eapply marks_trans; eapply marks_mono; [done| |done|].
  - intros j [Ho|(dn & Hd & Hlead)]; [left; by eapply owned_mono|right; exists dn; split; [done|by eapply leads_mono]].
  - intros j. by right.
Qed.
End search.

(** ** Names without regard to the case of their tags *)

(** A component of a name: a tag of three characters and what follows it up to the comma. *)
Record component := { c_tag : list ascii; c_content : list ascii }.
Definition component_text (c : component) : list ascii := c_tag c ++ c_content c.
Definition component_ok (c : component) : Prop :=
  length (c_tag c) = LDAP_TAG_SIZE /\ comma ∉ c_tag c /\ comma ∉ c_content c.
Definition name_text (cs : list component) : list ascii := join_fields comma (map component_text cs).

Lemma to_lower_comma a : to_lower a = comma <-> a = comma.
Proof.
  unfold to_lower. destruct (is_upper a) eqn:E; [|done]. split; [|by intros ->]. intros Ha.
  unfold is_upper in E. apply andb_true_iff in E as [E1 E2]. apply Z.leb_le in E1, E2.
  apply (f_equal code) in Ha. rewrite code_chr, Z.mod_small in Ha by lia. change (code comma) with 44 in Ha. lia.
Qed.

Lemma lower_join ts : map to_lower (join_fields comma ts) = join_fields comma (map (map to_lower) ts).
Proof.
  induction ts as [|t [|u ts] IH]; [done|done|].
  change (join_fields comma (t :: u :: ts)) with (t ++ comma :: join_fields comma (u :: ts)).
  rewrite map_app. cbn [map]. rewrite IH. done.
Qed.

Lemma lower_no_comma s : comma ∉ s -> comma ∉ map to_lower s.
Proof. intros Hs Hin. apply list_elem_of_fmap in Hin as (a & Ha & Hin). by apply eq_sym, to_lower_comma in Ha as ->. Qed.

(** Names are equal up to case when their components are. *)
Lemma case_equal_components cs ds :
  cs <> [] -> ds <> [] -> Forall component_ok cs -> Forall component_ok ds ->
  str_case_eqb (name_text cs) (name_text ds) = true <->
  Forall2 (fun c d => map to_lower (component_text c) = map to_lower (component_text d)) cs ds.
Proof.
  intros Hcs Hds HF HG. unfold str_case_eqb. rewrite str_eqb_eq. unfold name_text. rewrite !lower_join, !map_map.
  assert (Hno : forall l, Forall component_ok l -> Forall (fun t => comma ∉ t) (map (fun c => map to_lower (component_text c)) l)).
  { intros l Hl. apply Forall_map. eapply Forall_impl; [done|]. intros c (_ & H1 & H2). apply lower_no_comma.
    unfold component_text. by apply not_elem_of_app. }
  split.
  - intros He. apply (f_equal (tokens comma)) in He. rewrite !tokens_join in He by (auto; by destruct cs, ds).
    clear -He. revert ds He. induction cs as [|c cs IH]; intros [|d ds]; cbn [map]; intros [=]; constructor; auto.
  - intros H2. f_equal. clear -H2. induction H2; cbn [map]; congruence.
Qed.

Lemma compare_content_last x y :
  length x = length y -> comma ∉ x -> compare_content x y = RET_OK <-> x = y.
Proof.
  revert y. induction x as [|a x IH]; intros [|d y]; cbn [compare_content length hd tl]; [done|done|done|].
  intros [= Hl] Hn. apply not_elem_of_cons in Hn as [Ha Hn]. destruct (char_eqb a d) eqn:E; cbn [negb].
  - apply char_eqb_eq in E as <-. rewrite (proj2 (char_eqb_neq a ",")) by (intros ->; by apply Ha).
    rewrite IH by done. split; [by intros ->|by intros [=]].
  - apply char_eqb_neq in E. split; [done|]. by intros [= ? ?].
Qed.

Lemma compare_content_more x y s t :
  length x = length y -> comma ∉ x -> (LDAP_TAG_SIZE <= length s)%nat ->
  compare_content (x ++ comma :: s) (y ++ comma :: t) = RET_OK <->
  x = y /\ compare_content (drop LDAP_TAG_SIZE s) (drop LDAP_TAG_SIZE t) = RET_OK.
Proof.
  intros Hl Hn Hs. revert y Hl. induction x as [|a x IH]; intros [|d y]; cbn [length]; [|done|done|].
  - intros _. destruct s as [|a1 [|a2 [|a3 s]]]; unfold LDAP_TAG_SIZE in Hs; cbn [length] in Hs; [lia..|].
    change (compare_content ([] ++ comma :: a1 :: a2 :: a3 :: s) ([] ++ comma :: t)) with (compare_content s (drop 3 t)).
    unfold LDAP_TAG_SIZE. cbn [drop]. by split; [|intros [_ ?]].
  - intros [= Hl]. apply not_elem_of_cons in Hn as [Ha Hn]. cbn [app compare_content hd tl].
    destruct (char_eqb a d) eqn:E; cbn [negb].
    + apply char_eqb_eq in E as <-. rewrite (proj2 (char_eqb_neq a ",")) by (intros ->; by apply Ha).
      rewrite IH by done. split; [by intros [-> ?]|by intros [[= ->] ?]].
    + apply char_eqb_neq in E. split; [done|]. by intros [[= ? ?] _].
Qed.

Lemma name_text_long c cs : component_ok c -> (LDAP_TAG_SIZE <= length (name_text (c :: cs)))%nat.
Proof.
  intros [Hc _]. unfold name_text. destruct cs; cbn [map join_fields]; rewrite ?length_app; unfold component_text;
    rewrite length_app; lia.
Qed.

Lemma drop_tag c rest : component_ok c -> drop LDAP_TAG_SIZE (component_text c ++ rest) = c_content c ++ rest.
Proof. intros [Hc _]. unfold component_text. rewrite <- app_assoc, <- Hc. apply drop_app_length. Qed.

(** Components equal up to case: what is left to compare are the contents. *)
Lemma compare_contents cs ds :
  cs <> [] -> Forall component_ok cs -> Forall component_ok ds ->
  Forall2 (fun c d => map to_lower (component_text c) = map to_lower (component_text d)) cs ds ->
  compare_content (drop LDAP_TAG_SIZE (name_text cs)) (drop LDAP_TAG_SIZE (name_text ds)) = RET_OK <->
  Forall2 (fun c d => c_content c = c_content d) cs ds.
Proof.
  intros Hne HF HG H2. revert Hne HF HG. induction H2 as [|c d cs ds Hcd H2 IH]; [done|]. intros _ HF HG.
  apply Forall_cons in HF as [Hc HF]. apply Forall_cons in HG as [Hd HG].
  assert (Hlen : length (c_content c) = length (c_content d)).
  { apply (f_equal length) in Hcd. unfold component_text in Hcd. rewrite !length_map, !length_app in Hcd.
    destruct Hc as [Hc _], Hd as [Hd _]. lia. }
  destruct H2 as [|c' d' cs ds Hcd' H2].
  - unfold name_text. cbn [map join_fields]. rewrite <- (app_nil_r (component_text c)), <- (app_nil_r (component_text d)).
    rewrite !drop_tag by done. rewrite !app_nil_r, compare_content_last by (done || apply Hc).
    split; [by repeat constructor|]. by inversion 1.
  - change (name_text (c :: c' :: cs)) with (component_text c ++ comma :: name_text (c' :: cs)).
    change (name_text (d :: d' :: ds)) with (component_text d ++ comma :: name_text (d' :: ds)).
    rewrite !drop_tag by done.
    rewrite compare_content_more by (try apply Hc; try done; apply name_text_long; by apply Forall_cons in HF as [? _]).
    rewrite IH by done. split; [intros [? ?]; by constructor|by inversion 1].
Qed.

(** C23: two names made of components with tags of three characters compare equal exactly when they have the same
    components, their contents equal to the letter and their tags without regard to case. *)
Theorem sentence_comparison cs ds :
  cs <> [] -> ds <> [] -> Forall component_ok cs -> Forall component_ok ds ->
  compare_ldap_sentence_without_tag (Some (name_text cs)) (Some (name_text ds)) = RET_OK <->
  Forall2 (fun c d => map to_lower (c_tag c) = map to_lower (c_tag d) /\ c_content c = c_content d) cs ds.
Proof.
  intros Hcs Hds HF HG. unfold compare_ldap_sentence_without_tag.
  rewrite (proj2 (Nat.ltb_ge _ _)) by (destruct cs as [|c cs]; [done|]; apply name_text_long; by apply Forall_cons in HF as [? _]).
  destruct (str_case_eqb (name_text cs) (name_text ds)) eqn:E; cbn [negb].
  - apply case_equal_components in E; [|done..]. rewrite compare_contents by done.
    clear -E HF HG. induction E as [|c d cs ds Hcd E IH]; [by split; constructor|].
    apply Forall_cons in HF as [Hc HF]. apply Forall_cons in HG as [Hd HG]. rewrite !Forall2_cons, IH by done.
    split; [|by intros [[_ ?] ?]]. intros [Heq ?]. split; [|done]. split; [|done].
    unfold component_text in Hcd. rewrite !map_app in Hcd. apply app_inj_1 in Hcd as [? _]; [done|].
    rewrite !length_map. destruct Hc as [-> _], Hd as [-> _]. done.
  - split; [done|]. intros H2. exfalso. apply not_true_iff_false in E. apply E. apply case_equal_components; [done..|].
    eapply Forall2_impl; [done|]. cbn. intros c d [Ht Hc]. unfold component_text. by rewrite !map_app, Ht, Hc.
Qed.

(** ** Filters hold the name they are made for *)

(** The value of a filter as the directory reads it (RFC 4515): a backslash and two hexadecimal digits are a character. *)
Fixpoint filter_value (s : list ascii) : option (list ascii) :=
  match s with
  | [] => Some []
  | c :: s1 =>
      if char_eqb c "\" then
        match s1 with
        | a :: b :: s' =>
            match hex_digit_value a, hex_digit_value b with
            | Some x, Some y => cons (chr (16 * x + y)) <$> filter_value s'
            | _, _ => None
            end
        | _ => None
        end
      else cons c <$> filter_value s1
  end.

Definition filter_special (c : ascii) : bool := char_eqb c "(" || char_eqb c ")" || char_eqb c "*".

Lemma escape_char_cases c :
  (escape_char c = [c] /\ char_eqb c "\" = false /\ filter_special c = false) \/
  (exists a b x y, escape_char c = ["\"%char; a; b] /\ hex_digit_value a = Some x /\ hex_digit_value b = Some y /\
                   c = chr (16 * x + y) /\ filter_special a = false /\ filter_special b = false).
Proof.
  unfold escape_char, filter_special.
  destruct (char_eqb c "(") eqn:E1; [|destruct (char_eqb c ")") eqn:E2; [|destruct (char_eqb c "*") eqn:E3;
    [|destruct (char_eqb c "\") eqn:E4; [|by left]]]].
  all: right; match goal with E : char_eqb ?x _ = true |- _ => apply char_eqb_eq in E; subst x end.
  all: eexists _, _, _, _; split_and!; reflexivity.
Qed.

Lemma filter_value_escape c s : filter_value (escape_char c ++ s) = cons c <$> filter_value s.
Proof.
  destruct (escape_char_cases c) as [(-> & Hc & _)|(a & b & x & y & -> & Ha & Hb & Hc & _)]; cbn [app filter_value].
  - by rewrite Hc.
  - rewrite char_eqb_refl, Ha, Hb. by rewrite <- Hc.
Qed.

Lemma length_escape_char c : (1 <= length (escape_char c) <= 3)%nat.
Proof. unfold escape_char. repeat case_match; cbn; lia. Qed.

Lemma escape_from_ok name count out :
  0 <= count <= 1023 -> escape_from name count 1024 = (LDAP_AUTH_SUCCESS, out) ->
  out = concat (map escape_char name) /\ count + Z.of_nat (length out) <= 1023.
Proof.
  revert count out. induction name as [|c name IH]; intros count out Hc; cbn [escape_from].
  { intros [= <-]. split; [done|]. cbn. lia. }
  change (u64 (1024 - ESCAPE_LEN)) with 1021. destruct (count <? 1021) eqn:E; [|done]. apply Z.ltb_lt in E.
  pose proof (length_escape_char c). unfold u16. rewrite Z.mod_small by lia.
  destruct (escape_from name _ 1024) as [ret o] eqn:Eo. intros [= -> <-]. apply IH in Eo as [-> Hl]; [|lia].
  split; [done|]. rewrite length_app. lia.
Qed.

Lemma escape_from_fits name count :
  0 <= count -> count + Z.of_nat (length (concat (map escape_char name))) <= 1021 ->
  fst (escape_from name count 1024) = LDAP_AUTH_SUCCESS.
Proof.
  revert count. induction name as [|c name IH]; intros count Hc Hl; cbn [escape_from]; [done|].
  cbn [map concat] in Hl. rewrite length_app in Hl. pose proof (length_escape_char c).
  change (u64 (1024 - ESCAPE_LEN)) with 1021. rewrite (proj2 (Z.ltb_lt _ _)) by lia.
  unfold u16. rewrite Z.mod_small by lia. specialize (IH (count + Z.of_nat (length (escape_char c)))).
  destruct (escape_from name _ 1024). apply IH; lia.
Qed.

(** C24: a name whose escape fits is escaped; an escaped name fits its buffer, has none of the characters that
    structure a filter, and the directory reads back exactly the name. *)
Theorem filter_escape_safe name :
  ((length (concat (map escape_char name)) <= 1021)%nat ->
   fst (escape_string name (Z.of_nat LDAP_FILT_MAXSIZ)) = LDAP_AUTH_SUCCESS) /\
  forall out, escape_string name (Z.of_nat LDAP_FILT_MAXSIZ) = (LDAP_AUTH_SUCCESS, out) ->
    (length out < LDAP_FILT_MAXSIZ)%nat /\ filter_value out = Some name /\ Forall (fun c => filter_special c = false) out.
Proof.
  unfold escape_string. change (Z.of_nat LDAP_FILT_MAXSIZ) with 1024. split.
  - intros Hl. apply escape_from_fits; lia.
  - intros out Ho. apply escape_from_ok in Ho as [-> Hl]; [|lia]. change LDAP_FILT_MAXSIZ with 1024%nat. split; [lia|].
    clear Hl. induction name as [|c name [IH1 IH2]]; [done|]. cbn [map concat]. rewrite filter_value_escape, IH1.
    split; [done|]. apply Forall_app. split; [|done].
    destruct (escape_char_cases c) as [(-> & _ & Hs)|(a & b & x & y & -> & _ & _ & _ & Ha & Hb)];
      by repeat constructor.
Qed.

(** ** The theorems at concrete inputs *)

Definition demo_name (tag : string) : list component :=
  [{| c_tag := lit tag; c_content := lit "adm" |}; {| c_tag := lit "DC="; c_content := lit "com" |}].

Lemma sentence_comparison_witness :
  name_text (demo_name "cn=") = lit "cn=adm,DC=com" /\
  compare_ldap_sentence_without_tag (Some (name_text (demo_name "cn="))) (Some (name_text (demo_name "CN="))) = RET_OK /\
  compare_ldap_sentence_without_tag (Some (lit "CN=Adm,DC=com")) (Some (lit "CN=adm,DC=com")) = RET_ERR.
Proof.
  split; [reflexivity|]. split; [|reflexivity].
  assert (Hok : forall t, t = "cn="%string \/ t = "CN="%string -> Forall component_ok (demo_name t)).
  { intros t [->| ->]; repeat constructor; apply (bool_decide_eq_true_1 _); reflexivity. }
  refine (proj2 (sentence_comparison (demo_name "cn=") (demo_name "CN=") _ _ _ _) _); [discriminate|discriminate|auto|auto|].
  repeat constructor.
Defined.
