(* ===== verification/LdapAuth.v ===== *)
(** * ldap_auth.c, third part: authentication against the directory

    A user is authenticated by binding with his own name and password ([ldap_auth]), or, when a proxy user is
    configured, by finding him as the proxy user and binding again as the user found ([ldap_proxyuser_auth]); then
    his groups are looked up and the highest privilege of the groups found is his ([mscm_ldap_authenticate]). *)
From S2P Require Export LdapGroups.

Definition USER_LDAP_LOGIN_FAIL : Z := 218.
Definition LDAP_USER_NAME_MAX_LEN : nat := 255.

Definition with_names (bdn bpwd user pw : list ascii) (i : LDAP_AUTH_INFO) : LDAP_AUTH_INFO := {|
  serverid := serverid i; hostaddr := hostaddr i; auth_port := auth_port i; user_domain := user_domain i;
  auth_folder := auth_folder i; bind_dn := bdn; bind_dn_pwd := bpwd; cert_verify_enabled := cert_verify_enabled i;
  cert_verify_level := cert_verify_level i; cert_inner_dir := cert_inner_dir i; auth_scope := auth_scope i;
  time_limit := time_limit i; bind_time_limit := bind_time_limit i; auth_version := auth_version i;
  tls_cipher := tls_cipher i; group_cnt := group_cnt i; group := group i; username := user; password := pw |}.

Section auth.
Context `{LdapCodes} (lib : openldap_lib).

(** [strncpy_s(dest, SMALL_BUFFER_SIZE, src, strlen(src))] into an array of [dest_size]. *)
Definition copy_name (dest_size : nat) (src : list ascii) : option (list ascii) :=
  let s := snd (strncpy_s SMALL_BUFFER_SIZE src (length src)) in
  if (length s <? dest_size)%nat then Some s else UB.

Definition switch_dn_and_user (i : LDAP_AUTH_INFO) : option LDAP_AUTH_INFO :=
  tmp_bind_dn ← copy_name SMALL_BUFFER_SIZE (bind_dn i);
  tmp_bind_dn_pwd ← copy_name SMALL_BUFFER_SIZE (bind_dn_pwd i);
  bdn ← copy_name SMALL_BUFFER_SIZE (username i);
  bpwd ← copy_name SMALL_BUFFER_SIZE (password i);
  user ← copy_name (LDAP_USER_NAME_MAX_LEN + 1) tmp_bind_dn;
  pw ← copy_name (LDAP_USER_NAME_MAX_LEN + 1) tmp_bind_dn_pwd;
  Some (with_names bdn bpwd user pw i).

Definition lift {A} (o : option A) : M A := fun s => match o with Some a => Some (a, s) | None => UB end.

(** The code and the name found in the entry; [cn] is what the caller's array held. *)
Definition ldap_find_user_cn (filter cn : list ascii) (cn_size : nat) : M (Z * list ascii) :=
  if (cn_size =? 0)%nat then mret (LDAP_AUTH_ERROR, cn)
  else
    _ ← ldap_set_option lib (OPT_SIZELIMIT 1);
    b ← base_dn;
    c ← gets conf;
    a ← ldap_search_ext_s lib b (scope c) filter None;
    let '(ret, res) := a in
    if negb (search_answered ret) then mret (LDAP_AUTH_UNKNOWN, cn)
    else
      match ldap_first_entry res with
      | None => mret (LDAP_AUTH_UNKNOWN, cn)
      | Some (_, msg) =>
          match msg (if dn_with_uid c =? 0 then lit "cn" else lit "uid") with
          | None => mret (LDAP_AUTH_UNKNOWN, cn)
          | Some vals =>
              mret (LDAP_AUTH_SUCCESS,
                    match head vals with Some v => snd (strncpy_s cn_size v (cn_size - 1)) | None => [] end)
          end
      end.

Definition full_name (i : LDAP_AUTH_INFO) : list ascii :=
  snprintf_s LDAP_FILT_MAXSIZ (username i ++ lit "@" ++ user_domain i).

(** [ldap_user_info] is passed by value: the escaped full name is lost on return. *)
Definition window_logon_name (i : LDAP_AUTH_INFO) (cn : list ascii) (cn_size : nat) (escaped_user : list ascii)
    : M (Z * list ascii) :=
  r ← ldap_find_user_cn (name_filter (lit "sAMAccountName") escaped_user) cn cn_size;
  let '(ret, cn) := r in
  if ret =? RET_OK then mret (LDAP_AUTH_SUCCESS, cn)
  else
    r ← ldap_find_user_cn (name_filter (lit "userPrincipalName") escaped_user) cn cn_size;
    let '(ret, cn) := r in
    if ret =? RET_OK then mret (LDAP_AUTH_SUCCESS, cn)
    else mret (fst (escape_string (full_name i) (Z.of_nat LDAP_FILT_MAXSIZ)), cn).

(** [cn] holds the empty string at first. *)
Definition ldap_search_user (i : LDAP_AUTH_INFO) (cn_size : nat) : M (Z * list ascii) :=
  let '(ret, escaped_user) := escape_string (username i) (Z.of_nat LDAP_FILT_MAXSIZ) in
  if negb (ret =? LDAP_AUTH_SUCCESS) then mret (LDAP_AUTH_ERROR, [])
  else
    c ← gets conf;
    r ← ldap_find_user_cn (name_filter (if dn_with_uid c =? 0 then lit "cn" else lit "uid") escaped_user) [] cn_size;
    let '(ret, cn) := r in
    if ret =? RET_OK then mret (LDAP_AUTH_SUCCESS, cn)
    else
      r ← window_logon_name i cn cn_size escaped_user;
      let '(ret, cn) := r in
      if ret =? LDAP_AUTH_SUCCESS then mret (LDAP_AUTH_SUCCESS, cn)
      else
        r ← ldap_find_user_cn (name_filter (lit "userPrincipalName") escaped_user) cn cn_size;
        let '(ret, cn) := r in
        mret (if ret =? RET_OK then LDAP_AUTH_SUCCESS else LDAP_AUTH_ERROR, cn).

(** The three ways to bind as the user, each after the one before has failed. *)
Definition auth_bind (i : LDAP_AUTH_INFO) : M Z :=
  ret ← do_sasl_bind lib i;
  if ret =? LDAP_AUTH_SUCCESS then mret ret
  else
    _ ← close_handle lib;
    ret ← do_direct_bind lib (username i) i;
    if ret =? LDAP_AUTH_SUCCESS then mret ret
    else if (length (user_domain i) =? 0)%nat then mret LDAP_AUTH_ERROR
    else
      h ← gets ld;
      if negb h then mret LDAP_AUTH_ERROR
      else ldap_simple_bind_s lib (full_name i) (password i).

Definition ldap_auth (i : LDAP_AUTH_INFO) (group : list Z) : M (Z * list Z) :=
  ret ← auth_bind i;
  if negb (ret =? LDAP_AUTH_SUCCESS) then mret (RET_ERR, group)
  else
    r ← ldap_search_user i LDAP_USERFOLDER_MAX_LEN;
    let '(ret, cn) := r in
    if negb (ret =? RET_OK) then mret (RET_ERR, group)
    else do_get_user_group lib cn group.

(** The bind as the proxy user; the structure comes back as [switch_dn_and_user] leaves it. *)
Definition proxy_bind (i : LDAP_AUTH_INFO) : M (Z * LDAP_AUTH_INFO) :=
  if has_case_prefix (lit "CN=") (bind_dn i) then
    ret ← do_direct_bind_dn lib i;
    mret (ret, i)
  else if has_case_prefix (lit "UID=") (bind_dn i) then
    ret ← do_direct_bind_dn lib i;
    _ ← (if ret =? RET_OK then set_dn_with_uid 1 else mret tt);
    mret (ret, i)
  else
    i ← lift (switch_dn_and_user i);
    ret ← ldap_bind_user lib i;
    i ← lift (switch_dn_and_user i);
    mret (ret, i).

(** The bind as the user whose name [cn] was found. *)
Definition rebind_user (cn : list ascii) (i : LDAP_AUTH_INFO) : M Z :=
  ret ← do_sasl_bind lib i;
  if negb (ret =? LDAP_AUTH_SUCCESS) then
    _ ← close_handle lib;
    do_direct_bind lib cn i
  else mret ret.

Definition ldap_proxyuser_auth (i : LDAP_AUTH_INFO) (group : list Z) : M (Z * list Z * LDAP_AUTH_INFO) :=
  r ← proxy_bind i;
  let '(ret, i) := r in
  if negb (ret =? RET_OK) then mret (RET_ERR, group, i)
  else
    r ← ldap_search_user i SMALL_BUFFER_SIZE;
    let '(ret, cn) := r in
    if negb (ret =? RET_OK) then mret (RET_ERR, group, i)
    else
      ret ← rebind_user cn i;
      if negb (ret =? LDAP_AUTH_SUCCESS) then mret (RET_ERR, group, i)
      else
        r ← do_get_user_group lib cn group;
        let '(ret, group) := r in
        mret (ret, group, i).

Definition authenticate_session (i : LDAP_AUTH_INFO) (group : list Z) : M (Z * list Z * LDAP_AUTH_INFO) :=
  if negb (length (bind_dn i) =? 0)%nat && negb (length (bind_dn_pwd i) =? 0)%nat
  then ldap_proxyuser_auth i group
  else
    r ← ldap_auth i group;
    let '(ret, group) := r in
    mret (ret, group, i).

(** The calls made are part of the answer. A session without a configuration is used all the same. *)
Definition ldap_authenticate (calloc_ok : bool) (i : LDAP_AUTH_INFO) (group : list Z)
    : option (Z * list Z * LDAP_AUTH_INFO * list event) :=
  match read_ldap_config calloc_ok None i with
  | None => UB
  | Some (rc, c) =>
      if negb (rc =? LDAP_AUTH_SUCCESS) then Some (rc, group, i, [])
      else
        match c with
        | None => UB
        | Some c =>
            match (r ← authenticate_session i group; _ ← close_handle lib; mret r) {| ld := false; conf := c; trace := [] |} with
            | None => UB
            | Some ((rc, group, i), s) => Some (rc, group, i, trace s)
            end
        end
  end.

(** ** The privilege *)

Definition NO_PRIVILEGE : Z := 15.

(** One group [j] of the configuration, for the group found at [i]: the privilege and the caller's array. *)
Definition take_privilege (group_id : list Z) (i : nat) (acc : Z * list Z) (g : LDAP_GROUP_INFO) : Z * list Z :=
  let '(privilege, out) := acc in
  if negb (group_inner_id g =? Z.of_nat i + 1) then acc
  else
    (if (privilege =? NO_PRIVILEGE) || (negb (group_priv g =? NO_PRIVILEGE) && (privilege <? group_priv g))
     then group_priv g else privilege,
     <[i := nth i group_id 0]> out).

Definition take_group (group_id : list Z) (gs : list LDAP_GROUP_INFO) (acc : Z * list Z) (i : nat) : Z * list Z :=
  if nth i group_id 0 =? 255 then acc else foldl (take_privilege group_id i) acc gs.

Definition grant (group_id : list Z) (gs : list LDAP_GROUP_INFO) (out : list Z) : Z * list Z :=
  foldl (take_group group_id gs) (NO_PRIVILEGE, out) (seq 0 MAX_USER_GROUP).

(** The code, the privilege, the array of groups, the structure and the calls made. The array [group] of the
    structure has [MAX_USER_GROUP] elements. *)
Definition mscm_ldap_authenticate (calloc_ok : bool) (i : LDAP_AUTH_INFO) (privilege : option Z) (out : option (list Z))
    : option (Z * option Z * option (list Z) * LDAP_AUTH_INFO * list event) :=
  match privilege, out with
  | Some _, Some out =>
      match ldap_authenticate calloc_ok i (replicate MAX_USER_GROUP 255) with
      | None => UB
      | Some (retv, group_id, i, tr) =>
          if negb (retv =? LDAP_AUTH_SUCCESS) then Some (USER_LDAP_LOGIN_FAIL, Some NO_PRIVILEGE, Some out, i, tr)
          else
            let '(p, out) := grant group_id (group i) out in
            Some (RET_OK, Some p, Some out, with_names (bind_dn i) (bind_dn_pwd i) (username i) [] i, tr)
      end
  | _, _ => Some (RET_ERR, privilege, out, i, [])
  end.
End auth.

(** ** Computations that do not search *)

Class Quiet {A} (m : M A) : Prop := quiet s a s' : m s = Some (a, s') -> searches (trace s') = searches (trace s).

#[export] Instance quiet_ret {A} (a : A) : Quiet (mret a).
Proof. intros s a' s' [= <- <-]. done. Qed.

#[export] Instance quiet_bind {A B} (m : M A) (f : A -> M B) : Quiet m -> (forall a, Quiet (f a)) -> Quiet (m ≫= f).
Proof.
  intros Hm Hf s x s' He. unfold mbind, M_bind in He. destruct (m s) as [[a s1]|] eqn:E; [|done].
  apply Hm in E. apply Hf in He. congruence.
Qed.

#[export] Instance quiet_gets {A} (f : session -> A) : Quiet (gets f).
Proof. intros s a s' [= <- <-]. done. Qed.
#[export] Instance quiet_base : Quiet base_dn.
Proof. intros s a s' He. unfold base_dn in He. destruct (base (conf s)); [|done]. by injection He as <- <-. Qed.
#[export] Instance quiet_set_ld h : Quiet (set_ld h).
Proof. intros s a s' [= <- <-]. done. Qed.
#[export] Instance quiet_set_uid u : Quiet (set_dn_with_uid u).
Proof. intros s a s' [= <- <-]. done. Qed.

Lemma quiet_call {A} (ask : list event -> A) ev : (forall a tr, searches (ev a :: tr) = searches tr) -> Quiet (call ask ev).
Proof. intros He s a s' Hc. unfold call in Hc. destruct (ld s); [|done]. injection Hc as <- <-. apply He. Qed.

#[export] Hint Extern 0 (Quiet (call _ _)) => apply quiet_call; reflexivity : typeclass_instances.
#[export] Hint Extern 1 (Quiet (match ?x with _ => _ end)) => destruct x : typeclass_instances.

Section quiet.
Context `{LdapCodes} (lib : openldap_lib).

#[export] Instance quiet_initialize url : Quiet (ldap_initialize lib url).
Proof. intros s a s' He. unfold ldap_initialize in He. destruct (l_initialize _ _ _). by injection He as <- <-. Qed.
#[export] Instance quiet_option o : Quiet (ldap_set_option lib o).
Proof. unfold ldap_set_option. apply _. Qed.
#[export] Instance quiet_open i : Quiet (open_session lib i).
Proof.
  unfold open_session, ldap_initialize_handle, ldap_set_certificate_option, ldap_set_context_option,
    clear_ldap_ca_and_crl_conf, set_ldap_ca_and_crl_conf. apply _.
Qed.
#[export] Instance quiet_ensure i : Quiet (ensure_open lib i).
Proof. unfold ensure_open. apply _. Qed.
#[export] Instance quiet_simple_bind dn len pw : Quiet (do_ldap_simple_bind lib dn len pw).
Proof. unfold do_ldap_simple_bind, simple_bind. apply _. Qed.
#[export] Instance quiet_close : Quiet (close_handle lib).
Proof. unfold close_handle, ldap_unbind. apply _. Qed.
#[export] Instance quiet_direct name i : Quiet (do_direct_bind lib name i).
Proof. unfold do_direct_bind. apply _. Qed.
#[export] Instance quiet_direct_dn i : Quiet (do_direct_bind_dn lib i).
Proof. unfold do_direct_bind_dn, simple_bind. apply _. Qed.
#[export] Instance quiet_sasl i : Quiet (do_sasl_bind lib i).
Proof.
  unfold do_sasl_bind, set_sasl_config, try_ldap_sasl_interactive_bind, sasl_defaults, alloc_sasl_defaults, dup_or_option,
    ldap_sasl_interactive_bind_s. apply _.
Qed.
#[export] Instance quiet_bind_user i : Quiet (ldap_bind_user lib i).
Proof. unfold ldap_bind_user. apply _. Qed.
#[export] Instance quiet_lift {A} (o : option A) : Quiet (lift o).
Proof. intros s a s' He. unfold lift in He. destruct o; [|done]. by injection He as <- <-. Qed.
#[export] Instance quiet_proxy i : Quiet (proxy_bind lib i).
Proof. unfold proxy_bind. apply _. Qed.
#[export] Instance quiet_rebind cn i : Quiet (rebind_user lib cn i).
Proof. unfold rebind_user. apply _. Qed.
#[export] Instance quiet_auth_bind i : Quiet (auth_bind lib i).
Proof. unfold auth_bind, ldap_simple_bind_s. apply _. Qed.
End quiet.

Lemma wp_quiet {A} (m : M A) `{!Quiet m} Q s :
  wp m Q s -> wp m (fun a s' => Q a s' /\ searches (trace s') = searches (trace s)) s.
Proof. intros (a & s' & Hm & HQ). exists a, s'. split; [done|]. split; [done|]. by eapply quiet. Qed.

(** ** What the steps of an authentication do *)

(** The filters a user is looked for with. *)
Definition user_filters (i : LDAP_AUTH_INFO) : list (list ascii) :=
  let escaped := snd (escape_string (username i) (Z.of_nat LDAP_FILT_MAXSIZ)) in
  map (fun a => name_filter (lit a) escaped) ["cn"; "uid"; "sAMAccountName"; "userPrincipalName"]%string.

Section names.
Context (b : list ascii).

(** The name is the first value of cn or uid in the first entry of an answer, cut off at one of the two arrays it is
    copied to. *)
Definition entry_name (tr : list event) (filter name : list ascii) : Prop :=
  exists res k e attr vals, answered tr b filter None res /\ ldap_first_entry res = Some (k, e) /\ e attr = Some vals /\
    (attr = lit "cn" \/ attr = lit "uid") /\
    match head vals with
    | Some v => name = take (LDAP_USERFOLDER_MAX_LEN - 1) v \/ name = take (SMALL_BUFFER_SIZE - 1) v
    | None => name = []
    end.

(** A name found for the user; without one, the empty name. *)
Definition found_name (i : LDAP_AUTH_INFO) (tr : list event) (name : list ascii) : Prop :=
  name = [] \/ exists f, f ∈ user_filters i /\ entry_name tr f name.

(** The credentials a user is authenticated by: his password, and his name, his full name or a distinguished name made of
    his name or of the name found. *)
Definition login (i : LDAP_AUTH_INFO) (tr : list event) (cr : list ascii * list ascii) : Prop :=
  snd cr = password i /\
  (fst cr = username i \/ fst cr = full_name i \/
   exists name, (name = username i \/ found_name i tr name) /\ fst cr ∈ login_names b name).

Lemma entry_name_mono tr tr' f name : tr `suffix_of` tr' -> entry_name tr f name -> entry_name tr' f name.
Proof. intros Hs (res & k & e & attr & vals & Ha & Hr). exists res, k, e, attr, vals. split; [by eapply answered_mono|done]. Qed.

Lemma found_name_mono i tr tr' name : tr `suffix_of` tr' -> found_name i tr name -> found_name i tr' name.
Proof. intros Hs [->|(f & Hf & He)]; [by left|right]. exists f. split; [done|]. by eapply entry_name_mono. Qed.

Lemma login_mono i tr tr' cr : tr `suffix_of` tr' -> login i tr cr -> login i tr' cr.
Proof.
  intros Hs [Hp Hn]. split; [done|]. destruct Hn as [?|[?|(name & Hn & Hin)]]; [by left|by right; left|right; right].
  exists name. split; [|done]. destruct Hn as [?|?]; [by left|right]. by eapply found_name_mono.
Qed.

End names.

Section steps.
Context `{LdapCodes} (lib : openldap_lib) (laws : well_behaved lib).
Context (policy : list ldap_option) (c0 : PAM_LDAP_CONFIG_S) (b : list ascii) (since : list event).
Hypothesis c0_base : base c0 = Some b.

Section find.
Context (C : list ascii * list ascii -> Prop) (c : PAM_LDAP_CONFIG_S).
Notation bound_client := (searching policy c0 since C c).

(** One search of the loop for the user's name: [n] of them so far. *)
Definition looked_up (s : session) (n : nat) (s' : session) : Prop :=
  bound_client s' /\ trace s `suffix_of` trace s' /\ (searches (trace s') <= searches (trace s) + n)%nat.

Lemma looked_up_trans s1 n s2 m s3 : looked_up s1 n s2 -> looked_up s2 m s3 -> looked_up s1 (n + m) s3.
Proof. intros (_ & H1 & N1) (Hb & H2 & N2). split; [done|]. split; [by etrans|lia]. Qed.

Lemma find_user_cn_spec f cn size s :
  (size = LDAP_USERFOLDER_MAX_LEN \/ size = SMALL_BUFFER_SIZE) -> bound_client s ->
  wp (ldap_find_user_cn lib f cn size)
     (fun r s' => looked_up s 1 s' /\ if fst r =? 0 then entry_name b (trace s') f (snd r) else snd r = cn) s.
Proof.
  intros Hsize Hs. unfold ldap_find_user_cn. pose proof unknown_fails as Hu.
  destruct (size =? 0)%nat eqn:Esz.
  { wp_steps. split; [|done]. split; [done|]. split; [done|lia]. }
  apply Nat.eqb_neq in Esz. wp_steps. eapply wp_search_option; [done|]. intros rc0 s1 Hs1 Ht1. wp_steps.
  eapply wp_base; [by eapply searching_base|]. wp_steps. rewrite (proj2 Hs1).
  eapply wp_search_call; [done|]. intros rc res s2 Hs2 Ht2.
  assert (Hl : looked_up s 1 s2).
  { split; [done|]. rewrite Ht2, Ht1. split; [by do 2 apply suffix_cons_r|]. cbn. lia. }
  destruct (search_answered rc); cbn [negb]; [|wp_steps; cbn [fst snd]; by rewrite Hu].
  destruct (ldap_first_entry res) as [[k e]|] eqn:Ee; [|wp_steps; cbn [fst snd]; by rewrite Hu].
  destruct (e _) as [vals|] eqn:Ev; [|wp_steps; cbn [fst snd]; by rewrite Hu].
  wp_steps. split; [done|]. cbn [LDAP_AUTH_SUCCESS Z.eqb fst snd]. exists res, k, e, (if dn_with_uid c =? 0 then lit "cn" else lit "uid"), vals.
  split; [exists (scope c), rc; rewrite Ht2; apply list_elem_of_here|]. split; [done|]. split; [done|].
  split; [destruct (dn_with_uid c =? 0); [by left|by right]|]. destruct (head vals) as [v|]; [|done]. unfold strncpy_s.
  rewrite (proj2 (Nat.ltb_lt _ _)) by lia. destruct Hsize as [->| ->]; [by left|by right].
Qed.

Lemma search_user_spec i size s :
  (size = LDAP_USERFOLDER_MAX_LEN \/ size = SMALL_BUFFER_SIZE) -> bound_client s ->
  wp (ldap_search_user lib i size)
     (fun r s' => looked_up s 4 s' /\ (fst r = 0 -> found_name b i (trace s') (snd r))) s.
Proof.
  intros Hsize Hs. unfold ldap_search_user, window_logon_name.
  assert (Hin : forall a, a ∈ ["cn"; "uid"; "sAMAccountName"; "userPrincipalName"]%string ->
            name_filter (lit a) (snd (escape_string (username i) (Z.of_nat LDAP_FILT_MAXSIZ))) ∈ user_filters i).
  { intros a Ha. apply list_elem_of_fmap. by exists a. }
  destruct (escape_string (username i) (Z.of_nat LDAP_FILT_MAXSIZ)) as [ret esc]. cbn [snd] in Hin.
  assert (Hcn : name_filter (if dn_with_uid c =? 0 then lit "cn" else lit "uid") esc ∈ user_filters i).
  { destruct (_ =? 0); apply Hin; by apply (bool_decide_eq_true_1 _). }
  pose proof (Hin "sAMAccountName"%string ltac:(by apply (bool_decide_eq_true_1 _))) as Hsam.
  pose proof (Hin "userPrincipalName"%string ltac:(by apply (bool_decide_eq_true_1 _))) as Hupn. clear Hin.
  destruct (negb _).
  { wp_steps. split; [|done]. split; [done|]. split; [done|lia]. }
  wp_steps. rewrite (proj2 Hs). eapply wp_mono; [by apply find_user_cn_spec|].
  intros [r1 cn1] s1 [Hl1 H1]. cbn [fst snd] in H1. unfold RET_OK, LDAP_AUTH_SUCCESS.
  assert (Hfound : forall f n s s', f ∈ user_filters i -> looked_up s n s' -> (n <= 4)%nat ->
            forall name, entry_name b (trace s') f name -> looked_up s 4 s' /\ (0 = 0 -> found_name b i (trace s') name)).
  { intros f n s0 s' Hf (Hb & Hsuf & Hn) Hle name He. split; [split; [done|split; [done|lia]]|]. intros _. right. by exists f. }
  destruct (r1 =? 0) eqn:E1; [wp_steps; exact (Hfound _ 1%nat _ _ Hcn Hl1 ltac:(lia) _ H1)|]. subst cn1.
  wp_steps. eapply wp_mono; [apply find_user_cn_spec; [done|apply Hl1]|]. intros [r2 cn2] s2 [Hl2 H2]. cbn [fst snd] in H2.
  pose proof (looked_up_trans _ _ _ _ _ Hl1 Hl2) as Hl12.
  destruct (r2 =? 0) eqn:E2; [wp_steps; cbn [Z.eqb]; wp_steps; exact (Hfound _ 2%nat _ _ Hsam Hl12 ltac:(lia) _ H2)|]. subst cn2.
  wp_steps. eapply wp_mono; [apply find_user_cn_spec; [done|apply Hl2]|]. intros [r3 cn3] s3 [Hl3 H3]. cbn [fst snd] in H3.
  pose proof (looked_up_trans _ _ _ _ _ Hl12 Hl3) as Hl13.
  destruct (r3 =? 0) eqn:E3; [wp_steps; cbn [Z.eqb]; wp_steps; exact (Hfound _ 3%nat _ _ Hupn Hl13 ltac:(lia) _ H3)|]. subst cn3.
  wp_steps. destruct (fst (escape_string _ _) =? 0) eqn:E4.
  { wp_steps. split; [|by left]. destruct Hl13 as (Hb & Hsuf & Hn). split; [done|]. split; [done|lia]. }
  wp_steps. eapply wp_mono; [apply find_user_cn_spec; [done|apply Hl3]|]. intros [r4 cn4] s4 [Hl4 H4]. cbn [fst snd] in H4.
  pose proof (looked_up_trans _ _ _ _ _ Hl13 Hl4) as Hl14. wp_steps.
  destruct (r4 =? 0) eqn:E5; [exact (Hfound _ 4%nat _ _ Hupn Hl14 ltac:(lia) _ H4)|]. done.
Qed.
End find.

Notation bound_client C := (bound_with policy c0 since C).
Notation client P := (holds policy c0 since P).

Lemma auth_bind_spec i s :
  tls_policy c0 i = policy -> client (usable policy) s ->
  wp (auth_bind lib i)
     (fun rc s' => if rc =? 0 then bound_client (login b i []) s' else client (usable policy) s') s.
Proof.
  intros Hpol Hu. unfold auth_bind. wp_steps. eapply wp_mono; [by eapply do_sasl_bind_spec|]. intros rc s1 H1. cbv beta in H1.
  unfold LDAP_AUTH_SUCCESS. destruct (rc =? 0) eqn:E1.
  { wp_steps. rewrite E1. eapply bound_mono; [done|]. intros cr <-. split; [done|by left]. }
  wp_steps. eapply wp_mono; [by eapply close_handle_spec|]. intros ? s2 H2. cbv beta in H2. wp_steps.
  eapply wp_mono; [eapply (do_direct_bind_spec lib laws); [done|done|eapply holds_mono; [done|by left]]|].
  intros rc2 s3 H3. cbv beta in H3. destruct (rc2 =? 0) eqn:E2.
  { wp_steps. rewrite E2. eapply bound_mono; [done|]. intros cr [Hn Hp]. split; [done|]. right; right.
    exists (username i). split; [by left|done]. }
  destruct (length (user_domain i) =? 0)%nat; [by wp_steps|]. wp_steps.
  destruct (ld s3) eqn:Eld; cbn [negb]; [|by wp_steps].
  eapply wp_mono.
  - eapply simple_bind_s_spec. destruct H3 as (p & Hp & [Hc|Hr]); [|by exists p].
    pose proof (phase_handle _ _ _ _ _ Hp). unfold closed in Hc. congruence.
  - intros rc3 s4 H4. cbv beta in H4. destruct (rc3 =? 0).
    + eapply bound_mono; [done|]. intros cr <-. split; [done|]. right; by left.
    + by apply ready_usable.
Qed.

(** The strings [switch_dn_and_user] moves fit the arrays. *)
Definition names_fit (i : LDAP_AUTH_INFO) : Prop :=
  Forall (fun s => (length s < SMALL_BUFFER_SIZE)%nat /\ (length s < LDAP_USER_NAME_MAX_LEN + 1)%nat)
    [bind_dn i; bind_dn_pwd i; username i; password i].

Lemma copy_name_fits n s :
  (length s < SMALL_BUFFER_SIZE)%nat -> (length s < n)%nat -> copy_name n s = Some s.
Proof.
  intros H1%Nat.ltb_lt H2%Nat.ltb_lt. unfold copy_name, strncpy_s. rewrite Nat.min_id, H1. cbn [snd].
  rewrite take_ge by lia. by rewrite H2.
Qed.

Lemma switch_fits i :
  names_fit i -> switch_dn_and_user i = Some (with_names (username i) (password i) (bind_dn i) (bind_dn_pwd i) i).
Proof.
  intros HF. unfold names_fit in HF. rewrite !Forall_cons in HF. destruct HF as ([??] & [??] & [??] & [??] & _).
  unfold switch_dn_and_user.
  rewrite !(copy_name_fits SMALL_BUFFER_SIZE) by done. cbn [mbind option_bind].
  rewrite !copy_name_fits by done. done.
Qed.

(** Switching twice restores the structure. *)
Lemma switch_twice i : names_fit i -> exists j, switch_dn_and_user i = Some j /\ switch_dn_and_user j = Some i /\
  tls_cipher j = tls_cipher i /\ cert_inner_dir j = cert_inner_dir i.
Proof.
  intros HF. eexists. split; [by apply switch_fits|]. split; [|done]. rewrite switch_fits; [by destruct i|].
  unfold names_fit in *. cbn. rewrite !Forall_cons in *. tauto.
Qed.

Lemma tls_policy_info c i j : tls_cipher j = tls_cipher i -> cert_inner_dir j = cert_inner_dir i -> tls_policy c j = tls_policy c i.
Proof. intros E1 E2. unfold tls_policy. by rewrite E1, E2. Qed.

Lemma wp_lift {A} (o : option A) a Q s : o = Some a -> Q a s -> wp (lift o) Q s.
Proof. intros -> HQ. by exists a, s. Qed.

Lemma proxy_bind_spec i s :
  names_fit i -> tls_policy c0 i = policy -> client (usable policy) s ->
  wp (proxy_bind lib i)
     (fun r s' => snd r = i /\ if fst r =? 0 then bound_client (fun _ => True) s' else client (usable policy) s') s.
Proof.
  intros Hfit Hpol Hu. unfold proxy_bind. destruct (has_case_prefix _ _); [|destruct (has_case_prefix _ _)].
  - wp_steps. eapply wp_mono; [by eapply do_direct_bind_dn_spec|]. intros rc s1 H1. cbv beta in H1. wp_steps. split; [done|].
    cbn [fst]. destruct (rc =? 0); [by eapply bound_mono|done].
  - wp_steps. eapply wp_mono; [by eapply do_direct_bind_dn_spec|]. intros rc s1 H1. cbv beta in H1. wp_steps. unfold RET_OK.
    destruct (rc =? 0) eqn:E; wp_steps; [|split; [done|cbn [fst]; by rewrite E]].
    eapply wp_mono; [by eapply set_uid_spec|]. intros ? s2 H2. cbv beta in H2. wp_steps. split; [done|]. cbn [fst]. rewrite E.
    by eapply bound_mono.
  - destruct (switch_twice i Hfit) as (j & Hj & Hi & Hc & Hd). wp_steps. eapply wp_lift; [done|]. wp_steps.
    eapply wp_mono; [eapply (bind_or_direct_spec lib laws); [done|by rewrite (tls_policy_info _ i)|done]|].
    intros rc s1 H1. cbv beta in H1. wp_steps. eapply wp_lift; [done|]. wp_steps. split; [done|]. cbn [fst].
    destruct (rc =? 0); [by eapply bound_mono|done].
Qed.

(** The groups of the user found, and why. *)
Definition granted (i : LDAP_AUTH_INFO) (tr : list event) (g g' : list Z) : Prop :=
  marked g' /\ exists name u, found_name b i tr name /\
    marks (belongs b (with_uid u c0) (snd (escape_string name (Z.of_nat LDAP_FILT_MAXSIZ))) tr) g g'.

Definition search_bound : nat := 4005.

(** A session of the user: [n] searches at most, and with success the bind as the user and his groups. *)
Definition served (i : LDAP_AUTH_INFO) (g : list Z) (n : nat) (s : session) (r : Z * list Z) (s' : session) : Prop :=
  (searches (trace s') <= searches (trace s) + n)%nat /\
  if fst r =? 0 then bound_client (login b i (trace s')) s' /\ granted i (trace s') g (snd r)
  else client (usable policy) s'.

Lemma same_config_eq c c' : same_config c c' -> c' = with_uid (dn_with_uid c') c.
Proof. destruct c, c'. unfold same_config, with_uid. cbn. by intros [=]; subst. Qed.

Lemma bound_config C s : bound_client C s -> same_config c0 (conf s).
Proof. intros (p & Hp & _). apply Hp. Qed.

(** The groups are looked up by a client bound as the user. *)
Lemma groups_served i name g tr s :
  bound_client (login b i tr) s -> tr `suffix_of` trace s -> found_name b i (trace s) name -> length g = MAX_USER_GROUP ->
  wp (do_get_user_group lib name g) (served i g 4001 s) s.
Proof.
  intros Hb Htr Hn Hl. eapply wp_mono.
  - eapply get_user_group_spec; [done|by split|done].
  - intros [rc g'] s' ((Hb' & Hc) & Hsuf & Hcnt & Hm & Hk). cbn [fst snd] in *.
    change (2 * MAX_LDAP_GRP_HASH_SIZE)%nat with 4000%nat in Hcnt. split; [lia|]. cbn [fst snd].
    destruct (rc =? 0) eqn:E; [|by eapply bound_usable]. apply Z.eqb_eq in E. split.
    + eapply bound_mono; [done|]. intros cr. apply login_mono. etrans; [exact Htr|exact Hsuf].
    + split; [auto|]. exists name, (dn_with_uid (conf s)). split; [by eapply found_name_mono|].
      rewrite <- (same_config_eq c0 (conf s)) by (by eapply bound_config). done.
Qed.

Lemma served_fails i g n s rc s' :
  (searches (trace s') <= searches (trace s) + n)%nat -> rc <> 0 -> client (usable policy) s' -> served i g n s (rc, g) s'.
Proof. intros Hn Hrc Hu. split; [done|]. cbn [fst snd]. by rewrite (proj2 (Z.eqb_neq _ _)). Qed.

Lemma served_more i g n m s s1 r s' :
  (searches (trace s1) <= searches (trace s) + m)%nat -> served i g n s1 r s' -> served i g (m + n) s r s'.
Proof. intros Hm [Hn Hr]. split; [lia|done]. Qed.

Lemma ldap_auth_spec i g s :
  tls_policy c0 i = policy -> client (usable policy) s -> length g = MAX_USER_GROUP ->
  wp (ldap_auth lib i g) (served i g search_bound s) s.
Proof.
  intros Hpol Hu Hl. unfold ldap_auth. wp_steps. eapply wp_mono; [eapply wp_quiet; [apply _|by apply auth_bind_spec]|].
  intros rc s1 [H1 Hq1]. cbv beta in H1. unfold LDAP_AUTH_SUCCESS, RET_OK.
  destruct (rc =? 0) eqn:E1; cbn [negb]; [|wp_steps; apply served_fails; [lia|done|done]].
  wp_steps. eapply wp_mono; [by eapply search_user_spec; [by left|split]|].
  intros [ret cn] s2 [((Hb2 & Hc2) & Hsuf2 & Hn2) Hf2]. cbn [fst snd] in *.
  destruct (ret =? 0) eqn:E2; cbn [negb].
  2:{ wp_steps. apply served_fails; [unfold search_bound; lia|done|by eapply bound_usable]. }
  apply Z.eqb_eq in E2. eapply wp_mono.
  - eapply (groups_served i cn g []); [done|apply suffix_nil|auto|done].
  - intros r s'. apply (served_more i g 4001 4). lia.
Qed.

(** A client may forget where it started from. *)
Lemma since_now P s : client P s -> holds policy c0 (trace s) P s.
Proof. intros (p & [] & HP). exists p. split; [by split|done]. Qed.

Lemma since_earlier P tr s : since `suffix_of` tr -> holds policy c0 tr P s -> client P s.
Proof. intros Hs (p & [] & HP). exists p. split; [|done]. split; [by etrans|done..]. Qed.

Lemma client_since P s : client P s -> since `suffix_of` trace s.
Proof. intros (p & Hp & _). apply Hp. Qed.

(** The second bind runs on the handle of the first, and the calls made so far stay on record. *)
Lemma rebind_user_spec cn i s :
  tls_policy c0 i = policy -> client (usable policy) s -> found_name b i (trace s) cn ->
  wp (rebind_user lib cn i)
     (fun rc s' => trace s `suffix_of` trace s' /\
                   if rc =? 0 then bound_client (login b i (trace s)) s' else client (usable policy) s') s.
Proof.
  intros Hpol Hu Hn. unfold rebind_user. eapply wp_mono.
  - eapply (bind_or_direct_spec lib laws policy c0 b (trace s)); [done|done|by apply since_now].
  - intros rc s' H1. cbv beta in H1. pose proof (client_since _ _ Hu) as Hs.
    assert (Hsuf : trace s `suffix_of` trace s').
    { destruct (rc =? 0); destruct H1 as (p & Hp & _); apply Hp. }
    split; [done|]. destruct (rc =? 0); eapply since_earlier; try done. eapply bound_mono; [done|].
    intros cr [->|[Hin Hp]]; [split; [done|by left]|]. split; [done|]. right; right. exists cn. split; [by right|done].
Qed.

Lemma ldap_proxyuser_auth_spec i g s :
  names_fit i -> tls_policy c0 i = policy -> client (usable policy) s -> length g = MAX_USER_GROUP ->
  wp (ldap_proxyuser_auth lib i g) (fun r s' => snd r = i /\ served i g search_bound s (fst r) s') s.
Proof.
  intros Hfit Hpol Hu Hl. unfold ldap_proxyuser_auth. wp_steps.
  eapply wp_mono; [eapply wp_quiet; [apply _|by apply proxy_bind_spec]|].
  intros [rc j] s1 [[Hj H1] Hq1]. cbn [fst snd] in *. subst j. unfold LDAP_AUTH_SUCCESS, RET_OK.
  destruct (rc =? 0) eqn:E1; cbn [negb]; [|wp_steps; split; [done|]; apply served_fails; [lia|done|done]].
  wp_steps. eapply wp_mono; [by eapply search_user_spec; [by right|split]|].
  intros [ret cn] s2 [((Hb2 & Hc2) & Hsuf2 & Hn2) Hf2]. cbn [fst snd] in *.
  destruct (ret =? 0) eqn:E2; cbn [negb].
  2:{ wp_steps. split; [done|]. apply served_fails; [unfold search_bound; lia|done|by eapply bound_usable]. }
  apply Z.eqb_eq in E2. wp_steps.
  eapply wp_mono; [eapply wp_quiet; [apply _|apply rebind_user_spec; [done|by eapply bound_usable|auto]]|].
  intros rc3 s3 [[Hsuf3 H3] Hq3]. destruct (rc3 =? 0) eqn:E3; cbn [negb].
  2:{ wp_steps. split; [done|]. apply served_fails; [unfold search_bound; lia|done|done]. }
  wp_steps. eapply wp_mono; [eapply (groups_served i cn g (trace s2)); [exact H3|exact Hsuf3|eapply found_name_mono; [exact Hsuf3|auto]|done]|].
  intros [rc4 g4] s4 H4. wp_steps. split; [done|]. apply (served_more i g 4001 4 s s3); [lia|done].
Qed.

Lemma authenticate_session_spec i g s :
  names_fit i -> tls_policy c0 i = policy -> client (usable policy) s -> length g = MAX_USER_GROUP ->
  wp (authenticate_session lib i g) (fun r s' => snd r = i /\ served i g search_bound s (fst r) s') s.
Proof.
  intros Hfit Hpol Hu Hl. unfold authenticate_session. destruct (_ && _); [by apply ldap_proxyuser_auth_spec|].
  wp_steps. eapply wp_mono; [by apply ldap_auth_spec|]. intros [rc g'] s' Hs. by wp_steps.
Qed.
End steps.

(** A configuration that was read has a base, and the data of the certificates. *)
Lemma read_config_base `{LdapCodes} i c :
  read_ldap_config true None i = Some (LDAP_AUTH_SUCCESS, Some c) -> exists b, base c = Some b.
Proof.
  unfold read_ldap_config, alloc_config.
  match goal with |- context [parse_ldap_base_info (Some ?d) _ (Some ?f) _ _] =>
    destruct (parse_base_total d f ltac:(apply length_strncpy)) as [b Hb] end.
  change (Z.of_nat LDAP_USERDOMAIN_MAX_LEN + 1) with 256. change LDAP_USERDN_MAX_LEN with 766%nat. rewrite Hb.
  change (LDAP_AUTH_SUCCESS =? LDAP_AUTH_ERROR) with false. cbv iota zeta.
  destruct (if _ <? _ then _ else _); [|done]. intros [= <-]. by exists b.
Qed.

(** What an authentication establishes: it returns, it searches at most [search_bound] times, it gives every handle
    back, and with success the last client was bound as the user and his groups are granted. *)
Definition session_verdict (policy : list ldap_option) (c : PAM_LDAP_CONFIG_S) (b : list ascii) (i : LDAP_AUTH_INFO)
    (rc : Z) (g' : list Z) (tr : list event) : Prop :=
  (searches tr <= search_bound)%nat /\ (exists p, trace_to policy tr p /\ closed p) /\
  (rc = 0 -> exists tr' n p cr, tr = Unbind n :: tr' /\ trace_to policy tr' p /\ bound p = Some cr /\ login b i tr' cr /\
                              granted c b i tr' (replicate MAX_USER_GROUP 255) g').

Lemma close_open lib s :
  ld s = true ->
  close_handle lib s = Some (tt, {| ld := false; conf := conf s; trace := Unbind (l_unbind lib (trace s)) :: trace s |}).
Proof. intros Hl. unfold close_handle, mbind, M_bind, gets, ldap_unbind, call. rewrite Hl. cbn. by rewrite Hl. Qed.

Lemma ldap_authenticate_spec `{LdapCodes} lib i c b :
  well_behaved lib -> read_ldap_config true None i = Some (LDAP_AUTH_SUCCESS, Some c) -> base c = Some b -> names_fit i ->
  exists rc g' tr, ldap_authenticate lib true i (replicate MAX_USER_GROUP 255) = Some (rc, g', i, tr) /\
    session_verdict (tls_policy c i) c b i rc g' tr.
Proof.
  intros laws Hc Hb Hfit. unfold ldap_authenticate. rewrite Hc. cbn [negb LDAP_AUTH_SUCCESS Z.eqb].
  set (s0 := {| ld := false; conf := c; trace := [] |}). set (g := replicate MAX_USER_GROUP 255).
  assert (Hs0 : holds (tls_policy c i) c [] (usable (tls_policy c i)) s0).
  { exists no_handle. split; [|by left]. split; [done|constructor|done|done]. }
  destruct (authenticate_session_spec lib laws (tls_policy c i) c b [] Hb i g s0 Hfit eq_refl Hs0 eq_refl)
    as ([[rc g'] j] & s1 & He & Hj & Hn & Hv). cbn [fst snd] in *. subst j.
  assert (Hu : holds (tls_policy c i) c [] (usable (tls_policy c i)) s1).
  { destruct (rc =? 0); [by eapply bound_usable, Hv|done]. }
  destruct (wp_quiet (close_handle lib) _ _ (close_handle_spec lib (tls_policy c i) c [] s1 Hu))
    as ([] & s2 & Hcl & (p2 & Hp2 & Hclosed) & Hq).
  exists rc, g', (trace s2). split.
  { unfold mbind, M_bind. rewrite He, Hcl. done. }
  split; [rewrite Hq; exact Hn|]. split; [exists p2; split; [apply Hp2|done]|]. intros ->. cbn [Z.eqb] in Hv.
  destruct Hv as [(p1 & Hp1 & (Hh & _) & cr & Hcr & Hlogin) Hgr].
  rewrite close_open in Hcl by (by rewrite <- (phase_handle _ _ _ _ _ Hp1)). injection Hcl as <-. cbn [trace].
  exists (trace s1), (l_unbind lib (trace s1)), p1, cr. split; [done|]. split; [apply Hp1|done].
Qed.

(** ** Privileges *)

(** A configured group counts when its slot of the answer is set. *)
Definition counts (group_id : list Z) (g : LDAP_GROUP_INFO) : Prop :=
  exists i, (i < MAX_USER_GROUP)%nat /\ nth i group_id 0 <> 255 /\ group_inner_id g = Z.of_nat i + 1.

(** The privilege kept of two. *)
Definition pick (p x : Z) : Z := if (p =? NO_PRIVILEGE) || (negb (x =? NO_PRIVILEGE) && (p <? x)) then x else p.

(** [p] is the highest of the privileges in [l]; NO_PRIVILEGE stands for none. *)
Definition highest (l : list Z) (p : Z) : Prop :=
  (p = NO_PRIVILEGE \/ p ∈ l) /\ Forall (fun x => x <> NO_PRIVILEGE -> p <> NO_PRIVILEGE /\ x <= p) l.

Lemma highest_pick l p x : highest l p -> highest (l ++ [x]) (pick p x).
Proof.
  intros [Hin HF]. unfold pick. assert (Hkeep : p = NO_PRIVILEGE \/ p ∈ l ++ [x]) by (rewrite elem_of_app; tauto).
  assert (Hx : x ∈ l ++ [x]) by (apply elem_of_app; right; apply list_elem_of_here).
  destruct (p =? NO_PRIVILEGE) eqn:E1; cbn [orb].
  - apply Z.eqb_eq in E1. split; [by right|]. apply Forall_app. split; [|by repeat constructor].
    eapply Forall_impl; [done|]. cbn. intros y Hy Hne. by destruct (Hy Hne).
  - apply Z.eqb_neq in E1. destruct (x =? NO_PRIVILEGE) eqn:E2; cbn [negb andb].
    + apply Z.eqb_eq in E2. split; [done|]. apply Forall_app. split; [done|]. by repeat constructor.
    + apply Z.eqb_neq in E2. destruct (p <? x) eqn:E3; [apply Z.ltb_lt in E3|apply Z.ltb_ge in E3].
      * split; [by right|]. apply Forall_app. split; [|by repeat constructor]. eapply Forall_impl; [done|]. cbn.
        intros y Hy Hne. destruct (Hy Hne). split; [done|lia].
      * split; [done|]. apply Forall_app. split; [done|]. by repeat constructor.
Qed.

(** The privileges in the order they are looked at, and the slots handed out. *)
Definition looked_at (group_id : list Z) (gs : list LDAP_GROUP_INFO) (i : nat) : list LDAP_GROUP_INFO :=
  if nth i group_id 0 =? 255 then [] else List.filter (fun g => group_inner_id g =? Z.of_nat i + 1) gs.

Lemma take_group_pick group_id gs l acc i :
  highest l (fst acc) ->
  highest (l ++ map group_priv (looked_at group_id gs i)) (fst (take_group group_id gs acc i)).
Proof.
  intros Hl. unfold take_group, looked_at. destruct (nth i group_id 0 =? 255); [by rewrite app_nil_r|].
  revert l acc Hl. induction gs as [|g gs IH]; intros l acc Hl; [by rewrite app_nil_r|]. cbn [foldl List.filter].
  destruct acc as [p out]. unfold take_privilege at 2. destruct (group_inner_id g =? Z.of_nat i + 1); cbn [negb]; [|by apply IH].
  cbn [map]. change (group_priv g :: map group_priv (List.filter (fun g => group_inner_id g =? Z.of_nat i + 1) gs))
    with ([group_priv g] ++ map group_priv (List.filter (fun g => group_inner_id g =? Z.of_nat i + 1) gs)).
  rewrite app_assoc. apply IH. cbn [fst]. by apply (highest_pick l p).
Qed.

Lemma grant_highest group_id gs out :
  highest (map group_priv (concat (map (looked_at group_id gs) (seq 0 MAX_USER_GROUP)))) (fst (grant group_id gs out)).
Proof.
  unfold grant. cut (forall js l acc, highest l (fst acc) ->
    highest (l ++ map group_priv (concat (map (looked_at group_id gs) js))) (fst (foldl (take_group group_id gs) acc js))).
  { intros Hcut. apply (Hcut _ [] (NO_PRIVILEGE, out)). split; [by left|constructor]. }
  induction js as [|j js IH]; intros l acc Hl; cbn [map concat foldl]; [by rewrite app_nil_r|].
  rewrite map_app, app_assoc. apply IH. by apply take_group_pick.
Qed.

Lemma looked_at_counts group_id gs g :
  g ∈ concat (map (looked_at group_id gs) (seq 0 MAX_USER_GROUP)) <-> g ∈ gs /\ counts group_id g.
Proof.
  rewrite list_elem_of_In, in_concat. split.
  - intros (l & Hl & Hg). apply in_map_iff in Hl as (i & <- & Hi). apply in_seq in Hi. unfold looked_at in Hg.
    destruct (nth i group_id 0 =? 255) eqn:E; [done|]. apply filter_In in Hg as [Hg Hid]. apply Z.eqb_eq in Hid.
    apply Z.eqb_neq in E. split; [by apply list_elem_of_In|]. exists i. split; [lia|done].
  - intros (Hg & i & Hi & Hne & Hid). exists (looked_at group_id gs i). split; [apply in_map, in_seq; lia|].
    unfold looked_at. rewrite (proj2 (Z.eqb_neq _ _)) by done. apply filter_In. split; [by apply list_elem_of_In|].
    by apply Z.eqb_eq.
Qed.

Lemma grant_privilege group_id gs out :
  let p := fst (grant group_id gs out) in
  (forall g, g ∈ gs -> counts group_id g -> group_priv g <> NO_PRIVILEGE -> p <> NO_PRIVILEGE /\ group_priv g <= p) /\
  (p <> NO_PRIVILEGE -> exists g, g ∈ gs /\ counts group_id g /\ group_priv g = p).
Proof.
  destruct (grant_highest group_id gs out) as [Hin HF]. intros p. fold p in Hin, HF. split.
  - intros g Hg Hc. rewrite Forall_map, Forall_forall in HF. apply HF. by apply looked_at_counts.
  - intros Hp. destruct Hin as [|Hin]; [done|]. apply list_elem_of_fmap in Hin as (g & -> & Hg).
    apply looked_at_counts in Hg as [??]. by exists g.
Qed.

(** Slot [j] of the caller's array is set when a configured group counts there. *)
Definition slot_counts (group_id : list Z) (gs : list LDAP_GROUP_INFO) (j : nat) : bool :=
  negb (nth j group_id 0 =? 255) && existsb (fun g => group_inner_id g =? Z.of_nat j + 1) gs.

Lemma take_group_slots group_id gs acc i :
  snd (take_group group_id gs acc i) = if slot_counts group_id gs i then <[i := nth i group_id 0]> (snd acc) else snd acc.
Proof.
  unfold take_group, slot_counts. destruct (nth i group_id 0 =? 255); [done|]. cbn [negb andb].
  revert acc. induction gs as [|g gs IH]; intros [p out]; [done|]. cbn [foldl existsb]. rewrite IH.
  unfold take_privilege. destruct (group_inner_id g =? Z.of_nat i + 1); cbn [negb orb snd]; [|done].
  destruct (existsb _ gs); [|done]. by rewrite list_insert_insert_eq.
Qed.

Lemma grant_slots group_id gs out j :
  length out = MAX_USER_GROUP -> (j < MAX_USER_GROUP)%nat ->
  snd (grant group_id gs out) !! j = if slot_counts group_id gs j then Some (nth j group_id 0) else out !! j.
Proof.
  intros Hl Hj. unfold grant. cut (forall js acc, length (snd acc) = MAX_USER_GROUP ->
    snd (foldl (take_group group_id gs) acc js) !! j
    = if bool_decide (j ∈ js) && slot_counts group_id gs j then Some (nth j group_id 0) else snd acc !! j).
  { intros Hcut. rewrite Hcut by done. rewrite bool_decide_eq_true_2; [done|]. apply elem_of_seq. lia. }
  induction js as [|i js IH]; intros acc Ha; cbn [foldl]; [done|].
  assert (Ht : length (snd (take_group group_id gs acc i)) = MAX_USER_GROUP).
  { rewrite take_group_slots. destruct (slot_counts group_id gs i); [by rewrite length_insert|done]. }
  rewrite IH, take_group_slots by done. destruct (decide (j = i)) as [->|Hne].
  - rewrite (bool_decide_eq_true_2 (i ∈ i :: js)) by apply list_elem_of_here. cbn [andb].
    destruct (slot_counts group_id gs i); [|by rewrite andb_false_r]. rewrite andb_true_r.
    destruct (bool_decide _); [done|]. apply list_lookup_insert_eq. by rewrite Ha.
  - assert (E : bool_decide (j ∈ i :: js) = bool_decide (j ∈ js)).
    { apply bool_decide_ext. rewrite elem_of_cons. naive_solver. }
    rewrite E. destruct (_ && _); [done|]. destruct (slot_counts group_id gs i); [|done]. by apply list_lookup_insert_ne.
Qed.

(** ** The theorems *)

Section theorems.
Context `{LdapCodes} (lib : openldap_lib) (laws : well_behaved lib).
Context (i : LDAP_AUTH_INFO) (c : PAM_LDAP_CONFIG_S).
Hypothesis config_read : read_ldap_config true None i = Some (LDAP_AUTH_SUCCESS, Some c).
Hypothesis fits : names_fit i.

(** What [mscm_ldap_authenticate] makes of the answer of a session. *)
Lemma mscm_of_session p0 out :
  exists b rc g' tr, base c = Some b /\ session_verdict (tls_policy c i) c b i rc g' tr /\
    mscm_ldap_authenticate lib true i (Some p0) (Some out) =
      (if rc =? 0 then Some (RET_OK, Some (fst (grant g' (group i) out)), Some (snd (grant g' (group i) out)),
                             with_names (bind_dn i) (bind_dn_pwd i) (username i) [] i, tr)
       else Some (USER_LDAP_LOGIN_FAIL, Some NO_PRIVILEGE, Some out, i, tr)).
Proof.
  destruct (read_config_base i c config_read) as [b Hb].
  destruct (ldap_authenticate_spec lib i c b laws config_read Hb fits) as (rc & g' & tr & He & Hv).
  exists b, rc, g', tr. split; [done|]. split; [done|]. unfold mscm_ldap_authenticate. rewrite He. unfold LDAP_AUTH_SUCCESS.
  destruct (rc =? 0); cbn [negb]; [|done]. by destruct (grant g' (group i) out).
Qed.

(** C8: a user is authenticated only when the directory has accepted a bind with his password: at the end of a
    successful run the connection, opened and set up as the configuration asks, is bound by a credential that
    consists of the user's password and of his name, his name with the domain, or a distinguished name made of his
    name or of the name the directory found for him. *)
Theorem authenticated_with_password p0 out p out' i' tr :
  mscm_ldap_authenticate lib true i (Some p0) (Some out) = Some (RET_OK, p, out', i', tr) ->
  exists b tr' n ph cr, base c = Some b /\ tr = Unbind n :: tr' /\ trace_to (tls_policy c i) tr' ph /\
    bound ph = Some cr /\ login b i tr' cr.
Proof.
  intros He. destruct (mscm_of_session p0 out) as (b & rc & g' & tr2 & Hb & Hv & Heq). rewrite Heq in He.
  destruct (rc =? 0) eqn:E; [|done]. injection He as _ _ _ <-. apply Z.eqb_eq in E.
  destruct Hv as (_ & _ & Hok). destruct (Hok E) as (tr' & n & ph & cr & -> & Ht & Hcr & Hlog & _).
  by exists b, tr', n, ph, cr.
Qed.

(** C9: every authentication ends, with the code of success or the one of a failed login; it keeps to the protocol of
    a client (no use of a closed handle, no bind before the options of the configuration are set, no search unless
    bound), gives back every handle it opens, and makes at most 4005 searches, however the groups are nested. *)
Theorem ldap_client_protocol p0 out :
  exists ret p out' i' tr, mscm_ldap_authenticate lib true i (Some p0) (Some out) = Some (ret, p, out', i', tr) /\
    (ret = RET_OK \/ (ret = USER_LDAP_LOGIN_FAIL /\ p = Some NO_PRIVILEGE /\ out' = Some out)) /\
    (exists ph, trace_to (tls_policy c i) tr ph /\ handle ph = false) /\ (searches tr <= 4005)%nat.
Proof.
  destruct (mscm_of_session p0 out) as (b & rc & g' & tr & Hb & (Hn & Hp & _) & ->).
  destruct (rc =? 0); eexists _, _, _, _, _; (split; [done|]); (split; [auto|done]).
Qed.

(** C11: the privilege granted is that of a configured group the directory shows the user to belong to: one that an
    entry of the user names in memberOf, directly or through groups, or one with the user among its members,
    directly or through groups. *)
Theorem privilege_is_earned p0 out p out' i' tr :
  mscm_ldap_authenticate lib true i (Some p0) (Some out) = Some (RET_OK, Some p, out', i', tr) -> p <> NO_PRIVILEGE ->
  exists b g j name u, base c = Some b /\ g ∈ group i /\ group_priv g = p /\ group_inner_id g = Z.of_nat j + 1 /\
    found_name b i tr name /\
    belongs b (with_uid u c) (snd (escape_string name (Z.of_nat LDAP_FILT_MAXSIZ))) tr j.
Proof.
  intros He Hp. destruct (mscm_of_session p0 out) as (b & rc & g' & tr2 & Hb & Hv & Heq). rewrite Heq in He.
  destruct (rc =? 0) eqn:E; [|done]. injection He as Hpr _ _ <-. apply Z.eqb_eq in E. subst p.
  destruct (proj2 (grant_privilege g' (group i) out) Hp) as (g & Hg & (j & Hj & Hne & Hid) & Hpr).
  destruct Hv as (_ & _ & Hok). destruct (Hok E) as (tr' & n & ph & cr & -> & _ & _ & _ & _ & name & u & Hname & Hlen & Hm).
  assert (Hsuf : tr' `suffix_of` Unbind n :: tr') by by apply suffix_cons_r.
  exists b, g, j, name, u. do 4 (split; [done|]). split; [by eapply found_name_mono|].
  rewrite nth_lookup in Hne. destruct (Hm j) as [Hk|[_ [Hk|Hk]]].
  - rewrite Hk, lookup_replicate_2 in Hne by done. done.
  - left. by eapply owned_mono.
  - right. destruct Hk as (dn & Hd & Hl). exists dn. split; [done|]. by eapply leads_mono.
Qed.

(** C22: the privilege is the highest of the configured groups found, where NO_PRIVILEGE is lower than any other, the
    slots of these groups are handed to the caller, the other slots are left alone, and the password is cleared. *)
Theorem privilege_is_highest p0 out g' i1 tr :
  ldap_authenticate lib true i (replicate MAX_USER_GROUP 255) = Some (LDAP_AUTH_SUCCESS, g', i1, tr) ->
  length out = MAX_USER_GROUP ->
  exists p out' i', mscm_ldap_authenticate lib true i (Some p0) (Some out) = Some (RET_OK, Some p, Some out', i', tr) /\
    (forall g, g ∈ group i -> counts g' g -> group_priv g <> NO_PRIVILEGE -> p <> NO_PRIVILEGE /\ group_priv g <= p) /\
    (p <> NO_PRIVILEGE -> exists g, g ∈ group i /\ counts g' g /\ group_priv g = p) /\
    (forall j, (j < MAX_USER_GROUP)%nat ->
       out' !! j = if slot_counts g' (group i) j then Some (nth j g' 0) else out !! j) /\
    password i' = [] /\ username i' = username i.
Proof.
  intros He Hl. destruct (read_config_base i c config_read) as [b Hb].
  destruct (ldap_authenticate_spec lib i c b laws config_read Hb fits) as (rc2 & g2 & tr2 & He2 & _).
  rewrite He in He2. injection He2 as _ _ -> _. unfold mscm_ldap_authenticate. rewrite He. cbn [negb LDAP_AUTH_SUCCESS Z.eqb].
  pose proof (grant_privilege g' (group i) out) as [Hhigh Hex].
  pose proof (fun j => grant_slots g' (group i) out j Hl) as Hslots.
  destruct (grant g' (group i) out) as [p out']. cbn [fst snd] in *. eexists p, out', _. by split_and!.
Qed.
End theorems.

(** ** A user nobody knows *)

Lemma find_nobody `{LdapCodes} lib f cn size s :
  ld s = true -> is_Some (base (conf s)) -> size <> 0%nat -> (forall tr dn sc f, snd (l_search lib tr dn sc f None) = []) ->
  exists s', ldap_find_user_cn lib f cn size s = Some ((LDAP_AUTH_UNKNOWN, cn), s') /\ ld s' = true /\ conf s' = conf s /\
    searches (trace s') = S (searches (trace s)).
Proof.
  intros Hl [b Hb] Hsz Hnone. apply Nat.eqb_neq in Hsz.
  unfold ldap_find_user_cn, ldap_set_option, ldap_search_ext_s, call, base_dn, mbind, M_bind. rewrite Hsz, Hl. cbn [log ld conf trace].
  rewrite Hb. unfold gets. cbn [log ld conf trace]. rewrite Hl.
  match goal with |- context [l_search lib ?tr b ?sc f None] => pose proof (Hnone tr b sc f) as Ha; destruct (l_search lib tr b sc f None) as [rc res] end.
  cbn [snd] in Ha. subst res. cbn [fst snd]. destruct (negb (search_answered rc)); (eexists; split; [reflexivity|]; by split_and!).
Qed.

(** C40: when the directory has no entry for any of the names tried, the search for the user still reports success,
    with the empty name and after three searches: the fourth, for the name with the domain, is never made. *)
Theorem nobody_found_still_succeeds `{LdapCodes} lib i size s :
  ld s = true -> is_Some (base (conf s)) -> size <> 0%nat -> (forall tr dn sc f, snd (l_search lib tr dn sc f None) = []) ->
  (length (concat (map escape_char (username i))) <= 1021)%nat ->
  (length (concat (map escape_char (full_name i))) <= 1021)%nat ->
  exists s', ldap_search_user lib i size s = Some ((LDAP_AUTH_SUCCESS, []), s') /\
    searches (trace s') = (searches (trace s) + 3)%nat.
Proof.
  intros Hl Hb Hsz Hnone Hu Hf. unfold ldap_search_user, window_logon_name.
  assert (He : forall name, (length (concat (map escape_char name)) <= 1021)%nat ->
            fst (escape_string name (Z.of_nat LDAP_FILT_MAXSIZ)) = LDAP_AUTH_SUCCESS).
  { intros name Hn. apply escape_from_fits; [done|]. change (Z.of_nat LDAP_FILT_MAXSIZ) with 1024. lia. }
  pose proof (He _ Hu) as Heu. destruct (escape_string (username i) _) as [ret esc]. cbn [fst] in Heu. subst ret.
  cbn [negb LDAP_AUTH_SUCCESS Z.eqb]. unfold mbind, M_bind, gets.
  pose proof unknown_fails as Hx. unfold RET_OK.
  edestruct (find_nobody lib) as (s1 & -> & Hl1 & Hc1 & Hn1); [done..|]. rewrite Hx.
  edestruct (find_nobody lib) as (s2 & -> & Hl2 & Hc2 & Hn2); [done|by rewrite Hc1|done..|]. rewrite Hx.
  edestruct (find_nobody lib) as (s3 & -> & Hl3 & Hc3 & Hn3); [done|by rewrite Hc2, Hc1|done..|]. rewrite Hx, (He _ Hf).
  cbn. exists s3. split; [done|]. lia.
Qed.

(** ** The theorems at concrete inputs *)


(** A directory with one user, bob, who can log in by SASL and is in the group adm through the group ops. *)
Definition adm_dn : list ascii := lit "CN=adm,OU=x,DC=it,DC=huawei,DC=com".
Definition ops_dn : list ascii := lit "CN=ops,DC=it,DC=huawei,DC=com".
Definition demo_entry (cn : list ascii) (owners : list (list ascii)) : message :=
  Some (fun attr => if str_eqb attr (lit "cn") then Some [cn] else if str_eqb attr LDAP_MEMBEROF then Some owners else None).
Definition demo_lib : openldap_lib := {|
  l_initialize _ _ := (0, true);
  l_set_option _ _ := 0;
  l_simple_bind _ _ _ _ := {| msgid := 1; received := 97; parsed := Some 49 |};
  l_simple_bind_s _ _ _ := 49;
  l_sasl_bind _ _ _ ask :=
    match ask [{| cb_id := SASL_CB_AUTHNAME; defresult := None |}; {| cb_id := SASL_CB_PASS; defresult := None |}] with
    | (0, [name; pw]) => if str_eqb name (lit "bob") && str_eqb pw (lit "secret") then 0 else 49
    | _ => 80
    end;
  l_unbind _ := 0;
  l_search _ dn _ f _ :=
    (0, if str_eqb f (lit "(&(objectClass=*)(cn=bob))") then [demo_entry (lit "bob") [ops_dn]]
        else if str_eqb dn ops_dn then [demo_entry (lit "ops") [adm_dn]] else []);
  l_sasl_set_path _ _ := 0;
  l_get_option _ _ := None;
  l_strdup _ s := Some s
|}.

Lemma demo_laws : well_behaved demo_lib.
Proof. by split. Qed.

Definition demo_c : PAM_LDAP_CONFIG_S :=
  match read_ldap_config true None demo_config with Some (_, Some c) => c | _ => zero_config end.
Lemma demo_read : read_ldap_config true None demo_config = Some (LDAP_AUTH_SUCCESS, Some demo_c).
Proof. vm_compute. reflexivity. Qed.
Lemma demo_fits : names_fit demo_config.
Proof. repeat constructor; vm_compute; lia. Qed.

Local Notation demo_run := (mscm_ldap_authenticate demo_lib true demo_config (Some 0) (Some (replicate 5 255))).

Example demo_answer :
  match demo_run with
  | Some (ret, p, out, i, tr) =>
      ret = RET_OK /\ p = Some 4 /\ out = Some [255; 255; 2; 255; 255] /\ password i = [] /\ searches tr = 4%nat
  | None => False
  end.
Proof. vm_compute. repeat split. Qed.

(** A wrong password is refused. *)
Example demo_refused :
  match mscm_ldap_authenticate demo_lib true
          (with_names [] [] (lit "bob") (lit "guess") demo_config) (Some 0) (Some (replicate 5 255)) with
  | Some (ret, p, _, _, tr) => ret = USER_LDAP_LOGIN_FAIL /\ p = Some NO_PRIVILEGE /\ searches tr = 0%nat
  | None => False
  end.
Proof. vm_compute. repeat split. Qed.

Lemma authenticated_with_password_witness :
  match demo_run with
  | Some (ret, p, out, i', tr) => ret = RET_OK /\
      exists b tr' n ph cr, base demo_c = Some b /\ tr = Unbind n :: tr' /\ trace_to (tls_policy demo_c demo_config) tr' ph /\
        bound ph = Some cr /\ login b demo_config tr' cr
  | None => False
  end.
Proof.
  pose proof demo_answer as Ha. destruct demo_run as [[[[[ret p] out] i'] tr]|] eqn:E; [|exact Ha].
  destruct Ha as (-> & _). split; [reflexivity|].
  exact (authenticated_with_password demo_lib demo_laws demo_config demo_c demo_read demo_fits 0
           (replicate 5 255) p out i' tr E).
Defined.

Lemma ldap_client_protocol_witness :
  exists ret p out' i' tr, demo_run = Some (ret, p, out', i', tr) /\
    (ret = RET_OK \/ (ret = USER_LDAP_LOGIN_FAIL /\ p = Some NO_PRIVILEGE /\ out' = Some (replicate 5 255))) /\
    (exists ph, trace_to (tls_policy demo_c demo_config) tr ph /\ handle ph = false) /\ (searches tr <= 4005)%nat.
Proof.
  exact (ldap_client_protocol demo_lib demo_laws demo_config demo_c demo_read demo_fits 0 (replicate 5 255)).
Defined.

Lemma privilege_is_earned_witness :
  match demo_run with
  | Some (ret, Some p, out, i', tr) => p = 4 /\
      exists b g j name u, base demo_c = Some b /\ g ∈ group demo_config /\ group_priv g = p /\
        group_inner_id g = Z.of_nat j + 1 /\ found_name b demo_config tr name /\
        belongs b (with_uid u demo_c) (snd (escape_string name (Z.of_nat LDAP_FILT_MAXSIZ))) tr j
  | _ => False
  end.
Proof.
  pose proof demo_answer as Ha. destruct demo_run as [[[[[ret p] out] i'] tr]|] eqn:E; [|exact Ha].
  destruct Ha as (-> & -> & _). split; [reflexivity|].
  refine (privilege_is_earned demo_lib demo_laws demo_config demo_c demo_read demo_fits 0
            (replicate 5 255) 4 out i' tr E _).
  discriminate.
Defined.

Lemma privilege_is_highest_witness :
  match ldap_authenticate demo_lib true demo_config (replicate MAX_USER_GROUP 255) with
  | Some (rc, g', _, tr) => rc = 0 /\ g' = [255; 255; 2; 255; 255] /\
      exists p out' i', demo_run = Some (RET_OK, Some p, Some out', i', tr) /\ p <> NO_PRIVILEGE
  | None => False
  end.
Proof.
  destruct (ldap_authenticate demo_lib true demo_config (replicate MAX_USER_GROUP 255))
    as [[[[rc g'] i1] tr]|] eqn:E.
  - assert (Ha : match ldap_authenticate demo_lib true demo_config (replicate MAX_USER_GROUP 255) with
                 | Some (rc, g', _, _) => rc = 0 /\ g' = [255; 255; 2; 255; 255] | None => False end) by (vm_compute; by split).
    rewrite E in Ha. destruct Ha as [-> ->].
    destruct (privilege_is_highest demo_lib demo_laws demo_config demo_c demo_read demo_fits 0
                (replicate 5 255) _ _ _ E eq_refl) as (p & out' & i' & Hr & Hhigh & _).
    split; [reflexivity|]. split; [reflexivity|]. exists p, out', i'. split; [exact Hr|].
    refine (proj1 (Hhigh _ (list_elem_of_here _ _) _ _)); [|discriminate].
    exists 2%nat. split; [apply Nat.ltb_lt; reflexivity|]. split; [discriminate|reflexivity].
  - assert (Ha : is_Some (ldap_authenticate demo_lib true demo_config (replicate MAX_USER_GROUP 255)))
      by (vm_compute; by eexists). rewrite E in Ha. by destruct Ha.
Defined.

Lemma nobody_found_still_succeeds_witness :
  let lib := {| l_initialize _ _ := (0, true); l_set_option _ _ := 0;
                l_simple_bind _ _ _ _ := {| msgid := 1; received := 97; parsed := Some 0 |}; l_simple_bind_s _ _ _ := 0;
                l_sasl_bind _ _ _ _ := 0; l_unbind _ := 0; l_search _ _ _ _ _ := (0, []); l_sasl_set_path _ _ := 0;
                l_get_option _ _ := None; l_strdup _ s := Some s |} in
  exists s', ldap_search_user lib demo_config 255 {| ld := true; conf := demo_c; trace := [] |}
             = Some ((0, []), s') /\ searches (trace s') = 3%nat.
Proof.
  intros lib.
  refine (nobody_found_still_succeeds lib demo_config 255 {| ld := true; conf := demo_c; trace := [] |}
            eq_refl _ _ _ _ _); [vm_compute; by eexists|discriminate|reflexivity|vm_compute; lia|vm_compute; lia].
Defined.
