(* ===== verification/Memory.v ===== *)
(** * Memory that a program allocates and frees

    The model of malloc and free: blocks live in a finite map from addresses to contents; to use or to free a
    block that is not allocated is undefined. Assertions about the blocks a part of the program owns are predicates
    on such maps, [hProp]: they form a separation logic (an instance of Iris' [bi], so that its proof mode works for
    them), and a linear one: no block can be dropped from a proof, so that what an assertion does not mention
    after a run has been freed. [wpm] is the total weakest precondition of a computation. *)
From S2P Require Export Prelude.
From iris.proofmode Require Export proofmode.

(** ** Assertions on the blocks owned *)

Section assertions.
Context {C : Type}.

Record hProp := HProp { holds : gmap positive C -> Prop }.

#[export] Instance hProp_equiv : Equiv hProp := fun P Q => forall h, holds P h <-> holds Q h.
#[export] Instance hProp_equivalence : Equivalence (≡@{hProp}).
Proof.
  split; [by intros P h|by intros P Q H h; rw (H h)|].
  intros P Q R H1 H2 h. rw (H1 h). apply H2.
Qed.
Canonical Structure hPropO : ofe := discreteO hProp.

Record hEntails (P Q : hProp) : Prop := HEntails { entails_at : forall h, holds P h -> holds Q h }.
Definition hEmp : hProp := HProp (fun h => h = ∅).
Definition hPure (φ : Prop) : hProp := HProp (fun _ => φ).
Definition hAnd (P Q : hProp) : hProp := HProp (fun h => holds P h /\ holds Q h).
Definition hOr (P Q : hProp) : hProp := HProp (fun h => holds P h \/ holds Q h).
Definition hImpl (P Q : hProp) : hProp := HProp (fun h => holds P h -> holds Q h).
Definition hForall (A : Type) (Φ : A -> hProp) : hProp := HProp (fun h => forall a, holds (Φ a) h).
Definition hExist (A : Type) (Φ : A -> hProp) : hProp := HProp (fun h => exists a, holds (Φ a) h).
Definition hSep (P Q : hProp) : hProp :=
  HProp (fun h => exists h1 h2, h = h1 ∪ h2 /\ h1 ##ₘ h2 /\ holds P h1 /\ holds Q h2).
Definition hWand (P Q : hProp) : hProp :=
  HProp (fun h => forall h', h ##ₘ h' -> holds P h' -> holds Q (h ∪ h')).
Definition hPers (P : hProp) : hProp := hPure (hEntails hEmp P).

(** The connectives respect the equivalence, and are the operations of a separation logic. *)
Lemma hProp_mixin : BiMixin hEntails hEmp hPure hAnd hOr hImpl hForall hExist hSep hWand.
Proof.
  split.
  - split; [by intros P; split|]. intros P Q R [H1] [H2]. split. intros h Hh. by apply H2, H1.
  - intros P Q. split; [intros H; split; split; intros h; apply H|]. intros [[H1] [H2]] h. split; [apply H1|apply H2].
  - intros n φ ψ H h. exact H.
  - intros n P P' HP Q Q' HQ h. cbn. by rw (HP h) (HQ h).
  - intros n P P' HP Q Q' HQ h. cbn. by rw (HP h) (HQ h).
  - intros n P P' HP Q Q' HQ h. cbn. by rw (HP h) (HQ h).
  - intros A n Φ Ψ H h. cbn. split; intros Ha a; by apply (H a h).
  - intros A n Φ Ψ H h. cbn. split; intros [a Ha]; exists a; by apply (H a h).
  - intros n P P' HP Q Q' HQ h. cbn. split; intros (h1 & h2 & -> & Hd & H1 & H2); exists h1, h2; (split_and!; [done|done| |]);
      (by apply HP) || by apply HQ.
  - intros n P P' HP Q Q' HQ h. cbn. split; intros H h' Hd H'; apply HQ, H, HP, H'; done.
  - intros φ P H. split. intros h _. exact H.
  - intros φ P H. split. intros h Hφ. by apply (H Hφ).
  - intros P Q. by split; intros h [? _].
  - intros P Q. by split; intros h [_ ?].
  - intros P Q R [H1] [H2]. split. intros h Hh. split; [by apply H1|by apply H2].
  - intros P Q. by split; intros h ?; left.
  - intros P Q. by split; intros h ?; right.
  - intros P Q R [H1] [H2]. split. intros h [?|?]; [by apply H1|by apply H2].
  - intros P Q R [H]. split. intros h HP HQ. apply H. by split.
  - intros P Q R [H]. split. intros h [HP HQ]. by apply H.
  - intros A P Ψ H. split. intros h HP a. by apply H.
  - intros A Ψ a. split. intros h H. apply H.
  - intros A Ψ a. split. intros h H. by exists a.
  - intros A Φ Q H. split. intros h [a Ha]. by apply (H a).
  - intros P P' Q Q' [H1] [H2]. split. intros h (h1 & h2 & -> & Hd & HP & HQ). exists h1, h2.
    split_and!; [done|done|by apply H1|by apply H2].
  - intros P. split. intros h HP. exists ∅, h. split_and!; [by rw left_id_L|apply map_disjoint_empty_l|done|done].
  - intros P. split. intros h (h1 & h2 & -> & _ & H1 & HP). cbn in H1. subst h1. by rw left_id_L.
  - intros P Q. split. intros h (h1 & h2 & -> & Hd & HP & HQ). exists h2, h1.
    split_and!; [by apply map_union_comm|done|done|done].
  - intros P Q R. split. intros h (h12 & h3 & -> & Hd & (h1 & h2 & -> & Hd' & HP & HQ) & HR).
    apply map_disjoint_union_l in Hd as [Hd1 Hd2].
    exists h1, (h2 ∪ h3). split_and!; [by rw assoc_L|by apply map_disjoint_union_r|done|].
    exists h2, h3. by split_and!.
  - intros P Q R [H]. split. intros h HP h' Hd HQ. apply H. exists h, h'. by split_and!.
  - intros P Q R [H]. split. intros h (h1 & h2 & -> & Hd & HP & HQ). by apply (H h1 HP).
Qed.

Lemma hProp_pers_mixin : BiPersistentlyMixin hEntails hEmp hAnd hExist hSep hPers.
Proof.
  eapply bi_persistently_mixin_discrete, hProp_mixin; [done| |done].
  intros A Φ [H]. destruct (H ∅ eq_refl) as [x Hx]. exists x. split. intros h Hh. cbn in Hh. by subst h.
Qed.

Lemma hProp_later_mixin : BiLaterMixin hEntails hPure hOr hImpl hForall hExist hSep hPers id.
Proof. by eapply bi_later_mixin_id, hProp_mixin. Qed.

Canonical Structure hPropI : bi := {|
  bi_ofe_mixin := ofe_mixin_of hProp; bi_cofe_aux := discrete_cofe _;
  bi_bi_mixin := hProp_mixin; bi_bi_persistently_mixin := hProp_pers_mixin; bi_bi_later_mixin := hProp_later_mixin |}.

#[export] Instance hProp_pure_forall : BiPureForall hPropI.
Proof. intros A φ. split. intros h H a. exact (H a). Qed.

(** The block [p] holds [c], and is all there is. *)
Definition points_to (p : positive) (c : C) : hProp := HProp (fun h => h = {[ p := c ]}).
End assertions.
Arguments hProp : clear implicits.
Arguments hPropI : clear implicits.
Arguments hPropO : clear implicits.

Notation "p ↦ c" := (points_to p c) (at level 20) : bi_scope.

(** ** Programs *)

(** Besides the blocks a program has a state [E] of its own; the contents of the blocks it frees are recorded, newest
    first. [None] is undefined behaviour. *)
Section programs.
Context {C E : Type}.

Record machine := { blocks : gmap positive C; freed : list C; env : E }.
Definition Mem (A : Type) : Type := machine -> option (A * machine).

#[export] Instance Mem_ret : MRet Mem := fun A a m => Some (a, m).
#[export] Instance Mem_bind : MBind Mem := fun A B f x m => match x m with Some (a, m') => f a m' | None => UB end.

Definition undefined {A} : Mem A := fun _ => UB.

(** A new block; its address is any that is not in use. *)
Definition malloc (c : C) : Mem positive := fun m =>
  let p := fresh (dom (blocks m)) in
  Some (p, {| blocks := <[p := c]> (blocks m); freed := freed m; env := env m |}).

Definition load (p : positive) : Mem C := fun m =>
  match blocks m !! p with Some c => Some (c, m) | None => UB end.

Definition store (p : positive) (c : C) : Mem unit := fun m =>
  match blocks m !! p with
  | Some _ => Some (tt, {| blocks := <[p := c]> (blocks m); freed := freed m; env := env m |})
  | None => UB
  end.

Definition free (p : positive) : Mem unit := fun m =>
  match blocks m !! p with
  | Some c => Some (tt, {| blocks := delete p (blocks m); freed := c :: freed m; env := env m |})
  | None => UB
  end.

(** A computation on the program's own state. *)
Definition on_env {A} (f : E -> option (A * E)) : Mem A := fun m =>
  match f (env m) with
  | Some (a, e) => Some (a, {| blocks := blocks m; freed := freed m; env := e |})
  | None => UB
  end.

(** *** Weakest preconditions

    [wpm x fr e Φ]: with [fr] freed so far and the state [e], [x] runs to an end in any memory that contains the blocks
    owned, leaves the blocks of others alone, and ends with blocks that satisfy [Φ]. *)
Definition wpm {A} (x : Mem A) (fr : list C) (e : E) (Φ : A -> list C -> E -> hPropI C) : hPropI C :=
  HProp (fun h => forall F, h ##ₘ F -> exists a h' fr' e',
    x {| blocks := h ∪ F; freed := fr; env := e |} = Some (a, {| blocks := h' ∪ F; freed := fr'; env := e' |}) /\
    h' ##ₘ F /\ holds (Φ a fr' e') h').

Implicit Types (P Q R : hPropI C) (p : positive) (c : C).

Lemma wpm_ret {A} (a : A) fr e Φ : Φ a fr e ⊢ wpm (mret a) fr e Φ.
Proof. split. intros h H F Hd. by exists a, h, fr, e. Qed.

Lemma wpm_bind {A B} (x : Mem A) (f : A -> Mem B) fr e Φ :
  wpm x fr e (fun a fr' e' => wpm (f a) fr' e' Φ) ⊢ wpm (x ≫= f) fr e Φ.
Proof.
  split. intros h H F Hd. destruct (H F Hd) as (a & h' & fr' & e' & Hx & Hd' & Hf).
  destruct (Hf F Hd') as (b & h'' & fr'' & e'' & Hy & Hd'' & HΦ). exists b, h'', fr'', e''.
  split; [|done]. unfold mbind, Mem_bind. by rw Hx.
Qed.

Lemma wpm_frame_wand {A} (x : Mem A) fr e Φ Ψ :
  wpm x fr e Φ -∗ (∀ a fr' e', Φ a fr' e' -∗ Ψ a fr' e') -∗ wpm x fr e Ψ.
Proof.
  apply bi.entails_wand, bi.wand_intro_r. split. intros h (h1 & h2 & -> & H12 & H1 & H2) F Hd.
  apply map_disjoint_union_l in Hd as [Hd1 Hd2].
  destruct (H1 (h2 ∪ F)) as (a & h' & fr' & e' & Hx & Hd' & HΦ); [by apply map_disjoint_union_r|].
  apply map_disjoint_union_r in Hd' as [Hd2' HdF].
  exists a, (h2 ∪ h'), fr', e'. split_and!.
  - rw -assoc_L Hx assoc_L. by rw (map_union_comm h' h2).
  - by apply map_disjoint_union_l.
  - by apply (H2 a fr' e' h').
Qed.

Lemma wpm_malloc c fr e Φ : (∀ p, p ↦ c -∗ Φ p fr e) ⊢ wpm (malloc c) fr e Φ.
Proof.
  split. intros h H F Hd. set (p := fresh (dom (h ∪ F))).
  assert (Hp : (h ∪ F) !! p = None) by apply not_elem_of_dom, is_fresh.
  apply lookup_union_None in Hp as [Hp HpF].
  exists p, (h ∪ {[p := c]}), fr, e. split_and!.
  - unfold malloc. cbn [blocks freed env]. fold p. do 3 f_equal.
    rw -assoc_L (map_union_comm {[p := c]} F); [|by apply map_disjoint_singleton_l].
    rw assoc_L. rw -(map_union_comm {[p := c]} (h ∪ F)); [by rw insert_union_singleton_l|].
    apply map_disjoint_singleton_l, lookup_union_None. by split.
  - apply map_disjoint_union_l. split; [done|]. by apply map_disjoint_singleton_l.
  - apply (H p); [|done]. by apply map_disjoint_singleton_r.
Qed.

Lemma points_to_lookup p c h1 h2 F : holds (p ↦ c)%I h1 -> (h1 ∪ h2 ∪ F) !! p = Some c.
Proof. intros ->. rw -assoc_L. apply lookup_union_Some_l, lookup_singleton_eq. Qed.

Lemma wpm_load p c fr e Φ : p ↦ c ∗ (p ↦ c -∗ Φ c fr e) ⊢ wpm (load p) fr e Φ.
Proof.
  split. intros h (h1 & h2 & -> & Hd & H1 & H2) F HF. exists c, (h1 ∪ h2), fr, e.
  unfold load. cbn [blocks]. rw (points_to_lookup p c); [|done]. split_and!; [done|done|].
  rw map_union_comm; [|done]. by apply H2.
Qed.

Lemma wpm_store p c c' fr e Φ : p ↦ c ∗ (p ↦ c' -∗ Φ tt fr e) ⊢ wpm (store p c') fr e Φ.
Proof.
  split. intros h (h1 & h2 & -> & Hd & H1 & H2) F HF. exists tt, (h2 ∪ {[p := c']}), fr, e.
  unfold store. cbn [blocks freed env]. rw (points_to_lookup p c); [|done]. cbn in H1. subst h1.
  apply map_disjoint_union_l in HF as [HF1 HF2]. apply map_disjoint_singleton_l in Hd, HF1.
  split_and!.
  - do 3 f_equal. rw -assoc_L -insert_union_singleton_l insert_insert_eq.
    rw (map_union_comm h2 {[p := c']}); [by rw -assoc_L -insert_union_singleton_l|].
    by apply map_disjoint_singleton_r.
  - apply map_disjoint_union_l. split; [done|]. by apply map_disjoint_singleton_l.
  - apply H2; [by apply map_disjoint_singleton_r|done].
Qed.

Lemma wpm_free p c fr e Φ : p ↦ c ∗ Φ tt (c :: fr) e ⊢ wpm (free p) fr e Φ.
Proof.
  split. intros h (h1 & h2 & -> & Hd & H1 & H2) F HF. exists tt, h2, (c :: fr), e.
  unfold free. cbn [blocks freed env]. rw (points_to_lookup p c); [|done]. cbn in H1. subst h1.
  apply map_disjoint_union_l in HF as [HF1 HF2]. apply map_disjoint_singleton_l in Hd, HF1.
  split_and!; [|done|done]. do 3 f_equal. rw -assoc_L -insert_union_singleton_l delete_insert_id //.
  by apply lookup_union_None.
Qed.

Lemma wpm_env {A} (f : E -> option (A * E)) a fr e e' Φ :
  f e = Some (a, e') -> Φ a fr e' ⊢ wpm (on_env f) fr e Φ.
Proof. intros Hf. split. intros h H F Hd. exists a, h, fr, e'. split_and!; [|done|done]. unfold on_env. cbn [env blocks freed]. by rw Hf. Qed.

Lemma affine_at (φ : Prop) Q h : holds (<affine> ⌜φ⌝ ∗ Q)%I h -> φ /\ holds Q h.
Proof. intros (h1 & h2 & -> & _ & [H1 Hφ] & HQ). change (h1 = ∅) in H1. subst h1. by rw left_id_L. Qed.

(** What a proof says of a run from a memory with the blocks [F] of others. *)
Lemma wpm_run {A} (x : Mem A) fr e Φ F :
  (⊢ wpm x fr e Φ) -> exists a h fr' e',
    x {| blocks := F; freed := fr; env := e |} = Some (a, {| blocks := h ∪ F; freed := fr'; env := e' |}) /\
    h ##ₘ F /\ holds (Φ a fr' e') h.
Proof.
  intros [H]. destruct (H ∅ eq_refl F (map_disjoint_empty_l F)) as (a & h & fr' & e' & Hx & Hd & HΦ).
  exists a, h, fr', e'. by rw left_id_L in Hx.
Qed.
(** *** Blocks that are left: of each content one block, at any address *)

Definition leaked (l : list C) : hPropI C := ([∗ list] c ∈ l, ∃ p, p ↦ c)%I.

Lemma leaked_nil : ⊢ leaked [].
Proof. by iApply big_sepL_nil. Qed.
Lemma leaked_one p c : p ↦ c ⊢ leaked [c].
Proof. iIntros "Hp". iSplitL; [by iExists p|done]. Qed.
Lemma leaked_app l1 l2 : leaked l1 -∗ leaked l2 -∗ leaked (l1 ++ l2).
Proof. iIntros "H1 H2". iApply big_sepL_app. iFrame. Qed.

Lemma leaked_blocks l h : holds (leaked l) h -> (map_to_list h).*2 ≡ₚ l.
Proof.
  revert h. induction l as [|c l IH]; intros h.
  - cbn. intros ->. by rw map_to_list_empty.
  - cbn [leaked big_opL]. intros (h1 & h2 & -> & Hd & [p Hp] & Hl). cbn in Hp. subst h1. apply map_disjoint_singleton_l in Hd.
    rw -insert_union_singleton_l map_to_list_insert; [|done]. cbn. by rw (IH h2 Hl).
Qed.
End programs.
Arguments machine : clear implicits.
Arguments Mem : clear implicits.

(** *** Runs up to a view of the blocks freed

    A program without a state of its own, when only [view] of what it frees matters. *)
Class View {C V} (view : list C -> V) := {
  seen : C -> V -> V;
  view_cons c fr : view (c :: fr) = seen c (view fr)
}.

Section viewed.
Context {C V : Type} (view : list C -> V) `{!View view}.
Notation Mem := (Mem C unit).

(** [wpv x v Φ]: [x] runs to an end, with the view [v] of what has been freed before and the one that [Φ] is told after. *)
Definition wpv {A} (x : Mem A) (v : V) (Φ : A -> V -> hPropI C) : hPropI C :=
  (∀ fr, <affine> ⌜view fr = v⌝ -∗ wpm x fr tt (fun a fr' _ => Φ a (view fr')))%I.

Lemma wpv_ret {A} (a : A) v Φ : Φ a v ⊢ wpv (mret a) v Φ.
Proof. iIntros "HΦ" (fr <-). by iApply wpm_ret. Qed.

Lemma wpv_bind {A B} (x : Mem A) (f : A -> Mem B) v Φ :
  wpv x v (fun a v' => wpv (f a) v' Φ) ⊢ wpv (x ≫= f) v Φ.
Proof.
  iIntros "Hx" (fr Hv). iApply wpm_bind. iApply (wpm_frame_wand with "[Hx]"); [by iApply "Hx"|].
  iIntros (a fr' []) "Hf". by iApply "Hf".
Qed.

Lemma wpv_malloc c v Φ : (∀ p, p ↦ c -∗ Φ p v) ⊢ wpv (malloc c) v Φ.
Proof. iIntros "HΦ" (fr <-). iApply wpm_malloc. iIntros (p) "Hp". by iApply "HΦ". Qed.

Lemma wpv_load p c v Φ : p ↦ c ∗ (p ↦ c -∗ Φ c v) ⊢ wpv (load p) v Φ.
Proof. iIntros "[Hp HΦ]" (fr <-). iApply wpm_load. iFrame. Qed.

Lemma wpv_store p c c' v Φ : p ↦ c ∗ (p ↦ c' -∗ Φ tt v) ⊢ wpv (store p c') v Φ.
Proof. iIntros "[Hp HΦ]" (fr <-). iApply wpm_store. iFrame. Qed.

Lemma wpv_free p c v Φ : p ↦ c ∗ Φ tt (seen c v) ⊢ wpv (free p) v Φ.
Proof. iIntros "[Hp HΦ]" (fr <-). iApply wpm_free. iFrame "Hp". by rw view_cons. Qed.

(** [x] gives [a] beside any blocks of others, leaves blocks with the contents [left], and its view of what it freed is [v]. *)
Definition runs_to {A} (x : Mem A) (a : A) (left : list C) (v : V) : Prop :=
  forall F, exists h fr,
    x {| blocks := F; freed := []; env := tt |} = Some (a, {| blocks := h ∪ F; freed := fr; env := tt |}) /\
    h ##ₘ F /\ (map_to_list h).*2 ≡ₚ left /\ view fr = v.

(** *** Runs that may be undefined

    [wpu U x v Φ]: [x] runs to an end that [Φ] is told of, or is undefined, and then [U] holds. *)
Definition wpu (U : Prop) {A} (x : Mem A) (v : V) (Φ : A -> V -> hPropI C) : hPropI C :=
  HProp (fun h => forall F fr, h ##ₘ F -> view fr = v ->
    match x {| blocks := h ∪ F; freed := fr; env := tt |} with
    | None => U
    | Some (a, m) => exists h', blocks m = h' ∪ F /\ h' ##ₘ F /\ holds (Φ a (view (freed m))) h'
    end).

Lemma wpu_wpv U {A} (x : Mem A) v Φ : wpv x v Φ ⊢ wpu U x v Φ.
Proof.
  split. intros h H F fr Hd Hv.
  assert (Hx : holds (wpm x fr tt (fun a fr' _ => Φ a (view fr'))) h).
  { rw -(right_id_L ∅ (∪) h). apply (H fr ∅); [by apply map_disjoint_empty_r|split; [reflexivity|exact Hv]]. }
  destruct (Hx F Hd) as (a & h' & fr' & [] & -> & Hd' & HΦ). by exists h'.
Qed.

Lemma wpu_ret U {A} (a : A) v Φ : Φ a v ⊢ wpu U (mret a) v Φ.
Proof. rw -wpu_wpv. apply wpv_ret. Qed.

Lemma wpu_undefined (U : Prop) {A} v (Φ : A -> V -> hPropI C) P : U -> P ⊢ wpu U undefined v Φ.
Proof. intros HU. split. intros h _ F fr _ _. exact HU. Qed.

Lemma wpu_bind U {A B} (x : Mem A) (f : A -> Mem B) v Φ :
  wpu U x v (fun a v' => wpu U (f a) v' Φ) ⊢ wpu U (x ≫= f) v Φ.
Proof.
  split. intros h H F fr Hd Hv. specialize (H F fr Hd Hv). unfold mbind, Mem_bind.
  destruct (x _) as [[a [bl fr' []]]|]; [|done]. destruct H as (h' & Hb & Hd' & Hf). cbn in Hb, Hf. subst bl.
  exact (Hf F fr' Hd' eq_refl).
Qed.

(** A model [o] of what [x] computes, defined exactly when [x] is. *)
Definition agrees {A} (x : Mem A) (o : option A) (left : list C) (v : V) : Prop :=
  match o with
  | Some a => runs_to x a left v
  | None => forall F, x {| blocks := F; freed := []; env := tt |} = None
  end.

Lemma wpu_run {A} (x : Mem A) (o : option A) left v :
  (forall Φ, (∀ a, <affine> ⌜o = Some a⌝ -∗ leaked left -∗ Φ a v) ⊢ wpu (o = None) x (view []) Φ) -> agrees x o left v.
Proof.
  intros Hx.
  assert (H : forall F, match x {| blocks := F; freed := []; env := tt |} with
    | None => o = None
    | Some (a, m) => o = Some a /\ exists h, blocks m = h ∪ F /\ h ##ₘ F /\ (map_to_list h).*2 ≡ₚ left /\ view (freed m) = v
    end).
  { intros F. specialize (Hx (fun a v' => <affine> ⌜o = Some a /\ v' = v⌝ ∗ leaked left)%I).
    assert (He : ⊢ wpu (o = None) x (view []) (fun a v' => <affine> ⌜o = Some a /\ v' = v⌝ ∗ leaked left)%I).
    { iApply Hx. iIntros (a Ha) "$". done. }
    destruct He as [He]. specialize (He ∅ eq_refl F [] (map_disjoint_empty_l F) eq_refl). rw left_id_L in He.
    destruct (x _) as [[a m]|]; [|done]. destruct He as (h & Hb & Hd & Hh). apply affine_at in Hh as [[Ho Hv] Hh].
    split; [done|]. exists h. split_and!; [done|done|by apply leaked_blocks|done]. }
  unfold agrees. destruct o as [a|].
  - intros F. specialize (H F). destruct (x _) as [[a' [bl fr []]]|]; [|done].
    destruct H as ([= <-] & h & Hb & Hd & Hp & Hv). cbn in Hb, Hv. subst bl. by exists h, fr.
  - intros F. specialize (H F). destruct (x _) as [[a' m]|]; [|done]. by destruct H.
Qed.

Lemma wpv_run {A} (x : Mem A) (a : A) left v :
  (forall Φ, (leaked left -∗ Φ a v) ⊢ wpv x (view []) Φ) -> runs_to x a left v.
Proof.
  intros Hx. apply (wpu_run x (Some a)). intros Φ. rw -wpu_wpv -Hx. iIntros "HΦ Hl". by iApply "HΦ".
Qed.
End viewed.
