(* ===== verification/LdapBlocks.v ===== *)
(** * ldap_auth.c and ldap_auth_parse_info.c: the blocks of memory of an authentication

    The functions of LdapConfig, LdapServer and LdapAuth once more, as they run on the heap: the session, its
    configuration with the strings it points to, the defaults of SASL and the copies of the password are blocks
    that are allocated, reached through pointers and freed. What the functions compute is taken from the other files:
    [with_session] runs a computation of LdapServer on the session that the heap holds. A copy of a password is a
    [Secret], until it is overwritten. *)
From S2P Require Export LdapAuth.
From S2P Require Export Memory.
Open Scope Z_scope.

(** ** Blocks *)

(** A configuration: the pointers, and the members that are none (the strings of [b_data] are not used). *)
Record config_block := {
  b_uri : option positive; b_host : option positive; b_base : option positive; b_filter : option positive;
  b_groupdn : list (option positive); b_data : PAM_LDAP_CONFIG_S
}.

Record sasl_block := {
  p_mechanisms : option positive; p_realm : option positive; p_authentication_id : option positive;
  p_pwd : option positive; p_authorization_id : option positive
}.

Inductive cell :=
  | Text (s : list ascii)
  | Secret (s : list ascii)
  | Session (handle : bool) (conf : option positive)
  | Config (c : config_block)
  | Sasl (d : sasl_block)
  | Result (ms : list message)
  | Values (vals : list (list ascii))
  | Names (keys : list positive)
  | Pointers (seen : gset nat).

(** The heap, beside the operations on the directory so far. *)
Definition MM (A : Type) : Type := Mem cell (list event) A.

Definition load_text (p : positive) : MM (list ascii) :=
  c ← load p;
  match c with Text s | Secret s => mret s | _ => undefined end.

Definition load_string (p : option positive) : MM (option (list ascii)) :=
  match p with None => mret None | Some p => s ← load_text p; mret (Some s) end.

Fixpoint load_strings (ps : list (option positive)) : MM (list (option (list ascii))) :=
  match ps with
  | [] => mret []
  | p :: ps => s ← load_string p; ss ← load_strings ps; mret (s :: ss)
  end.

Definition load_config_block (q : positive) : MM config_block :=
  c ← load q;
  match c with Config c => mret c | _ => undefined end.

Definition load_session (p : positive) : MM (bool * option positive) :=
  c ← load p;
  match c with Session h q => mret (h, q) | _ => undefined end.

Definition load_sasl (p : positive) : MM sasl_block :=
  c ← load p;
  match c with Sasl d => mret d | _ => undefined end.

Definition no_pointers : config_block :=
  {| b_uri := None; b_host := None; b_base := None; b_filter := None; b_groupdn := replicate MAX_USER_GROUP None;
     b_data := zero_config |}.
Definition no_defaults : sasl_block :=
  {| p_mechanisms := None; p_realm := None; p_authentication_id := None; p_pwd := None; p_authorization_id := None |}.

Definition set_b_host (p : option positive) (c : config_block) : config_block :=
  {| b_uri := b_uri c; b_host := p; b_base := b_base c; b_filter := b_filter c; b_groupdn := b_groupdn c; b_data := b_data c |}.
Definition set_b_uri (p : option positive) (c : config_block) : config_block :=
  {| b_uri := p; b_host := b_host c; b_base := b_base c; b_filter := b_filter c; b_groupdn := b_groupdn c; b_data := b_data c |}.
Definition set_b_base (p : option positive) (c : config_block) : config_block :=
  {| b_uri := b_uri c; b_host := b_host c; b_base := p; b_filter := b_filter c; b_groupdn := b_groupdn c; b_data := b_data c |}.
Definition set_b_filter (p : option positive) (c : config_block) : config_block :=
  {| b_uri := b_uri c; b_host := b_host c; b_base := b_base c; b_filter := p; b_groupdn := b_groupdn c; b_data := b_data c |}.
Definition set_b_groupdn (ps : list (option positive)) (c : config_block) : config_block :=
  {| b_uri := b_uri c; b_host := b_host c; b_base := b_base c; b_filter := b_filter c; b_groupdn := ps; b_data := b_data c |}.
Definition set_b_data (d : PAM_LDAP_CONFIG_S) (c : config_block) : config_block :=
  {| b_uri := b_uri c; b_host := b_host c; b_base := b_base c; b_filter := b_filter c; b_groupdn := b_groupdn c; b_data := d |}.

(** [result->member = ..] *)
Definition update_config (q : positive) (f : config_block -> config_block) : MM unit :=
  c ← load_config_block q;
  store q (Config (f c)).

(** ** The configuration and the session *)

(** The members that are no pointers, as a structure without strings. *)
Definition numbers (port_ enable scope_ deref_ version_ tl btl restart_ cs cl u : Z) : PAM_LDAP_CONFIG_S := {|
  uri := None; host := None; port := port_; base := None; groupdn := replicate MAX_USER_GROUP None; ldap_enable := enable;
  scope := scope_; deref := deref_; filter_ := None; version := version_; timelimit := tl; bind_timelimit := btl;
  restart := restart_; cert_status := cs; cert_verifi_Level := cl; dn_with_uid := u |}.

Section blocks.
Context `{LdapCodes} (lib : openldap_lib).

Definition alloc_config (calloc_ok : bool) (presult : option positive) : MM (Z * option positive) :=
  let fill q :=
    _ ← update_config q (fun c => {|
      b_uri := b_uri c; b_host := None; b_base := None; b_filter := None; b_groupdn := replicate MAX_USER_GROUP None;
      b_data := let d := b_data c in
        numbers 0 0 LDAP_SCOPE_SUBTREE LDAP_DEREF_NEVER LDAP_VERSION3 LDAP_NO_LIMIT 10 1 (cert_status d)
          (cert_verifi_Level d) (dn_with_uid d) |});
    mret (LDAP_AUTH_SUCCESS, Some q) in
  match presult with
  | Some q => fill q
  | None => if calloc_ok then q ← malloc (Config no_pointers); fill q else mret (LDAP_AUTH_ERROR, None)
  end.

(** [g_malloc] ends the process rather than return NULL. *)
Definition get_ldap_host (q : positive) : MM positive :=
  p ← malloc (Text []);
  _ ← update_config q (set_b_host (Some p));
  mret p.

Fixpoint read_groupdn (user_domain : list ascii) (gs : list LDAP_GROUP_INFO) (q : positive) : MM unit :=
  match gs with
  | [] => mret tt
  | g :: rest =>
      let ldap_group_id := Z.to_nat (u8 (group_inner_id g - 1)) in
      c ← load_config_block q;
      if negb (ldap_group_id <? length (b_groupdn c))%nat then undefined
      else
        p ← malloc (Text []);
        _ ← update_config q (set_b_groupdn (<[ldap_group_id := Some p]> (b_groupdn c)));
        match group_dn user_domain g with
        | None => undefined
        | Some (ret, dn) =>
            _ ← store p (Text (default [] dn));
            if ret =? LDAP_AUTH_ERROR then mret tt else read_groupdn user_domain rest q
        end
  end.

(** The code and [*presult]. *)
Definition read_ldap_config (calloc_ok : bool) (presult : option positive) (i : LDAP_AUTH_INFO) : MM (Z * option positive) :=
  r ← alloc_config calloc_ok presult;
  match r with
  | (_, None) => mret (LDAP_AUTH_SUCCESS, None)
  | (_, Some q) =>
      host_ ← get_ldap_host q;
      _ ← store host_ (Text (snd (strncpy_s (LDAP_USERDOMAIN_MAX_LEN + 1) (hostaddr i) (length (hostaddr i)))));
      _ ← update_config q (fun c => let d := b_data c in
            set_b_data (numbers (port d) (ldap_enable d) LDAP_SCOPE_SUBTREE (deref d) (version d) (timelimit d)
              (bind_timelimit d) (restart d) (cert_verify_enabled i) (cert_verify_level i) 0) c);
      let userdomain := snd (strncpy_s (LDAP_USERDOMAIN_MAX_LEN + 1) (user_domain i) LDAP_USERDOMAIN_MAX_LEN) in
      let folder := snd (strncpy_s (LDAP_USERFOLDER_MAX_LEN + 1) (auth_folder i) LDAP_USERFOLDER_MAX_LEN) in
      base_ ← malloc (Text []);
      _ ← update_config q (set_b_base (Some base_));
      match parse_ldap_base_info (Some userdomain) (Z.of_nat LDAP_USERDOMAIN_MAX_LEN + 1) (Some folder) (Some []) LDAP_USERDN_MAX_LEN with
      | None => undefined
      | Some (ret, b) =>
          _ ← store base_ (Text (default [] b));
          if ret =? LDAP_AUTH_ERROR then mret (LDAP_AUTH_ERROR, Some q)
          else
            _ ← update_config q (fun c => let d := b_data c in
                  set_b_data (numbers (auth_port i) (ldap_enable d) (get_ldap_scope (scope d) (auth_scope i)) LDAP_DEREF_NEVER
                    (auth_version i) (time_limit i) (bind_time_limit i) 0 (cert_status d) (cert_verifi_Level d) (dn_with_uid d)) c);
            _ ← (if Z.of_nat (length (group i)) <? group_cnt i then undefined
                 else read_groupdn (user_domain i) (groups i) q);
            _ ← update_config q (fun c => let d := b_data c in
                  if port d =? 0 then
                    set_b_data (numbers LDAP_PORT (ldap_enable d) (scope d) (deref d) (version d) (timelimit d)
                      (bind_timelimit d) (restart d) (cert_status d) (cert_verifi_Level d) (dn_with_uid d)) c
                  else c);
            mret (LDAP_AUTH_SUCCESS, Some q)
      end
  end.

(** [if (p != NULL) g_free(p);] *)
Definition free_pointer (p : option positive) : MM unit :=
  match p with Some p => free p | None => mret tt end.

Fixpoint release_slots (slots : list nat) (q : positive) : MM unit :=
  match slots with
  | [] => mret tt
  | i :: slots =>
      c ← load_config_block q;
      match b_groupdn c !! i with
      | None => undefined
      | Some p =>
          _ ← free_pointer p;
          _ ← update_config q (set_b_groupdn (<[i := None]> (b_groupdn c)));
          release_slots slots q
      end
  end.
Definition release_groupdn (q : positive) : MM unit := release_slots (seq 0 MAX_USER_GROUP) q.

Definition release_config (pconfig : option positive) : MM unit :=
  match pconfig with
  | None => mret tt
  | Some q =>
      c ← load_config_block q;
      _ ← free_pointer (b_host c);
      _ ← update_config q (set_b_host None);
      _ ← free_pointer (b_uri c);
      _ ← update_config q (set_b_uri None);
      _ ← free_pointer (b_base c);
      _ ← update_config q (set_b_base None);
      _ ← free_pointer (b_filter c);
      _ ← update_config q (set_b_filter None);
      _ ← release_groupdn q;
      free q
  end.

(** A missing configuration is an error of [calloc] that [read_ldap_config] reports as success. *)
Definition ldap_get_session (calloc_ok : bool) (i : LDAP_AUTH_INFO) : MM (Z * option positive) :=
  session ← malloc (Session false None);
  r ← read_ldap_config calloc_ok None i;
  let '(rc, q) := r in
  _ ← store session (Session false q);
  if negb (rc =? LDAP_AUTH_SUCCESS) then
    _ ← release_config q;
    _ ← free session;
    mret (rc, None)
  else mret (LDAP_AUTH_SUCCESS, Some session).

(** *** Computations on the session in the heap *)

(** What the configuration at [q] says, with the strings it points to. *)
Definition load_config (q : positive) : MM PAM_LDAP_CONFIG_S :=
  c ← load_config_block q;
  uri_ ← load_string (b_uri c);
  host_ ← load_string (b_host c);
  base_ ← load_string (b_base c);
  filter_ ← load_string (b_filter c);
  dns ← load_strings (b_groupdn c);
  let d := b_data c in
  mret {| uri := uri_; host := host_; port := port d; base := base_; groupdn := dns; ldap_enable := ldap_enable d;
          scope := scope d; deref := deref d; LdapConfig.filter_ := filter_; version := version d; timelimit := timelimit d;
          bind_timelimit := bind_timelimit d; restart := restart d; cert_status := cert_status d;
          cert_verifi_Level := cert_verifi_Level d; dn_with_uid := dn_with_uid d |}.

(** The functions of LdapServer, LdapGroups and LdapAuth change the handle and [dn_with_uid]. *)
Definition with_session {A} (p : positive) (x : M A) : MM A :=
  '(h, q) ← load_session p;
  match q with
  | None => undefined
  | Some q =>
      c ← load_config q;
      '(a, h, u) ← on_env (fun tr =>
        match x {| ld := h; conf := c; trace := tr |} with
        | Some (a, s) => Some ((a, ld s, dn_with_uid (conf s)), trace s)
        | None => UB
        end);
      _ ← store p (Session h (Some q));
      _ ← update_config q (fun c => set_b_data (with_uid u (b_data c)) c);
      mret a
  end.

Definition ldap_cleanup_session (session : option positive) : MM unit :=
  match session with
  | None => mret tt
  | Some p =>
      '(h, _) ← load_session p;
      _ ← (if (h : bool) then with_session p (close_handle lib) else mret tt);
      '(_, q) ← load_session p;
      _ ← release_config q;
      free p
  end.

(** *** SASL *)

(** A copy of a string; when there is no memory, nothing. *)
Definition strdup (s : list ascii) : MM (option positive) :=
  c ← on_env (fun tr => Some (l_strdup lib tr s, tr));
  match c with Some c => p ← malloc (Text c); mret (Some p) | None => mret None end.

Definition strdup_secret (s : list ascii) : MM (option positive) :=
  c ← on_env (fun tr => Some (l_strdup lib tr s, tr));
  match c with Some c => p ← malloc (Secret c); mret (Some p) | None => mret None end.

(** [if (member == NULL) ldap_get_option(..)]: a string that the library allocates. *)
Definition or_option (o : sasl_option) (p : option positive) : MM (option positive) :=
  match p with
  | Some p => mret (Some p)
  | None =>
      c ← on_env (fun tr => Some (l_get_option lib tr o, tr));
      match c with Some c => p ← malloc (Text c); mret (Some p) | None => mret None end
  end.

Definition alloc_sasl_defaults (mech rlm authc : list ascii) (passwd : option positive) (authz : list ascii) : MM positive :=
  defaults ← malloc (Sasl no_defaults);
  m ← strdup mech;
  r ← strdup rlm;
  a ← strdup authc;
  pw ← (match passwd with Some p => load_text p | None => undefined end);
  w ← strdup_secret pw;
  z ← strdup authz;
  m ← or_option OPT_X_SASL_MECH m;
  r ← or_option OPT_X_SASL_REALM r;
  a ← or_option OPT_X_SASL_AUTHCID a;
  z ← or_option OPT_X_SASL_AUTHZID z;
  _ ← store defaults (Sasl {| p_mechanisms := m; p_realm := r; p_authentication_id := a; p_pwd := w; p_authorization_id := z |});
  mret defaults.

(** [memset_s(p, strlen(p), 0, strlen(p))], when there is something to overwrite. *)
Definition wipe (p : positive) : MM unit :=
  s ← load_text p;
  if (length s =? 0)%nat then mret tt else store p (Text []).

Definition free_sasl_defaults (defaults : positive) : MM unit :=
  d ← load_sasl defaults;
  _ ← free_pointer (p_mechanisms d);
  _ ← free_pointer (p_realm d);
  _ ← free_pointer (p_authentication_id d);
  _ ← (match p_pwd d with Some p => _ ← wipe p; free p | None => mret tt end);
  _ ← free_pointer (p_authorization_id d);
  free defaults.

(** What the callback of SASL finds at the pointer it is given. *)
Definition load_sasl_defaults (defaults : positive) : MM SASL_DEFAULT :=
  d ← load_sasl defaults;
  m ← load_string (p_mechanisms d);
  r ← load_string (p_realm d);
  a ← load_string (p_authentication_id d);
  w ← load_string (p_pwd d);
  z ← load_string (p_authorization_id d);
  mret {| authentication_id := a; authorization_id := z; mechanisms := m; LdapServer.pwd := w; realm := r; response_number := 0 |}.

Definition ldap_sasl_interactive_bind_s (session : positive) (dn mech : list ascii) (flags : Z) (defaults : positive) : MM Z :=
  d ← load_sasl_defaults defaults;
  with_session session (LdapServer.ldap_sasl_interactive_bind_s lib dn mech flags d).

Definition after_sasl_free_passwd (passwd : option positive) : MM unit :=
  match passwd with
  | None => mret tt
  | Some p => _ ← wipe p; free p
  end.

(** The code and [passwd->bv_val]. *)
Definition set_sasl_config (i : LDAP_AUTH_INFO) : MM (Z * option positive) :=
  rc ← on_env (fun tr => Some (l_sasl_set_path lib tr (lit "/usr/lib"), tr));
  if negb (rc =? 0) then mret (LDAP_AUTH_ERROR, None)
  else
    p ← strdup_secret (password i);
    mret (match p with None => LDAP_AUTH_ERROR | Some _ => LDAP_AUTH_SUCCESS end, p).

Definition sasl_defaults (i : LDAP_AUTH_INFO) (passwd : option positive) : MM positive :=
  alloc_sasl_defaults sasl_mech (lit " ") (username i) passwd (username i).

Definition try_ldap_sasl_interactive_bind (session : positive) (i : LDAP_AUTH_INFO) (passwd : option positive) : MM Z :=
  defaults ← sasl_defaults i passwd;
  b ← with_session session base_dn;
  let '(flag, userdn) := do_sasl_bind_set_userdn b (username i) in
  rc ← ldap_sasl_interactive_bind_s session userdn sasl_mech LDAP_SASL_AUTOMATIC defaults;
  _ ← (if (flag =? LDAP_USERDN_START_WITH_UID) && (rc =? LDAP_SUCCESS) then with_session session (set_dn_with_uid 1) else mret tt);
  if (flag =? LDAP_USERDN_TRY_UID) && negb (rc =? LDAP_SUCCESS) then
    _ ← free_sasl_defaults defaults;
    defaults ← sasl_defaults i passwd;
    rc ← ldap_sasl_interactive_bind_s session (tagged_dn (lit "UID") (username i) b) sasl_mech LDAP_SASL_AUTOMATIC defaults;
    _ ← (if rc =? LDAP_SUCCESS then with_session session (set_dn_with_uid 1) else mret tt);
    _ ← free_sasl_defaults defaults;
    mret rc
  else
    _ ← free_sasl_defaults defaults;
    mret rc.

(** A bind that the server refuses returns without [after_sasl_free_passwd]. *)
Definition do_sasl_bind (session : positive) (i : LDAP_AUTH_INFO) : MM Z :=
  rc ← with_session session (ensure_open lib i);
  if negb (rc =? LDAP_AUTH_SUCCESS) then mret rc
  else
    r ← set_sasl_config i;
    let '(rc, passwd) := r in
    if negb (rc =? LDAP_AUTH_SUCCESS) then mret rc
    else
      rc ← try_ldap_sasl_interactive_bind session i passwd;
      if negb (rc =? LDAP_SUCCESS) && negb (rc =? 1) then mret LDAP_AUTH_INVALID_PASSWD
      else
        _ ← after_sasl_free_passwd passwd;
        mret (if negb (rc =? LDAP_SUCCESS) then LDAP_AUTH_ERROR else LDAP_AUTH_SUCCESS).
End blocks.
