(* ===== verification/SearchBlocks.v ===== *)
(** * ldap_auth.c: the blocks of memory of the searches, and of the authentication as a whole

    What the directory answers to a search is a chain of messages that is allocated, and so are the values of an entry;
    a group search also allocates hash tables and the names it puts into them. The functions of LdapGroups and of
    LdapAuth are run on the heap here; the hash tables of GLib are a class of operations. *)
From S2P Require Export LdapBlocks.
Open Scope Z_scope.

Definition LDAP_AUTH_UNAVAIL : Z := -3.

(** ** Hash tables of GLib *)

(** [g_hash_table_new_full(g_str_hash, g_str_equal, g_free, NULL)], tables of strings that belong to the table, and
    [g_hash_table_new_full(g_direct_hash, g_direct_equal, NULL, NULL)], tables of pointers: here the places of messages
    in the chain that is searched. *)
Class GLib := {
  names_new : MM positive;
  names_size : positive -> MM nat;
  names_contains : positive -> list ascii -> MM bool;
  names_insert : positive -> positive -> MM unit;
  names_destroy : positive -> MM unit;
  pointers_new : MM positive;
  pointers_size : positive -> MM nat;
  pointers_contains : positive -> nat -> MM bool;
  pointers_insert : positive -> nat -> MM unit;
  pointers_destroy : positive -> MM unit
}.

Section search.
Context `{LdapCodes} `{GLib} (lib : openldap_lib).

(** ** Search results *)

(** No messages at all are NULL. *)
Definition load_result (res : option positive) : MM (list message) :=
  match res with
  | None => mret []
  | Some p => c ← load p; match c with Result ms => mret ms | _ => undefined end
  end.

Definition ldap_search_ext_s (session : positive) (dn : list ascii) (sc : Z) (f : list ascii) (attr : option (list ascii))
    : MM (Z * option positive) :=
  r ← with_session session (LdapServer.ldap_search_ext_s lib dn sc f attr);
  let '(ret, ms) := r in
  match ms with
  | [] => mret (ret, None)
  | _ => p ← malloc (Result ms); mret (ret, Some p)
  end.

Definition ldap_msgfree (res : option positive) : MM unit := _ ← load_result res; free_pointer res.

(** A message of the chain is its place. *)
Definition ldap_first_entry (res : option positive) : MM (option nat) :=
  ms ← load_result res; mret (fst <$> LdapGroups.ldap_first_entry ms).
Definition ldap_next_entry (res : option positive) (k : nat) : MM (option nat) :=
  ms ← load_result res; mret (fst <$> LdapGroups.ldap_next_entry ms k).

Definition ldap_get_values (res : option positive) (k : nat) (attr : list ascii) : MM (option positive) :=
  ms ← load_result res;
  match ms !! k with
  | Some (Some e) =>
      match e attr with
      | None => mret None
      | Some vals => v ← malloc (Values vals); mret (Some v)
      end
  | _ => undefined
  end.

Definition load_values (v : positive) : MM (list (list ascii)) :=
  c ← load v;
  match c with Values vals => mret vals | _ => undefined end.

Definition ldap_count_values (v : positive) : MM nat := vals ← load_values v; mret (length vals).
Definition ldap_value_free (v : positive) : MM unit := _ ← load_values v; free v.

(** [v[i]], up to the NULL behind the last value. *)
Definition value_at (v : positive) (i : nat) : MM (option (list ascii)) :=
  vals ← load_values v;
  if (i <=? length vals)%nat then mret (vals !! i) else undefined.

Definition get_string_values (res : option positive) (k : nat) (attr : list ascii) : MM (Z * option positive) :=
  vals ← ldap_get_values res k attr;
  mret (match vals with None => LDAP_AUTH_UNAVAIL | Some _ => LDAP_AUTH_SUCCESS end, vals).

(** ** Groups that have the user as a member *)

Definition do_search_user_group_check_hash (grp_hash : positive) (group_name : list ascii) (tree_level : Z) : MM Z :=
  n ← names_size grp_hash;
  if (MAX_LDAP_GRP_HASH_SIZE <=? n)%nat then mret LDAP_AUTH_UNKNOWN
  else
    found ← names_contains grp_hash group_name;
    if (found : bool) then mret LDAP_AUTH_UNKNOWN
    else if MAX_TREE_DEPTH <? tree_level then mret LDAP_AUTH_UNKNOWN
    else mret RET_OK.

(** [g_strdup] and [g_hash_table_insert]: the table takes the copy. *)
Definition remember (grp_hash : positive) (group_name : list ascii) : MM unit :=
  group_name_tmp ← malloc (Text group_name);
  names_insert grp_hash group_name_tmp.

(** [while (member[i])], for the user himself. *)
Fixpoint user_among (fuel : nat) (v : positive) (i : nat) (userdn : list ascii) : MM bool :=
  match fuel with
  | O => undefined
  | S fuel =>
      m ← value_at v i;
      match m with
      | None => mret false
      | Some m =>
          if compare_ldap_sentence_without_tag (Some m) (Some userdn) =? RET_OK then mret true
          else user_among fuel v (S i) userdn
      end
  end.

(** The same, for a group that leads to him. *)
Fixpoint search_members (fuel : nat) (search : list ascii -> MM Z) (v : positive) (i : nat) : MM Z :=
  match fuel with
  | O => undefined
  | S fuel =>
      m ← value_at v i;
      match m with
      | None => mret LDAP_AUTH_ERROR
      | Some m =>
          ret ← search m;
          if ret =? LDAP_AUTH_SUCCESS then mret LDAP_AUTH_SUCCESS else search_members fuel search v (S i)
      end
  end.

Fixpoint do_search_user_group (session : positive) (fuel : nat) (name group_name filter : list ascii) (tree_level : Z)
    (grp_hash : positive) : MM Z :=
  match fuel with
  | O => undefined
  | S fuel =>
      ret ← do_search_user_group_check_hash grp_hash group_name tree_level;
      if negb (ret =? RET_OK) then mret LDAP_AUTH_UNKNOWN
      else
        let tree_level := tree_level + 1 in
        _ ← remember grp_hash group_name;
        b ← with_session session base_dn;
        c ← with_session session (gets conf);
        let userdn := member_dn name b (dn_with_uid c) in
        a ← ldap_search_ext_s session group_name (scope c) filter None;
        let '(ret, res) := a in
        if negb (search_answered ret) then _ ← ldap_msgfree res; mret LDAP_AUTH_UNKNOWN
        else
          msg ← ldap_first_entry res;
          match msg with
          | None => _ ← ldap_msgfree res; mret LDAP_AUTH_UNKNOWN
          | Some msg =>
              r ← get_string_values res msg LDAP_MEMBER;
              match r with
              | (_, None) => _ ← ldap_msgfree res; mret LDAP_AUTH_UNKNOWN
              | (_, Some member) =>
                  n ← ldap_count_values member;
                  among ← user_among (S n) member 0 userdn;
                  ret ← (if (among : bool) then mret LDAP_AUTH_SUCCESS
                         else search_members (S n) (fun m => do_search_user_group session fuel name m filter tree_level grp_hash) member 0);
                  _ ← ldap_value_free member;
                  _ ← ldap_msgfree res;
                  mret ret
              end
          end
  end.

Fixpoint username_loop (session : positive) (js : list nat) (name filter : list ascii) (find_h found_h : positive) (group : list Z)
    (flag : Z) : MM (list Z * Z) :=
  match js with
  | [] => mret (group, flag)
  | j :: js =>
      c ← with_session session (gets conf);
      match groupdn c !! j with
      | None | Some None => username_loop session js name filter find_h found_h group flag
      | Some (Some dn) =>
          group_name_tmp ← malloc (Text dn);
          searched ← names_contains find_h dn;
          found ← (if (searched : bool) then names_contains found_h dn else mret false);
          if (found : bool) then
            _ ← free group_name_tmp;
            username_loop session js name filter find_h found_h (<[j := Z.of_nat j]> group) flag
          else
            ret ← do_search_user_group session search_fuel name dn filter 0 find_h;
            if ret =? LDAP_AUTH_SUCCESS then
              _ ← names_insert found_h group_name_tmp;
              username_loop session js name filter find_h found_h (<[j := Z.of_nat j]> group) 1
            else
              _ ← free group_name_tmp;
              username_loop session js name filter find_h found_h group flag
      end
  end.

(** The tables of the names searched and of the groups found. *)
Definition search_hash_table_init : MM (positive * positive) :=
  find_grp_hash ← names_new;
  grp_found_hash ← names_new;
  mret (find_grp_hash, grp_found_hash).

Definition do_search_by_username (session : positive) (name : list ascii) (group : list Z) : MM (Z * list Z) :=
  '(find_grp_hash, grp_found_hash) ← search_hash_table_init;
  r ← username_loop session (seq 0 MAX_USER_GROUP) name LDAP_SEARCH_FILTER_G find_grp_hash grp_found_hash group 0;
  let '(group, flag) := r in
  _ ← names_destroy find_grp_hash;
  _ ← names_destroy grp_found_hash;
  mret (if flag =? 1 then LDAP_AUTH_SUCCESS else LDAP_AUTH_UNKNOWN, group).

(** ** Groups that the user's entries name *)

(** [for (i = 0; i < attrCount; ++i)] *)
Fixpoint search_owners (search : list ascii -> list Z -> MM (Z * list Z)) (v : positive) (js : list nat) (group : list Z)
    (result : Z) : MM (Z * list Z) :=
  match js with
  | [] => mret (result, group)
  | i :: js =>
      o ← value_at v i;
      match o with
      | None => undefined
      | Some o =>
          r ← search o group;
          let '(ret, group) := r in
          search_owners search v js group (if ret =? LDAP_AUTH_SUCCESS then 1 else result)
      end
  end.

(** The values of one entry, if it has any. *)
Definition entry_owners (search : list ascii -> list Z -> MM (Z * list Z)) (res : option positive) (k : nat) (group : list Z)
    (result : Z) : MM (Z * list Z) :=
  attrVal ← ldap_get_values res k LDAP_MEMBEROF;
  match attrVal with
  | None => mret (result, group)
  | Some v =>
      n ← ldap_count_values v;
      r ← search_owners search v (seq 0 (Z.to_nat (s16 (Z.of_nat n)))) group result;
      _ ← ldap_value_free v;
      mret r
  end.

Fixpoint owner_entries (fuel : nat) (search : list ascii -> list Z -> MM (Z * list Z)) (res : option positive)
    (msg : option nat) (seen : positive) (group : list Z) (result : Z) : MM (Z * list Z) :=
  match fuel with
  | O => undefined
  | S fuel =>
      match msg with
      | None => mret (result, group)
      | Some k =>
          n ← pointers_size seen;
          if (MAX_LDAP_GRP_HASH_SIZE <=? n)%nat then mret (result, group)
          else
            again ← pointers_contains seen k;
            if (again : bool) then mret (result, group)
            else
              _ ← pointers_insert seen k;
              r ← entry_owners search res k group result;
              let '(result, group) := r in
              msg ← ldap_next_entry res 0;
              owner_entries fuel search res msg seen group result
      end
  end.

Fixpoint do_search_group_owner (session : positive) (fuel : nat) (group_name : list ascii) (group : list Z) (tree_level : Z)
    (grp_hash : positive) : MM (Z * list Z) :=
  match fuel with
  | O => undefined
  | S fuel =>
      ret ← do_search_user_group_check_hash grp_hash group_name tree_level;
      if negb (ret =? RET_OK) then mret (LDAP_AUTH_UNKNOWN, group)
      else
        let tree_level := tree_level + 1 in
        _ ← remember grp_hash group_name;
        c ← with_session session (gets conf);
        let '(match_flag, group) := mark_groups group_name (groupdn c) group in
        a ← ldap_search_ext_s session group_name (scope c) LDAP_SEARCH_FILTER_G (Some LDAP_MEMBEROF);
        let '(ret, res) := a in
        if negb (search_answered ret) then
          _ ← ldap_msgfree res;
          mret (if match_flag =? 1 then LDAP_AUTH_SUCCESS else LDAP_AUTH_UNKNOWN, group)
        else
          find_msg_own_hash ← pointers_new;
          msg ← ldap_first_entry res;
          r ← owner_entries 3 (fun o g => do_search_group_owner session fuel o g tree_level grp_hash) res msg find_msg_own_hash group 0;
          let '(search_result, group) := r in
          _ ← ldap_msgfree res;
          _ ← pointers_destroy find_msg_own_hash;
          mret (if (match_flag =? 1) || (search_result =? 1) then LDAP_AUTH_SUCCESS else LDAP_AUTH_ERROR, group)
  end.

Fixpoint memberof_entries (fuel : nat) (search : list ascii -> list Z -> MM (Z * list Z)) (res : option positive)
    (msg : option nat) (group : list Z) (flag : Z) : MM (Z * list Z) :=
  match fuel with
  | O => undefined
  | S fuel =>
      match msg with
      | None => mret (flag, group)
      | Some k =>
          r ← entry_owners search res k group flag;
          let '(flag, group) := r in
          msg ← ldap_next_entry res k;
          memberof_entries fuel search res msg group flag
      end
  end.

(** The code, the flag and the answer; the fuel is the number of messages. *)
Definition do_search_by_memberof_ext (session : positive) (group : list Z) (flag : Z) (filter : list ascii) : MM (Z * Z * list Z) :=
  b ← with_session session base_dn;
  c ← with_session session (gets conf);
  a ← ldap_search_ext_s session b (scope c) filter (Some LDAP_MEMBEROF);
  let '(ret, res) := a in
  if negb (search_answered ret) then _ ← ldap_msgfree res; mret (LDAP_AUTH_UNKNOWN, flag, group)
  else
    find_grp_own_hash ← names_new;
    ms ← load_result res;
    msg ← ldap_first_entry res;
    r ← memberof_entries (S (length ms)) (fun o g => do_search_group_owner session search_fuel o g 1 find_grp_own_hash) res msg group flag;
    let '(flag, group) := r in
    _ ← names_destroy find_grp_own_hash;
    _ ← ldap_msgfree res;
    mret (LDAP_AUTH_SUCCESS, flag, group).

Definition do_search_by_memberof (session : positive) (name : list ascii) (group : list Z) : MM (Z * list Z) :=
  c ← with_session session (gets conf);
  let filter := name_filter (if dn_with_uid c =? 0 then lit "cn" else lit "uid") name in
  r ← do_search_by_memberof_ext session group 0 filter;
  let '(ret, flag, group) := r in
  mret (if negb (ret =? LDAP_AUTH_SUCCESS) then LDAP_AUTH_UNKNOWN
        else if flag =? 1 then LDAP_AUTH_SUCCESS else LDAP_AUTH_UNKNOWN, group).

Definition do_get_user_group (session : positive) (name : list ascii) (group : list Z) : MM (Z * list Z) :=
  _ ← with_session session (ldap_set_option lib (OPT_SIZELIMIT 1));
  let '(rc, escaped_user) := escape_string name (Z.of_nat LDAP_FILT_MAXSIZ) in
  if negb (rc =? LDAP_AUTH_SUCCESS) then mret (rc, group)
  else
    r ← do_search_by_memberof session escaped_user group;
    let '(rc, group) := r in
    if rc =? LDAP_AUTH_SUCCESS then mret (rc, group)
    else do_search_by_username session escaped_user group.

(** ** The user's entry *)

Definition ldap_find_user_cn (session : positive) (filter cn : list ascii) (cn_size : nat) : MM (Z * list ascii) :=
  if (cn_size =? 0)%nat then mret (LDAP_AUTH_ERROR, cn)
  else
    _ ← with_session session (ldap_set_option lib (OPT_SIZELIMIT 1));
    b ← with_session session base_dn;
    c ← with_session session (gets conf);
    a ← ldap_search_ext_s session b (scope c) filter None;
    let '(ret, res) := a in
    if negb (search_answered ret) then _ ← ldap_msgfree res; mret (LDAP_AUTH_UNKNOWN, cn)
    else
      msg ← ldap_first_entry res;
      match msg with
      | None => _ ← ldap_msgfree res; mret (LDAP_AUTH_UNKNOWN, cn)
      | Some msg =>
          r ← get_string_values res msg (if dn_with_uid c =? 0 then lit "cn" else lit "uid");
          match r with
          | (_, None) => _ ← ldap_msgfree res; mret (LDAP_AUTH_UNKNOWN, cn)
          | (ret, Some cn_temp) =>
              v ← value_at cn_temp 0;
              let cn := match v with Some v => snd (strncpy_s cn_size v (cn_size - 1)) | None => [] end in
              _ ← ldap_value_free cn_temp;
              _ ← ldap_msgfree res;
              mret (ret, cn)
          end
      end.

Definition window_logon_name (session : positive) (i : LDAP_AUTH_INFO) (cn : list ascii) (cn_size : nat) (escaped_user : list ascii)
    : MM (Z * list ascii) :=
  r ← ldap_find_user_cn session (name_filter (lit "sAMAccountName") escaped_user) cn cn_size;
  let '(ret, cn) := r in
  if ret =? RET_OK then mret (LDAP_AUTH_SUCCESS, cn)
  else
    r ← ldap_find_user_cn session (name_filter (lit "userPrincipalName") escaped_user) cn cn_size;
    let '(ret, cn) := r in
    if ret =? RET_OK then mret (LDAP_AUTH_SUCCESS, cn)
    else mret (fst (escape_string (full_name i) (Z.of_nat LDAP_FILT_MAXSIZ)), cn).

Definition ldap_search_user (session : positive) (i : LDAP_AUTH_INFO) (cn_size : nat) : MM (Z * list ascii) :=
  let '(ret, escaped_user) := escape_string (username i) (Z.of_nat LDAP_FILT_MAXSIZ) in
  if negb (ret =? LDAP_AUTH_SUCCESS) then mret (LDAP_AUTH_ERROR, [])
  else
    c ← with_session session (gets conf);
    r ← ldap_find_user_cn session (name_filter (if dn_with_uid c =? 0 then lit "cn" else lit "uid") escaped_user) [] cn_size;
    let '(ret, cn) := r in
    if ret =? RET_OK then mret (LDAP_AUTH_SUCCESS, cn)
    else
      r ← window_logon_name session i cn cn_size escaped_user;
      let '(ret, cn) := r in
      if ret =? LDAP_AUTH_SUCCESS then mret (LDAP_AUTH_SUCCESS, cn)
      else
        r ← ldap_find_user_cn session (name_filter (lit "userPrincipalName") escaped_user) cn cn_size;
        let '(ret, cn) := r in
        mret (if ret =? RET_OK then LDAP_AUTH_SUCCESS else LDAP_AUTH_ERROR, cn).

(** ** Authentication *)

Definition auth_bind (session : positive) (i : LDAP_AUTH_INFO) : MM Z :=
  ret ← do_sasl_bind lib session i;
  if ret =? LDAP_AUTH_SUCCESS then mret ret
  else
    _ ← with_session session (close_handle lib);
    ret ← with_session session (do_direct_bind lib (username i) i);
    if ret =? LDAP_AUTH_SUCCESS then mret ret
    else if (length (user_domain i) =? 0)%nat then mret LDAP_AUTH_ERROR
    else
      h ← with_session session (gets ld);
      if negb h then mret LDAP_AUTH_ERROR
      else with_session session (ldap_simple_bind_s lib (full_name i) (password i)).

Definition ldap_auth (session : positive) (i : LDAP_AUTH_INFO) (group : list Z) : MM (Z * list Z) :=
  ret ← auth_bind session i;
  if negb (ret =? LDAP_AUTH_SUCCESS) then mret (RET_ERR, group)
  else
    r ← ldap_search_user session i LDAP_USERFOLDER_MAX_LEN;
    let '(ret, cn) := r in
    if negb (ret =? RET_OK) then mret (RET_ERR, group)
    else do_get_user_group session cn group.

Definition ldap_bind_user (session : positive) (i : LDAP_AUTH_INFO) : MM Z :=
  ret ← do_sasl_bind lib session i;
  if negb (ret =? LDAP_AUTH_SUCCESS) then
    _ ← with_session session (close_handle lib);
    with_session session (do_direct_bind lib (username i) i)
  else mret ret.

Definition lift_pure {A} (o : option A) : MM A := match o with Some a => mret a | None => undefined end.

Definition proxy_bind (session : positive) (i : LDAP_AUTH_INFO) : MM (Z * LDAP_AUTH_INFO) :=
  if has_case_prefix (lit "CN=") (bind_dn i) then
    ret ← with_session session (do_direct_bind_dn lib i);
    mret (ret, i)
  else if has_case_prefix (lit "UID=") (bind_dn i) then
    ret ← with_session session (do_direct_bind_dn lib i);
    _ ← (if ret =? RET_OK then with_session session (set_dn_with_uid 1) else mret tt);
    mret (ret, i)
  else
    i ← lift_pure (switch_dn_and_user i);
    ret ← ldap_bind_user session i;
    i ← lift_pure (switch_dn_and_user i);
    mret (ret, i).

Definition rebind_user (session : positive) (cn : list ascii) (i : LDAP_AUTH_INFO) : MM Z :=
  ret ← do_sasl_bind lib session i;
  if negb (ret =? LDAP_AUTH_SUCCESS) then
    _ ← with_session session (close_handle lib);
    with_session session (do_direct_bind lib cn i)
  else mret ret.

Definition ldap_proxyuser_auth (session : positive) (i : LDAP_AUTH_INFO) (group : list Z) : MM (Z * list Z * LDAP_AUTH_INFO) :=
  r ← proxy_bind session i;
  let '(ret, i) := r in
  if negb (ret =? RET_OK) then mret (RET_ERR, group, i)
  else
    r ← ldap_search_user session i SMALL_BUFFER_SIZE;
    let '(ret, cn) := r in
    if negb (ret =? RET_OK) then mret (RET_ERR, group, i)
    else
      ret ← rebind_user session cn i;
      if negb (ret =? LDAP_AUTH_SUCCESS) then mret (RET_ERR, group, i)
      else
        r ← do_get_user_group session cn group;
        let '(ret, group) := r in
        mret (ret, group, i).

Definition authenticate_session (session : positive) (i : LDAP_AUTH_INFO) (group : list Z) : MM (Z * list Z * LDAP_AUTH_INFO) :=
  if negb (length (bind_dn i) =? 0)%nat && negb (length (bind_dn_pwd i) =? 0)%nat
  then ldap_proxyuser_auth session i group
  else
    r ← ldap_auth session i group;
    let '(ret, group) := r in
    mret (ret, group, i).

Definition ldap_authenticate (calloc_ok : bool) (i : LDAP_AUTH_INFO) (group : list Z) : MM (Z * list Z * LDAP_AUTH_INFO) :=
  r ← ldap_get_session calloc_ok i;
  let '(rc, session) := r in
  r ← (if negb (rc =? LDAP_AUTH_SUCCESS) then mret (rc, group, i)
       else match session with None => undefined | Some p => authenticate_session p i group end);
  _ ← ldap_cleanup_session lib session;
  mret r.
End search.
