(* ===== verification/SessionMemory.v ===== *)
(** * The session of an LDAP login in memory

    The functions of LdapBlocks own their blocks in the sense of the separation logic of Memory: [is_session p s] is a
    session in the heap that says what the session [s] of LdapServer says. A function on the heap refines its
    counterpart on [session] when it computes the same and keeps the books: the session, and the copies of passwords
    that have been lost. *)
From S2P Require Export LdapBlocks.
Open Scope Z_scope.

Notation heap_prop := (hPropI cell).

(** ** What is in the heap *)

(** A pointer and the string it stands for. *)
Definition opt_text (p : option positive) (s : option (list ascii)) : heap_prop :=
  match p, s with
  | Some p, Some s => p ↦ Text s
  | None, None => emp
  | _, _ => False
  end.

Lemma opt_text_none : ⊢ opt_text None None.
Proof. done. Qed.

Definition numbers_of (c : PAM_LDAP_CONFIG_S) : PAM_LDAP_CONFIG_S :=
  numbers (port c) (ldap_enable c) (scope c) (deref c) (version c) (timelimit c) (bind_timelimit c) (restart c)
    (cert_status c) (cert_verifi_Level c) (dn_with_uid c).

(** The strings of the block [cb] are those of [c]. *)
Definition strings_of (cb : config_block) (c : PAM_LDAP_CONFIG_S) : heap_prop :=
  opt_text (b_uri cb) (uri c) ∗ opt_text (b_host cb) (host c) ∗ opt_text (b_base cb) (base c) ∗
  opt_text (b_filter cb) (filter_ c) ∗ [∗ list] p;s ∈ b_groupdn cb;groupdn c, opt_text p s.

Definition is_config (q : positive) (c : PAM_LDAP_CONFIG_S) : heap_prop :=
  ∃ cb, <affine> ⌜b_data cb = numbers_of c⌝ ∗ q ↦ Config cb ∗ strings_of cb c.

Definition is_session (p : positive) (s : session) : heap_prop :=
  ∃ q, p ↦ Session (ld s) (Some q) ∗ is_config q (conf s).

(** ** Reading *)

Section reading.
Context (fr : list cell) (e : list event).

Lemma wpm_load_text p s Φ : p ↦ Text s ∗ (p ↦ Text s -∗ Φ s fr e) ⊢ wpm (load_text p) fr e Φ.
Proof.
  iIntros "[Hp HΦ]". iApply wpm_bind. iApply wpm_load. iFrame "Hp". iIntros "Hp". iApply wpm_ret. by iApply "HΦ".
Qed.

Lemma wpm_load_secret p s Φ : p ↦ Secret s ∗ (p ↦ Secret s -∗ Φ s fr e) ⊢ wpm (load_text p) fr e Φ.
Proof.
  iIntros "[Hp HΦ]". iApply wpm_bind. iApply wpm_load. iFrame "Hp". iIntros "Hp". iApply wpm_ret. by iApply "HΦ".
Qed.

Lemma wpm_load_string p s Φ : opt_text p s ∗ (opt_text p s -∗ Φ s fr e) ⊢ wpm (load_string p) fr e Φ.
Proof.
  iIntros "[Hp HΦ]". destruct p as [p|], s as [s|]; cbn [opt_text load_string]; try iDestruct "Hp" as "[]".
  - iApply wpm_bind. iApply wpm_load_text. iFrame "Hp". iIntros "Hp". iApply wpm_ret. by iApply "HΦ".
  - iApply wpm_ret. by iApply "HΦ".
Qed.

Lemma wpm_load_strings ps ss Φ :
  ([∗ list] p;s ∈ ps;ss, opt_text p s) ∗ (([∗ list] p;s ∈ ps;ss, opt_text p s) -∗ Φ ss fr e)
  ⊢ wpm (load_strings ps) fr e Φ.
Proof.
  revert ss Φ. induction ps as [|p ps IH]; intros [|s ss] Φ; cbn [load_strings big_sepL2];
    try by iIntros "[[] _]".
  - iIntros "[Hp HΦ]". iApply wpm_ret. by iApply "HΦ".
  - iIntros "[[Hp Hps] HΦ]". iApply wpm_bind. iApply wpm_load_string. iFrame "Hp". iIntros "Hp".
    iApply wpm_bind. iApply IH. iFrame "Hps". iIntros "Hps". iApply wpm_ret. iApply "HΦ". iFrame.
Qed.

Lemma wpm_load_block q cb Φ : q ↦ Config cb ∗ (q ↦ Config cb -∗ Φ cb fr e) ⊢ wpm (load_config_block q) fr e Φ.
Proof.
  iIntros "[Hp HΦ]". iApply wpm_bind. iApply wpm_load. iFrame "Hp". iIntros "Hp". iApply wpm_ret. by iApply "HΦ".
Qed.

Lemma wpm_update q f cb Φ : q ↦ Config cb ∗ (q ↦ Config (f cb) -∗ Φ tt fr e) ⊢ wpm (update_config q f) fr e Φ.
Proof.
  iIntros "[Hp HΦ]". iApply wpm_bind. iApply wpm_load_block. iFrame "Hp". iIntros "Hp". iApply wpm_store. iFrame.
Qed.

Lemma wpm_load_config q c Φ : is_config q c ∗ (is_config q c -∗ Φ c fr e) ⊢ wpm (load_config q) fr e Φ.
Proof.
  iIntros "[(%cb & %Hd & Hq & Hu & Hh & Hb & Hf & Hg) HΦ]".
  iApply wpm_bind. iApply wpm_load_block. iFrame "Hq". iIntros "Hq".
  iApply wpm_bind. iApply wpm_load_string. iFrame "Hu". iIntros "Hu".
  iApply wpm_bind. iApply wpm_load_string. iFrame "Hh". iIntros "Hh".
  iApply wpm_bind. iApply wpm_load_string. iFrame "Hb". iIntros "Hb".
  iApply wpm_bind. iApply wpm_load_string. iFrame "Hf". iIntros "Hf".
  iApply wpm_bind. iApply wpm_load_strings. iFrame "Hg". iIntros "Hg".
  iApply wpm_ret. rw Hd. destruct c. iApply "HΦ". iExists cb. by iFrame.
Qed.
End reading.

(** ** Computations on the session *)

(** They change [dn_with_uid] only of the configuration, and add no SASL bind to the operations. *)
Definition no_sasl (ev : event) : bool := match ev with SaslBind _ _ _ _ => false | _ => true end.

Class Tame {A} (x : M A) : Prop := tame s a s' :
  x s = Some (a, s') ->
  same_config (conf s) (conf s') /\ exists new, trace s' = new ++ trace s /\ forallb no_sasl new = true.

Lemma plain_here s : same_config (conf s) (conf s) /\ exists new, trace s = new ++ trace s /\ forallb no_sasl new = true.
Proof. split; [done|]. by exists []. Qed.

#[export] Instance plain_ret {A} (a : A) : Tame (mret a).
Proof. intros s a' s' [= <- <-]. apply plain_here. Qed.

#[export] Instance plain_bind {A B} (x : M A) (f : A -> M B) : Tame x -> (forall a, Tame (f a)) -> Tame (x ≫= f).
Proof.
  intros Hx Hf s b s' He. unfold mbind, M_bind in He. destruct (x s) as [[a s1]|] eqn:E; [|done].
  apply Hx in E as (E1 & n1 & Et1 & Hn1). apply Hf in He as (E2 & n2 & Et2 & Hn2). split; [by etrans|].
  exists (n2 ++ n1). rw Et2 Et1 app_assoc forallb_app Hn1 Hn2. done.
Qed.

#[export] Instance plain_gets {A} (f : session -> A) : Tame (gets f).
Proof. intros s a s' [= <- <-]. apply plain_here. Qed.
#[export] Instance plain_base : Tame base_dn.
Proof. intros s a s' He. unfold base_dn in He. destruct (base (conf s)); [|done]. injection He as <- <-. apply plain_here. Qed.
#[export] Instance plain_set_ld h : Tame (set_ld h).
Proof. intros s a s' [= <- <-]. split; [done|]. by exists []. Qed.
#[export] Instance plain_set_uid u : Tame (set_dn_with_uid u).
Proof. intros s a s' [= <- <-]. split; [done|]. by exists []. Qed.
#[export] Instance plain_stuck {A} : Tame (fun _ => None : option (A * session)).
Proof. done. Qed.

Lemma plain_call {A} (ask : list event -> A) ev : (forall a, no_sasl (ev a) = true) -> Tame (call ask ev).
Proof.
  intros He s a s' Hc. unfold call in Hc. destruct (ld s); [|done]. injection Hc as <- <-. split; [done|].
  exists [ev (ask (trace s))]. split; [done|]. cbn. by rw He.
Qed.

#[export] Hint Extern 0 (Tame (call _ _)) => apply plain_call; reflexivity : typeclass_instances.
#[export] Hint Extern 1 (Tame (match ?x with _ => _ end)) => destruct x : typeclass_instances.

Section plain.
Context `{LdapCodes} (lib : openldap_lib).

#[export] Instance plain_initialize url : Tame (ldap_initialize lib url).
Proof.
  intros s a s' He. unfold ldap_initialize in He. destruct (l_initialize _ _ _). injection He as <- <-. split; [done|].
  by eexists [_].
Qed.
#[export] Instance plain_option o : Tame (ldap_set_option lib o).
Proof. unfold ldap_set_option. apply _. Qed.
#[export] Instance plain_search b sc f attr : Tame (ldap_search_ext_s lib b sc f attr).
Proof. unfold ldap_search_ext_s. apply _. Qed.
#[export] Instance plain_open i : Tame (open_session lib i).
Proof.
  unfold open_session, ldap_initialize_handle, ldap_set_certificate_option, ldap_set_context_option,
    clear_ldap_ca_and_crl_conf, set_ldap_ca_and_crl_conf. apply _.
Qed.
#[export] Instance plain_ensure i : Tame (ensure_open lib i).
Proof. unfold ensure_open. apply _. Qed.
#[export] Instance plain_simple_bind dn len pw : Tame (do_ldap_simple_bind lib dn len pw).
Proof. unfold do_ldap_simple_bind, simple_bind. apply _. Qed.
#[export] Instance plain_close : Tame (close_handle lib).
Proof. unfold close_handle, ldap_unbind. apply _. Qed.
#[export] Instance plain_direct name i : Tame (do_direct_bind lib name i).
Proof. unfold do_direct_bind. apply _. Qed.
#[export] Instance plain_direct_dn i : Tame (do_direct_bind_dn lib i).
Proof. unfold do_direct_bind_dn, simple_bind. apply _. Qed.
#[export] Instance plain_simple_s who pw : Tame (ldap_simple_bind_s lib who pw).
Proof. unfold ldap_simple_bind_s. apply _. Qed.

(** The searches. *)
#[export] Instance plain_members search member h : (forall m h, Tame (search m h)) -> Tame (search_members search member h).
Proof. intros Hs. revert h. induction member; intros h; cbn [search_members]; apply _. Qed.
#[export] Instance plain_user_group fuel name g filter level h : Tame (do_search_user_group lib fuel name g filter level h).
Proof. revert g level h. induction fuel; intros g level h; cbn [do_search_user_group]; apply _. Qed.
#[export] Instance plain_username js name filter fh fd g flag : Tame (username_loop lib js name filter fh fd g flag).
Proof. revert fh fd g flag. induction js; intros fh fd g flag; cbn [username_loop]; apply _. Qed.
#[export] Instance plain_owners search owners g h r : (forall o g h, Tame (search o g h)) -> Tame (search_owners search owners g h r).
Proof. intros Hs. revert g h r. induction owners; intros g h r; cbn [search_owners]; apply _. Qed.
#[export] Instance plain_owner_entries fuel search res msg seen g h r :
  (forall o g h, Tame (search o g h)) -> Tame (owner_entries fuel search res msg seen g h r).
Proof. intros Hs. revert msg seen g h r. induction fuel; intros msg seen g h r; cbn [owner_entries]; apply _. Qed.
#[export] Instance plain_group_owner fuel g group level h : Tame (do_search_group_owner lib fuel g group level h).
Proof. revert g group level h. induction fuel; intros g group level h; cbn [do_search_group_owner]; apply _. Qed.
#[export] Instance plain_memberof res g h flag : Tame (memberof_entries lib res g h flag).
Proof. revert g h flag. induction res; intros g h flag; cbn [memberof_entries]; apply _. Qed.
#[export] Instance plain_groups name g : Tame (do_get_user_group lib name g).
Proof. unfold do_get_user_group, do_search_by_memberof, do_search_by_memberof_ext, do_search_by_username. apply _. Qed.
#[export] Instance plain_find f cn n : Tame (ldap_find_user_cn lib f cn n).
Proof. unfold ldap_find_user_cn. apply _. Qed.
#[export] Instance plain_search_user i n : Tame (ldap_search_user lib i n).
Proof. unfold ldap_search_user, window_logon_name. apply _. Qed.
End plain.

Lemma same_config_with_uid c c' : same_config c c' -> c' = with_uid (dn_with_uid c') c.
Proof. destruct c, c'. unfold same_config, with_uid. cbn. by intros [=]; subst. Qed.

Section sessions.
Context (fr : list cell).

Lemma wpm_load_session p h q e Φ :
  p ↦ Session h q ∗ (p ↦ Session h q -∗ Φ (h, q) fr e) ⊢ wpm (load_session p) fr e Φ.
Proof.
  iIntros "[Hp HΦ]". iApply wpm_bind. iApply wpm_load. iFrame "Hp". iIntros "Hp". iApply wpm_ret. by iApply "HΦ".
Qed.

(** What is known of [x] on [session]s holds on the heap. *)
Lemma wpm_with_session {A} p (x : M A) s a s' Φ :
  x s = Some (a, s') -> same_config (conf s) (conf s') ->
  is_session p s ∗ (is_session p s' -∗ Φ a fr (trace s')) ⊢ wpm (with_session p x) fr (trace s) Φ.
Proof.
  iIntros (Hx Hc) "[(%q & Hp & Hq) HΦ]". iApply wpm_bind. iApply wpm_load_session. iFrame "Hp". iIntros "Hp".
  iApply wpm_bind. iApply wpm_load_config. iFrame "Hq". iIntros "Hq". iApply wpm_bind.
  iApply (wpm_env _ (a, ld s', dn_with_uid (conf s')) fr (trace s) (trace s')).
  { destruct s. cbn. by rw Hx. }
  iApply wpm_bind. iApply wpm_store. iFrame "Hp". iIntros "Hp".
  iDestruct "Hq" as "(%cb & %Hd & Hq & Hs)".
  iApply wpm_bind. iApply wpm_update. iFrame "Hq". iIntros "Hq". iApply wpm_ret. iApply "HΦ".
  iExists q. iFrame "Hp". iExists _. iFrame "Hq". iSplit.
  - iPureIntro. cbn. by rw Hd {2}(same_config_with_uid _ _ Hc).
  - rw (same_config_with_uid _ _ Hc). iExact "Hs".
Qed.
End sessions.

(** ** The copies of passwords that are lost *)

(** The password of every SASL bind that the server refused (1 is an error that is not treated as a refusal) and that
    was not tried again at once. The operations are listed newest first. *)
Fixpoint lost_passwords (again : bool) (tr : list event) : list (list ascii) :=
  match tr with
  | [] => []
  | SaslBind _ _ d rc :: tr =>
      (if again || (rc =? 0) || (rc =? 1) then [] else [default [] (LdapServer.pwd d)]) ++ lost_passwords true tr
  | _ :: tr => lost_passwords false tr
  end.

Definition secrets (l : list (list ascii)) : heap_prop := [∗ list] s ∈ l, ∃ p, p ↦ Secret s.

(** The last operation is not a SASL bind that was refused. *)
Definition settled (tr : list event) : Prop := lost_passwords true tr = lost_passwords false tr.

Lemma lost_cons ev tr : no_sasl ev = true -> lost_passwords false (ev :: tr) = lost_passwords false tr.
Proof. by destruct ev. Qed.

Lemma settled_app new tr : forallb no_sasl new = true -> settled tr -> settled (new ++ tr).
Proof. destruct new as [|ev new]; [done|]. cbn [forallb app]. intros [He _]%andb_true_iff _. by destruct ev. Qed.

Lemma lost_plain {A} (x : M A) `{!Tame x} s a s' :
  x s = Some (a, s') -> lost_passwords false (trace s') = lost_passwords false (trace s).
Proof.
  intros Hx. apply tame in Hx as (_ & new & -> & Hn). clear -Hn.
  induction new as [|ev new IH]; [done|]. cbn [forallb app] in *. apply andb_true_iff in Hn as [He Hn].
  rw lost_cons; [by apply IH|done].
Qed.

(** A freed block is no password, unless it is empty. *)
Definition clean (fr : list cell) : Prop := Forall (fun c => forall s, c = Secret s -> s = []) fr.

Lemma clean_cons c fr : match c with Secret (_ :: _) => False | _ => True end -> clean fr -> clean (c :: fr).
Proof. intros Hc Hf. constructor; [|done]. intros s ->. by destruct s. Qed.

(** ** SASL *)

(** The defaults with their strings. *)
Definition is_sasl (d : positive) (mech rlm authc pw authz : list ascii) : heap_prop :=
  ∃ m r a w z, d ↦ Sasl {| p_mechanisms := Some m; p_realm := Some r; p_authentication_id := Some a; p_pwd := Some w;
                          p_authorization_id := Some z |} ∗
    m ↦ Text mech ∗ r ↦ Text rlm ∗ a ↦ Text authc ∗ w ↦ Secret pw ∗ z ↦ Text authz.

Lemma M_bind_inv {A B} (x : M A) (f : A -> M B) s b s'' :
  (x ≫= f) s = Some (b, s'') -> exists a s', x s = Some (a, s') /\ f a s' = Some (b, s'').
Proof. unfold mbind, M_bind. destruct (x s) as [[a s']|]; [|done]. by exists a, s'. Qed.

(** Takes a run apart. *)
Ltac run_inv H :=
  let a := fresh "a" in let s := fresh "s" in let H1 := fresh "Hrun" in
  apply M_bind_inv in H as (a & s & H1 & H).

Section sasl.
Context `{LdapCodes} (lib : openldap_lib) (laws : well_behaved lib).
Implicit Types (fr : list cell) (e : list event).

Lemma wpm_strdup s fr e Φ : (∀ p, p ↦ Text s -∗ Φ (Some p) fr e) ⊢ wpm (strdup lib s) fr e Φ.
Proof.
  iIntros "HΦ". iApply wpm_bind. iApply (wpm_env _ (Some s) fr e e); [by rw (memory_law _ laws)|].
  iApply wpm_bind. iApply wpm_malloc. iIntros (p) "Hp". iApply wpm_ret. by iApply "HΦ".
Qed.

Lemma wpm_strdup_secret s fr e Φ : (∀ p, p ↦ Secret s -∗ Φ (Some p) fr e) ⊢ wpm (strdup_secret lib s) fr e Φ.
Proof.
  iIntros "HΦ". iApply wpm_bind. iApply (wpm_env _ (Some s) fr e e); [by rw (memory_law _ laws)|].
  iApply wpm_bind. iApply wpm_malloc. iIntros (p) "Hp". iApply wpm_ret. by iApply "HΦ".
Qed.

Lemma wpm_alloc_sasl mech rlm authc pp pw authz fr e Φ :
  pp ↦ Secret pw ∗ (∀ d, is_sasl d mech rlm authc pw authz -∗ pp ↦ Secret pw -∗ Φ d fr e)
  ⊢ wpm (alloc_sasl_defaults lib mech rlm authc (Some pp) authz) fr e Φ.
Proof.
  iIntros "[Hpp HΦ]". iApply wpm_bind. iApply wpm_malloc. iIntros (d) "Hd".
  iApply wpm_bind. iApply wpm_strdup. iIntros (m) "Hm". iApply wpm_bind. iApply wpm_strdup. iIntros (r) "Hr".
  iApply wpm_bind. iApply wpm_strdup. iIntros (a) "Ha".
  iApply wpm_bind. iApply wpm_load_secret. iFrame "Hpp". iIntros "Hpp".
  iApply wpm_bind. iApply wpm_strdup_secret. iIntros (w) "Hw". iApply wpm_bind. iApply wpm_strdup. iIntros (z) "Hz".
  do 4 (iApply wpm_bind; iApply wpm_ret).
  iApply wpm_bind. iApply wpm_store. iFrame "Hd". iIntros "Hd". iApply wpm_ret.
  iApply ("HΦ" with "[-Hpp] Hpp"). iExists m, r, a, w, z. iFrame.
Qed.

Lemma wpm_free_pointer p s fr e Φ :
  opt_text p s ∗ (∀ fr', <affine> ⌜clean fr -> clean fr'⌝ -∗ Φ tt fr' e) ⊢ wpm (free_pointer p) fr e Φ.
Proof.
  iIntros "[Hp HΦ]". destruct p as [p|], s as [s|]; cbn [opt_text free_pointer]; try iDestruct "Hp" as "[]".
  - iApply wpm_free. iFrame "Hp". iApply "HΦ". iPureIntro. by apply clean_cons.
  - iApply wpm_ret. by iApply "HΦ".
Qed.

(** A copy of a password is overwritten before it is freed. *)
Lemma wpm_wipe_free p s fr e Φ :
  p ↦ Secret s ∗ (∀ fr', <affine> ⌜clean fr -> clean fr'⌝ -∗ Φ tt fr' e) ⊢ wpm (_ ← wipe p; free p) fr e Φ.
Proof.
  iIntros "[Hp HΦ]". iApply wpm_bind. iApply wpm_bind. iApply wpm_load_secret. iFrame "Hp". iIntros "Hp".
  destruct s as [|c s]; cbn [length Nat.eqb].
  - iApply wpm_ret. iApply wpm_free. iFrame "Hp". iApply "HΦ". iPureIntro. by apply clean_cons.
  - iApply wpm_store. iFrame "Hp". iIntros "Hp". iApply wpm_free. iFrame "Hp". iApply "HΦ". iPureIntro. by apply clean_cons.
Qed.

Lemma wpm_free_sasl d mech rlm authc pw authz fr e Φ :
  is_sasl d mech rlm authc pw authz ∗ (∀ fr', <affine> ⌜clean fr -> clean fr'⌝ -∗ Φ tt fr' e)
  ⊢ wpm (free_sasl_defaults d) fr e Φ.
Proof.
  iIntros "[(%m & %r & %a & %w & %z & Hd & Hm & Hr & Ha & Hw & Hz) HΦ]".
  iApply wpm_bind. iApply wpm_bind. iApply wpm_load. iFrame "Hd". iIntros "Hd". iApply wpm_ret.
  iApply wpm_bind. iApply (wpm_free_pointer (Some m) (Some mech)). iFrame "Hm". iIntros (f1 H1).
  iApply wpm_bind. iApply (wpm_free_pointer (Some r) (Some rlm)). iFrame "Hr". iIntros (f2 H2).
  iApply wpm_bind. iApply (wpm_free_pointer (Some a) (Some authc)). iFrame "Ha". iIntros (f3 H3).
  iApply wpm_bind. iApply wpm_wipe_free. iFrame "Hw". iIntros (f4 H4).
  iApply wpm_bind. iApply (wpm_free_pointer (Some z) (Some authz)). iFrame "Hz". iIntros (f5 H5).
  iApply wpm_free. iFrame "Hd". iApply "HΦ". iPureIntro. intros Hc. apply clean_cons; [done|]. auto 10.
Qed.

Lemma wpm_load_sasl d mech rlm authc pw authz fr e Φ :
  is_sasl d mech rlm authc pw authz ∗
  (is_sasl d mech rlm authc pw authz -∗
   Φ {| authentication_id := Some authc; authorization_id := Some authz; mechanisms := Some mech;
        LdapServer.pwd := Some pw; realm := Some rlm; response_number := 0 |} fr e)
  ⊢ wpm (load_sasl_defaults d) fr e Φ.
Proof.
  iIntros "[(%m & %r & %a & %w & %z & Hd & Hm & Hr & Ha & Hw & Hz) HΦ]".
  iApply wpm_bind. iApply wpm_bind. iApply wpm_load. iFrame "Hd". iIntros "Hd". iApply wpm_ret.
  iApply wpm_bind. iApply (wpm_load_string _ _ (Some m) (Some mech)). iFrame "Hm". iIntros "Hm".
  iApply wpm_bind. iApply (wpm_load_string _ _ (Some r) (Some rlm)). iFrame "Hr". iIntros "Hr".
  iApply wpm_bind. iApply (wpm_load_string _ _ (Some a) (Some authc)). iFrame "Ha". iIntros "Ha".
  iApply wpm_bind. iApply wpm_bind. iApply wpm_load_secret. iFrame "Hw". iIntros "Hw". iApply wpm_ret.
  iApply wpm_bind. iApply (wpm_load_string _ _ (Some z) (Some authz)). iFrame "Hz". iIntros "Hz".
  iApply wpm_ret. iApply "HΦ". iExists m, r, a, w, z. iFrame.
Qed.

(** The defaults of a bind as the user. *)
Definition defaults_of (i : LDAP_AUTH_INFO) (pw : list ascii) : SASL_DEFAULT :=
  {| authentication_id := Some (username i); authorization_id := Some (username i); mechanisms := Some sasl_mech;
     LdapServer.pwd := Some pw; realm := Some (lit " "); response_number := 0 |}.
Definition owns_defaults (d : positive) (i : LDAP_AUTH_INFO) (pw : list ascii) : heap_prop :=
  is_sasl d sasl_mech (lit " ") (username i) pw (username i).

Lemma sasl_defaults_run i pw s : LdapServer.sasl_defaults lib i pw s = Some (defaults_of i pw, s).
Proof.
  unfold LdapServer.sasl_defaults, LdapServer.alloc_sasl_defaults, dup_or_option, gets, mbind, M_bind, mret, M_ret.
  cbn. by rw !(memory_law _ laws).
Qed.

Lemma base_run s b s' : base_dn s = Some (b, s') -> s' = s.
Proof. unfold base_dn. destruct (base (conf s)); [|done]. by intros [= _ <-]. Qed.

Lemma sasl_call_run dn mech flags d s rc s' :
  LdapServer.ldap_sasl_interactive_bind_s lib dn mech flags d s = Some (rc, s') ->
  conf s' = conf s /\ ld s' = ld s /\ trace s' = SaslBind dn mech d rc :: trace s.
Proof.
  unfold LdapServer.ldap_sasl_interactive_bind_s. intros Hr. run_inv Hr. injection Hrun as <- <-.
  unfold call in Hr. destruct (ld s) eqn:E; [|done]. by injection Hr as <- <-.
Qed.

Lemma set_uid_run (c : bool) u s a s' :
  (if c then set_dn_with_uid u else mret tt) s = Some (a, s') ->
  a = tt /\ same_config (conf s) (conf s') /\ trace s' = trace s.
Proof. destruct c; intros [= <- <-]; done. Qed.

Lemma wpm_set_uid p (c : bool) u s a s' fr Φ :
  (if c then set_dn_with_uid u else mret tt) s = Some (a, s') ->
  is_session p s ∗ (is_session p s' -∗ Φ tt fr (trace s'))
  ⊢ wpm (if c then with_session p (set_dn_with_uid u) else mret tt) fr (trace s) Φ.
Proof.
  intros Hr. destruct (set_uid_run _ _ _ _ _ Hr) as (-> & Hc & Ht). destruct c.
  - by apply wpm_with_session.
  - injection Hr as <-. iIntros "[Hs HΦ]". iApply wpm_ret. by iApply "HΦ".
Qed.

(** One bind with defaults that are allocated for it. *)
Lemma wpm_sasl_bind p d i pw dn s rc s' fr Φ :
  LdapServer.ldap_sasl_interactive_bind_s lib dn sasl_mech LDAP_SASL_AUTOMATIC (defaults_of i pw) s = Some (rc, s') ->
  is_session p s ∗ owns_defaults d i pw ∗ (is_session p s' -∗ owns_defaults d i pw -∗ Φ rc fr (trace s'))
  ⊢ wpm (ldap_sasl_interactive_bind_s lib p dn sasl_mech LDAP_SASL_AUTOMATIC d) fr (trace s) Φ.
Proof.
  iIntros (Hr) "(Hs & Hd & HΦ)". iApply wpm_bind. iApply wpm_load_sasl. iFrame "Hd". iIntros "Hd".
  iApply (wpm_with_session _ _ _ s rc s'); [done|by destruct (sasl_call_run _ _ _ _ _ _ _ Hr) as (-> & _)|].
  iFrame "Hs". iIntros "Hs". iApply ("HΦ" with "Hs Hd").
Qed.

Lemma wpm_try p pp i pw s rc s' fr Φ :
  LdapServer.try_ldap_sasl_interactive_bind lib i pw s = Some (rc, s') ->
  is_session p s ∗ pp ↦ Secret pw ∗
  (∀ fr', <affine> ⌜clean fr -> clean fr'⌝ -∗ is_session p s' -∗ pp ↦ Secret pw -∗ Φ rc fr' (trace s'))
  ⊢ wpm (try_ldap_sasl_interactive_bind lib p i (Some pp)) fr (trace s) Φ.
Proof.
  iIntros (Hr) "(Hs & Hpp & HΦ)". unfold LdapServer.try_ldap_sasl_interactive_bind in Hr. run_inv Hr.
  rw sasl_defaults_run in Hrun. injection Hrun as <- <-. run_inv Hr. pose proof (base_run _ _ _ Hrun) as ->.
  iApply wpm_bind. iApply wpm_alloc_sasl. iFrame "Hpp". iIntros (d) "Hd Hpp".
  iApply wpm_bind. iApply (wpm_with_session _ _ _ s a s); [done|done|]. iFrame "Hs". iIntros "Hs".
  destruct (do_sasl_bind_set_userdn a (username i)) as [flag userdn]. clear Hrun.
  run_inv Hr. iApply wpm_bind. iApply wpm_sasl_bind; [done|]. iFrame "Hs Hd". iIntros "Hs Hd".
  run_inv Hr. iApply wpm_bind. iApply wpm_set_uid; [done|]. iFrame "Hs". iIntros "Hs".
  destruct ((flag =? LDAP_USERDN_TRY_UID) && negb (a0 =? LDAP_SUCCESS)).
  - run_inv Hr. rw sasl_defaults_run in Hrun1. injection Hrun1 as <- <-.
    iApply wpm_bind. iApply wpm_free_sasl. iFrame "Hd". iIntros (f1 Hf1).
    iApply wpm_bind. iApply wpm_alloc_sasl. iFrame "Hpp". iIntros (d2) "Hd Hpp".
    run_inv Hr. iApply wpm_bind. iApply wpm_sasl_bind; [done|]. iFrame "Hs Hd". iIntros "Hs Hd".
    run_inv Hr. iApply wpm_bind. iApply wpm_set_uid; [done|]. iFrame "Hs". iIntros "Hs".
    injection Hr as <- <-. iApply wpm_bind. iApply wpm_free_sasl. iFrame "Hd". iIntros (f2 Hf2).
    iApply wpm_ret. iApply ("HΦ" with "[] Hs Hpp"). iPureIntro. auto.
  - injection Hr as <- <-. iApply wpm_bind. iApply wpm_free_sasl. iFrame "Hd". iIntros (f1 Hf1).
    iApply wpm_ret. iApply ("HΦ" with "[] Hs Hpp"). done.
Qed.

(** The password of a bind that is refused is one more that is lost. *)
Definition refused (rc : Z) : bool := negb (rc =? 0) && negb (rc =? 1).

Lemma try_trace i pw s rc s' :
  LdapServer.try_ldap_sasl_interactive_bind lib i pw s = Some (rc, s') -> settled (trace s) ->
  same_config (conf s) (conf s') /\
  lost_passwords false (trace s') = (if refused rc then [pw] else []) ++ lost_passwords false (trace s) /\
  (refused rc = false -> settled (trace s')).
Proof.
  intros Hr Hs. unfold LdapServer.try_ldap_sasl_interactive_bind in Hr. run_inv Hr.
  rw sasl_defaults_run in Hrun. injection Hrun as <- <-. run_inv Hr. pose proof (base_run _ _ _ Hrun) as ->.
  destruct (do_sasl_bind_set_userdn a (username i)) as [flag userdn]. run_inv Hr. run_inv Hr.
  destruct (sasl_call_run _ _ _ _ _ _ _ Hrun0) as (C1 & _ & T1).
  destruct (set_uid_run _ _ _ _ _ Hrun1) as (_ & C2 & T2). rw C1 in C2.
  destruct ((flag =? LDAP_USERDN_TRY_UID) && negb (a0 =? LDAP_SUCCESS)).
  - run_inv Hr. rw sasl_defaults_run in Hrun2. injection Hrun2 as <- <-. run_inv Hr. run_inv Hr. injection Hr as <- <-.
    destruct (sasl_call_run _ _ _ _ _ _ _ Hrun2) as (C3 & _ & T3).
    destruct (set_uid_run _ _ _ _ _ Hrun3) as (_ & C4 & T4). rw C3 in C4.
    split; [by etrans|]. rw T4 T3 T2 T1. cbn [lost_passwords orb app defaults_of LdapServer.pwd from_option]. unfold settled, refused in *.
    cbn [lost_passwords orb app]. rw -Hs. destruct (a2 =? 0), (a2 =? 1); by split.
  - injection Hr as <- <-. split; [done|]. rw T2 T1. unfold settled, refused in *.
    cbn [lost_passwords orb app defaults_of LdapServer.pwd from_option]. rw -Hs. destruct (a0 =? 0), (a0 =? 1); by split.
Qed.
End sasl.

(** ** Functions that keep the books

    [books p s]: the session, and the copies of the passwords that its operations have lost. A function on the heap
    refines a computation of LdapServer or LdapAuth when it gives the same result and keeps that; [P] is what it
    needs of the operations before. *)
Definition books (p : positive) (s : session) : heap_prop := is_session p s ∗ secrets (lost_passwords false (trace s)).

Definition refines {A} (p : positive) (P : list event -> Prop) (x : MM A) (y : M A) : Prop :=
  forall s a s' fr Φ, y s = Some (a, s') -> P (trace s) ->
    books p s ∗ (∀ fr', <affine> ⌜clean fr -> clean fr'⌝ -∗ books p s' -∗ Φ a fr' (trace s')) ⊢ wpm x fr (trace s) Φ.

Definition anyhow (tr : list event) : Prop := True.

Lemma refines_weaken {A} p (P Q : list event -> Prop) (x : MM A) y :
  refines p P x y -> (forall tr, Q tr -> P tr) -> refines p Q x y.
Proof. intros Hx HI s a s' fr Φ Hy HQ. by apply Hx; [|apply HI]. Qed.

Lemma refines_plain {A} p P (y : M A) `{!Tame y} : refines p P (with_session p y) y.
Proof.
  iIntros (s a s' fr Φ Hy _) "[[Hs Hl] HΦ]". destruct (tame _ _ _ Hy) as [Hc _].
  iApply wpm_with_session; [done|done|]. iFrame "Hs". iIntros "Hs". iApply "HΦ"; [done|]. iFrame "Hs".
  by rw (lost_plain y _ _ _ Hy).
Qed.

Lemma refines_ret {A} p P (a : A) : refines p P (mret a) (mret a).
Proof. iIntros (s a' s' fr Φ [= <- <-] _) "[Ho HΦ]". iApply wpm_ret. by iApply "HΦ". Qed.

Lemma refines_bind {A B} p P (Q : A -> list event -> Prop) (x : MM A) (y : M A) (f : A -> MM B) (g : A -> M B) :
  refines p P x y -> (forall s a s', y s = Some (a, s') -> P (trace s) -> Q a (trace s')) ->
  (forall a, refines p (Q a) (f a) (g a)) -> refines p P (x ≫= f) (y ≫= g).
Proof.
  iIntros (Hx HQ Hf s b s'' fr Φ Hy HP) "[Ho HΦ]". run_inv Hy.
  iApply wpm_bind. iApply Hx; [done|done|]. iFrame "Ho". iIntros (f1 H1) "Ho".
  iApply Hf; [done|by eapply HQ|]. iFrame "Ho". iIntros (f2 H2) "Ho". iApply ("HΦ" with "[] Ho"). iPureIntro. auto.
Qed.

(** The second computation needs nothing. *)
Lemma refines_then {A B} p P (x : MM A) (y : M A) (f : A -> MM B) (g : A -> M B) :
  refines p P x y -> (forall a, refines p anyhow (f a) (g a)) -> refines p P (x ≫= f) (y ≫= g).
Proof. intros Hx Hf. by eapply refines_bind with (Q := fun _ => anyhow). Qed.

Lemma refines_stuck {A} p P (x : MM A) (y : M A) : (forall s, y s = None) -> refines p P x y.
Proof. intros Hn s a s' fr Φ Hy. by rw Hn in Hy. Qed.

Lemma settled_plain {A} (x : M A) `{!Tame x} s a s' : x s = Some (a, s') -> settled (trace s) -> settled (trace s').
Proof. intros Hx Hs. destruct (tame _ _ _ Hx) as (_ & new & -> & Hn). by apply settled_app. Qed.

Section authentication.
Context `{LdapCodes} (lib : openldap_lib) (laws : well_behaved lib) (p : positive).

Lemma set_sasl_config_run i s r s' :
  LdapServer.set_sasl_config lib i s = Some (r, s') ->
  s' = s /\ r = if l_sasl_set_path lib (trace s) (lit "/usr/lib") =? 0 then (LDAP_AUTH_SUCCESS, password i) else (LDAP_AUTH_ERROR, []).
Proof.
  unfold LdapServer.set_sasl_config. intros Hr. run_inv Hr. injection Hrun as <- <-. injection Hr as <- <-. split; [done|].
  rw (memory_law _ laws). by destruct (_ =? 0).
Qed.

(** A refused bind loses the copy of the password; the operations say so. *)
Lemma do_sasl_bind_refines i : refines p settled (do_sasl_bind lib p i) (LdapServer.do_sasl_bind lib i).
Proof.
  iIntros (s ret s' fr Φ Hr Hset) "[[Hs Hl] HΦ]". unfold LdapServer.do_sasl_bind in Hr. run_inv Hr.
  destruct (tame _ _ _ Hrun) as [Hc _]. pose proof (lost_plain _ _ _ _ Hrun) as El. pose proof (settled_plain _ _ _ _ Hrun Hset) as Hset1.
  iApply wpm_bind. iApply wpm_with_session; [done|done|]. iFrame "Hs". iIntros "Hs". rw -El.
  destruct (negb (a =? LDAP_AUTH_SUCCESS)).
  { injection Hr as <- <-. iApply wpm_ret. iApply "HΦ"; [done|]. iFrame. }
  run_inv Hr. destruct (set_sasl_config_run _ _ _ _ Hrun0) as [-> ->]. clear Hrun0.
  iApply wpm_bind. iApply wpm_bind. iApply (wpm_env _ _ fr _ (trace s0)); [done|].
  destruct (l_sasl_set_path lib (trace s0) (lit "/usr/lib") =? 0); cbn [negb].
  2: { injection Hr as <- <-. do 2 iApply wpm_ret. iApply "HΦ"; [done|]. iFrame. }
  iApply wpm_bind. iApply (wpm_strdup_secret _ laws). iIntros (pp) "Hpp". iApply wpm_ret.
  change (negb (LDAP_AUTH_SUCCESS =? LDAP_AUTH_SUCCESS)) with false. cbv beta iota in Hr |- *. run_inv Hr. injection Hr as <- <-.
  destruct (try_trace _ laws _ _ _ _ _ Hrun0 Hset1) as (_ & Et & _).
  iApply wpm_bind. iApply (wpm_try _ laws); [done|]. iFrame "Hs Hpp". iIntros (f1 Hf1) "Hs Hpp".
  unfold refused, LDAP_SUCCESS in *. destruct (negb (a0 =? 0) && negb (a0 =? 1)) eqn:Eb.
  - iApply wpm_ret. iApply "HΦ"; [done|]. iFrame "Hs". rw Et. iFrame "Hl". iApply big_sepL_singleton. by iExists pp.
  - iApply wpm_bind. iApply wpm_wipe_free. iFrame "Hpp". iIntros (f2 Hf2). iApply wpm_ret. iApply ("HΦ" with "[]").
    { iPureIntro. auto. }
    iFrame "Hs". by rw Et.
Qed.

Lemma do_sasl_bind_settled i s ret s' :
  LdapServer.do_sasl_bind lib i s = Some (ret, s') -> settled (trace s) -> ret = LDAP_AUTH_SUCCESS -> settled (trace s').
Proof.
  unfold LdapServer.do_sasl_bind. intros Hr Hs ->. run_inv Hr. pose proof (settled_plain _ _ _ _ Hrun Hs) as Hs1.
  destruct (negb (a =? LDAP_AUTH_SUCCESS)); [by injection Hr as _ <-|].
  run_inv Hr. destruct (set_sasl_config_run _ _ _ _ Hrun0) as [-> ->]. destruct (_ =? 0); [|done].
  change (negb (LDAP_AUTH_SUCCESS =? LDAP_AUTH_SUCCESS)) with false in Hr. cbv beta iota in Hr. run_inv Hr. injection Hr as Hc <-.
  destruct (try_trace _ laws _ _ _ _ _ Hrun1 Hs1) as (_ & _ & Hset). apply Hset. unfold refused, LDAP_SUCCESS in *.
  match goal with |- context [?x =? 0] => by destruct (x =? 0), (x =? 1) end.
Qed.

(** A direct bind that succeeds has asked the server. *)
Lemma do_direct_bind_settled name i s ret s' :
  do_direct_bind lib name i s = Some (ret, s') -> ret = LDAP_AUTH_SUCCESS -> settled (trace s').
Proof.
  unfold do_direct_bind. intros Hr ->. run_inv Hr.
  destruct (a =? LDAP_AUTH_SUCCESS) eqn:E; cbn [negb] in Hr; [|injection Hr as -> ->; by rw Z.eqb_refl in E].
  run_inv Hr. destruct (add_prefix_userdn _ _ _ _) as [flag userdn]. run_inv Hr.
  assert (Hset : settled (trace s2)).
  { unfold do_ldap_simple_bind in Hrun1. change (Z.of_nat LDAP_USERDN_MAX_LEN =? 0) with false in Hrun1.
    cbv beta iota in Hrun1. run_inv Hrun1. injection Hrun1 as <- <-.
    unfold simple_bind in Hrun2. run_inv Hrun2. injection Hrun1 as <- <-. unfold call in Hrun2.
    destruct (ld s1); [|done]. by injection Hrun2 as <- <-. }
  run_inv Hr. run_inv Hr. injection Hr as -> ->. eapply settled_plain in Hrun2; [|apply _|done].
  by eapply settled_plain in Hrun3; [|apply _|].
Qed.
End authentication.
