(* ===== verification/SearchMemory.v ===== *)
(** * The searches of an LDAP login in memory

    What the directory answers, the values of its entries, the hash tables and the names in them are all given back,
    on every path: the functions of SearchBlocks refine their counterparts of LdapGroups and LdapAuth and own nothing
    more at their end than at their beginning. GLib is the class of its laws, with an implementation by lists. *)
From S2P Require Export SessionMemory.
From S2P Require Export SearchBlocks.
Open Scope Z_scope.

(** From the blocks freed before to those freed after: still no password among them. *)
Notation cleanly fr fr' := (<affine> ⌜clean fr -> clean fr'⌝)%I.

(** ** GLib *)

Class GLibLaws `{GLib} := {
  is_names : positive -> visited -> heap_prop;
  is_pointers : positive -> gset nat -> heap_prop;
  wpm_names_new fr (e : list event) Φ : (∀ t, is_names t ∅ -∗ Φ t fr e) ⊢ wpm names_new fr e Φ;
  wpm_names_size t h fr (e : list event) Φ :
    is_names t h ∗ (is_names t h -∗ Φ (size h) fr e) ⊢ wpm (names_size t) fr e Φ;
  wpm_names_contains t h s fr (e : list event) Φ :
    is_names t h ∗ (is_names t h -∗ Φ (bool_decide (s ∈ h)) fr e) ⊢ wpm (names_contains t s) fr e Φ;
  wpm_names_insert t h k s fr (e : list event) Φ :
    is_names t h ∗ k ↦ Text s ∗ (∀ fr', cleanly fr fr' -∗ is_names t ({[ s ]} ∪ h) -∗ Φ tt fr' e)
    ⊢ wpm (names_insert t k) fr e Φ;
  wpm_names_destroy t h fr (e : list event) Φ :
    is_names t h ∗ (∀ fr', cleanly fr fr' -∗ Φ tt fr' e) ⊢ wpm (names_destroy t) fr e Φ;
  wpm_pointers_new fr (e : list event) Φ : (∀ t, is_pointers t ∅ -∗ Φ t fr e) ⊢ wpm pointers_new fr e Φ;
  wpm_pointers_size t h fr (e : list event) Φ :
    is_pointers t h ∗ (is_pointers t h -∗ Φ (size h) fr e) ⊢ wpm (pointers_size t) fr e Φ;
  wpm_pointers_contains t h k fr (e : list event) Φ :
    is_pointers t h ∗ (is_pointers t h -∗ Φ (bool_decide (k ∈ h)) fr e) ⊢ wpm (pointers_contains t k) fr e Φ;
  wpm_pointers_insert t h k fr (e : list event) Φ :
    is_pointers t h ∗ (is_pointers t ({[ k ]} ∪ h) -∗ Φ tt fr e) ⊢ wpm (pointers_insert t k) fr e Φ;
  wpm_pointers_destroy t h fr (e : list event) Φ :
    is_pointers t h ∗ (∀ fr', cleanly fr fr' -∗ Φ tt fr' e) ⊢ wpm (pointers_destroy t) fr e Φ
}.

(** ** Results *)

Definition is_result (res : option positive) (ms : list message) : heap_prop :=
  match res with None => <affine> ⌜ms = []⌝ | Some p => p ↦ Result ms end.
Definition opt_values (v : option positive) (vals : option (list (list ascii))) : heap_prop :=
  match v, vals with
  | Some v, Some vals => v ↦ Values vals
  | None, None => emp
  | _, _ => False
  end.

Lemma entry_from_lookup k ms j e : entry_from k ms = Some (j, e) -> (k <= j)%nat /\ ms !! (j - k)%nat = Some (Some e).
Proof.
  revert k. induction ms as [|[e'|] ms IH]; intros k; cbn [entry_from]; [done| |].
  - intros [= <- <-]. split; [done|]. by rw Nat.sub_diag.
  - intros [Hj Hm]%IH. split; [lia|]. replace (j - k)%nat with (S (j - S k)) by lia. done.
Qed.

Section results.
Context `{LdapCodes} (lib : openldap_lib) (fr : list cell).

Section reading.
Context (e : list event).

Lemma wpm_load_result res ms Φ : is_result res ms ∗ (is_result res ms -∗ Φ ms fr e) ⊢ wpm (load_result res) fr e Φ.
Proof.
  iIntros "[Hr HΦ]". destruct res as [p|]; cbn [is_result load_result].
  - iApply wpm_bind. iApply wpm_load. iFrame "Hr". iIntros "Hr". iApply wpm_ret. by iApply "HΦ".
  - iDestruct "Hr" as %->. iApply wpm_ret. by iApply "HΦ".
Qed.

Lemma wpm_msgfree res ms Φ : is_result res ms ∗ (∀ fr', cleanly fr fr' -∗ Φ tt fr' e) ⊢ wpm (ldap_msgfree res) fr e Φ.
Proof.
  iIntros "[Hr HΦ]". iApply wpm_bind. iApply wpm_load_result. iFrame "Hr". iIntros "Hr".
  destruct res as [p|]; cbn [is_result free_pointer].
  - iApply wpm_free. iFrame "Hr". iApply "HΦ". iPureIntro. by apply clean_cons.
  - iDestruct "Hr" as "_". iApply wpm_ret. by iApply "HΦ".
Qed.

Lemma wpm_first_entry res ms Φ :
  is_result res ms ∗ (is_result res ms -∗ Φ (fst <$> LdapGroups.ldap_first_entry ms) fr e) ⊢ wpm (ldap_first_entry res) fr e Φ.
Proof.
  iIntros "[Hr HΦ]". iApply wpm_bind. iApply wpm_load_result. iFrame "Hr". iIntros "Hr". iApply wpm_ret. by iApply "HΦ".
Qed.

Lemma wpm_next_entry res ms k Φ :
  is_result res ms ∗ (is_result res ms -∗ Φ (fst <$> LdapGroups.ldap_next_entry ms k) fr e) ⊢ wpm (ldap_next_entry res k) fr e Φ.
Proof.
  iIntros "[Hr HΦ]". iApply wpm_bind. iApply wpm_load_result. iFrame "Hr". iIntros "Hr". iApply wpm_ret. by iApply "HΦ".
Qed.

Lemma wpm_get_values res ms k en attr Φ :
  ms !! k = Some (Some en) ->
  is_result res ms ∗ (∀ v, is_result res ms -∗ opt_values v (en attr) -∗ Φ v fr e) ⊢ wpm (ldap_get_values res k attr) fr e Φ.
Proof.
  iIntros (Hk) "[Hr HΦ]". iApply wpm_bind. iApply wpm_load_result. iFrame "Hr". iIntros "Hr". rw Hk.
  destruct (en attr) as [vals|].
  - iApply wpm_bind. iApply wpm_malloc. iIntros (v) "Hv". iApply wpm_ret. iApply ("HΦ" $! (Some v) with "Hr Hv").
  - iApply wpm_ret. by iApply ("HΦ" $! None with "Hr").
Qed.

Lemma wpm_string_values res ms k en attr Φ :
  ms !! k = Some (Some en) ->
  is_result res ms ∗
  (∀ v, is_result res ms -∗ opt_values v (en attr) -∗
        Φ (match en attr with None => LDAP_AUTH_UNAVAIL | Some _ => LDAP_AUTH_SUCCESS end, v) fr e)
  ⊢ wpm (get_string_values res k attr) fr e Φ.
Proof.
  iIntros (Hk) "[Hr HΦ]". iApply wpm_bind. iApply wpm_get_values; [done|]. iFrame "Hr". iIntros (v) "Hr Hv".
  iApply wpm_ret. iAssert (⌜is_Some v <-> is_Some (en attr)⌝)%I as %Hv.
  { destruct v, (en attr); cbn [opt_values]; try iDestruct "Hv" as "[]"; iPureIntro; split; by intros []. }
  iSpecialize ("HΦ" with "Hr Hv"). destruct v, (en attr); [done| | |done]; exfalso.
  - by destruct (proj1 Hv (ex_intro _ _ eq_refl)).
  - by destruct (proj2 Hv (ex_intro _ _ eq_refl)).
Qed.

Lemma wpm_load_values v vals Φ : v ↦ Values vals ∗ (v ↦ Values vals -∗ Φ vals fr e) ⊢ wpm (load_values v) fr e Φ.
Proof.
  iIntros "[Hv HΦ]". iApply wpm_bind. iApply wpm_load. iFrame "Hv". iIntros "Hv". iApply wpm_ret. by iApply "HΦ".
Qed.

Lemma wpm_count_values v vals Φ :
  v ↦ Values vals ∗ (v ↦ Values vals -∗ Φ (length vals) fr e) ⊢ wpm (ldap_count_values v) fr e Φ.
Proof.
  iIntros "[Hv HΦ]". iApply wpm_bind. iApply wpm_load_values. iFrame "Hv". iIntros "Hv". iApply wpm_ret. by iApply "HΦ".
Qed.

Lemma wpm_value_at v vals i Φ :
  (i <= length vals)%nat -> v ↦ Values vals ∗ (v ↦ Values vals -∗ Φ (vals !! i) fr e) ⊢ wpm (value_at v i) fr e Φ.
Proof.
  iIntros (Hi) "[Hv HΦ]". iApply wpm_bind. iApply wpm_load_values. iFrame "Hv". iIntros "Hv".
  apply Nat.leb_le in Hi. rw Hi. iApply wpm_ret. by iApply "HΦ".
Qed.

Lemma wpm_value_free v vals Φ :
  v ↦ Values vals ∗ (∀ fr', cleanly fr fr' -∗ Φ tt fr' e) ⊢ wpm (ldap_value_free v) fr e Φ.
Proof.
  iIntros "[Hv HΦ]". iApply wpm_bind. iApply wpm_load_values. iFrame "Hv". iIntros "Hv".
  iApply wpm_free. iFrame "Hv". iApply "HΦ". iPureIntro. by apply clean_cons.
Qed.

Lemma wpm_user_among v vals userdn i Φ :
  (i <= length vals)%nat ->
  v ↦ Values vals ∗
  (v ↦ Values vals -∗
   Φ (existsb (fun m => compare_ldap_sentence_without_tag (Some m) (Some userdn) =? RET_OK) (drop i vals)) fr e)
  ⊢ wpm (user_among (S (length vals - i)) v i userdn) fr e Φ.
Proof.
  remember (length vals - i)%nat as n eqn:En. revert i En. induction n as [|n IH]; iIntros (i En Hi) "[Hv HΦ]";
    cbn [user_among]; iApply wpm_bind; (iApply wpm_value_at; [done|]); iFrame "Hv"; iIntros "Hv".
  - assert (i = length vals) as -> by lia. rw lookup_ge_None_2 // drop_all. iApply wpm_ret. by iApply "HΦ".
  - destruct (lookup_lt_is_Some_2 vals i ltac:(lia)) as [m Hm]. rw Hm (drop_S _ _ _ Hm). cbn [existsb].
    destruct (compare_ldap_sentence_without_tag (Some m) (Some userdn) =? RET_OK).
    + iApply wpm_ret. by iApply "HΦ".
    + iApply IH; [lia|lia|]. iFrame.
Qed.
End reading.

Lemma wpm_search p dn sc f attr s ret ms s' Φ :
  LdapServer.ldap_search_ext_s lib dn sc f attr s = Some ((ret, ms), s') ->
  is_session p s ∗ (∀ res, is_session p s' -∗ is_result res ms -∗ Φ (ret, res) fr (trace s'))
  ⊢ wpm (ldap_search_ext_s lib p dn sc f attr) fr (trace s) Φ.
Proof.
  iIntros (Hr) "[Hs HΦ]". destruct (tame _ _ _ Hr) as [Hc _]. iApply wpm_bind. iApply wpm_with_session; [done|done|].
  iFrame "Hs". iIntros "Hs". destruct ms as [|m ms].
  - iApply wpm_ret. by iApply ("HΦ" $! None with "Hs").
  - iApply wpm_bind. iApply wpm_malloc. iIntros (q) "Hq". iApply wpm_ret. by iApply ("HΦ" $! (Some q) with "Hs").
Qed.

(** Reading the configuration changes nothing. *)
Lemma wpm_gets {A} p (f : session -> A) s Φ :
  is_session p s ∗ (is_session p s -∗ Φ (f s) fr (trace s)) ⊢ wpm (with_session p (gets f)) fr (trace s) Φ.
Proof. by apply wpm_with_session. Qed.
End results.

(** ** Searches that fill a table of names *)

Section groups.
Context `{LdapCodes} `{GLib} `{!GLibLaws} (lib : openldap_lib) (p : positive).

Lemma wpm_check_hash t h name level fr (e : list event) Φ :
  is_names t h ∗ (is_names t h -∗ Φ (LdapGroups.do_search_user_group_check_hash h name level) fr e)
  ⊢ wpm (do_search_user_group_check_hash t name level) fr e Φ.
Proof.
  iIntros "[Ht HΦ]". iApply wpm_bind. iApply wpm_names_size. iFrame "Ht". iIntros "Ht".
  unfold LdapGroups.do_search_user_group_check_hash. destruct (MAX_LDAP_GRP_HASH_SIZE <=? size h)%nat.
  - iApply wpm_ret. by iApply "HΦ".
  - iApply wpm_bind. iApply wpm_names_contains. iFrame "Ht". iIntros "Ht". destruct (bool_decide (name ∈ h)).
    + iApply wpm_ret. by iApply "HΦ".
    + destruct (MAX_TREE_DEPTH <? level); iApply wpm_ret; by iApply "HΦ".
Qed.

Lemma wpm_remember t h name fr (e : list event) Φ :
  is_names t h ∗ (∀ fr', cleanly fr fr' -∗ is_names t ({[ name ]} ∪ h) -∗ Φ tt fr' e) ⊢ wpm (remember t name) fr e Φ.
Proof.
  iIntros "[Ht HΦ]". iApply wpm_bind. iApply wpm_malloc. iIntros (k) "Hk". iApply wpm_names_insert. iFrame.
Qed.

(** A computation on the heap that does what another does on a set of names, with the names in the table [t]. *)
Definition on_table {A} (t : positive) (x : MM A) (y : visited -> M (A * visited)) : Prop :=
  forall h s a h' s' fr Φ, y h s = Some ((a, h'), s') ->
    is_session p s ∗ is_names t h ∗
    (∀ fr', cleanly fr fr' -∗ is_session p s' -∗ is_names t h' -∗ Φ a fr' (trace s')) ⊢ wpm x fr (trace s) Φ.

Lemma wpm_search_members t x y v vals i h s ret h' s' fr Φ :
  (forall m, on_table t (x m) (y m)) -> (i <= length vals)%nat ->
  LdapGroups.search_members y (drop i vals) h s = Some ((ret, h'), s') ->
  is_session p s ∗ is_names t h ∗ v ↦ Values vals ∗
  (∀ fr', cleanly fr fr' -∗ is_session p s' -∗ is_names t h' -∗ v ↦ Values vals -∗ Φ ret fr' (trace s'))
  ⊢ wpm (search_members (S (length vals - i)) x v i) fr (trace s) Φ.
Proof.
  intros Hx. remember (length vals - i)%nat as n eqn:En. revert i En h s fr. induction n as [|n IH];
    iIntros (i En h s fr Hi Hr) "(Hs & Ht & Hv & HΦ)"; cbn [search_members]; iApply wpm_bind;
    (iApply wpm_value_at; [done|]); iFrame "Hv"; iIntros "Hv".
  - assert (i = length vals) as -> by lia. rw drop_all in Hr. injection Hr as <- <- <-. rw lookup_ge_None_2 //.
    iApply wpm_ret. by iApply ("HΦ" with "[] Hs Ht Hv").
  - destruct (lookup_lt_is_Some_2 vals i ltac:(lia)) as [m Hm]. rw (drop_S _ _ _ Hm) in Hr. rw Hm. cbn [LdapGroups.search_members] in Hr.
    run_inv Hr. destruct a as [ret1 h1]. iApply wpm_bind. iApply Hx; [done|]. iFrame "Hs Ht". iIntros (f1 Hf1) "Hs Ht".
    destruct (ret1 =? LDAP_AUTH_SUCCESS).
    + injection Hr as <- <- <-. iApply wpm_ret. by iApply ("HΦ" with "[] Hs Ht Hv").
    + iApply IH; [lia|lia|exact Hr|]. iFrame "Hs Ht Hv". iIntros (f2 Hf2) "Hs Ht Hv".
      iApply ("HΦ" with "[] Hs Ht Hv"). iPureIntro. auto.
Qed.

Lemma user_group_on_table t fuel name group_name filter level :
  on_table t (do_search_user_group lib p fuel name group_name filter level t)
    (fun h => LdapGroups.do_search_user_group lib fuel name group_name filter level h).
Proof.
  revert group_name level. induction fuel as [|fuel IH]; iIntros (group_name level h s ret h' s' fr Φ Hr) "(Hs & Ht & HΦ)"; [done|].
  cbn [LdapGroups.do_search_user_group do_search_user_group] in *.
  iApply wpm_bind. iApply wpm_check_hash. iFrame "Ht". iIntros "Ht". destruct (negb (_ =? RET_OK)).
  { injection Hr as <- <- <-. iApply wpm_ret. by iApply ("HΦ" with "[] Hs Ht"). }
  iApply wpm_bind. iApply wpm_remember. iFrame "Ht". iIntros (f1 Hf1) "Ht".
  run_inv Hr. pose proof (base_run _ _ _ Hrun) as ->. run_inv Hr. injection Hrun0 as <- <-.
  iApply wpm_bind. iApply (wpm_with_session _ _ _ s a s); [done|done|]. iFrame "Hs". iIntros "Hs".
  iApply wpm_bind. iApply wpm_gets. iFrame "Hs". iIntros "Hs". cbn zeta.
  run_inv Hr. destruct a0 as [ret1 ms]. iApply wpm_bind. iApply wpm_search; [exact Hrun0|]. iFrame "Hs". iIntros (res) "Hs Hres".
  destruct (negb (search_answered ret1)).
  { injection Hr as <- <- <-. iApply wpm_bind. iApply wpm_msgfree. iFrame "Hres". iIntros (f2 Hf2). iApply wpm_ret.
    iApply ("HΦ" with "[] Hs Ht"). iPureIntro. auto. }
  iApply wpm_bind. iApply wpm_first_entry. iFrame "Hres". iIntros "Hres".
  destruct (LdapGroups.ldap_first_entry ms) as [[k en]|] eqn:Ek; cbn [fmap option_fmap option_map fst].
  2: { injection Hr as <- <- <-. iApply wpm_bind. iApply wpm_msgfree. iFrame "Hres". iIntros (f2 Hf2). iApply wpm_ret.
       iApply ("HΦ" with "[] Hs Ht"). iPureIntro. auto. }
  apply entry_from_lookup in Ek as [_ Ek]. rw Nat.sub_0_r in Ek.
  iApply wpm_bind. iApply wpm_string_values; [exact Ek|]. iFrame "Hres". iIntros (v) "Hres Hv".
  destruct (en LDAP_MEMBER) as [member|], v as [v|]; cbn [opt_values]; try iDestruct "Hv" as "[]".
  2: { injection Hr as <- <- <-. iApply wpm_bind. iApply wpm_msgfree. iFrame "Hres". iIntros (f2 Hf2). iApply wpm_ret.
       iApply ("HΦ" with "[] Hs Ht"). iPureIntro. auto. }
  iApply wpm_bind. iApply wpm_count_values. iFrame "Hv". iIntros "Hv".
  iApply wpm_bind. iEval (rw -{1}(Nat.sub_0_r (length member))). iApply wpm_user_among; [lia|]. iFrame "Hv". iIntros "Hv".
  rw drop_0. destruct (existsb _ member).
  { injection Hr as <- <- <-. iApply wpm_bind. iApply wpm_ret. iApply wpm_bind. iApply wpm_value_free. iFrame "Hv".
    iIntros (f2 Hf2). iApply wpm_bind. iApply wpm_msgfree. iFrame "Hres". iIntros (f3 Hf3). iApply wpm_ret.
    iApply ("HΦ" with "[] Hs Ht"). iPureIntro. auto. }
  iApply wpm_bind. iEval (rw -{1}(Nat.sub_0_r (length member))).
  iApply wpm_search_members; [intros m; apply (IH m (level + 1))|lia|rw drop_0; exact Hr|]. iFrame "Hs Ht Hv".
  iIntros (f2 Hf2) "Hs Ht Hv". iApply wpm_bind. iApply wpm_value_free. iFrame "Hv".
  iIntros (f3 Hf3). iApply wpm_bind. iApply wpm_msgfree. iFrame "Hres". iIntros (f4 Hf4). iApply wpm_ret.
  iApply ("HΦ" with "[] Hs Ht"). iPureIntro. auto 6.
Qed.

Lemma wpm_username_loop js t f name filter th fh g flag s g' flag' s' fr Φ :
  LdapGroups.username_loop lib js name filter th fh g flag s = Some ((g', flag'), s') ->
  is_session p s ∗ is_names t th ∗ is_names f fh ∗
  (∀ fr' th' fh', cleanly fr fr' -∗ is_session p s' -∗ is_names t th' -∗ is_names f fh' -∗ Φ (g', flag') fr' (trace s'))
  ⊢ wpm (username_loop lib p js name filter t f g flag) fr (trace s) Φ.
Proof.
  revert th fh g flag s fr. induction js as [|j js IH]; iIntros (th fh g flag s fr Hr) "(Hs & Ht & Hf & HΦ)";
    cbn [LdapGroups.username_loop username_loop] in *.
  { injection Hr as <- <- <-. iApply wpm_ret. by iApply ("HΦ" with "[] Hs Ht Hf"). }
  run_inv Hr. injection Hrun as <- <-. iApply wpm_bind. iApply wpm_gets. iFrame "Hs". iIntros "Hs".
  destruct (groupdn (conf s) !! j) as [[dn|]|]; [|iApply IH; [exact Hr|]; iFrame..].
  iApply wpm_bind. iApply wpm_malloc. iIntros (k) "Hk".
  iApply wpm_bind. iApply wpm_names_contains. iFrame "Ht". iIntros "Ht". iApply wpm_bind.
  iAssert (∀ b, <affine> ⌜b = bool_decide (dn ∈ th) && bool_decide (dn ∈ fh)⌝ -∗ is_names f fh -∗
    wpm (if (b : bool) then
            _ ← free k;
            username_loop lib p js name filter t f (<[j := Z.of_nat j]> g) flag
          else
            ret ← do_search_user_group lib p search_fuel name dn filter 0 t;
            if ret =? LDAP_AUTH_SUCCESS then
              _ ← names_insert f k;
              username_loop lib p js name filter t f (<[j := Z.of_nat j]> g) 1
            else
              _ ← free k;
              username_loop lib p js name filter t f g flag) fr (trace s) Φ)%I with "[Hs Ht Hk HΦ]" as "Hrest".
  - iIntros (b ->) "Hf". destruct (_ && _).
    { iApply wpm_bind. iApply wpm_free. iFrame "Hk". iApply IH; [exact Hr|]. iFrame "Hs Ht Hf".
      iIntros (f1 th' fh' Hf1) "Hs Ht Hf". iApply ("HΦ" with "[] Hs Ht Hf"). iPureIntro. intros Hc. by apply Hf1, clean_cons. }
    run_inv Hr. destruct a as [ret h1]. iApply wpm_bind. iApply user_group_on_table; [exact Hrun|]. iFrame "Hs Ht".
    iIntros (f1 Hf1) "Hs Ht". destruct (ret =? LDAP_AUTH_SUCCESS).
    + iApply wpm_bind. iApply wpm_names_insert. iFrame "Hf Hk". iIntros (f2 Hf2) "Hf". iApply IH; [exact Hr|]. iFrame "Hs Ht Hf".
      iIntros (f3 th' fh' Hf3) "Hs Ht Hf". iApply ("HΦ" with "[] Hs Ht Hf"). iPureIntro. auto.
    + iApply wpm_bind. iApply wpm_free. iFrame "Hk". iApply IH; [exact Hr|]. iFrame "Hs Ht Hf".
      iIntros (f3 th' fh' Hf3) "Hs Ht Hf". iApply ("HΦ" with "[] Hs Ht Hf"). iPureIntro. intros Hc. by apply Hf3, clean_cons, Hf1.
  - destruct (bool_decide (dn ∈ th)); cbn [andb].
    + iApply wpm_names_contains. iFrame "Hf". iIntros "Hf". iApply ("Hrest" $! (bool_decide (dn ∈ fh)) with "[//] Hf").
    + iApply wpm_ret. iApply ("Hrest" $! false with "[//] Hf").
Qed.

(** The same result and the session, and nothing else. *)
Lemma refines_alone {A} P (x : MM A) (y : M A) `{!Tame y} :
  (forall s a s' fr Φ, y s = Some (a, s') ->
     is_session p s ∗ (∀ fr', cleanly fr fr' -∗ is_session p s' -∗ Φ a fr' (trace s')) ⊢ wpm x fr (trace s) Φ) ->
  refines p P x y.
Proof.
  iIntros (Hx s a s' fr Φ Hy _) "[[Hs Hl] HΦ]". iApply Hx; [exact Hy|]. iFrame "Hs". iIntros (f1 Hf1) "Hs".
  iApply ("HΦ" with "[//]"). iFrame "Hs". by rw (lost_plain y _ _ _ Hy).
Qed.

Lemma search_by_username_refines P name g :
  refines p P (do_search_by_username lib p name g) (LdapGroups.do_search_by_username lib name g).
Proof.
  apply refines_alone; [unfold LdapGroups.do_search_by_username; apply _|].
  iIntros (s a s' fr Φ Hr) "[Hs HΦ]". unfold LdapGroups.do_search_by_username in Hr. run_inv Hr. destruct a0 as [g' flag].
  injection Hr as <- <-. iApply wpm_bind. iApply wpm_bind. iApply wpm_names_new. iIntros (t) "Ht". iApply wpm_bind.
  iApply wpm_names_new. iIntros (f) "Hf". iApply wpm_ret. iApply wpm_bind. iApply wpm_username_loop; [exact Hrun|]. iFrame "Hs Ht Hf". iIntros (f1 th fh Hf1) "Hs Ht Hf".
  iApply wpm_bind. iApply wpm_names_destroy. iFrame "Ht". iIntros (f2 Hf2).
  iApply wpm_bind. iApply wpm_names_destroy. iFrame "Hf". iIntros (f3 Hf3). iApply wpm_ret. iApply ("HΦ" with "[] Hs").
  iPureIntro. auto.
Qed.

(** *** Owners *)

Lemma counted_lookup vals :
  Forall2 (fun i o => vals !! i = Some o) (seq 0 (Z.to_nat (s16 (Z.of_nat (length vals))))) (counted vals).
Proof.
  unfold counted. set (n := Z.to_nat (s16 _)).
  assert (Hn : (n <= length vals)%nat).
  { subst n. unfold s16. pose proof (Z.mod_le (Z.of_nat (length vals) + 2 ^ 15) (2 ^ 16) ltac:(lia) ltac:(lia)).
    lia. }
  clearbody n. apply Forall2_same_length_lookup_2; [by rw length_seq length_take_le|].
  intros i j o [-> Hi]%lookup_seq Ho. by rw lookup_take_lt in Ho.
Qed.

Section owners.
Context (t : positive) (x : list ascii -> list Z -> MM (Z * list Z)).
Context (y : list ascii -> list Z -> visited -> M (Z * list Z * visited)).
Context (Hx : forall o g, on_table t (x o g) (y o g)).

Lemma wpm_search_owners js os vals v g h r s r' g' h' s' fr Φ :
  Forall2 (fun i o => vals !! i = Some o) js os ->
  LdapGroups.search_owners y os g h r s = Some ((r', g', h'), s') ->
  is_session p s ∗ is_names t h ∗ v ↦ Values vals ∗
  (∀ fr', cleanly fr fr' -∗ is_session p s' -∗ is_names t h' -∗ v ↦ Values vals -∗ Φ (r', g') fr' (trace s'))
  ⊢ wpm (search_owners x v js g r) fr (trace s) Φ.
Proof.
  intros Hjs. revert g h r s fr. induction Hjs as [|i o js os Hi Hjs IH]; iIntros (g h r s fr Hr) "(Hs & Ht & Hv & HΦ)";
    cbn [LdapGroups.search_owners search_owners] in *.
  { injection Hr as <- <- <- <-. iApply wpm_ret. by iApply ("HΦ" with "[] Hs Ht Hv"). }
  iApply wpm_bind. iApply (wpm_value_at _ _ v vals); [by apply lookup_lt_Some in Hi; lia|]. iFrame "Hv". iIntros "Hv". rw Hi.
  run_inv Hr. destruct a as [[ret g1] h1]. iApply wpm_bind. iApply Hx; [exact Hrun|]. iFrame "Hs Ht". iIntros (f1 Hf1) "Hs Ht".
  iApply IH; [exact Hr|]. iFrame "Hs Ht Hv". iIntros (f2 Hf2) "Hs Ht Hv". iApply ("HΦ" with "[] Hs Ht Hv"). iPureIntro. auto.
Qed.

(** The owners of one entry. *)
Lemma wpm_entry_owners res ms k en g h r s r' g' h' s' fr Φ :
  ms !! k = Some (Some en) ->
  (match en LDAP_MEMBEROF with
   | None => mret (r, g, h)
   | Some vals => LdapGroups.search_owners y (counted vals) g h r
   end : M (Z * list Z * visited)) s = Some ((r', g', h'), s') ->
  is_session p s ∗ is_names t h ∗ is_result res ms ∗
  (∀ fr', cleanly fr fr' -∗ is_session p s' -∗ is_names t h' -∗ is_result res ms -∗ Φ (r', g') fr' (trace s'))
  ⊢ wpm (entry_owners x res k g r) fr (trace s) Φ.
Proof.
  iIntros (Hk Hr) "(Hs & Ht & Hres & HΦ)". iApply wpm_bind. iApply wpm_get_values; [exact Hk|]. iFrame "Hres".
  iIntros (v) "Hres Hv". destruct (en LDAP_MEMBEROF) as [vals|], v as [v|]; cbn [opt_values]; try iDestruct "Hv" as "[]".
  - iApply wpm_bind. iApply wpm_count_values. iFrame "Hv". iIntros "Hv".
    iApply wpm_bind. iApply wpm_search_owners; [apply counted_lookup|exact Hr|]. iFrame "Hs Ht Hv". iIntros (f1 Hf1) "Hs Ht Hv".
    iApply wpm_bind. iApply wpm_value_free. iFrame "Hv". iIntros (f2 Hf2). iApply wpm_ret.
    iApply ("HΦ" with "[] Hs Ht Hres"). iPureIntro. auto.
  - injection Hr as <- <- <- <-. iApply wpm_ret. by iApply ("HΦ" with "[] Hs Ht Hres").
Qed.

Lemma wpm_owner_entries fuel res ms msg d seen g h r s r' g' h' s' fr Φ :
  (forall k en, msg = Some (k, en) -> ms !! k = Some (Some en)) ->
  LdapGroups.owner_entries fuel y ms msg seen g h r s = Some ((r', g', h'), s') ->
  is_session p s ∗ is_names t h ∗ is_result res ms ∗ is_pointers d seen ∗
  (∀ fr' seen', cleanly fr fr' -∗ is_session p s' -∗ is_names t h' -∗ is_result res ms -∗ is_pointers d seen' -∗
     Φ (r', g') fr' (trace s'))
  ⊢ wpm (owner_entries fuel x res (fst <$> msg) d g r) fr (trace s) Φ.
Proof.
  revert msg seen g h r s fr. induction fuel as [|fuel IH]; iIntros (msg seen g h r s fr Hm Hr) "(Hs & Ht & Hres & Hd & HΦ)"; [done|].
  cbn [LdapGroups.owner_entries owner_entries] in *. destruct msg as [[k en]|]; cbn [fmap option_fmap option_map fst].
  2: { injection Hr as <- <- <- <-. iApply wpm_ret. by iApply ("HΦ" with "[] Hs Ht Hres Hd"). }
  iApply wpm_bind. iApply wpm_pointers_size. iFrame "Hd". iIntros "Hd".
  destruct (MAX_LDAP_GRP_HASH_SIZE <=? size seen)%nat; cbn [orb] in Hr.
  { injection Hr as <- <- <- <-. iApply wpm_ret. by iApply ("HΦ" with "[] Hs Ht Hres Hd"). }
  iApply wpm_bind. iApply wpm_pointers_contains. iFrame "Hd". iIntros "Hd". destruct (bool_decide (k ∈ seen)).
  { injection Hr as <- <- <- <-. iApply wpm_ret. by iApply ("HΦ" with "[] Hs Ht Hres Hd"). }
  iApply wpm_bind. iApply wpm_pointers_insert. iFrame "Hd". iIntros "Hd".
  run_inv Hr. destruct a as [[r1 g1] h1]. iApply wpm_bind. iApply wpm_entry_owners; [by apply Hm|exact Hrun|].
  iFrame "Hs Ht Hres". iIntros (f1 Hf1) "Hs Ht Hres". iApply wpm_bind. iApply wpm_next_entry. iFrame "Hres". iIntros "Hres".
  iApply IH; [|exact Hr|].
  - intros k2 en2 Hk2. unfold LdapGroups.ldap_next_entry in Hk2. apply entry_from_lookup in Hk2 as [Hle Hk2].
    rw lookup_drop in Hk2. by replace (1 + (k2 - 1))%nat with k2 in Hk2 by lia.
  - iFrame "Hs Ht Hres Hd". iIntros (f2 seen' Hf2) "Hs Ht Hres Hd". iApply ("HΦ" with "[] Hs Ht Hres Hd"). iPureIntro. auto.
Qed.

End owners.

Lemma group_owner_on_table t fuel name g level :
  on_table t (do_search_group_owner lib p fuel name g level t)
    (fun h => LdapGroups.do_search_group_owner lib fuel name g level h).
Proof.
  revert name g level. induction fuel as [|fuel IH]; iIntros (name g level h s ret h' s' fr Φ Hr) "(Hs & Ht & HΦ)"; [done|].
  cbn [LdapGroups.do_search_group_owner do_search_group_owner] in *.
  iApply wpm_bind. iApply wpm_check_hash. iFrame "Ht". iIntros "Ht". destruct (negb (_ =? RET_OK)).
  { injection Hr as <- <- <-. iApply wpm_ret. by iApply ("HΦ" with "[] Hs Ht"). }
  iApply wpm_bind. iApply wpm_remember. iFrame "Ht". iIntros (f1 Hf1) "Ht".
  run_inv Hr. injection Hrun as <- <-. iApply wpm_bind. iApply wpm_gets. iFrame "Hs". iIntros "Hs". cbn zeta.
  destruct (mark_groups name (groupdn (conf s)) g) as [match_flag g1].
  run_inv Hr. destruct a as [ret1 ms]. iApply wpm_bind. iApply wpm_search; [exact Hrun|]. iFrame "Hs". iIntros (res) "Hs Hres".
  destruct (negb (search_answered ret1)).
  { injection Hr as <- <- <-. iApply wpm_bind. iApply wpm_msgfree. iFrame "Hres". iIntros (f2 Hf2). iApply wpm_ret.
    iApply ("HΦ" with "[] Hs Ht"). iPureIntro. auto. }
  iApply wpm_bind. iApply wpm_pointers_new. iIntros (d) "Hd".
  iApply wpm_bind. iApply wpm_first_entry. iFrame "Hres". iIntros "Hres".
  run_inv Hr. destruct a as [[r1 g2] h1]. injection Hr as <- <- <-. iApply wpm_bind.
  iApply wpm_owner_entries; [intros o g3; apply (IH o g3 (level + 1))| |exact Hrun0|].
  { intros k en [_ Hk]%entry_from_lookup. by rw Nat.sub_0_r in Hk. }
  iFrame "Hs Ht Hres Hd". iIntros (f2 seen' Hf2) "Hs Ht Hres Hd".
  iApply wpm_bind. iApply wpm_msgfree. iFrame "Hres". iIntros (f3 Hf3).
  iApply wpm_bind. iApply wpm_pointers_destroy. iFrame "Hd". iIntros (f4 Hf4). iApply wpm_ret.
  iApply ("HΦ" with "[] Hs Ht"). iPureIntro. auto 6.
Qed.

(** The entries of a result, in their order. *)
Lemma wpm_memberof_entries t res ms n k g h r s r' g' h' s' fr Φ :
  (length ms <= n + k)%nat ->
  LdapGroups.memberof_entries lib (drop k ms) g h r s = Some ((r', g', h'), s') ->
  is_session p s ∗ is_names t h ∗ is_result res ms ∗
  (∀ fr', cleanly fr fr' -∗ is_session p s' -∗ is_names t h' -∗ is_result res ms -∗ Φ (r', g') fr' (trace s'))
  ⊢ wpm (memberof_entries (S n) (fun o g => do_search_group_owner lib p search_fuel o g 1 t) res
           (fst <$> entry_from k (drop k ms)) g r) fr (trace s) Φ.
Proof.
  remember (length ms - k)%nat as m eqn:Em. revert n k Em g h r s fr. induction m as [|m IH]; intros n k Em g h r s fr Hn.
  { rw drop_ge; [|lia]. iIntros (Hr) "(Hs & Ht & Hres & HΦ)". injection Hr as <- <- <- <-. cbn [entry_from fmap option_fmap option_map].
    iApply wpm_ret. by iApply ("HΦ" with "[] Hs Ht Hres"). }
  destruct (lookup_lt_is_Some_2 ms k ltac:(lia)) as [msg Hk]. rw (drop_S _ _ _ Hk). cbn [LdapGroups.memberof_entries].
  iIntros (Hr) "(Hs & Ht & Hres & HΦ)". run_inv Hr. destruct a as [[r1 g1] h1]. destruct msg as [en|].
  - destruct n as [|n]; [lia|]. cbn [entry_from fmap option_fmap option_map fst].
    change (memberof_entries (S (S n)) ?x ?res (Some ?k) ?g ?r) with
      ('(flag, group) ← entry_owners x res k g r; msg ← ldap_next_entry res k; memberof_entries (S n) x res msg group flag).
    iApply wpm_bind. iApply wpm_entry_owners; [|exact Hk|exact Hrun|]; [intros o g2; apply group_owner_on_table|].
    iFrame "Hs Ht Hres". iIntros (f1 Hf1) "Hs Ht Hres".
    iApply wpm_bind. iApply wpm_next_entry. iFrame "Hres". iIntros "Hres".
    iApply IH; [lia|lia|exact Hr|]. iFrame "Hs Ht Hres". iIntros (f2 Hf2) "Hs Ht Hres".
    iApply ("HΦ" with "[] Hs Ht Hres"). iPureIntro. auto.
  - injection Hrun as <- <- <- <-. cbn [entry_from]. iApply IH; [lia|lia|exact Hr|]. iFrame.
Qed.

Lemma search_by_memberof_refines P name g :
  refines p P (do_search_by_memberof lib p name g) (LdapGroups.do_search_by_memberof lib name g).
Proof.
  unfold do_search_by_memberof, LdapGroups.do_search_by_memberof.
  apply refines_then; [apply refines_plain; apply _|]. intros c.
  apply refines_then; [|intros [[ret flag] g1]; apply refines_ret].
  apply refines_alone; [unfold LdapGroups.do_search_by_memberof_ext; apply _|].
  iIntros (s a s' fr Φ Hr) "[Hs HΦ]". unfold LdapGroups.do_search_by_memberof_ext in Hr. run_inv Hr.
  pose proof (base_run _ _ _ Hrun) as ->. run_inv Hr. injection Hrun0 as <- <-.
  iApply wpm_bind. iApply (wpm_with_session _ _ _ s a0 s); [done|done|]. iFrame "Hs". iIntros "Hs".
  iApply wpm_bind. iApply wpm_gets. iFrame "Hs". iIntros "Hs".
  run_inv Hr. destruct a1 as [ret ms]. iApply wpm_bind. iApply wpm_search; [exact Hrun0|]. iFrame "Hs". iIntros (res) "Hs Hres".
  destruct (negb (search_answered ret)).
  { injection Hr as <- <-. iApply wpm_bind. iApply wpm_msgfree. iFrame "Hres". iIntros (f2 Hf2). iApply wpm_ret.
    iApply ("HΦ" with "[] Hs"). iPureIntro. auto. }
  iApply wpm_bind. iApply wpm_names_new. iIntros (t) "Ht".
  iApply wpm_bind. iApply wpm_load_result. iFrame "Hres". iIntros "Hres".
  iApply wpm_bind. iApply wpm_first_entry. iFrame "Hres". iIntros "Hres".
  run_inv Hr. destruct a1 as [[flag g1] h1]. injection Hr as <- <-. iApply wpm_bind.
  iApply (wpm_memberof_entries t res ms (length ms) 0); [lia|rw drop_0; exact Hrun1|]. iFrame "Hs Ht Hres".
  iIntros (f1 Hf1) "Hs Ht Hres". iApply wpm_bind. iApply wpm_names_destroy. iFrame "Ht". iIntros (f2 Hf2).
  iApply wpm_bind. iApply wpm_msgfree. iFrame "Hres". iIntros (f3 Hf3). iApply wpm_ret.
  iApply ("HΦ" with "[] Hs"). iPureIntro. auto.
Qed.

Lemma get_user_group_refines P name g :
  refines p P (do_get_user_group lib p name g) (LdapGroups.do_get_user_group lib name g).
Proof.
  unfold do_get_user_group, LdapGroups.do_get_user_group. apply refines_then; [apply refines_plain; apply _|]. intros _.
  destruct (escape_string _ _) as [rc name']. destruct (negb _); [apply refines_ret|].
  apply refines_then; [apply search_by_memberof_refines|]. intros [rc2 g2].
  destruct (rc2 =? _); [apply refines_ret|apply search_by_username_refines].
Qed.

(** ** The search for the user *)

Lemma find_user_cn_refines P filter cn n :
  refines p P (ldap_find_user_cn lib p filter cn n) (LdapAuth.ldap_find_user_cn lib filter cn n).
Proof.
  unfold ldap_find_user_cn, LdapAuth.ldap_find_user_cn. destruct (n =? 0)%nat; [apply refines_ret|].
  apply refines_then; [apply refines_plain; apply _|]. intros _. apply refines_alone; [apply _|].
  iIntros (s a s' fr Φ Hr) "[Hs HΦ]". run_inv Hr.
  pose proof (base_run _ _ _ Hrun) as ->. run_inv Hr. injection Hrun0 as <- <-.
  iApply wpm_bind. iApply (wpm_with_session _ _ _ s a0 s); [done|done|]. iFrame "Hs". iIntros "Hs".
  iApply wpm_bind. iApply wpm_gets. iFrame "Hs". iIntros "Hs".
  run_inv Hr. destruct a1 as [ret ms]. iApply wpm_bind. iApply wpm_search; [exact Hrun0|]. iFrame "Hs". iIntros (res) "Hs Hres".
  destruct (negb (search_answered ret)).
  { injection Hr as <- <-. iApply wpm_bind. iApply wpm_msgfree. iFrame "Hres". iIntros (f2 Hf2). iApply wpm_ret.
    iApply ("HΦ" with "[] Hs"). iPureIntro. auto. }
  iApply wpm_bind. iApply wpm_first_entry. iFrame "Hres". iIntros "Hres".
  destruct (LdapGroups.ldap_first_entry ms) as [[k en]|] eqn:Ek; cbn [fmap option_fmap option_map fst].
  2: { injection Hr as <- <-. iApply wpm_bind. iApply wpm_msgfree. iFrame "Hres". iIntros (f2 Hf2). iApply wpm_ret.
       iApply ("HΦ" with "[] Hs"). iPureIntro. auto. }
  apply entry_from_lookup in Ek as [_ Ek]. rw Nat.sub_0_r in Ek.
  iApply wpm_bind. iApply wpm_string_values; [exact Ek|]. iFrame "Hres". iIntros (v) "Hres Hv".
  destruct (en _) as [vals|], v as [v|]; cbn [opt_values]; try iDestruct "Hv" as "[]".
  2: { injection Hr as <- <-. iApply wpm_bind. iApply wpm_msgfree. iFrame "Hres". iIntros (f2 Hf2). iApply wpm_ret.
       iApply ("HΦ" with "[] Hs"). iPureIntro. auto. }
  injection Hr as <- <-. iApply wpm_bind. iApply wpm_value_at; [|iFrame "Hv"; iIntros "Hv"]; [lia|]. cbn zeta.
  iApply wpm_bind. iApply wpm_value_free. iFrame "Hv". iIntros (f2 Hf2).
  iApply wpm_bind. iApply wpm_msgfree. iFrame "Hres". iIntros (f3 Hf3). iApply wpm_ret.
  rw head_lookup. iApply ("HΦ" with "[] Hs"). iPureIntro. auto.
Qed.

Lemma window_name_refines P i cn n esc :
  refines p P (window_logon_name lib p i cn n esc) (LdapAuth.window_logon_name lib i cn n esc).
Proof.
  unfold window_logon_name, LdapAuth.window_logon_name.
  apply refines_then; [apply find_user_cn_refines|]. intros [ret cn1]. destruct (ret =? RET_OK); [apply refines_ret|].
  apply refines_then; [apply find_user_cn_refines|]. intros [ret2 cn2]. destruct (ret2 =? RET_OK); apply refines_ret.
Qed.

Lemma search_user_refines P i n : refines p P (ldap_search_user lib p i n) (LdapAuth.ldap_search_user lib i n).
Proof.
  unfold ldap_search_user, LdapAuth.ldap_search_user. destruct (escape_string _ _) as [ret esc].
  destruct (negb _); [apply refines_ret|]. apply refines_then; [apply refines_plain; apply _|]. intros c.
  apply refines_then; [apply find_user_cn_refines|]. intros [ret1 cn1]. destruct (ret1 =? RET_OK); [apply refines_ret|].
  apply refines_then; [apply window_name_refines|]. intros [ret2 cn2]. destruct (ret2 =? LDAP_AUTH_SUCCESS); [apply refines_ret|].
  apply refines_then; [apply find_user_cn_refines|]. intros [ret3 cn3]. apply refines_ret.
Qed.
End groups.
