(* ===== verification/Tables.v ===== *)
(** * Tables of GLib by lists of keys

    An implementation of the class [GLib] of SearchBlocks that satisfies the laws of SearchMemory: a table of strings is
    a block with the addresses of its keys; a key that is there already is freed instead of being added. *)
From S2P Require Export SearchMemory.
Open Scope Z_scope.

Definition load_names (t : positive) : MM (list positive) :=
  c ← load t; match c with Names ks => mret ks | _ => undefined end.
Definition load_pointers (t : positive) : MM (gset nat) :=
  c ← load t; match c with Pointers s => mret s | _ => undefined end.

Fixpoint has_key (ks : list positive) (s : list ascii) : MM bool :=
  match ks with
  | [] => mret false
  | k :: ks => u ← load_text k; if decide (u = s) then mret true else has_key ks s
  end.

Fixpoint free_keys (ks : list positive) : MM unit :=
  match ks with [] => mret tt | k :: ks => _ ← free k; free_keys ks end.

#[export] Instance list_tables : GLib := {
  names_new := malloc (Names []);
  names_size t := ks ← load_names t; mret (length ks);
  names_contains t s := ks ← load_names t; has_key ks s;
  names_insert t k :=
    ks ← load_names t; s ← load_text k; b ← has_key ks s;
    if (b : bool) then free k else store t (Names (k :: ks));
  names_destroy t := ks ← load_names t; _ ← free_keys ks; free t;
  pointers_new := malloc (Pointers ∅);
  pointers_size t := s ← load_pointers t; mret (size s);
  pointers_contains t k := s ← load_pointers t; mret (bool_decide (k ∈ s));
  pointers_insert t k := s ← load_pointers t; store t (Pointers ({[ k ]} ∪ s));
  pointers_destroy t := _ ← load_pointers t; free t
}.

(** ** The laws *)

Definition keys (ks : list positive) (ss : list (list ascii)) : heap_prop := [∗ list] k;s ∈ ks;ss, k ↦ Text s.
Definition is_list_table (t : positive) (h : visited) : heap_prop :=
  ∃ ks ss, t ↦ Names ks ∗ keys ks ss ∗ <affine> ⌜NoDup ss /\ h = list_to_set ss⌝.

Section laws.
Implicit Types (fr : list cell) (e : list event).

Lemma wpm_load_names t ks fr e Φ : t ↦ Names ks ∗ (t ↦ Names ks -∗ Φ ks fr e) ⊢ wpm (load_names t) fr e Φ.
Proof. iIntros "[Ht HΦ]". iApply wpm_bind. iApply wpm_load. iFrame "Ht". iIntros "Ht". iApply wpm_ret. by iApply "HΦ". Qed.

Lemma wpm_load_pointers t s fr e Φ : t ↦ Pointers s ∗ (t ↦ Pointers s -∗ Φ s fr e) ⊢ wpm (load_pointers t) fr e Φ.
Proof. iIntros "[Ht HΦ]". iApply wpm_bind. iApply wpm_load. iFrame "Ht". iIntros "Ht". iApply wpm_ret. by iApply "HΦ". Qed.

Lemma wpm_has_key ks ss s fr e Φ :
  keys ks ss ∗ (keys ks ss -∗ Φ (bool_decide (s ∈ ss)) fr e) ⊢ wpm (has_key ks s) fr e Φ.
Proof.
  revert ss Φ. induction ks as [|k ks IH]; intros [|u ss] Φ; unfold keys; cbn [big_sepL2 has_key]; try by iIntros "[[] _]".
  - iIntros "[Hk HΦ]". iApply wpm_ret. rw bool_decide_eq_false_2; [by iApply "HΦ"|]. apply not_elem_of_nil.
  - iIntros "[[Hk Hks] HΦ]". iApply wpm_bind. iApply wpm_load_text. iFrame "Hk". iIntros "Hk". destruct (decide (u = s)) as [->|Hne].
    + iApply wpm_ret. rw bool_decide_eq_true_2; [iApply "HΦ"; iFrame|]. by left.
    + iApply IH. iFrame "Hks". iIntros "Hks". rw (bool_decide_ext (s ∈ ss) (s ∈ u :: ss)); [iApply "HΦ"; iFrame|].
      rw elem_of_cons. naive_solver.
Qed.

Lemma wpm_free_keys ks ss fr e Φ : keys ks ss ∗ (∀ fr', cleanly fr fr' -∗ Φ tt fr' e) ⊢ wpm (free_keys ks) fr e Φ.
Proof.
  revert ss fr. induction ks as [|k ks IH]; intros [|u ss] fr; unfold keys; cbn [big_sepL2 free_keys]; try by iIntros "[[] _]".
  - iIntros "[_ HΦ]". iApply wpm_ret. by iApply "HΦ".
  - iIntros "[[Hk Hks] HΦ]". iApply wpm_bind. iApply wpm_free. iFrame "Hk". iApply (IH ss). iFrame "Hks". iIntros (f1 Hf1).
    iApply "HΦ". iPureIntro. intros Hc. by apply Hf1, clean_cons.
Qed.

Lemma table_size t h : is_list_table t h ⊢
  ∃ ks, t ↦ Names ks ∗ <affine> ⌜length ks = size h⌝ ∗ (t ↦ Names ks -∗ is_list_table t h).
Proof.
  iIntros "(%ks & %ss & Ht & Hk & %Hn & %Hh)". iExists ks. iFrame "Ht".
  iDestruct (big_sepL2_length with "Hk") as %Hlen. iSplit.
  - iPureIntro. subst h. rw size_list_to_set; [done|exact Hn].
  - iIntros "Ht". iExists ks, ss. by iFrame.
Qed.

#[export] Program Instance list_laws : GLibLaws := {| is_names := is_list_table; is_pointers t s := (t ↦ Pointers s)%I |}.
Next Obligation.
  iIntros (fr e Φ) "HΦ". iApply wpm_malloc. iIntros (t) "Ht". iApply "HΦ". iExists [], []. iFrame "Ht".
  iSplitR; [by iApply big_sepL2_nil|]. iPureIntro. split; [constructor|done].
Qed.
Next Obligation.
  iIntros (t h fr e Φ) "[Ht HΦ]". iDestruct (table_size with "Ht") as "(%ks & Ht & %Hs & Hback)". iApply wpm_bind.
  iApply wpm_load_names. iFrame "Ht". iIntros "Ht". iApply wpm_ret. rw Hs. iApply "HΦ". by iApply "Hback".
Qed.
Next Obligation.
  iIntros (t h s fr e Φ) "[(%ks & %ss & Ht & Hk & %Hn & ->) HΦ]". iApply wpm_bind. iApply wpm_load_names. iFrame "Ht". iIntros "Ht".
  iApply wpm_has_key. iFrame "Hk". iIntros "Hk". rw (bool_decide_ext (s ∈ ss) (s ∈ list_to_set (C:=visited) ss)).
  - iApply "HΦ". iExists ks, ss. by iFrame.
  - by rw elem_of_list_to_set.
Qed.
Next Obligation.
  iIntros (t h k s fr e Φ) "((%ks & %ss & Ht & Hks & %Hn & ->) & Hk & HΦ)".
  iApply wpm_bind. iApply wpm_load_names. iFrame "Ht". iIntros "Ht".
  iApply wpm_bind. iApply wpm_load_text. iFrame "Hk". iIntros "Hk".
  iApply wpm_bind. iApply wpm_has_key. iFrame "Hks". iIntros "Hks". case_bool_decide as Hin.
  - iApply wpm_free. iFrame "Hk". iApply "HΦ"; [iPureIntro; by apply clean_cons|].
    iExists ks, ss. iFrame. iPureIntro. split; [done|]. set_solver.
  - iApply wpm_store. iFrame "Ht". iIntros "Ht". iApply "HΦ"; [done|].
    iExists (k :: ks), (s :: ss). iFrame. iPureIntro. split; [by constructor|done].
Qed.
Next Obligation.
  iIntros (t h fr e Φ) "[(%ks & %ss & Ht & Hks & %Hn & ->) HΦ]". iApply wpm_bind. iApply wpm_load_names. iFrame "Ht". iIntros "Ht".
  iApply wpm_bind. iApply wpm_free_keys. iFrame "Hks". iIntros (f1 Hf1). iApply wpm_free. iFrame "Ht". iApply "HΦ". iPureIntro.
  intros Hc. by apply clean_cons; [|apply Hf1].
Qed.
Next Obligation. iIntros (fr e Φ) "HΦ". by iApply wpm_malloc. Qed.
Next Obligation.
  iIntros (t h fr e Φ) "[Ht HΦ]". iApply wpm_bind. iApply wpm_load_pointers. iFrame "Ht". iIntros "Ht". iApply wpm_ret. by iApply "HΦ".
Qed.
Next Obligation.
  iIntros (t h k fr e Φ) "[Ht HΦ]". iApply wpm_bind. iApply wpm_load_pointers. iFrame "Ht". iIntros "Ht". iApply wpm_ret. by iApply "HΦ".
Qed.
Next Obligation.
  iIntros (t h k fr e Φ) "[Ht HΦ]". iApply wpm_bind. iApply wpm_load_pointers. iFrame "Ht". iIntros "Ht". iApply wpm_store. iFrame.
Qed.
Next Obligation.
  iIntros (t h fr e Φ) "[Ht HΦ]". iApply wpm_bind. iApply wpm_load_pointers. iFrame "Ht". iIntros "Ht".
  iApply wpm_free. iFrame "Ht". iApply "HΦ". iPureIntro. by apply clean_cons.
Qed.
End laws.
