(* ===== verification/LdapMemory.v ===== *)
(** * No block of an authentication is lost, or which ones are

    The configuration that is read, the authentication and what ends it, in the logic of Memory: every function
    computes what its counterpart on [session] computes, and gives back what it books. *)
From S2P Require Export Tables.
Open Scope Z_scope.

(** ** The authentication *)

Section authentication.
Context `{LdapCodes} `{GLib} `{!GLibLaws} (lib : openldap_lib) (laws : well_behaved lib) (p : positive).

Lemma lift_refines {A} P (o : option A) : refines p P (lift_pure o) (lift o).
Proof. destruct o; [apply refines_ret|by apply refines_stuck]. Qed.

(** Follows the control structure, which is the same on both sides. *)
Ltac refine_steps :=
  repeat match goal with
  | |- refines _ _ (mret _) (mret _) => apply refines_ret
  | |- refines _ _ (with_session _ _) _ => apply refines_plain; apply _
  | |- refines _ _ (lift_pure _) (lift _) => apply lift_refines
  | |- refines _ _ (LdapBlocks.do_sasl_bind _ _ _) _ => apply do_sasl_bind_refines, laws
  | |- refines _ _ (SearchBlocks.ldap_search_user _ _ _ _) _ => apply search_user_refines
  | |- refines _ _ (SearchBlocks.do_get_user_group _ _ _ _) _ => apply get_user_group_refines
  | |- refines _ _ (_ ≫= _) (_ ≫= _) => apply refines_then; [|intros ?]
  | |- refines _ _ (if ?b then _ else _) _ => destruct b
  | |- refines _ _ (let '(_, _) := ?r in _) _ => destruct r
  end.

Lemma ldap_bind_user_refines i : refines p settled (ldap_bind_user lib p i) (LdapServer.ldap_bind_user lib i).
Proof. unfold ldap_bind_user, LdapServer.ldap_bind_user. refine_steps. Qed.

Lemma rebind_user_refines cn i : refines p settled (rebind_user lib p cn i) (LdapAuth.rebind_user lib cn i).
Proof. unfold rebind_user, LdapAuth.rebind_user. refine_steps. Qed.

Lemma ldap_auth_refines i g : refines p settled (ldap_auth lib p i g) (LdapAuth.ldap_auth lib i g).
Proof. unfold ldap_auth, LdapAuth.ldap_auth, auth_bind, LdapAuth.auth_bind. refine_steps. Qed.

Lemma ldap_bind_user_settled i s ret s' :
  LdapServer.ldap_bind_user lib i s = Some (ret, s') -> settled (trace s) -> ret = RET_OK -> settled (trace s').
Proof.
  unfold LdapServer.ldap_bind_user. intros Hr Hs ->. run_inv Hr. destruct (Z.eqb_spec a LDAP_AUTH_SUCCESS) as [Ea|]; cbn [negb] in Hr.
  - injection Hr as _ <-. by eapply do_sasl_bind_settled.
  - run_inv Hr. by eapply do_direct_bind_settled.
Qed.

Lemma proxy_bind_refines i : refines p settled (proxy_bind lib p i) (LdapAuth.proxy_bind lib i).
Proof.
  unfold proxy_bind, LdapAuth.proxy_bind.
  destruct (has_case_prefix _ _); [refine_steps|]. destruct (has_case_prefix _ _); [refine_steps|].
  eapply refines_bind with (Q := fun _ => settled); [apply lift_refines| |intros j].
  - intros s j s' Hj. unfold lift in Hj. destruct (switch_dn_and_user i); [|done]. by injection Hj as _ <-.
  - apply refines_then; [apply ldap_bind_user_refines|]. intros ret. refine_steps.
Qed.

Lemma proxy_bind_settled i s r s' :
  LdapAuth.proxy_bind lib i s = Some (r, s') -> settled (trace s) -> fst r = RET_OK -> settled (trace s').
Proof.
  unfold LdapAuth.proxy_bind. intros Hr Hs Hok.
  destruct (has_case_prefix _ _); [by eapply settled_plain; [|exact Hr|]; [apply _|]|].
  destruct (has_case_prefix _ _); [by eapply settled_plain; [|exact Hr|]; [apply _|]|].
  run_inv Hr. run_inv Hr. run_inv Hr. injection Hr as <- <-. cbn [fst] in Hok.
  assert (Hl : forall {A} (o : option A) s a s', lift o s = Some (a, s') -> s' = s).
  { intros B o s3 b s4. unfold lift. destruct o; [|done]. by intros [= _ ->]. }
  apply Hl in Hrun as ->. apply Hl in Hrun1 as ->. by eapply ldap_bind_user_settled.
Qed.

Lemma authenticate_session_refines i g :
  refines p settled (authenticate_session lib p i g) (LdapAuth.authenticate_session lib i g).
Proof.
  unfold authenticate_session, LdapAuth.authenticate_session. destruct (_ && _).
  2: { apply refines_then; [apply ldap_auth_refines|]. intros r. refine_steps. }
  unfold ldap_proxyuser_auth, LdapAuth.ldap_proxyuser_auth.
  eapply refines_bind with (Q := fun r tr => fst r = RET_OK -> settled tr); [apply proxy_bind_refines| |intros [ret j]].
  { intros s r s' Hr Hs Hok. by eapply proxy_bind_settled. }
  destruct (Z.eqb_spec ret RET_OK) as [->|]; cbn [negb]; [|refine_steps].
  eapply refines_bind with (Q := fun _ => settled); [refine_steps| |intros [ret cn]].
  { intros s r s' Hr Hs. eapply settled_plain; [apply _|exact Hr|by apply Hs]. }
  destruct (negb (ret =? RET_OK)); [refine_steps|].
  apply refines_then; [apply rebind_user_refines|]. intros ret2. refine_steps.
Qed.
End authentication.

(** ** The configuration *)

(** The names that [read_groupdn] overwrites because another group has the same slot. *)
Fixpoint lost_groups (ud : list ascii) (gs : list LDAP_GROUP_INFO) (dns : list (option (list ascii))) : list (list ascii) :=
  match gs with
  | [] => []
  | g :: rest =>
      let ldap_group_id := Z.to_nat (u8 (group_inner_id g - 1)) in
      match group_dn ud g with
      | None => []
      | Some (ret, dn) =>
          option_list (default None (dns !! ldap_group_id)) ++
          (if ret =? LDAP_AUTH_ERROR then [] else lost_groups ud rest (<[ldap_group_id := dn]> dns))
      end
  end.

Lemma group_dn_some ud g ret dn : group_dn ud g = Some (ret, dn) -> is_Some dn.
Proof.
  unfold group_dn, parse_ldap_group_info. destruct (ldap_special_char_escape _ _); [|done]. cbn [Z.eqb LDAP_TAG_CASE_UPPER negb andb].
  destruct (strtok_tokens _ _) in |- *; [by intros [= <- <-]|]. destruct (drop_last _); [|done]. by intros [= <- <-].
Qed.

Lemma lost_groups_cons ud g gs dns :
  lost_groups ud (g :: gs) dns =
    match group_dn ud g with
    | None => []
    | Some (ret, dn) =>
        option_list (default None (dns !! Z.to_nat (u8 (group_inner_id g - 1)))) ++
        (if ret =? LDAP_AUTH_ERROR then [] else lost_groups ud gs (<[Z.to_nat (u8 (group_inner_id g - 1)) := dn]> dns))
    end.
Proof. reflexivity. Qed.

Lemma config_read_groupdn_cons ud g gs dns :
  LdapConfig.read_groupdn ud (g :: gs) dns =
    if negb (Z.to_nat (u8 (group_inner_id g - 1)) <? length dns)%nat then UB
    else
      match group_dn ud g with
      | None => UB
      | Some (ret, dn) =>
          if ret =? LDAP_AUTH_ERROR then Some (<[Z.to_nat (u8 (group_inner_id g - 1)) := dn]> dns)
          else LdapConfig.read_groupdn ud gs (<[Z.to_nat (u8 (group_inner_id g - 1)) := dn]> dns)
      end.
Proof. reflexivity. Qed.

Lemma read_groupdn_cons ud g gs q :
  read_groupdn ud (g :: gs) q =
    (c ← load_config_block q;
     if negb (Z.to_nat (u8 (group_inner_id g - 1)) <? length (b_groupdn c))%nat then undefined
     else
       p ← malloc (Text []);
       _ ← update_config q (set_b_groupdn (<[Z.to_nat (u8 (group_inner_id g - 1)) := Some p]> (b_groupdn c)));
       match group_dn ud g with
       | None => undefined
       | Some (ret, dn) =>
           _ ← store p (Text (default [] dn));
           if ret =? LDAP_AUTH_ERROR then mret tt else read_groupdn ud gs q
       end).
Proof. reflexivity. Qed.

Section config.
Context `{LdapCodes}.

Lemma wpm_read_groupdn ud gs q cb dns dns' fr (e : list event) Φ :
  LdapConfig.read_groupdn ud gs dns = Some dns' ->
  q ↦ Config cb ∗ ([∗ list] p;s ∈ b_groupdn cb;dns, opt_text p s) ∗
  (∀ ps, q ↦ Config (set_b_groupdn ps cb) -∗ ([∗ list] p;s ∈ ps;dns', opt_text p s) -∗
         leaked (map Text (lost_groups ud gs dns)) -∗ Φ tt fr e)
  ⊢ wpm (read_groupdn ud gs q) fr e Φ.
Proof.
  revert cb dns. induction gs as [|g gs IH]; intros cb dns.
  - iIntros ([= <-]) "(Hq & Hs & HΦ)". iApply wpm_ret. destruct cb. iApply ("HΦ" with "Hq Hs"). iApply leaked_nil.
  - rw config_read_groupdn_cons read_groupdn_cons lost_groups_cons. generalize (Z.to_nat (u8 (group_inner_id g - 1))) as id.
    pose proof (group_dn_some ud g) as Hsome. revert Hsome. generalize (group_dn ud g). intros dn0 Hsome id. iIntros (Hr) "(Hq & Hs & HΦ)". iApply wpm_bind. iApply wpm_load_block. iFrame "Hq". iIntros "Hq".
    iDestruct (big_sepL2_length with "Hs") as %Hlen. rw Hlen.
    destruct (Nat.ltb_spec id (length dns)) as [Hid|]; cbn [negb] in *; [|done].
    destruct dn0 as [[ret dn]|]; [|done]. destruct (Hsome ret dn eq_refl) as [t ->].
    destruct (lookup_lt_is_Some_2 dns id Hid) as [s0 Hs0].
    destruct (lookup_lt_is_Some_2 (b_groupdn cb) id) as [p0 Hp0]; [by rw Hlen|].
    iDestruct (big_sepL2_insert_acc with "Hs") as "[Hold Hs]"; [done|done|].
    iApply wpm_bind. iApply wpm_malloc. iIntros (p) "Hp". iApply wpm_bind. iApply wpm_update. iFrame "Hq". iIntros "Hq".
    iApply wpm_bind. iApply wpm_store. iFrame "Hp". iIntros "Hp".
    iSpecialize ("Hs" $! (Some p) (Some t) with "Hp").
    iAssert (leaked (map Text (option_list s0))) with "[Hold]" as "Hold".
    { destruct p0, s0; cbn [opt_text option_list]; try iDestruct "Hold" as "[]"; [by iApply leaked_one|by iApply leaked_nil]. }
    rw Hs0. change (default None (Some s0)) with s0. destruct (ret =? LDAP_AUTH_ERROR).
    + injection Hr as <-. iApply wpm_ret. iApply ("HΦ" with "Hq Hs"). by rw app_nil_r.
    + iApply IH; [exact Hr|]. iFrame "Hq Hs". iIntros (ps) "Hq Hs Hl". iApply ("HΦ" with "Hq Hs").
      rw map_app. iApply (leaked_app with "Hold Hl").
Qed.

Lemma wpm_release_slots q k cb ps dns fr (e : list event) Φ :
  b_groupdn cb = replicate k None ++ ps ->
  q ↦ Config cb ∗ ([∗ list] p;s ∈ ps;dns, opt_text p s) ∗
  (∀ fr', <affine> ⌜clean fr -> clean fr'⌝ -∗ q ↦ Config (set_b_groupdn (replicate (k + length ps) None) cb) -∗ Φ tt fr' e)
  ⊢ wpm (release_slots (seq k (length ps)) q) fr e Φ.
Proof.
  revert k cb dns fr. induction ps as [|p ps IH]; intros k cb [|s dns] fr Hg; cbn [length seq release_slots big_sepL2];
    try by iIntros "(Hq & [] & HΦ)".
  - iIntros "(Hq & _ & HΦ)". iApply wpm_ret. iApply "HΦ"; [done|]. rw app_nil_r in Hg. rw Nat.add_0_r -Hg. by destruct cb.
  - iIntros "(Hq & [Hp Hs] & HΦ)". iApply wpm_bind. iApply wpm_load_block. iFrame "Hq". iIntros "Hq".
    rw {1}Hg list_lookup_middle; [|by rw length_replicate].
    iApply wpm_bind. iApply wpm_free_pointer. iFrame "Hp". iIntros (f1 H1). iApply wpm_bind. iApply wpm_update. iFrame "Hq".
    iIntros "Hq". iApply IH; [|iFrame "Hq Hs"].
    + cbn [b_groupdn set_b_groupdn]. rw Hg insert_app_r_alt; [|by rw length_replicate].
      rw length_replicate Nat.sub_diag. rw replicate_S_end -app_assoc. done.
    + iIntros (f2 H2) "Hq". iApply ("HΦ" with "[]"); [iPureIntro; auto|]. rw -plus_n_Sm. iExact "Hq".
Qed.

(** Every string of a configuration is freed, and the configuration. *)
Lemma wpm_release_config q c fr (e : list event) Φ :
  length (groupdn c) = MAX_USER_GROUP ->
  is_config q c ∗ (∀ fr', <affine> ⌜clean fr -> clean fr'⌝ -∗ Φ tt fr' e) ⊢ wpm (release_config (Some q)) fr e Φ.
Proof.
  iIntros (Hg) "[(%cb & %Hd & Hq & Hu & Hh & Hb & Hf & Hs) HΦ]". cbn [release_config].
  iDestruct (big_sepL2_length with "Hs") as %Hlen.
  iApply wpm_bind. iApply wpm_load_block. iFrame "Hq". iIntros "Hq".
  iApply wpm_bind. iApply wpm_free_pointer. iFrame "Hh". iIntros (f1 H1). iApply wpm_bind. iApply wpm_update. iFrame "Hq". iIntros "Hq".
  iApply wpm_bind. iApply wpm_free_pointer. iFrame "Hu". iIntros (f2 H2). iApply wpm_bind. iApply wpm_update. iFrame "Hq". iIntros "Hq".
  iApply wpm_bind. iApply wpm_free_pointer. iFrame "Hb". iIntros (f3 H3). iApply wpm_bind. iApply wpm_update. iFrame "Hq". iIntros "Hq".
  iApply wpm_bind. iApply wpm_free_pointer. iFrame "Hf". iIntros (f4 H4). iApply wpm_bind. iApply wpm_update. iFrame "Hq". iIntros "Hq".
  iApply wpm_bind. unfold release_groupdn. rw -Hg -Hlen. 
  iApply (wpm_release_slots q 0 (set_b_filter None (set_b_base None (set_b_uri None (set_b_host None cb)))) (b_groupdn cb) (groupdn c));
    [done|]. iFrame "Hq Hs".
  iIntros (f5 H5) "Hq". iApply wpm_free. iFrame "Hq". iApply "HΦ". iPureIntro. intros Hc. apply clean_cons; [done|]. auto 10.
Qed.

Lemma base_info_success domain n folder size ret b :
  parse_ldap_base_info (Some domain) n (Some folder) (Some []) size = Some (ret, b) -> n <> 0 -> size <> 0%nat ->
  ret = LDAP_AUTH_SUCCESS /\ is_Some b.
Proof.
  unfold parse_ldap_base_info. intros Hp Hn Hz. rw (proj2 (Z.eqb_neq n 0) Hn) (proj2 (Nat.eqb_neq size 0) Hz) in Hp.
  cbn [orb] in Hp. repeat case_match; try done; by injection Hp as <- <-.
Qed.

(** The names lost by the time the configuration is read. *)
Definition lost_names (i : LDAP_AUTH_INFO) : list (list ascii) :=
  lost_groups (user_domain i) (groups i) (replicate MAX_USER_GROUP None).

Lemma wpm_read_ldap_config i rc c fr (e : list event) Φ :
  LdapConfig.read_ldap_config true None i = Some (rc, Some c) ->
  (∀ q, is_config q c -∗ leaked (map Text (lost_names i)) -∗ Φ (rc, Some q) fr e)
  ⊢ wpm (read_ldap_config true None i) fr e Φ.
Proof.
  unfold LdapConfig.read_ldap_config, read_ldap_config. cbn [LdapConfig.alloc_config].
  iIntros (Hr) "HΦ". iApply wpm_bind. iApply wpm_bind. iApply wpm_malloc. iIntros (q) "Hq".
  iApply wpm_bind. iApply wpm_update. iFrame "Hq". iIntros "Hq". iApply wpm_ret.
  iApply wpm_bind. iApply wpm_bind. iApply wpm_malloc. iIntros (hp) "Hh". iApply wpm_bind. iApply wpm_update. iFrame "Hq". iIntros "Hq".
  iApply wpm_ret. iApply wpm_bind. iApply wpm_store. iFrame "Hh". iIntros "Hh".
  iApply wpm_bind. iApply wpm_update. iFrame "Hq". iIntros "Hq".
  iApply wpm_bind. iApply wpm_malloc. iIntros (bp) "Hb". iApply wpm_bind. iApply wpm_update. iFrame "Hq". iIntros "Hq".
  revert Hr. destruct (parse_ldap_base_info _ _ _ _ _) as [[ret b]|] eqn:Eb; [|done].
  apply base_info_success in Eb as (-> & t & ->); [|done|done]. intros Hr.
  iApply wpm_bind. iApply wpm_store. iFrame "Hb". iIntros "Hb". 
  change (LDAP_AUTH_SUCCESS =? LDAP_AUTH_ERROR) with false in Hr |- *. cbv beta iota in Hr |- *.
  iApply wpm_bind. iApply wpm_update. iFrame "Hq". iIntros "Hq". iApply wpm_bind. revert Hr.
  destruct (Z.of_nat (length (group i)) <? group_cnt i); [done|].
  destruct (LdapConfig.read_groupdn _ _ _) as [dns|] eqn:Eg; [|done]. intros [= <- <-].
  iApply wpm_read_groupdn; [exact Eg|]. iFrame "Hq".
  iSplitR; [by repeat iSplit|]. iIntros (ps) "Hq Hs Hl". iApply wpm_bind. iApply wpm_update. iFrame "Hq". iIntros "Hq".
  iApply wpm_ret. iApply ("HΦ" with "[-Hl] Hl"). iExists _. iFrame "Hq".
  iSplit; [iPureIntro; cbn; by destruct (auth_port i =? 0)|].
  destruct (_ =? 0); (iSplit; [done|]; iFrame "Hh Hb Hs"; iApply opt_text_none).
Qed.
End config.

(** ** The whole authentication *)

Lemma read_groupdn_length ud gs dns dns' : LdapConfig.read_groupdn ud gs dns = Some dns' -> length dns' = length dns.
Proof.
  revert dns. induction gs as [|g gs IH]; intros dns; [by intros [= <-]|]. rw config_read_groupdn_cons.
  destruct (negb _); [done|]. destruct (group_dn ud g) as [[ret dn]|]; [|done].
  destruct (ret =? LDAP_AUTH_ERROR); [intros [= <-]|intros ->%IH]; by rw length_insert.
Qed.

Lemma read_config_run `{LdapCodes} calloc_ok i rc c :
  LdapConfig.read_ldap_config calloc_ok None i = Some (rc, Some c) ->
  calloc_ok = true /\ rc = LDAP_AUTH_SUCCESS /\ length (groupdn c) = MAX_USER_GROUP.
Proof.
  unfold LdapConfig.read_ldap_config. destruct calloc_ok; [|done]. cbn [LdapConfig.alloc_config].
  destruct (parse_ldap_base_info _ _ _ _ _) as [[ret b]|] eqn:Eb; [|done].
  apply base_info_success in Eb as (-> & t & ->); [|done|done].
  change (LDAP_AUTH_SUCCESS =? LDAP_AUTH_ERROR) with false. cbv beta iota.
  destruct (Z.of_nat (length (group i)) <? group_cnt i); [done|].
  destruct (LdapConfig.read_groupdn _ _ _) as [dns|] eqn:Eg; [|done]. intros [= <- <-]. split; [done|]. split; [done|].
  by apply read_groupdn_length in Eg.
Qed.

Lemma read_config_none `{LdapCodes} calloc_ok i rc :
  LdapConfig.read_ldap_config calloc_ok None i = Some (rc, None) -> rc = LDAP_AUTH_SUCCESS.
Proof.
  unfold LdapConfig.read_ldap_config. destruct calloc_ok; [|by intros [= <-]]. cbn [LdapConfig.alloc_config].
  destruct (parse_ldap_base_info _ _ _ _ _) as [[ret b]|]; [|done]. destruct (ret =? LDAP_AUTH_ERROR); [done|].
  by destruct (Z.of_nat _ <? _); [|destruct (LdapConfig.read_groupdn _ _ _)].
Qed.

(** No function replaces the strings of the configuration. *)
Class Keeps {A} (x : M A) : Prop := keeps s a s' : x s = Some (a, s') -> same_config (conf s) (conf s').

#[export] Instance keeps_plain {A} (x : M A) : Tame x -> Keeps x | 10.
Proof. intros Hx s a s' Hr. by destruct (Hx s a s' Hr). Qed.
#[export] Instance keeps_bind {A B} (x : M A) (f : A -> M B) : Keeps x -> (forall a, Keeps (f a)) -> Keeps (x ≫= f) | 20.
Proof. intros Hx Hf s b s' Hr. run_inv Hr. etrans; [by eapply Hx|by eapply Hf]. Qed.
#[export] Instance keeps_lift {A} (o : option A) : Keeps (lift o).
Proof. intros s a s' Hr. unfold lift in Hr. destruct o; [|done]. by injection Hr as _ <-. Qed.
#[export] Hint Extern 30 (Keeps (match ?x with _ => _ end)) => destruct x : typeclass_instances.

Section keeps.
Context `{LdapCodes} (lib : openldap_lib).

#[export] Instance keeps_sasl_call dn mech flags d : Keeps (LdapServer.ldap_sasl_interactive_bind_s lib dn mech flags d).
Proof. intros s rc s' Hr. by destruct (sasl_call_run _ _ _ _ _ _ _ _ Hr) as (-> & _). Qed.
#[export] Instance keeps_sasl i : Keeps (LdapServer.do_sasl_bind lib i).
Proof.
  unfold LdapServer.do_sasl_bind, LdapServer.set_sasl_config, LdapServer.try_ldap_sasl_interactive_bind, LdapServer.sasl_defaults,
    LdapServer.alloc_sasl_defaults, dup_or_option. apply _.
Qed.
#[export] Instance keeps_authenticate i g : Keeps (LdapAuth.authenticate_session lib i g).
Proof.
  unfold LdapAuth.authenticate_session, LdapAuth.ldap_proxyuser_auth, LdapAuth.ldap_auth, LdapAuth.auth_bind,
    LdapAuth.proxy_bind, LdapAuth.rebind_user, LdapServer.ldap_bind_user. apply _.
Qed.
End keeps.

Section whole.
Context `{LdapCodes} (lib : openldap_lib) (laws : well_behaved lib).

Lemma close_nothing s a s' : close_handle lib s = Some (a, s') -> ld s = false -> s' = s.
Proof. unfold close_handle. intros Hr Hl. run_inv Hr. injection Hrun as <- <-. rw Hl in Hr. by injection Hr. Qed.

(** The session is freed with its configuration, and the copies lost stay. *)
Lemma wpm_cleanup p s a s' fr Φ :
  close_handle lib s = Some (a, s') -> length (groupdn (conf s)) = MAX_USER_GROUP ->
  books p s ∗ (∀ fr', <affine> ⌜clean fr -> clean fr'⌝ -∗ secrets (lost_passwords false (trace s')) -∗ Φ tt fr' (trace s'))
  ⊢ wpm (ldap_cleanup_session lib (Some p)) fr (trace s) Φ.
Proof.
  iIntros (Hr Hg) "[[(%q & Hp & Hq) Hl] HΦ]". destruct (tame _ _ _ Hr) as [Hc _].
  assert (Hg' : length (groupdn (conf s')) = MAX_USER_GROUP) by (destruct (same_config_fields _ _ Hc) as (_ & -> & _); exact Hg).
  pose proof (lost_plain _ _ _ _ Hr) as Elost. cbn [ldap_cleanup_session].
  iApply wpm_bind. iApply wpm_load_session. iFrame "Hp". iIntros "Hp". cbn. iApply wpm_bind.
  iAssert (is_session p s) with "[Hp Hq]" as "Hs"; [iExists q; iFrame|].
  iAssert (∀ fr1, <affine> ⌜fr1 = fr⌝ -∗ is_session p s' -∗
    wpm ('(_, q) ← load_session p; _ ← release_config q; free p) fr1 (trace s') Φ)%I with "[Hl HΦ]" as "Hrest".
  { iIntros (fr1 ->) "(%q' & Hp & Hq)". iApply wpm_bind. iApply wpm_load_session. iFrame "Hp". iIntros "Hp". cbn.
    iApply wpm_bind. iApply wpm_release_config; [exact Hg'|]. iFrame "Hq". iIntros (f1 H1). iApply wpm_free. iFrame "Hp".
    rw Elost. iApply ("HΦ" with "[] Hl"). iPureIntro. intros Hf. apply clean_cons; auto. }
  destruct (ld s) eqn:El.
  - iApply wpm_with_session; [exact Hr|done|]. iFrame "Hs". iIntros "Hs". by iApply "Hrest".
  - rw (close_nothing _ _ _ Hr El). iApply wpm_ret. by iApply "Hrest".
Qed.

Lemma wpm_ldap_authenticate calloc_ok i g rc g' i' tr Φ :
  LdapAuth.ldap_authenticate lib calloc_ok i g = Some (rc, g', i', tr) ->
  (∀ fr, <affine> ⌜clean fr⌝ -∗ leaked (map Text (lost_names i)) -∗ secrets (lost_passwords false tr) -∗ Φ (rc, g', i') fr tr)
  ⊢ wpm (ldap_authenticate lib calloc_ok i g) [] [] Φ.
Proof.
  unfold LdapAuth.ldap_authenticate. destruct (LdapConfig.read_ldap_config calloc_ok None i) as [[rc0 [c|]]|] eqn:Ec; [| |done].
  2: { by apply read_config_none in Ec as ->. }
  destruct (read_config_run _ _ _ _ Ec) as (-> & -> & Hg). change (negb (LDAP_AUTH_SUCCESS =? LDAP_AUTH_SUCCESS)) with false. cbv beta iota.
  set (s := {| ld := false; conf := c; trace := [] |}). 
  match goal with |- context [?x s] => destruct (x s) as [[r s2]|] eqn:Hrun end; [|done]. intros Hr.
  run_inv Hrun. run_inv Hrun. injection Hrun as <- <-.
  assert (Hc : length (groupdn (conf s0)) = MAX_USER_GROUP).
  { apply keeps in Hrun0. destruct (same_config_fields _ _ Hrun0) as (_ & -> & _). exact Hg. }
  destruct a as [[rc1 g1] i1]. injection Hr as <- <- <- <-. iIntros "HΦ".
  iApply wpm_bind. iApply wpm_bind. iApply wpm_malloc. iIntros (p) "Hp".
  iApply wpm_bind. iApply wpm_read_ldap_config; [exact Ec|]. iIntros (q) "Hq Hn". cbv beta iota.
  iApply wpm_bind. iApply wpm_store. iFrame "Hp". iIntros "Hp".
  change (negb (LDAP_AUTH_SUCCESS =? LDAP_AUTH_SUCCESS)) with false. cbv beta iota. iApply wpm_ret.
  iApply wpm_bind. change [] with (trace s) at 2.
  iApply (authenticate_session_refines lib laws p i g); [exact Hrun0|done|]. iSplitL "Hp Hq".
  { iSplitL; [iExists q; iFrame|]. subst s. cbn [trace lost_passwords secrets]. by iApply big_sepL_nil. }
  iIntros (f1 Hf1) "Ho". iApply wpm_bind. iApply wpm_cleanup; [exact Hrun1|exact Hc|]. iFrame "Ho". iIntros (f2 Hf2) "Hl".
  iApply wpm_ret. iApply ("HΦ" with "[] Hn Hl"). iPureIntro. apply Hf2, Hf1. by constructor.
Qed.
End whole.

(** ** What is left *)

Lemma secrets_leaked l : secrets l ⊢ leaked (map Secret l).
Proof. unfold leaked, secrets. induction l as [|s l IH]; [done|]. cbn. by rw IH. Qed.

(** Groups with slots of their own. *)
Definition group_slot (g : LDAP_GROUP_INFO) : nat := Z.to_nat (u8 (group_inner_id g - 1)).

Lemma lost_groups_nil ud gs dns :
  NoDup (map group_slot gs) -> (forall g, g ∈ gs -> default None (dns !! group_slot g) = None) -> lost_groups ud gs dns = [].
Proof.
  revert dns. induction gs as [|g gs IH]; intros dns Hn Hf; [done|]. apply NoDup_cons in Hn as [Hg Hn].
  rw lost_groups_cons. destruct (group_dn ud g) as [[ret dn]|]; [|done].
  pose proof (Hf g (list_elem_of_here _ _)) as H0. unfold group_slot in H0. rw H0. destruct (ret =? _); [done|].
  cbn [option_list app]. apply IH; [done|]. intros g' Hg'. rw list_lookup_insert_ne.
  - apply Hf. by right.
  - intros E. apply Hg. change (group_slot g = group_slot g') in E. rw E. by apply list_elem_of_fmap_2.
Qed.

Section memory.
Context `{LdapCodes} (lib : openldap_lib) (laws : well_behaved lib).

(** C10: An authentication on the heap gives what it gives on values, uses no block that is not allocated and frees none
    twice, leaves the blocks of others alone, and gives back all of its own, search results, values, tables and names
    included, on every path, except exactly these: the names of groups that another group replaced (none when the
    inner ids differ) and the passwords of the SASL binds that were refused. No password is in a block that it freed. *)
Theorem authentication_memory calloc_ok i g rc g' i' tr F :
  LdapAuth.ldap_authenticate lib calloc_ok i g = Some (rc, g', i', tr) ->
  exists left fr,
    ldap_authenticate lib calloc_ok i g {| blocks := F; freed := []; env := [] |} =
      Some ((rc, g', i'), {| blocks := left ∪ F; freed := fr; env := tr |}) /\
    left ##ₘ F /\
    (map_to_list left).*2 ≡ₚ map Text (lost_names i) ++ map Secret (lost_passwords false tr) /\
    (NoDup (map group_slot (groups i)) -> lost_names i = []) /\
    (forall s, Secret s ∈ fr -> s = []).
Proof.
  intros Hr. edestruct (wpm_run (ldap_authenticate lib calloc_ok i g) [] []
    (fun a fr e => <affine> ⌜a = (rc, g', i') /\ e = tr /\ clean fr⌝ ∗ leaked (map Text (lost_names i) ++ map Secret (lost_passwords false tr)))%I F)
    as (a & h & fr & e & Hx & Hd & HQ).
  { iApply wpm_ldap_authenticate; [exact laws|exact Hr|]. iIntros (fr Hc) "Hn Hl". iSplit; [done|].
    iApply (leaked_app with "Hn"). by iApply secrets_leaked. }
  apply affine_at in HQ as [(-> & -> & Hc) Hl]. exists h, fr. split; [exact Hx|]. split; [exact Hd|].
  split; [by apply leaked_blocks|]. split.
  - intros Hn. apply lost_groups_nil; [exact Hn|]. intros x _. destruct (_ !! _) as [o|] eqn:E; [|done].
    by apply lookup_replicate in E as [-> _].
  - intros s Hs. unfold clean in Hc. rw Forall_forall in Hc. by apply (Hc _ Hs).
Qed.
End memory.

(** *** At a concrete input: a user whose password the directory refuses *)

Definition guess : LDAP_AUTH_INFO := with_names [] [] (lit "bob") (lit "guess") demo_config.
Definition some_block : gmap positive cell := {[ 7%positive := Text (lit "other") ]}.

Example guess_lost :
  match LdapAuth.ldap_authenticate demo_lib true guess [255; 255] with
  | Some (rc, _, _, tr) => rc = RET_ERR /\ lost_names guess = [] /\ lost_passwords false tr = [lit "guess"]
  | None => False
  end.
Proof. vm_compute. repeat split. Qed.

Lemma authentication_memory_witness :
  match LdapAuth.ldap_authenticate demo_lib true guess [255; 255] with
  | Some (rc, g', i', tr) =>
      exists left fr,
        ldap_authenticate demo_lib true guess [255; 255] {| blocks := some_block; freed := []; env := [] |} =
          Some ((rc, g', i'), {| blocks := left ∪ some_block; freed := fr; env := tr |}) /\
        left ##ₘ some_block /\ (map_to_list left).*2 ≡ₚ [Secret (lit "guess")] /\
        (NoDup (map group_slot (groups guess)) -> lost_names guess = []) /\ (forall s, Secret s ∈ fr -> s = [])
  | None => False
  end.
Proof.
  pose proof guess_lost as Hl. destruct (LdapAuth.ldap_authenticate demo_lib true guess [255; 255]) as [[[[rc g'] i'] tr]|] eqn:E; [|exact Hl].
  destruct Hl as (_ & Hn & Hp).
  destruct (authentication_memory demo_lib demo_laws true guess [255; 255] rc g' i' tr some_block E)
    as (left & fr & Hx & Hd & Hm & Hs & Hc).
  exists left, fr. rw Hn Hp in Hm. repeat split; assumption.
Defined.
