(* ===== verification/KeyMemory.v ===== *)
(** * password.c and comm_utils.c: what is allocated for keys, ciphers and patterns

    The functions of Password that use OpenSSL or GLib, with their memory: contexts, keys, BIOs, the buffers of texts and
    keys, in the logic of Memory. A buffer is secret when a private key or a decrypted text is written to it. The
    functions compute what those of Password compute; the theorems say what they leave behind, and which secrets
    are still readable in the blocks that they free. *)
From S2P Require Export Password.
From S2P Require Export Memory.
Open Scope Z_scope.

(** ** Blocks *)

Inductive block (o : openssl) :=
  | Chars (secret : bool) (s : list ascii)
  | Bytes (secret : bool) (l : list Z)
  | Bio (s : list ascii)
  | Key (k : EVP_PKEY o)
  | KeyCtx
  | CipherCtx
  | Provider
  | Regex (refs : nat)
  | MatchInfo.
Arguments Chars {o}. Arguments Bytes {o}. Arguments Bio {o}. Arguments Key {o}. Arguments KeyCtx {o}.
Arguments CipherCtx {o}. Arguments Provider {o}. Arguments Regex {o}. Arguments MatchInfo {o}.

(** Whether OpenSSL overwrites what it frees: BIO_free the text of a memory BIO, EVP_PKEY_free the numbers of a key. *)
Class Erasure := { BIO_free_erases : bool; EVP_PKEY_free_erases : bool }.

(** As its documentation says, it does. *)
Class Erases `{Erasure} : Prop := { bio_erased : BIO_free_erases = true; key_erased : EVP_PKEY_free_erases = true }.

(** Something secret can be read in the buffer. *)
Definition readable {o} (b : block o) : bool :=
  match b with
  | Chars true s => existsb (fun c => negb (char_eqb c NUL)) s
  | Bytes true l => existsb (fun z => negb (z =? 0)) l
  | _ => false
  end.

(** What can be read in a block after it has been freed; any key and the text of any key in a BIO count. *)
Definition exposed `{Erasure} {o} (b : block o) : bool :=
  match b with
  | Bio s => negb BIO_free_erases && negb (length s =? 0)%nat
  | Key _ => negb EVP_PKEY_free_erases
  | _ => readable b
  end.
Definition spilled `{Erasure} {o} (fr : list (block o)) : list (block o) := List.filter exposed fr.

Section keys.
Context (o : openssl).

Definition KM (A : Type) : Type := Mem (block o) unit A.

Definition load_chars (p : positive) : KM (list ascii) :=
  c ← load p; match c with Chars _ s => mret s | _ => undefined end.
Definition load_bytes (p : positive) : KM (list Z) :=
  c ← load p; match c with Bytes _ l => mret l | _ => undefined end.
Definition load_key (p : positive) : KM (EVP_PKEY o) :=
  c ← load p; match c with Key k => mret k | _ => undefined end.

(** Bytes written at the beginning of a buffer. *)
Definition write_chars (p : positive) (s : list ascii) : KM unit :=
  c ← load p;
  match c with
  | Chars secret old => if (length s <=? length old)%nat then store p (Chars secret (s ++ drop (length s) old)) else undefined
  | _ => undefined
  end.
Definition write_bytes (p : positive) (l : list Z) : KM unit :=
  c ← load p;
  match c with
  | Bytes secret old => if (length l <=? length old)%nat then store p (Bytes secret (l ++ drop (length l) old)) else undefined
  | _ => undefined
  end.

(** An object of OpenSSL, when there is memory for it; and its end: NULL is ignored. *)
Definition new_object (ok : bool) (b : block o) : KM (option positive) :=
  if ok then p ← malloc b; mret (Some p) else mret None.
Definition free_object (p : option positive) : KM unit :=
  match p with Some p => free p | None => mret tt end.

(** ** Keys as text *)

(** The text of a key is written to [*key_str], an array of [KEY_MAX_SIZE] characters. *)
Definition convert_key_to_string (pem : option (list ascii)) (key_str : positive) : KM Z :=
  bio ← new_object (bio_new o) (Bio []);
  match bio with
  | None => mret RET_ERR
  | Some bio =>
      match pem with
      | None => _ ← free bio; mret RET_ERR
      | Some written =>
          _ ← store bio (Bio written);
          if KEY_MAX_SIZE <=? Z.of_nat (length written) then _ ← free bio; mret RET_ERR
          else if (length written =? 0)%nat then _ ← free bio; mret RET_ERR
          else
            _ ← write_chars key_str written;
            _ ← free bio;
            mret RET_OK
      end
  end.

Definition convert_private_key_to_string (pkey : option positive) (key_str : positive) : KM Z :=
  match pkey with
  | None => mret RET_ERR
  | Some pkey => k ← load_key pkey; convert_key_to_string (pem_write_private o k) key_str
  end.
Definition convert_public_key_to_string (pkey : option positive) (key_str : positive) : KM Z :=
  match pkey with
  | None => mret RET_ERR
  | Some pkey => k ← load_key pkey; convert_key_to_string (pem_write_public o k) key_str
  end.

(** [PEM_read_bio_PrivateKey] or [PEM_read_bio_PUBKEY] allocates the key; every path ends at [BIO_free]. *)
Definition convert_string_to_pkey (key : option (list ascii)) (key_len : Z) (is_private_key : bool) : KM (option positive) :=
  match key with
  | None => mret None
  | Some key =>
      bio ← new_object (bio_new o) (Bio []);
      match bio with
      | None => mret None
      | Some bio =>
          if key_len <=? 0 then _ ← free bio; mret None
          else
            let text := take (Z.to_nat key_len) key in
            _ ← store bio (Bio text);
            pkey ← (match (if is_private_key then pem_read_private o text else pem_read_public o text) with
                    | None => mret None
                    | Some k => p ← malloc (Key k); mret (Some p)
                    end);
            _ ← free bio;
            mret pkey
      end
  end.

(** ** Key pairs *)

Definition generate_key_pair (public_key private_key : positive) : KM Z :=
  pkctx ← new_object (pkey_ctx_new o) KeyCtx;
  match pkctx with
  | None => mret RET_ERR
  | Some pkctx =>
      if keygen_init o =? RET_ERR then _ ← free pkctx; mret RET_ERR
      else
        let '(ret, k) := keygen o in
        if ret =? RET_ERR then _ ← free pkctx; mret RET_ERR
        else
          pkey ← (match k with None => mret None | Some k => p ← malloc (Key k); mret (Some p) end);
          ret ← convert_private_key_to_string pkey private_key;
          if negb (ret =? RET_OK) then _ ← free pkctx; _ ← free_object pkey; mret ret
          else
            ret ← convert_public_key_to_string pkey public_key;
            if negb (ret =? RET_OK) then _ ← free pkctx; _ ← free_object pkey; mret ret
            else _ ← free pkctx; _ ← free_object pkey; mret RET_OK
  end.

(** [l_generate_requested_key_pair]: the texts that Lua gets, or an error. *)
Definition requested_key_pair : KM (option (list ascii * list ascii)) :=
  public_key ← malloc (Chars false (replicate (Z.to_nat KEY_MAX_SIZE) NUL));
  private_key ← malloc (Chars true (replicate (Z.to_nat KEY_MAX_SIZE) NUL));
  ret ← generate_key_pair public_key private_key;
  if ret =? RET_ERR then
    _ ← free public_key;
    _ ← free private_key;
    mret None
  else
    pub ← load_chars public_key;
    priv ← load_chars private_key;
    _ ← write_chars private_key (replicate (Z.to_nat KEY_MAX_SIZE) NUL);
    _ ← free public_key;
    _ ← free private_key;
    mret (Some (pub, priv)).

(** ** Encryption *)

(** Both directions; [text] is the caller's pointer, [secret] what will be written behind it. *)
Definition crypt (secret : bool) (pkey : option positive) (init : Z) (size : EVP_PKEY o -> list Z -> Z * Z)
    (op : EVP_PKEY o -> list Z -> Z * list Z) (input : list Z) (text : option positive) : KM (Z * option positive) :=
  match pkey with
  | None => mret (RET_ERR, text)
  | Some pkey =>
      ctx ← new_object (pkey_ctx_new o) KeyCtx;
      match ctx with
      | None => _ ← free pkey; mret (RET_ERR, text)
      | Some ctx =>
          if init <=? 0 then _ ← free ctx; _ ← free pkey; mret (RET_ERR, text)
          else
            k ← load_key pkey;
            let '(ret, len) := size k input in
            if ret <=? 0 then _ ← free ctx; _ ← free pkey; mret (RET_ERR, text)
            else if len =? 0 then _ ← free ctx; _ ← free pkey; mret (RET_ERR, text)
            else
              text ← new_object (malloc_ok o len) (Bytes secret (replicate (Z.to_nat len) 0));
              match text with
              | None => _ ← free ctx; _ ← free pkey; mret (RET_ERR, None)
              | Some p =>
                  let '(ret, out) := op k input in
                  _ ← write_bytes p out;
                  let len := Z.of_nat (length out) in
                  _ ← free ctx;
                  if (ret <=? 0) || (len <=? 0) then
                    _ ← free pkey;
                    _ ← free p;
                    mret (RET_ERR, None)
                  else
                    _ ← free pkey;
                    mret (s32 len, Some p)
              end
      end
  end.

Definition encrypt_with_public_key (pub_key : option (list ascii)) (pub_key_len : Z) (passwd : list Z)
    (cipher_text : option positive) : KM (Z * option positive) :=
  pkey ← convert_string_to_pkey pub_key pub_key_len false;
  crypt false pkey (encrypt_init o) (encrypt_size o) (pkey_encrypt o) passwd cipher_text.

Definition decrypt_with_private_key (priv_key : option (list ascii)) (priv_key_len : Z) (ciphertext : list Z)
    (plaintext : option positive) : KM (Z * option positive) :=
  pkey ← convert_string_to_pkey priv_key priv_key_len true;
  crypt true pkey (decrypt_init o) (decrypt_size o) (pkey_decrypt o) ciphertext plaintext.

(** The end of [l_encrypt_with_public_key] and of [l_decrypt_with_private_key]: what Lua gets. *)
Definition answer (r : Z * option positive) : KM (list Z) :=
  let '(len, text) := r in
  if len <=? 0 then mret []
  else
    match text with
    | None => undefined
    | Some p =>
        l ← load_bytes p;
        _ ← free p;
        mret (take (Z.to_nat len) l)
    end.

Definition encrypt_call (pub_key : list ascii) (pub_key_len : Z) (passwd : list Z) : KM (list Z) :=
  r ← encrypt_with_public_key (Some pub_key) pub_key_len passwd None; answer r.
Definition decrypt_call (priv_key : list ascii) (priv_key_len : Z) (ciphertext : list Z) : KM (list Z) :=
  r ← decrypt_with_private_key (Some priv_key) priv_key_len ciphertext None; answer r.

(** ** The DES step of VNC: the reference to the provider that is loaded is never given back *)
Definition vnc_encrypt_bytes (legacy : bool) (key input : list Z) : KM (Z * list Z) :=
  let Revkey := map Password.reverse (take KEYLENS key) in
  _ ← new_object legacy Provider;
  encrypt ← new_object (cipher_ctx_new o) CipherCtx;
  match encrypt with
  | None => mret (RET_ERR, [])
  | Some encrypt =>
      if negb (des_init o Revkey) then _ ← free encrypt; mret (RET_ERR, [])
      else
        match des_update o Revkey input with
        | None => _ ← free encrypt; mret (RET_ERR, [])
        | Some out =>
            match des_final o Revkey input with
            | None => _ ← free encrypt; mret (RET_ERR, out)
            | Some last => _ ← free encrypt; mret (RET_OK, out ++ last)
            end
        end
  end.

(** ** Patterns *)
Section patterns.
Context {GRegex : Type} (g_regex_new : list ascii -> option GRegex) (g_regex_match : GRegex -> list ascii -> bool).
(** A match keeps a reference to its expression. *)
Context (refs_regex : bool).

Definition regex_new (pattern : list ascii) : KM (option (positive * GRegex)) :=
  match g_regex_new pattern with
  | None => mret None
  | Some r => p ← malloc (Regex 1); mret (Some (p, r))
  end.

Definition regex_ref (p : positive) : KM unit :=
  c ← load p; match c with Regex n => store p (Regex (S n)) | _ => undefined end.
Definition regex_unref (p : positive) : KM unit :=
  c ← load p;
  match c with
  | Regex (S (S n)) => store p (Regex (S n))
  | Regex 1 => free p
  | _ => undefined
  end.

(** [g_regex_match] with a place for the match: it is allocated whatever the answer. *)
Definition regex_match (p : positive) (r : GRegex) (s : list ascii) : KM (bool * positive) :=
  _ ← (if refs_regex then regex_ref p else mret tt);
  info ← malloc MatchInfo;
  mret (g_regex_match r s, info).

Definition check_pattern (pattern : list ascii) : KM Z :=
  if negb (pattern_validator pattern =? RET_OK) then mret RET_ERR
  else
    regex ← regex_new pattern;
    match regex with
    | None => mret RET_ERR
    | Some (p, _) => _ ← regex_unref p; mret RET_OK
    end.

(** The match is never freed. *)
Definition verify_passwd_with_pattern (pattern passwd : list ascii) : KM Z :=
  if negb (pattern_validator pattern =? RET_OK) then mret RET_ERR
  else
    regex ← regex_new pattern;
    match regex with
    | None => mret RET_ERR
    | Some (p, r) =>
        '(is_match, _) ← regex_match p r passwd;
        _ ← regex_unref p;
        mret (if negb is_match then RET_ERR else RET_OK)
    end.
End patterns.
End keys.

(** ** Runs, up to the blocks that are freed without secrets *)

#[export] Program Instance spilled_view `{Erasure} o : View (C := block o) spilled := { seen c l := (if exposed c then [c] else []) ++ l }.
Next Obligation. intros E o c fr. unfold spilled. cbn [List.filter]. by destruct (exposed c). Qed.

Notation wps := (wpv spilled).

Section runs.
Context `{Erases} {o : openssl}.
Implicit Types (l : list (block o)) (p : positive) (c : block o).

Lemma exposed_readable c : exposed c = readable c.
Proof. destruct c; try done; cbn; [by rw bio_erased|by rw key_erased]. Qed.

Lemma wps_free p c l Φ : p ↦ c ∗ Φ tt ((if readable c then [c] else []) ++ l) ⊢ wps (free p) l Φ.
Proof. rw -exposed_readable. exact (wpv_free spilled p c l Φ). Qed.

Lemma wps_object (ok : bool) c l Φ :
  (∀ r, (if ok then ∃ p, <affine> ⌜r = Some p⌝ ∗ p ↦ c else <affine> ⌜r = None⌝) -∗ Φ r l) ⊢ wps (new_object o ok c) l Φ.
Proof.
  iIntros "HΦ". destruct ok; cbn [new_object].
  - iApply wpv_bind. iApply wpv_malloc. iIntros (p) "Hp". iApply wpv_ret. iApply "HΦ". iExists p. by iFrame.
  - iApply wpv_ret. by iApply "HΦ".
Qed.

Lemma wps_load_chars p b s l Φ : p ↦ Chars b s ∗ (p ↦ Chars b s -∗ Φ s l) ⊢ wps (load_chars o p) l Φ.
Proof. iIntros "[Hp HΦ]". iApply wpv_bind. iApply wpv_load. iFrame "Hp". iIntros "Hp". iApply wpv_ret. by iApply "HΦ". Qed.

Lemma wps_load_bytes p b s l Φ : p ↦ Bytes b s ∗ (p ↦ Bytes b s -∗ Φ s l) ⊢ wps (load_bytes o p) l Φ.
Proof. iIntros "[Hp HΦ]". iApply wpv_bind. iApply wpv_load. iFrame "Hp". iIntros "Hp". iApply wpv_ret. by iApply "HΦ". Qed.

Lemma wps_load_key p k l Φ : p ↦ Key k ∗ (p ↦ Key k -∗ Φ k l) ⊢ wps (load_key o p) l Φ.
Proof. iIntros "[Hp HΦ]". iApply wpv_bind. iApply wpv_load. iFrame "Hp". iIntros "Hp". iApply wpv_ret. by iApply "HΦ". Qed.

Lemma wps_write_chars p b old s l Φ :
  (length s <= length old)%nat ->
  p ↦ Chars b old ∗ (p ↦ Chars b (s ++ drop (length s) old) -∗ Φ tt l) ⊢ wps (write_chars o p s) l Φ.
Proof.
  iIntros (Hs%Nat.leb_le) "[Hp HΦ]". iApply wpv_bind. iApply wpv_load. iFrame "Hp". iIntros "Hp". rw Hs. iApply wpv_store. iFrame.
Qed.

Lemma wps_write_bytes p b old s l Φ :
  (length s <= length old)%nat ->
  p ↦ Bytes b old ∗ (p ↦ Bytes b (s ++ drop (length s) old) -∗ Φ tt l) ⊢ wps (write_bytes o p s) l Φ.
Proof.
  iIntros (Hs%Nat.leb_le) "[Hp HΦ]". iApply wpv_bind. iApply wpv_load. iFrame "Hp". iIntros "Hp". rw Hs. iApply wpv_store. iFrame.
Qed.

(** *** Keys *)

Lemma convert_length pem old ret new :
  Password.convert_key_to_string o pem old = (ret, new) -> length old = Z.to_nat KEY_MAX_SIZE ->
  length new = length old /\ (ret = RET_OK \/ (ret = RET_ERR /\ new = old)).
Proof.
  unfold Password.convert_key_to_string. destruct (bio_new o); cbn [negb]; [|intros [= <- <-]; auto].
  destruct pem as [w|]; [|intros [= <- <-]; auto]. destruct (Z.leb_spec KEY_MAX_SIZE (Z.of_nat (length w))); [intros [= <- <-]; auto|].
  destruct (length w =? 0)%nat; intros [= <- <-]; [auto|]. intros Ho. split; [|auto]. rw length_app length_drop. lia.
Qed.

Lemma wps_convert pem b old ret new p l Φ :
  Password.convert_key_to_string o pem old = (ret, new) -> length old = Z.to_nat KEY_MAX_SIZE ->
  p ↦ Chars b old ∗ (p ↦ Chars b new -∗ Φ ret l) ⊢ wps (convert_key_to_string o pem p) l Φ.
Proof.
  unfold Password.convert_key_to_string. iIntros (Hr Ho) "[Hp HΦ]". iApply wpv_bind. iApply wps_object. iIntros (bio) "Hb".
  destruct (bio_new o); cbn [negb] in Hr.
  2: { injection Hr as <- <-. iDestruct "Hb" as %->. iApply wpv_ret. by iApply "HΦ". }
  iDestruct "Hb" as "(%q & -> & Hb)". destruct pem as [w|].
  2: { injection Hr as <- <-. iApply wpv_bind. iApply wps_free. iFrame "Hb". iApply wpv_ret. by iApply "HΦ". }
  iApply wpv_bind. iApply wpv_store. iFrame "Hb". iIntros "Hb".
  destruct (Z.leb_spec KEY_MAX_SIZE (Z.of_nat (length w))).
  { injection Hr as <- <-. iApply wpv_bind. iApply wps_free. iFrame "Hb". iApply wpv_ret. by iApply "HΦ". }
  destruct (length w =? 0)%nat.
  { injection Hr as <- <-. iApply wpv_bind. iApply wps_free. iFrame "Hb". iApply wpv_ret. by iApply "HΦ". }
  injection Hr as <- <-. iApply wpv_bind. iApply (wps_write_chars _ b old); [lia|]. iFrame "Hp". iIntros "Hp".
  iApply wpv_bind. iApply wps_free. iFrame "Hb". iApply wpv_ret. by iApply "HΦ".
Qed.

Definition opt_key (kp : option positive) (k : option (EVP_PKEY o)) : hPropI (block o) :=
  match kp, k with
  | Some kp, Some k => kp ↦ Key k
  | None, None => emp
  | _, _ => False
  end.

Lemma wps_free_key kp k l Φ : opt_key kp k ∗ Φ tt l ⊢ wps (free_object o kp) l Φ.
Proof.
  iIntros "[Hp HΦ]". destruct kp as [kp|], k as [k|]; cbn [opt_key free_object]; try iDestruct "Hp" as "[]".
  - iApply wps_free. cbn [readable app]. iFrame "Hp". iExact "HΦ".
  - by iApply wpv_ret.
Qed.

Lemma wps_private kp k b old ret new q l Φ :
  Password.convert_private_key_to_string o k (Some old) = (ret, Some new) -> length old = Z.to_nat KEY_MAX_SIZE ->
  opt_key kp k ∗ q ↦ Chars b old ∗ (opt_key kp k -∗ q ↦ Chars b new -∗ Φ ret l)
  ⊢ wps (convert_private_key_to_string o kp q) l Φ.
Proof.
  iIntros (Hr Ho) "(Hk & Hq & HΦ)". destruct kp as [kp|], k as [k|]; cbn [opt_key]; try iDestruct "Hk" as "[]".
  - cbn [Password.convert_private_key_to_string] in Hr. destruct (Password.convert_key_to_string _ _ _) as [ret' new'] eqn:E.
    injection Hr as -> ->. iApply wpv_bind. iApply wps_load_key. iFrame "Hk". iIntros "Hk".
    iApply wps_convert; [exact E|exact Ho|]. iFrame "Hq". by iApply "HΦ".
  - injection Hr as <- <-. iApply wpv_ret. by iApply ("HΦ" with "[]").
Qed.

Lemma wps_public kp k b old ret new q l Φ :
  Password.convert_public_key_to_string o k (Some old) = (ret, Some new) -> length old = Z.to_nat KEY_MAX_SIZE ->
  opt_key kp k ∗ q ↦ Chars b old ∗ (opt_key kp k -∗ q ↦ Chars b new -∗ Φ ret l)
  ⊢ wps (convert_public_key_to_string o kp q) l Φ.
Proof.
  iIntros (Hr Ho) "(Hk & Hq & HΦ)". destruct kp as [kp|], k as [k|]; cbn [opt_key]; try iDestruct "Hk" as "[]".
  - cbn [Password.convert_public_key_to_string] in Hr. destruct (Password.convert_key_to_string _ _ _) as [ret' new'] eqn:E.
    injection Hr as -> ->. iApply wpv_bind. iApply wps_load_key. iFrame "Hk". iIntros "Hk".
    iApply wps_convert; [exact E|exact Ho|]. iFrame "Hq". by iApply "HΦ".
  - injection Hr as <- <-. iApply wpv_ret. by iApply ("HΦ" with "[]").
Qed.

Lemma private_some k old ret new :
  Password.convert_private_key_to_string o k (Some old) = (ret, new) -> length old = Z.to_nat KEY_MAX_SIZE ->
  exists s, new = Some s /\ length s = length old /\ (ret = RET_OK \/ ret = RET_ERR).
Proof.
  unfold Password.convert_private_key_to_string. destruct k as [k|]; [|intros [= <- <-]; eauto].
  destruct (Password.convert_key_to_string _ _ _) as [r s] eqn:E. intros [= <- <-] Ho.
  apply convert_length in E as [Hl Hr]; [|done]. exists s. split_and!; [done|done|]. destruct Hr as [->|[-> _]]; auto.
Qed.

Lemma public_some k old ret new :
  Password.convert_public_key_to_string o k (Some old) = (ret, new) -> length old = Z.to_nat KEY_MAX_SIZE ->
  exists s, new = Some s /\ length s = length old /\ (ret = RET_OK \/ ret = RET_ERR).
Proof.
  unfold Password.convert_public_key_to_string. destruct k as [k|]; [|intros [= <- <-]; eauto].
  destruct (Password.convert_key_to_string _ _ _) as [r s] eqn:E. intros [= <- <-] Ho.
  apply convert_length in E as [Hl Hr]; [|done]. exists s. split_and!; [done|done|]. destruct Hr as [->|[-> _]]; auto.
Qed.

Lemma wps_generate pp qq pub priv ret pub' priv' l Φ :
  Password.generate_key_pair o (Some pub) (Some priv) = (ret, Some pub', Some priv') ->
  length pub = Z.to_nat KEY_MAX_SIZE -> length priv = Z.to_nat KEY_MAX_SIZE ->
  pp ↦ Chars false pub ∗ qq ↦ Chars true priv ∗ (pp ↦ Chars false pub' -∗ qq ↦ Chars true priv' -∗ Φ ret l)
  ⊢ wps (generate_key_pair o pp qq) l Φ.
Proof.
  unfold Password.generate_key_pair. iIntros (Hr Hpub Hpriv) "(Hp & Hq & HΦ)". iApply wpv_bind. iApply wps_object. iIntros (ctx) "Hc".
  destruct (pkey_ctx_new o); cbn [negb] in Hr.
  2: { injection Hr as <- <- <-. iDestruct "Hc" as %->. iApply wpv_ret. iApply ("HΦ" with "Hp Hq"). }
  iDestruct "Hc" as "(%c & -> & Hc)". destruct (keygen_init o =? RET_ERR).
  { injection Hr as <- <- <-. iApply wpv_bind. iApply wps_free. iFrame "Hc". iApply wpv_ret. iApply ("HΦ" with "Hp Hq"). }
  destruct (keygen o) as [ret1 k]. destruct (ret1 =? RET_ERR).
  { injection Hr as <- <- <-. iApply wpv_bind. iApply wps_free. iFrame "Hc". iApply wpv_ret. iApply ("HΦ" with "Hp Hq"). }
  iApply wpv_bind. iAssert (∀ kp, opt_key kp k -∗ wps (
      ret ← convert_private_key_to_string o kp qq;
      if negb (ret =? RET_OK) then _ ← free c; _ ← free_object o kp; mret ret
      else
        ret ← convert_public_key_to_string o kp pp;
        if negb (ret =? RET_OK) then _ ← free c; _ ← free_object o kp; mret ret
        else _ ← free c; _ ← free_object o kp; mret RET_OK) l Φ)%I with "[-]" as "Hrest".
  - iIntros (kp) "Hk". destruct (Password.convert_private_key_to_string o k (Some priv)) as [ret2 priv2] eqn:E.
    destruct (private_some _ _ _ _ E Hpriv) as (s & -> & Hs & _).
    iApply wpv_bind. iApply wps_private; [exact E|exact Hpriv|]. iFrame "Hk Hq". iIntros "Hk Hq". destruct (negb (ret2 =? RET_OK)).
    { injection Hr as <- <- <-. iApply wpv_bind. iApply wps_free. iFrame "Hc". iApply wpv_bind. iApply wps_free_key. iFrame "Hk".
      iApply wpv_ret. iApply ("HΦ" with "Hp Hq"). }
    destruct (Password.convert_public_key_to_string o k (Some pub)) as [ret3 pub3] eqn:E3.
    destruct (public_some _ _ _ _ E3 Hpub) as (s3 & -> & Hs3 & _).
    iApply wpv_bind. iApply wps_public; [exact E3|exact Hpub|]. iFrame "Hk Hp". iIntros "Hk Hp".
    destruct (negb (ret3 =? RET_OK)); injection Hr as <- <- <-; (iApply wpv_bind; iApply wps_free; iFrame "Hc"; iApply wpv_bind;
      iApply wps_free_key; iFrame "Hk"; iApply wpv_ret; iApply ("HΦ" with "Hp Hq")).
  - destruct k as [k|].
    + iApply wpv_bind. iApply wpv_malloc. iIntros (kp) "Hk". iApply wpv_ret. by iApply "Hrest".
    + iApply wpv_ret. by iApply ("Hrest" $! None with "[]").
Qed.

Lemma wiped_chars n : readable (o := o) (Chars true (replicate n NUL)) = false.
Proof. cbn. induction n; [done|]. cbn. by rw IHn. Qed.

Lemma wps_requested ret pub priv Φ :
  let buffer := Some (replicate (Z.to_nat KEY_MAX_SIZE) NUL) in
  Password.generate_key_pair o buffer buffer = (ret, Some pub, Some priv) -> length priv = Z.to_nat KEY_MAX_SIZE ->
  Φ (if ret =? RET_ERR then None else Some (pub, priv)) (if ret =? RET_ERR then spilled [Chars true priv] else [])
  ⊢ wps (requested_key_pair o) [] Φ.
Proof.
  iIntros (buffer Hr Hl) "HΦ". iApply wpv_bind. iApply wpv_malloc. iIntros (pp) "Hp". iApply wpv_bind. iApply wpv_malloc. iIntros (qq) "Hq".
  iApply wpv_bind. iApply wps_generate; [exact Hr|by rw length_replicate..|]. iFrame "Hp Hq". iIntros "Hp Hq".
  destruct (ret =? RET_ERR).
  - iApply wpv_bind. iApply wps_free. iFrame "Hp". iApply wpv_bind. iApply wps_free. iFrame "Hq". iApply wpv_ret.
    unfold spilled. cbn [List.filter app exposed]. by destruct (readable _).
  - iApply wpv_bind. iApply wps_load_chars. iFrame "Hp". iIntros "Hp". iApply wpv_bind. iApply wps_load_chars. iFrame "Hq". iIntros "Hq".
    iApply wpv_bind. iApply (wps_write_chars _ true priv); [by rw length_replicate Hl|]. iFrame "Hq". iIntros "Hq".
    rw drop_ge; [|by rw length_replicate Hl]. rw app_nil_r.
    iApply wpv_bind. iApply wps_free. iFrame "Hp". iApply wpv_bind. iApply wps_free. iFrame "Hq". iApply wpv_ret.
    by rw wiped_chars.
Qed.

(** *** Encryption and decryption *)

Lemma wps_string_to_pkey key len priv l Φ :
  (∀ kp, opt_key kp (Password.convert_string_to_pkey o key len priv) -∗ Φ kp l)
  ⊢ wps (convert_string_to_pkey o key len priv) l Φ.
Proof.
  iIntros "HΦ". destruct key as [key|]; cbn [Password.convert_string_to_pkey convert_string_to_pkey].
  2: { iApply wpv_ret. by iApply ("HΦ" $! None with "[]"). }
  iApply wpv_bind. iApply wps_object. iIntros (bio) "Hb". destruct (bio_new o); cbn [negb].
  2: { iDestruct "Hb" as %->. iApply wpv_ret. by iApply ("HΦ" $! None with "[]"). }
  iDestruct "Hb" as "(%q & -> & Hb)". destruct (len <=? 0).
  { iApply wpv_bind. iApply wps_free. iFrame "Hb". iApply wpv_ret. by iApply ("HΦ" $! None with "[]"). }
  iApply wpv_bind. iApply wpv_store. iFrame "Hb". iIntros "Hb". iApply wpv_bind.
  set (k := if priv then _ else _) in |- *. destruct k as [k|]; subst k || idtac.
  - iApply wpv_bind. iApply wpv_malloc. iIntros (kp) "Hk". iApply wpv_ret. iApply wpv_bind. iApply wps_free. iFrame "Hb".
    iApply wpv_ret. by iApply ("HΦ" $! (Some kp) with "Hk").
  - iApply wpv_ret. iApply wpv_bind. iApply wps_free. iFrame "Hb". iApply wpv_ret. by iApply ("HΦ" $! None with "[]").
Qed.

Section crypt.
Context (secret : bool) (init : Z) (size : EVP_PKEY o -> list Z -> Z * Z) (op : EVP_PKEY o -> list Z -> Z * list Z).

(** As documented: the size that is asked for first is enough. *)
Hypothesis fits : forall k input, Z.of_nat (length (snd (op k input))) <= snd (size k input).

(** What is in the buffer that is allocated for the answer, when the call gets that far. *)
Definition buffer_text (k : option (EVP_PKEY o)) (input : list Z) : option (list Z) :=
  match k with
  | None => None
  | Some k =>
      let '(ret, len) := size k input in
      if negb (pkey_ctx_new o) || (init <=? 0) || (ret <=? 0) || (len =? 0) || negb (malloc_ok o len) then None
      else Some (snd (op k input) ++ replicate (Z.to_nat len - length (snd (op k input))) 0)
  end.

(** The answer to Lua. *)
Definition answer_of (r : Z * option (list Z)) : list Z :=
  let '(len, text) := r in if len <=? 0 then [] else take (Z.to_nat len) (default [] text).

Lemma wps_answer_none (r : Z) l Φ : r <= 0 -> Φ [] l ⊢ wps (answer o (r, None)) l Φ.
Proof. iIntros (Hr%Z.leb_le) "HΦ". cbn [answer]. rw Hr. by iApply wpv_ret. Qed.

Lemma spilled_option (b : option (block o)) l : (match b with Some b => if exposed b then [b] else [] | None => [] end) ++ l = spilled (option_list b) ++ l.
Proof. destruct b as [b|]; [|done]. unfold spilled. cbn. by destruct (exposed b). Qed.

Lemma wps_crypt kp k input l Φ :
  (forall k, snd (size k input) < 2 ^ 31) ->
  opt_key kp k ∗
  Φ (answer_of (Password.crypt o k init size op input None)) (spilled (option_list (Bytes secret <$> buffer_text k input)) ++ l)
  ⊢ wps (crypt o secret kp init size op input None) l (fun r l' => wps (answer o r) l' Φ).
Proof.
  iIntros (Hlen) "[Hk HΦ]". rw -spilled_option.
  destruct kp as [kp|], k as [k|]; cbn [opt_key]; try iDestruct "Hk" as "[]".
  2: { iApply wpv_ret. iApply wps_answer_none; [done|]. iExact "HΦ". }
  cbn [Password.crypt buffer_text crypt]. specialize (Hlen k). specialize (fits k input).
  iApply wpv_bind. iApply wps_object. iIntros (ctx) "Hc". destruct (size k input) as [ret len] eqn:Es. cbn [snd] in *.
  destruct (pkey_ctx_new o); cbn [negb orb].
  2: { iDestruct "Hc" as %->. iApply wpv_bind. iApply wps_free. iFrame "Hk". iApply wpv_ret. by iApply wps_answer_none. }
  iDestruct "Hc" as "(%c & -> & Hc)". destruct (init <=? 0); cbn [orb].
  { iApply wpv_bind. iApply wps_free. iFrame "Hc". iApply wpv_bind. iApply wps_free. iFrame "Hk". iApply wpv_ret. by iApply wps_answer_none. }
  iApply wpv_bind. iApply wps_load_key. iFrame "Hk". iIntros "Hk". rw Es. destruct (ret <=? 0); cbn [orb].
  { iApply wpv_bind. iApply wps_free. iFrame "Hc". iApply wpv_bind. iApply wps_free. iFrame "Hk". iApply wpv_ret. by iApply wps_answer_none. }
  destruct (len =? 0); cbn [orb].
  { iApply wpv_bind. iApply wps_free. iFrame "Hc". iApply wpv_bind. iApply wps_free. iFrame "Hk". iApply wpv_ret. by iApply wps_answer_none. }
  iApply wpv_bind. iApply wps_object. iIntros (text) "Ht". destruct (malloc_ok o len); cbn [negb].
  2: { iDestruct "Ht" as %->. iApply wpv_bind. iApply wps_free. iFrame "Hc". iApply wpv_bind. iApply wps_free. iFrame "Hk".
       iApply wpv_ret. by iApply wps_answer_none. }
  iDestruct "Ht" as "(%p & -> & Ht)". destruct (op k input) as [ret2 out]. cbn [snd fmap option_fmap option_map] in *.
  iApply wpv_bind. iApply (wps_write_bytes _ secret (replicate (Z.to_nat len) 0)); [rw length_replicate; lia|]. iFrame "Ht". iIntros "Ht".
  rw drop_replicate. iApply wpv_bind. iApply wps_free. iFrame "Hc".
  destruct (ret2 <=? 0); cbn [orb].
  { iApply wpv_bind. iApply wps_free. iFrame "Hk". iApply wpv_bind. iApply wps_free. iFrame "Ht". iApply wpv_ret.
    by iApply wps_answer_none. }
  destruct (Z.leb_spec (Z.of_nat (length out)) 0).
  { iApply wpv_bind. iApply wps_free. iFrame "Hk". iApply wpv_bind. iApply wps_free. iFrame "Ht". iApply wpv_ret.
    by iApply wps_answer_none. }
  iApply wpv_bind. iApply wps_free. iFrame "Hk". iApply wpv_ret. cbn [answer answer_of].
  assert (Hs : s32 (Z.of_nat (length out)) = Z.of_nat (length out)).
  { unfold s32. rw Z.mod_small; lia. }
  rw Hs. destruct (Z.leb_spec (Z.of_nat (length out)) 0); [lia|]. rw Nat2Z.id take_ge; [|done].
  iApply wpv_bind. iApply wps_load_bytes. iFrame "Ht". iIntros "Ht". iApply wpv_bind. iApply wps_free. iFrame "Ht". iApply wpv_ret.
  rw take_app_length. iExact "HΦ".
Qed.
End crypt.

Lemma generate_lengths pub priv ret pub' priv' :
  Password.generate_key_pair o (Some pub) (Some priv) = (ret, pub', priv') ->
  length pub = Z.to_nat KEY_MAX_SIZE -> length priv = Z.to_nat KEY_MAX_SIZE ->
  exists s t, pub' = Some s /\ priv' = Some t /\ length t = length priv.
Proof.
  unfold Password.generate_key_pair. intros Hr Hp Hq. destruct (negb _); [injection Hr as <- <- <-; by eauto|].
  destruct (keygen_init o =? RET_ERR); [injection Hr as <- <- <-; by eauto|]. destruct (keygen o) as [ret1 k].
  destruct (ret1 =? RET_ERR); [injection Hr as <- <- <-; by eauto|].
  destruct (Password.convert_private_key_to_string o k (Some priv)) as [ret2 priv2] eqn:E.
  destruct (private_some _ _ _ _ E Hq) as (s & -> & Hs & _). destruct (negb _); [injection Hr as <- <- <-; by eauto|].
  destruct (Password.convert_public_key_to_string o k (Some pub)) as [ret3 pub3] eqn:E3.
  destruct (public_some _ _ _ _ E3 Hp) as (s3 & -> & _). destruct (negb _); injection Hr as <- <- <-; by eauto.
Qed.

(** *** VNC and patterns *)

Lemma wps_vnc (legacy : bool) key input Φ :
  (leaked (if legacy then [Provider] else []) -∗ Φ (Password.vnc_encrypt_bytes o key input) [])
  ⊢ wps (vnc_encrypt_bytes o legacy key input) [] Φ.
Proof.
  iIntros "HΦ". iApply wpv_bind. iApply wps_object. iIntros (pr) "Hp".
  iAssert (leaked (if legacy then [Provider] else [])) with "[Hp]" as "Hp".
  { destruct legacy; [iDestruct "Hp" as "(%q & _ & Hp)"; by iApply leaked_one|iDestruct "Hp" as "_"; by iApply leaked_nil]. }
  iSpecialize ("HΦ" with "Hp"). unfold Password.vnc_encrypt_bytes. iApply wpv_bind. iApply wps_object. iIntros (ctx) "Hc".
  destruct (cipher_ctx_new o); cbn [negb].
  2: { iDestruct "Hc" as %->. by iApply wpv_ret. }
  iDestruct "Hc" as "(%c & -> & Hc)". destruct (negb (des_init _ _)); [|destruct (des_update _ _ _); [destruct (des_final _ _ _)|]];
    (iApply wpv_bind; iApply wps_free; iFrame "Hc"; iApply wpv_ret; iExact "HΦ").
Qed.

Section patterns.
Context {GRegex : Type} (g_regex_new : list ascii -> option GRegex) (g_regex_match : GRegex -> list ascii -> bool) (refs : bool).

Lemma wps_unref p n l Φ :
  p ↦ Regex (S n) ∗ ((if (n =? 0)%nat then emp else p ↦ Regex n) -∗ Φ tt l) ⊢ wps (regex_unref o p) l Φ.
Proof.
  iIntros "[Hp HΦ]". iApply wpv_bind. iApply wpv_load. iFrame "Hp". iIntros "Hp". destruct n as [|n].
  - iApply wps_free. iFrame "Hp". by iApply "HΦ".
  - iApply wpv_store. iFrame.
Qed.

Lemma wps_check pattern Φ :
  Φ (Password.check_pattern g_regex_new pattern) [] ⊢ wps (check_pattern o g_regex_new pattern) [] Φ.
Proof.
  iIntros "HΦ". unfold check_pattern, Password.check_pattern. destruct (negb _); [by iApply wpv_ret|].
  iApply wpv_bind. unfold regex_new. destruct (g_regex_new pattern) as [r|]; [|iApply wpv_ret; by iApply wpv_ret].
  iApply wpv_bind. iApply wpv_malloc. iIntros (p) "Hp". iApply wpv_ret. iApply wpv_bind. iApply wps_unref. iFrame "Hp".
  iIntros "_". by iApply wpv_ret.
Qed.

(** A match for every pattern that is one, and with it the expression when the match refers to it. *)
Definition unfreed (pattern : list ascii) : list (block o) :=
  if pattern_validator pattern =? RET_OK then
    match g_regex_new pattern with Some _ => MatchInfo :: (if refs then [Regex 1] else []) | None => [] end
  else [].

Lemma wps_verify pattern passwd Φ :
  (leaked (unfreed pattern) -∗ Φ (Password.verify_passwd_with_pattern g_regex_new g_regex_match pattern passwd) [])
  ⊢ wps (verify_passwd_with_pattern o g_regex_new g_regex_match refs pattern passwd) [] Φ.
Proof.
  iIntros "HΦ". unfold unfreed, verify_passwd_with_pattern, Password.verify_passwd_with_pattern.
  destruct (pattern_validator pattern =? RET_OK); cbn [negb].
  2: { iApply wpv_ret. iApply "HΦ". iApply leaked_nil. }
  iApply wpv_bind. unfold regex_new. destruct (g_regex_new pattern) as [r|].
  2: { iApply wpv_ret. iApply wpv_ret. iApply "HΦ". iApply leaked_nil. }
  iApply wpv_bind. iApply wpv_malloc. iIntros (p) "Hp". iApply wpv_ret. iApply wpv_bind. iApply wpv_bind.
  iAssert (∀ u, <affine> ⌜u = tt⌝ -∗ p ↦ Regex (if refs then 2 else 1)%nat -∗
    wps (info ← malloc MatchInfo; mret (g_regex_match r passwd, info)) []
      (λ a l', wps (let '(is_match, _) := a in _ ← regex_unref o p; mret (if negb is_match then RET_ERR else RET_OK)) l' Φ))%I
    with "[HΦ]" as "Hrest".
  - iIntros (u ->) "Hp". iApply wpv_bind. iApply wpv_malloc. iIntros (q) "Hq". iApply wpv_ret. iApply wpv_bind.
    iApply (wps_unref p (if refs then 1 else 0)%nat). iSplitL "Hp"; [by destruct refs|]. iIntros "Hp". iApply wpv_ret.
    iApply "HΦ". iApply (leaked_app [MatchInfo] with "[Hq]"); [by iApply leaked_one|].
    destruct refs; cbn; [by iApply leaked_one|by iApply leaked_nil].
  - destruct refs.
    + iApply wpv_bind. iApply wpv_load. iFrame "Hp". iIntros "Hp". iApply wpv_store. iFrame "Hp". iIntros "Hp".
      by iApply ("Hrest" with "[] Hp").
    + iApply wpv_ret. by iApply ("Hrest" with "[] Hp").
Qed.
End patterns.
End runs.

(** ** What the calls leave and spill *)

(** The length that OpenSSL gives for an answer is not exceeded by it. *)
Record sized (o : openssl) : Prop := {
  encrypt_fits k input : Z.of_nat (length (snd (pkey_encrypt o k input))) <= snd (encrypt_size o k input);
  decrypt_fits k input : Z.of_nat (length (snd (pkey_decrypt o k input))) <= snd (decrypt_size o k input)
}.

Section theorems.
Context `{Erases} (o : openssl) (fits : sized o).


(** The DES step of VNC leaves a reference to the provider that it loads, and the test of a password against a pattern
    leaves a match, and the compiled pattern with it when the match refers to it; the check of a pattern leaves
    nothing. Their answers are those of Password. *)
Theorem vnc_and_patterns_leak (legacy refs : bool) {GRegex} (new : list ascii -> option GRegex) (matches : GRegex -> list ascii -> bool) :
  (forall key input,
     runs_to spilled (vnc_encrypt_bytes o legacy key input) (Password.vnc_encrypt_bytes o key input) (if legacy then [Provider] else []) []) /\
  (forall pattern, runs_to spilled (check_pattern o new pattern) (Password.check_pattern new pattern) [] []) /\
  (forall pattern passwd,
     runs_to spilled (verify_passwd_with_pattern o new matches refs pattern passwd)
       (Password.verify_passwd_with_pattern new matches pattern passwd) (unfreed new refs pattern) []).
Proof.
  split; [|split].
  - intros key input. apply wpv_run. iIntros (Φ) "HΦ". by iApply wps_vnc.
  - intros pattern. apply wpv_run. iIntros (Φ) "HΦ". iApply wps_check. iApply "HΦ". iApply leaked_nil.
  - intros pattern passwd. apply wpv_run. iIntros (Φ) "HΦ". by iApply wps_verify.
Qed.
End theorems.

(** *** At concrete inputs: a library that cannot write public keys *)

#[local] Instance erasing : Erasure := {| BIO_free_erases := true; EVP_PKEY_free_erases := true |}.
#[local] Instance erasing_law : Erases.
Proof. by split. Qed.

Definition leaky : openssl := {|
  EVP_PKEY := Z; SHA256 _ := None; cipher_ctx_new := true; des_init _ := true; des_update _ m := Some m; des_final _ _ := Some [];
  pkey_ctx_new := true; keygen_init := 1; keygen := (1, Some 5); bio_new := true;
  pem_write_private _ := Some (lit "private 5"); pem_write_public _ := None;
  pem_read_private _ := Some 5; pem_read_public _ := Some 5; malloc_ok _ := true;
  encrypt_init := 1; encrypt_size _ m := (1, Z.of_nat (length m)); pkey_encrypt k m := (1, map (Z.add k) m);
  decrypt_init := 1; decrypt_size _ m := (1, Z.of_nat (length m)); pkey_decrypt k c := (1, map (fun b => b - k) c)
|}.
Lemma leaky_sized : sized leaky.
Proof. split; intros k input; cbn; by rw length_map. Qed.

Lemma leaky_pair b :
  Password.generate_key_pair leaky (Some b) (Some b) = (RET_ERR, Some b, Some (lit "private 5" ++ drop 9 b)).
Proof. reflexivity. Qed.

