(* ===== verification/TextMemory.v ===== *)
(** * pam_bmc_login.c, uip_user.c, check_login_rule.c: the parsers on the memory they work in

    The three parsers copy their text and take it apart in place with [strsep], which overwrites each delimiter and
    moves the pointer it is given; the models of PamLogin, UipUser and LoginRule go over the list of the fields. Here
    the parsers run on arrays of characters that are allocated and freed, in the logic of Memory: they compute what
    the models say, and the theorems say which copies are never freed. *)
From S2P Require Import PamLogin.
From S2P Require UipUser.
From S2P Require Export Memory.
Open Scope Z_scope.

(** ** Strings in memory *)

Notation TM A := (Mem (list ascii) unit A).

(** The string from an offset on; behind the last NUL of the block nothing can be read. *)
Definition text_at (p : positive) (i : nat) : TM (list ascii) :=
  b ← load p;
  match c_str (drop i b) with Some s => mret s | None => undefined end.

Definition strdup (s : list ascii) : TM positive := malloc (s ++ [NUL]).

(** [g_malloc0] *)
Definition zeroed (n : nat) : TM positive := malloc (replicate n NUL).

(** [memcpy_s(p, size of the block, s, strlen(s))] *)
Definition copy_to (p : positive) (s : list ascii) : TM Z :=
  b ← load p;
  let '(ret, b) := memcpy_s b s (length s) in
  _ ← store p b;
  mret ret.

(** The distance to the first delimiter or NUL, and whether it is the delimiter. *)
Fixpoint scan (d : ascii) (l : list ascii) : option (nat * bool) :=
  match l with
  | [] => UB
  | a :: l =>
      if char_eqb a NUL then Some (0%nat, false)
      else if char_eqb a d then Some (0%nat, true)
      else '(k, hit) ← scan d l; Some (S k, hit)
  end.

(** [token = strsep(&stringp, d)]: the token and the pointer afterwards, as offsets into the block. *)
Definition strsep_at (p : positive) (stringp : option nat) (d : ascii) : TM (option nat * option nat) :=
  match stringp with
  | None => mret (None, None)
  | Some i =>
      b ← load p;
      match scan d (drop i b) with
      | None => undefined
      | Some (k, true) => _ ← store p (<[(i + k)%nat := NUL]> b); mret (Some i, Some (i + k + 1)%nat)
      | Some (_, false) => mret (Some i, None)
      end
  end.

(** [while (token) { body; token = strsep(&stringp, d); }], with a body that may leave the loop. *)
Fixpoint token_loop {S R : Type} (fuel : nat) (body : S -> list ascii -> S + R) (done : S -> R) (p : positive) (d : ascii)
    (token stringp : option nat) (st : S) : TM R :=
  match fuel with
  | O => undefined
  | S fuel =>
      match token with
      | None => mret (done st)
      | Some i =>
          t ← text_at p i;
          match body st t with
          | inr r => mret r
          | inl st =>
              '(token, stringp) ← strsep_at p stringp d;
              token_loop fuel body done p d token stringp st
          end
      end
  end.

(** A line is copied, its fields go through the body, the copy is freed. *)
Definition parse_fields {S R : Type} (body : S -> list ascii -> S + R) (done : S -> R) (d : ascii) (line : list ascii) (st : S) : TM R :=
  tmp_line ← strdup line;
  '(token, stringp) ← strsep_at tmp_line (Some 0%nat) d;
  r ← token_loop (2 + length line) body done tmp_line d token stringp st;
  _ ← free tmp_line;
  mret r.

(** ** The PAM module: the line of a user id *)

Section pam.
Context `{PamCodes}.

Definition pam_field (st : nat * Z * IPMI_USER_S) (token : list ascii) : nat * Z * IPMI_USER_S + Z * IPMI_USER_S :=
  let '(pos, ret, u) := st in
  let '(ret, u) := PamLogin.set_user_field (S pos) token ret u in
  if negb (ret =? RET_OK) then inr (PAM_AUTH_ERR, u) else inl (S pos, ret, u).

Definition pam_parse_line_to_struct (line : list ascii) (u : IPMI_USER_S) : TM (Z * IPMI_USER_S) :=
  parse_fields pam_field (fun st => (PAM_SUCCESS, snd st)) ":" line (0%nat, 0, u).

(** [line_bak] is not freed before the next line. *)
Fixpoint pam_lines (fuel : nat) (uid errno : Z) (tmp_buf : positive) (line stringp : option nat) (u : IPMI_USER_S) : TM (Z * IPMI_USER_S) :=
  match fuel with
  | O => undefined
  | S fuel =>
      match line with
      | None => _ ← free tmp_buf; mret (PAM_AUTH_ERR, u)
      | Some i =>
          s ← text_at tmp_buf i;
          if (length s =? 0)%nat then _ ← free tmp_buf; mret (PAM_AUTH_ERR, u)
          else
            tmp_line ← strdup s;
            '(token, _) ← strsep_at tmp_line (Some 0%nat) ":";
            t ← text_at tmp_line (default 0%nat token);
            let r := strtol t in
            let id := s32 (st_val r) in
            let errno := if st_range r then ERANGE else errno in
            if ((errno =? ERANGE) && ((id =? LONG_MAX) || (id =? LONG_MIN)))
               || (negb (errno =? 0) && (id =? 0)) || negb (st_conv r) || negb (id =? uid)
            then
              '(line, stringp) ← strsep_at tmp_buf stringp NL;
              pam_lines fuel uid errno tmp_buf line stringp u
            else
              r ← pam_parse_line_to_struct s u;
              _ ← free tmp_buf;
              _ ← free tmp_line;
              mret r
      end
  end.

Definition pam_get_user (errno uid : Z) (data : list ascii) (u : IPMI_USER_S) : TM (Z * IPMI_USER_S) :=
  tmp_buf ← strdup data;
  '(line, stringp) ← strsep_at tmp_buf (Some 0%nat) NL;
  pam_lines (2 + length data) uid errno tmp_buf line stringp u.
End pam.

(** ** libuip: the line of a user name *)

Definition uip_field (st : nat * Z * IPMI_USER_S) (token : list ascii) : nat * Z * IPMI_USER_S + Z * IPMI_USER_S :=
  let '(pos, ret, u) := st in
  let '(ret, u) := UipUser.set_user_field (S pos) token ret u in
  if negb (ret =? RET_OK) then inr (ret, u) else inl (S pos, ret, u).

Definition uip_parse_line_to_struct (line : list ascii) (u : IPMI_USER_S) : TM (Z * IPMI_USER_S) :=
  parse_fields uip_field (fun st => (RET_OK, snd st)) ":" line (0%nat, 0, u).

(** The second token; [strcmp] reads it. *)
Fixpoint uip_lines (fuel : nat) (username : list ascii) (tmp_buf : positive) (line stringp : option nat) (u : IPMI_USER_S)
    : TM (Z * IPMI_USER_S) :=
  match fuel with
  | O => undefined
  | S fuel =>
      match line with
      | None => _ ← free tmp_buf; mret (UipUser.USER_NOT_FOUND_IN_IPMI, u)
      | Some i =>
          s ← text_at tmp_buf i;
          if (length s =? 0)%nat then _ ← free tmp_buf; mret (UipUser.USER_NOT_FOUND_IN_IPMI, u)
          else
            tmp_line ← strdup s;
            '(_, rest) ← strsep_at tmp_line (Some 0%nat) ":";
            '(token, _) ← strsep_at tmp_line rest ":";
            match token with
            | None => undefined
            | Some j =>
                t ← text_at tmp_line j;
                if negb (str_eqb t username) then
                  _ ← free tmp_line;
                  '(line, stringp) ← strsep_at tmp_buf stringp NL;
                  uip_lines fuel username tmp_buf line stringp u
                else
                  r ← uip_parse_line_to_struct s u;
                  _ ← free tmp_buf;
                  _ ← free tmp_line;
                  mret r
            end
      end
  end.

Definition uip_get_user (username data : list ascii) (u : IPMI_USER_S) : TM (Z * IPMI_USER_S) :=
  tmp_buf ← strdup data;
  '(line, stringp) ← strsep_at tmp_buf (Some 0%nat) NL;
  uip_lines (2 + length data) username tmp_buf line stringp u.

(** ** The login rules *)

Definition rule_field (st : nat * LOGIN_RULE_INFO) (token : list ascii) : nat * LOGIN_RULE_INFO + LOGIN_RULE_INFO :=
  inl (S (fst st), set_rule_field (S (fst st)) token (snd st)).

Definition parse_per_rule (line : list ascii) (r : LOGIN_RULE_INFO) : TM LOGIN_RULE_INFO :=
  parse_fields rule_field snd "," line (0%nat, r).

(** The loop over the lines: [ret] and the rules. *)
Fixpoint rule_lines (fuel : nat) (tmp_line tmp_buf : positive) (line stringp : option nat) (login_rules : list LOGIN_RULE_INFO)
    : TM (Z * list LOGIN_RULE_INFO) :=
  match fuel with
  | O => undefined
  | S fuel =>
      match line with
      | None => mret (RET_OK, login_rules)
      | Some i =>
          s ← text_at tmp_buf i;
          if (length s =? 0)%nat then mret (RET_OK, login_rules)
          else
            b ← load tmp_line;
            _ ← store tmp_line (replicate (length b) NUL);
            ret ← copy_to tmp_line s;
            if negb (ret =? EOK) then mret (RET_ERR, login_rules)
            else
              '(token, _) ← strsep_at tmp_line (Some 0%nat) ",";
              t ← text_at tmp_line (default 0%nat token);
              let id := u8 (st_val (strtol t)) in
              match (if id =? 0 then None else login_rules !! Z.to_nat (id - 1)) with
              | None => undefined
              | Some r =>
                  r ← parse_per_rule s r;
                  '(line, stringp) ← strsep_at tmp_buf stringp NL;
                  rule_lines fuel tmp_line tmp_buf line stringp (<[Z.to_nat (id - 1) := r]> login_rules)
              end
      end
  end.

Definition parse_rules (filebuf : list ascii) (login_rules : list LOGIN_RULE_INFO) : TM (Z * list LOGIN_RULE_INFO) :=
  tmp_line ← zeroed MAX_RULE_LINE_LEN;
  tmp_buf ← zeroed (MAX_RULE_LINE_LEN * 3);
  ret ← copy_to tmp_buf filebuf;
  r ← (if negb (ret =? EOK) then mret (RET_ERR, login_rules)
       else
         '(line, stringp) ← strsep_at tmp_buf (Some 0%nat) NL;
         rule_lines (2 + length filebuf) tmp_line tmp_buf line stringp login_rules);
  _ ← free tmp_line;
  _ ← free tmp_buf;
  mret r.

(** ** In place and on lists *)

Lemma c_str_inv l s : c_str l = Some s -> no_nul s /\ exists r, l = s ++ NUL :: r.
Proof.
  unfold no_nul. revert s. induction l as [|a l IH]; intros s; cbn; [done|]. destruct (char_eqb a NUL) eqn:E.
  - intros [= <-]. apply char_eqb_eq in E as ->. split; [apply not_elem_of_nil|by exists l].
  - destruct (c_str l) as [s'|]; [|done]. intros [= <-]. destruct (IH s' eq_refl) as (Hn & r & ->). split; [|by exists r].
    rw not_elem_of_cons. split; [|done]. apply char_eqb_neq in E. congruence.
Qed.

Lemma c_str_whole s : no_nul s -> c_str (s ++ [NUL]) = Some s.
Proof. apply c_str_app. Qed.

Lemma scan_c_str d l s :
  c_str l = Some s -> scan d l = match strchr d s with Some k => Some (k, true) | None => Some (length s, false) end.
Proof.
  revert s. induction l as [|a l IH]; intros s; cbn; [done|]. destruct (char_eqb a NUL); [by intros [= <-]|].
  destruct (c_str l) as [s'|]; [|done]. intros [= <-]. cbn. destruct (char_eqb a d); [done|]. rw (IH s' eq_refl).
  by destruct (strchr d s').
Qed.

Lemma strsep_strchr d s :
  strsep d s = match strchr d s with Some k => (take k s, Some (drop (S k) s)) | None => (s, None) end.
Proof.
  induction s as [|a s IH]; cbn; [done|]. destruct (char_eqb a d); [by rw drop_0|]. rw IH. by destruct (strchr d s).
Qed.

Lemma tokens_length d s : (length (tokens d s) <= S (length s))%nat.
Proof.
  induction s as [|a s IH]; cbn; [done|]. destruct (char_eqb a d); cbn; [lia|]. destruct (tokens d s); cbn in *; lia.
Qed.

(** A pointer into the block and the string it stands for. *)
Definition points (b : list ascii) (i : option nat) (s : option (list ascii)) : Prop :=
  match i, s with
  | Some i, Some s => c_str (drop i b) = Some s
  | None, None => True
  | _, _ => False
  end.

(** The block after [strsep]. *)
Definition cut (d : ascii) (b : list ascii) (stringp : option nat) : list ascii :=
  match stringp with
  | None => b
  | Some i =>
      match scan d (drop i b) with
      | Some (k, true) => <[(i + k)%nat := NUL]> b
      | _ => b
      end
  end.

Lemma points_cut d b i s :
  c_str (drop i b) = Some s ->
  c_str (drop i (cut d b (Some i))) = Some (fst (strsep d s)) /\
  match strchr d s with
  | Some k => c_str (drop (i + k + 1) (cut d b (Some i))) = Some (drop (S k) s)
  | None => snd (strsep d s) = None
  end.
Proof.
  intros Hs. unfold cut. rw (scan_c_str _ _ _ Hs) strsep_strchr. destruct (strchr d s) as [k|] eqn:Ek; cbn [fst snd]; [|done].
  apply c_str_inv in Hs as (Hn & r & Hb). apply strchr_Some in Ek as (rest & Hrest & Hk).
  assert (Hlen : (k < length s)%nat).
  { apply (f_equal length) in Hrest. rw length_app length_take /= in Hrest. lia. }
  assert (Hd : drop i (<[(i + k)%nat := NUL]> b) = take k s ++ NUL :: drop (S k) s ++ NUL :: r).
  { rw drop_insert_ge; [|lia]. replace (i + k - i)%nat with k by lia. rw Hb insert_app_l; [|done].
    rw insert_take_drop; [|done]. by rw -assoc_L. }
  assert (Hnt : no_nul (take k s)) by (intros Hin; apply Hn; rw -(take_drop k s); apply elem_of_app; by left).
  assert (Hnd : no_nul (drop (S k) s)) by (intros Hin; apply Hn; rw -(take_drop (S k) s); apply elem_of_app; by right).
  split.
  - rw Hd. by apply c_str_app.
  - replace (i + k + 1)%nat with (i + S k)%nat by lia. rw -drop_drop Hd.
    replace (S k) with (length (take k s) + 1)%nat at 1 by (rw length_take; lia). rw -drop_drop drop_app_length. cbn. by apply c_str_app.
Qed.

#[export] Program Instance no_view : View (C := list ascii) (fun _ => tt) := { seen _ _ := tt }.
Next Obligation. done. Qed.

Notation wpt := (wpv (fun _ : list (list ascii) => tt)).

Section texts.
Implicit Types (p : positive) (b s : list ascii) (d : ascii).

Lemma wpt_text p b i s v Φ : c_str (drop i b) = Some s -> p ↦ b ∗ (p ↦ b -∗ Φ s v) ⊢ wpt (text_at p i) v Φ.
Proof. iIntros (Hs) "[Hp HΦ]". iApply wpv_bind. iApply wpv_load. iFrame "Hp". iIntros "Hp". rw Hs. iApply wpv_ret. by iApply "HΦ". Qed.

Lemma wpt_free p b Φ : p ↦ b ∗ Φ tt tt ⊢ wpt (free p) tt Φ.
Proof. exact (wpv_free (fun _ => tt) p b tt Φ). Qed.

(** The token and what is left, and the block with its delimiter overwritten. *)
Lemma wpt_strsep p b i o d v Φ :
  points b i o ->
  p ↦ b ∗ (∀ tok sp, <affine> ⌜points (cut d b i) tok (fst ∘ strsep d <$> o) /\ points (cut d b i) sp (o ≫= snd ∘ strsep d)⌝ -∗
             p ↦ cut d b i -∗ Φ (tok, sp) v)
  ⊢ wpt (strsep_at p i d) v Φ.
Proof.
  iIntros (Hi) "[Hp HΦ]". destruct i as [i|], o as [s|]; cbn [points strsep_at] in *; try done.
  2: { iApply wpv_ret. by iApply ("HΦ" with "[] Hp"). }
  destruct (points_cut d b i s Hi) as [H1 H2]. iApply wpv_bind. iApply wpv_load. iFrame "Hp". iIntros "Hp".
  unfold cut in *. rw (scan_c_str _ _ _ Hi) in H1 H2 |- *. rw strsep_strchr in H1 H2. cbn [fmap option_fmap option_map mbind option_bind compose].
  rw strsep_strchr. destruct (strchr d s) as [k|]; cbn [fst snd] in *.
  - iApply wpv_bind. iApply wpv_store. iFrame "Hp". iIntros "Hp". iApply wpv_ret. by iApply ("HΦ" with "[] Hp").
  - iApply wpv_ret. by iApply ("HΦ" with "[] Hp").
Qed.

(** *** Fields *)

(** The strings a loop visits: the current one and those behind it. *)
Definition ahead d (cur rest : option (list ascii)) : list (list ascii) :=
  match cur with
  | None => []
  | Some t => t :: match rest with Some r => tokens d r | None => [] end
  end.

Lemma ahead_next d rest : ahead d (fst ∘ strsep d <$> rest) (rest ≫= snd ∘ strsep d) = match rest with Some r => tokens d r | None => [] end.
Proof. destruct rest as [r|]; [|done]. cbn. by rw (strsep_tokens d r). Qed.

Lemma ahead_first d s : ahead d (Some (fst (strsep d s))) (snd (strsep d s)) = tokens d s.
Proof. by rw (strsep_tokens d s). Qed.

Fixpoint fold_fields {S R : Type} (body : S -> list ascii -> S + R) (done : S -> R) (ts : list (list ascii)) (st : S) : R :=
  match ts with
  | [] => done st
  | t :: ts => match body st t with inr r => r | inl st => fold_fields body done ts st end
  end.

Lemma wpt_token_loop {S R} fuel (body : S -> list ascii -> S + R) done p d b token sp cur rest st Φ :
  points b token cur -> points b sp rest -> (length (ahead d cur rest) < fuel)%nat ->
  p ↦ b ∗ (∀ b', p ↦ b' -∗ Φ (fold_fields body done (ahead d cur rest) st) tt)
  ⊢ wpt (token_loop fuel body done p d token sp st) tt Φ.
Proof.
  revert b token sp cur rest st. induction fuel as [|fuel IH]; intros b token sp cur rest st Ht Hs Hf; [lia|].
  iIntros "[Hp HΦ]". cbn [token_loop]. destruct token as [i|], cur as [t|]; cbn [points] in Ht; try done.
  2: { iApply wpv_ret. by iApply "HΦ". }
  iApply wpv_bind. iApply wpt_text; [exact Ht|]. iFrame "Hp". iIntros "Hp". cbn [ahead fold_fields].
  destruct (body st t) as [st'|r].
  2: { iApply wpv_ret. by iApply "HΦ". }
  iApply wpv_bind. iApply wpt_strsep; [exact Hs|]. iFrame "Hp". iIntros (tok sp') "[%H1 %H2] Hp".
  iApply IH; [exact H1|exact H2| |].
  - rw ahead_next. cbn [ahead] in Hf. cbn in Hf. lia.
  - iFrame "Hp". rw ahead_next. iExact "HΦ".
Qed.

Lemma wpt_parse_fields {S R} (body : S -> list ascii -> S + R) done d line st Φ :
  no_nul line -> Φ (fold_fields body done (tokens d line) st) tt ⊢ wpt (parse_fields body done d line st) tt Φ.
Proof.
  iIntros (Hn) "HΦ". iApply wpv_bind. iApply wpv_malloc. iIntros (p) "Hp". iApply wpv_bind.
  iApply (wpt_strsep _ _ (Some 0%nat) (Some line)); [cbn; rw drop_0; by apply c_str_whole|]. iFrame "Hp". iIntros (tok sp) "[%H1 %H2] Hp".
  iApply wpv_bind. iApply wpt_token_loop; [exact H1|exact H2| |].
  - cbn. pose proof (tokens_length d line) as Hl. rw strsep_tokens in Hl. cbn in Hl. lia.
  - iFrame "Hp". iIntros (b') "Hp". cbn [fmap option_fmap option_map mbind option_bind compose]. rw ahead_first.
    iApply wpv_bind. iApply wpt_free. iFrame "Hp". by iApply wpv_ret.
Qed.

(** The loops of the models. *)
Section pam_fields.
Context `{PamCodes}.
Lemma pam_fields ts pos ret u :
  fold_fields pam_field (fun st => (PAM_SUCCESS, snd st)) ts (pos, ret, u) = PamLogin.user_fields_loop pos ts ret u.
Proof.
  revert pos ret u. induction ts as [|t ts IH]; intros pos ret u; [done|]. cbn [fold_fields pam_field PamLogin.user_fields_loop].
  destruct (PamLogin.set_user_field _ _ _ _) as [ret' u']. by destruct (negb (ret' =? RET_OK)).
Qed.
End pam_fields.

Lemma uip_fields ts pos ret u :
  fold_fields uip_field (fun st => (RET_OK, snd st)) ts (pos, ret, u) = UipUser.user_fields_loop pos ts ret u.
Proof.
  revert pos ret u. induction ts as [|t ts IH]; intros pos ret u; [done|]. cbn [fold_fields uip_field UipUser.user_fields_loop].
  destruct (UipUser.set_user_field _ _ _ _) as [ret' u']. by destruct (negb (ret' =? RET_OK)).
Qed.

Lemma rule_fields ts pos r : fold_fields rule_field snd ts (pos, r) = rule_fields_loop pos ts r.
Proof. revert pos r. induction ts as [|t ts IH]; intros pos r; [done|]. apply IH. Qed.

(** *** Lines *)

Lemma tokens_no_nul d s : no_nul s -> Forall no_nul (tokens d s).
Proof.
  unfold no_nul. induction s as [|a s IH]; intros Hn; cbn; [by repeat constructor; apply not_elem_of_nil|].
  rw not_elem_of_cons in Hn. destruct Hn as [Ha Hn]. specialize (IH Hn). destruct (char_eqb a d).
  - constructor; [apply not_elem_of_nil|done].
  - destruct (tokens d s) as [|t ts]; constructor; try done.
    + rw not_elem_of_cons. split; [done|apply not_elem_of_nil].
    + inversion IH; subst. by rw not_elem_of_cons.
    + by inversion IH.
Qed.

Section pam_lines.
Context `{PamCodes}.

(** The lines whose copies stay allocated: those before the line of the user, or before the first empty line. *)
Fixpoint passed (uid errno : Z) (ls : list (list ascii)) : list (list ascii) :=
  match ls with
  | [] => []
  | line :: rest =>
      if (length line =? 0)%nat then []
      else
        let r := strtol (fst (strsep ":"%char line)) in
        let id := s32 (st_val r) in
        let errno := if st_range r then ERANGE else errno in
        if ((errno =? ERANGE) && ((id =? LONG_MAX) || (id =? LONG_MIN)))
           || (negb (errno =? 0) && (id =? 0)) || negb (st_conv r) || negb (id =? uid)
        then line :: passed uid errno rest
        else []
  end.

(** The copy of a line as [strsep] leaves it. *)
Definition cut_copy (line : list ascii) : list ascii := cut ":"%char (line ++ [NUL]) (Some 0%nat).

Lemma pam_loop_step uid errno line rest u :
  PamLogin.get_user_loop uid errno (line :: rest) u =
    (if (length line =? 0)%nat then (PAM_AUTH_ERR, u)
     else
       let r := strtol (fst (strsep ":"%char line)) in
       let id := s32 (st_val r) in
       let errno := if st_range r then ERANGE else errno in
       if ((errno =? ERANGE) && ((id =? LONG_MAX) || (id =? LONG_MIN)))
          || (negb (errno =? 0) && (id =? 0)) || negb (st_conv r) || negb (id =? uid)
       then PamLogin.get_user_loop uid errno rest u
       else PamLogin.parse_line_to_struct line u).
Proof.
  cbn [PamLogin.get_user_loop]. destruct (length line =? 0)%nat; [done|]. cbv zeta. destruct (_ || negb (st_conv _)); [done|].
  cbn [orb]. by destruct (negb _).
Qed.

Lemma wpt_pam_lines fuel uid errno p b line sp cur rest u Φ :
  points b line cur -> points b sp rest -> Forall no_nul (ahead NL cur rest) -> (length (ahead NL cur rest) < fuel)%nat ->
  p ↦ b ∗ (leaked (map cut_copy (passed uid errno (ahead NL cur rest))) -∗
           Φ (PamLogin.get_user_loop uid errno (ahead NL cur rest) u) tt)
  ⊢ wpt (pam_lines fuel uid errno p line sp u) tt Φ.
Proof.
  revert b line sp cur rest errno Φ. induction fuel as [|fuel IH]; intros b line sp cur rest errno Φ Hc Hs Hn Hf; [lia|].
  iIntros "[Hp HΦ]". cbn [pam_lines]. destruct line as [i|], cur as [s|]; cbn [points] in Hc; try done.
  2: { iApply wpv_bind. iApply wpt_free. iFrame "Hp". iApply wpv_ret. iApply "HΦ". iApply leaked_nil. }
  iApply wpv_bind. iApply wpt_text; [exact Hc|]. iFrame "Hp". iIntros "Hp". cbn [ahead] in *. rw pam_loop_step. cbn [passed].
  apply Forall_cons in Hn as [Hn Hrest]. destruct (length s =? 0)%nat.
  { iApply wpv_bind. iApply wpt_free. iFrame "Hp". iApply wpv_ret. iApply "HΦ". iApply leaked_nil. }
  iApply wpv_bind. iApply wpv_malloc. iIntros (q) "Hq". iApply wpv_bind.
  iApply (wpt_strsep _ _ (Some 0%nat) (Some s)); [cbn; rw drop_0; by apply c_str_whole|]. iFrame "Hq". iIntros (tok sp2) "[%H1 _] Hq".
  destruct tok as [j|]; [|done]. cbn in H1. iApply wpv_bind. iApply wpt_text; [exact H1|]. iFrame "Hq". iIntros "Hq". cbv zeta.
  destruct (_ || negb (_ =? uid)).
  - iApply wpv_bind. iApply wpt_strsep; [exact Hs|]. iFrame "Hp". iIntros (tok sp3) "[%H3 %H4] Hp".
    iApply IH; [exact H3|exact H4|by rw ahead_next|rw ahead_next; cbn in Hf; lia|]. iFrame "Hp". rw ahead_next. iIntros "Hl".
    iApply "HΦ". iApply (leaked_app [_] with "[Hq] Hl"). by iApply leaked_one.
  - iApply wpv_bind. iApply wpt_parse_fields; [exact Hn|]. rw pam_fields. iApply wpv_bind. iApply wpt_free. iFrame "Hp".
    iApply wpv_bind. iApply wpt_free. iFrame "Hq". iApply wpv_ret. iApply "HΦ". iApply leaked_nil.
Qed.

Lemma pam_get_user_runs errno uid data u :
  no_nul data ->
  runs_to (fun _ => tt) (pam_get_user errno uid data u) (PamLogin.get_user errno uid data u)
    (map cut_copy (passed uid errno (tokens NL data))) tt.
Proof.
  intros Hn. apply wpv_run. iIntros (Φ) "HΦ". iApply wpv_bind. iApply wpv_malloc. iIntros (p) "Hp". iApply wpv_bind.
  iApply (wpt_strsep _ _ (Some 0%nat) (Some data)); [cbn; rw drop_0; by apply c_str_whole|]. iFrame "Hp". iIntros (tok sp) "[%H1 %H2] Hp".
  cbn [fmap option_fmap option_map mbind option_bind compose] in *.
  iApply wpt_pam_lines; [exact H1|exact H2|rw ahead_first; by apply tokens_no_nul| |].
  - rw ahead_first. pose proof (tokens_length NL data). lia.
  - iFrame "Hp". rw ahead_first. iExact "HΦ".
Qed.
End pam_lines.

(** Steps that cannot fail, in a run that may. *)
Lemma wpu_step U {A B} (x : TM A) (f : A -> TM B) Φ :
  wpt x tt (fun a v => wpu (fun _ => tt) U (f a) v Φ) ⊢ wpu (fun _ => tt) U (x ≫= f) tt Φ.
Proof. rw -wpu_bind. apply wpu_wpv. Qed.

Lemma wpu_uip_lines U fuel username p b line sp cur rest u Φ :
  points b line cur -> points b sp rest -> Forall no_nul (ahead NL cur rest) -> (length (ahead NL cur rest) < fuel)%nat ->
  (UipUser.get_user_loop username (ahead NL cur rest) u = None -> U) ->
  p ↦ b ∗ (∀ r, <affine> ⌜UipUser.get_user_loop username (ahead NL cur rest) u = Some r⌝ -∗ Φ r tt)
  ⊢ wpu (fun _ => tt) U (uip_lines fuel username p line sp u) tt Φ.
Proof.
  revert b line sp cur rest. induction fuel as [|fuel IH]; intros b line sp cur rest Hc Hs Hn Hf HU; [lia|].
  iIntros "[Hp HΦ]". cbn [uip_lines]. destruct line as [i|], cur as [s|]; cbn [points] in Hc; try done.
  2: { iApply wpu_step. iApply wpt_free. iFrame "Hp". iApply wpu_ret. by iApply "HΦ". }
  iApply wpu_step. iApply wpt_text; [exact Hc|]. iFrame "Hp". iIntros "Hp". cbn [ahead] in *. cbn [UipUser.get_user_loop] in HU |- *.
  apply Forall_cons in Hn as [Hn Hrest]. destruct (length s =? 0)%nat.
  { iApply wpu_step. iApply wpt_free. iFrame "Hp". iApply wpu_ret. by iApply "HΦ". }
  iApply wpu_step. iApply wpv_malloc. iIntros (q) "Hq". iApply wpu_step.
  iApply (wpt_strsep _ _ (Some 0%nat) (Some s)); [cbn; rw drop_0; by apply c_str_whole|]. iFrame "Hq". iIntros (tok1 sp1) "[_ %H1] Hq".
  iApply wpu_step. iApply wpt_strsep; [exact H1|]. iFrame "Hq". iIntros (tok2 sp2) "[%H2 _] Hq".
  unfold UipUser.name_field in HU |- *. cbn [mbind option_bind compose] in H2.
  destruct (snd (strsep ":"%char s)) as [names|], tok2 as [j|]; try done.
  2: { iApply wpu_undefined; [by apply HU|]. iAccu. }
  cbn in H2. iApply wpu_step. iApply wpt_text; [exact H2|]. iFrame "Hq". iIntros "Hq". destruct (negb (str_eqb _ username)).
  - iApply wpu_step. iApply wpt_free. iFrame "Hq". iApply wpu_step. iApply wpt_strsep; [exact Hs|]. iFrame "Hp".
    iIntros (tok sp3) "[%H3 %H4] Hp". iApply IH; [exact H3|exact H4|by rw ahead_next|rw ahead_next; cbn in Hf; lia|by rw ahead_next|].
    rw ahead_next. iFrame.
  - iApply wpu_step. iApply wpt_parse_fields; [exact Hn|]. rw uip_fields. iApply wpu_step. iApply wpt_free. iFrame "Hp".
    iApply wpu_step. iApply wpt_free. iFrame "Hq". iApply wpu_ret. by iApply "HΦ".
Qed.

Lemma uip_get_user_agrees username data u :
  no_nul data -> agrees (fun _ => tt) (uip_get_user username data u) (UipUser.get_user username data u) [] tt.
Proof.
  intros Hn. apply wpu_run. iIntros (Φ) "HΦ". iApply wpu_step. iApply wpv_malloc. iIntros (p) "Hp". iApply wpu_step.
  iApply (wpt_strsep _ _ (Some 0%nat) (Some data)); [cbn; rw drop_0; by apply c_str_whole|]. iFrame "Hp". iIntros (tok sp) "[%H1 %H2] Hp".
  cbn [fmap option_fmap option_map mbind option_bind compose] in *.
  iApply wpu_uip_lines; [exact H1|exact H2|rw ahead_first; by apply tokens_no_nul| |by rw ahead_first|].
  - rw ahead_first. pose proof (tokens_length NL data). lia.
  - iFrame "Hp". rw ahead_first. iIntros (r Hr). iApply ("HΦ" with "[//]"). iApply leaked_nil.
Qed.

(** *** Rules *)

Lemma copy_zeroed n s : (length s <= n)%nat ->
  memcpy_s (replicate n NUL) s (length s) = (EOK, s ++ replicate (n - length s) NUL).
Proof.
  intros Hs. unfold memcpy_s. rw length_replicate. apply Nat.leb_le in Hs. rw Hs take_ge; [|done]. by rw drop_replicate.
Qed.

Lemma c_str_padded s n : no_nul s -> (0 < n)%nat -> c_str (s ++ replicate n NUL) = Some s.
Proof. intros Hs Hn. destruct n as [|n]; [lia|]. by apply c_str_app. Qed.

Lemma scan_hit d s rest k : no_nul s -> strchr d s = Some k -> scan d (s ++ rest) = Some (k, true).
Proof.
  unfold no_nul. revert k. induction s as [|a s IH]; intros k Hn; [done|]. rw not_elem_of_cons in Hn. destruct Hn as [Ha Hn].
  cbn. replace (char_eqb a NUL) with false by (symmetry; apply char_eqb_neq; congruence).
  destruct (char_eqb a d); [by intros [= <-]|]. destruct (strchr d s) as [j|]; [|done]. intros [= <-]. by rw (IH j Hn eq_refl).
Qed.

(** The first field of a line in an array that it may fill. *)
Lemma wpt_first_field p s t v Φ :
  no_nul s -> (length s <= MAX_RULE_LINE_LEN)%nat -> first_field s = Some t ->
  p ↦ (s ++ replicate (MAX_RULE_LINE_LEN - length s) NUL) ∗
  (∀ b tok sp, <affine> ⌜length b = MAX_RULE_LINE_LEN /\ points b tok (Some t)⌝ -∗ p ↦ b -∗ Φ (tok, sp) v)
  ⊢ wpt (strsep_at p (Some 0%nat) ",") v Φ.
Proof.
  unfold first_field. iIntros (Hn Hl Ht) "[Hp HΦ]".
  assert (Hb : length (s ++ replicate (MAX_RULE_LINE_LEN - length s) NUL) = MAX_RULE_LINE_LEN).
  { rw length_app length_replicate. clear -Hl. lia. }
  iApply wpv_bind. iApply wpv_load. iFrame "Hp". iIntros "Hp". rw drop_0. destruct (strchr "," s) as [k|] eqn:Ek.
  - injection Ht as <-. rw (scan_hit _ _ _ _ Hn Ek). iApply wpv_bind. iApply wpv_store. iFrame "Hp". iIntros "Hp". iApply wpv_ret.
    iApply ("HΦ" with "[] Hp"). iPureIntro. split; [by rw length_insert|]. cbn [points]. rw drop_0.
    apply strchr_Some in Ek as (rest & Hrest & Hk).
    assert (Hks : (k < length s)%nat).
    { apply (f_equal length) in Hrest. rw length_app length_take /= in Hrest. clear -Hrest Hk. lia. }
    rw Nat.add_0_l insert_app_l; [|done]. rw insert_take_drop; [|done]. rw -assoc_L. apply c_str_app.
    intros Hin. apply Hn. rw -(take_drop k s). apply elem_of_app. by left.
  - destruct (Nat.ltb_spec (length s) MAX_RULE_LINE_LEN) as [Hlt|]; [|done]. injection Ht as <-.
    assert (Hc : c_str (s ++ replicate (MAX_RULE_LINE_LEN - length s) NUL) = Some s).
    { apply c_str_padded; [done|]. clear -Hlt. lia. }
    rw (scan_c_str _ _ _ Hc) Ek. iApply wpv_ret. iApply ("HΦ" with "[] Hp"). iPureIntro. split; [done|]. cbn [points]. by rw drop_0.
Qed.

Lemma wpt_copy_to p n s Φ :
  p ↦ replicate n NUL ∗
  (if (n <? length s)%nat then ∀ ret b, <affine> ⌜ret =? EOK = false⌝ -∗ p ↦ b -∗ Φ ret tt
   else p ↦ (s ++ replicate (n - length s) NUL) -∗ Φ EOK tt)
  ⊢ wpt (copy_to p s) tt Φ.
Proof.
  iIntros "[Hp HΦ]". iApply wpv_bind. iApply wpv_load. iFrame "Hp". iIntros "Hp".
  destruct (Nat.ltb_spec n (length s)) as [Hlt|Hle].
  - unfold memcpy_s. rw length_replicate. apply Nat.leb_gt in Hlt. rw Hlt. iApply wpv_bind. iApply wpv_store. iFrame "Hp".
    iIntros "Hp". iApply wpv_ret. by iApply ("HΦ" with "[] Hp").
  - rw copy_zeroed; [|done]. iApply wpv_bind. iApply wpv_store. iFrame "Hp". iIntros "Hp". iApply wpv_ret. by iApply "HΦ".
Qed.

Lemma scan_open d s : no_nul s -> strchr d s = None -> scan d s = None.
Proof.
  unfold no_nul. induction s as [|a s IH]; intros Hn; [done|]. rw not_elem_of_cons in Hn. destruct Hn as [Ha Hn].
  cbn. replace (char_eqb a NUL) with false by (symmetry; apply char_eqb_neq; congruence).
  destruct (char_eqb a d); [done|]. destruct (strchr d s) as [j|]; [done|]. intros _. by rw (IH Hn eq_refl).
Qed.

Lemma wpu_strsep_open U p b i d s R Φ :
  drop i b = s -> no_nul s -> strchr d s = None -> U -> p ↦ b ∗ R ⊢ wpu (fun _ => tt) U (strsep_at p (Some i) d) tt Φ.
Proof.
  iIntros (Hs Hn Hd HU) "[Hp HR]". iApply wpu_step. iApply wpv_load. iFrame "Hp". iIntros "Hp". rw Hs (scan_open d s Hn Hd).
  iApply wpu_undefined; [done|]. iAccu.
Qed.

Lemma wpu_first_field U p s Φ :
  no_nul s -> (length s <= MAX_RULE_LINE_LEN)%nat -> (first_field s = None -> U) ->
  p ↦ (s ++ replicate (MAX_RULE_LINE_LEN - length s) NUL) ∗
  (∀ t b tok sp, <affine> ⌜first_field s = Some t /\ length b = MAX_RULE_LINE_LEN /\ points b tok (Some t)⌝ -∗ p ↦ b -∗ Φ (tok, sp) tt)
  ⊢ wpu (fun _ => tt) U (strsep_at p (Some 0%nat) ",") tt Φ.
Proof.
  iIntros (Hn Hl HU) "[Hp HΦ]". destruct (first_field s) as [t|] eqn:Ht.
  - iApply wpu_wpv. iApply wpt_first_field; [done..|]. iFrame "Hp". iIntros (b tok sp) "%Hb Hp". by iApply ("HΦ" with "[] Hp").
  - unfold first_field in Ht. destruct (strchr "," s) eqn:Es; [done|]. destruct (Nat.ltb_spec (length s) MAX_RULE_LINE_LEN) as [|Hge]; [done|].
    replace (MAX_RULE_LINE_LEN - length s)%nat with 0%nat by (clear -Hge; lia). cbn [replicate]. rw app_nil_r.
    iApply wpu_strsep_open; [by rw drop_0|done|done|by apply HU|]. iFrame "Hp". iAccu.
Qed.

(** The buffer of the lines: when it is [full] the string at the pointer has no terminator, its last line cannot be taken off. *)
Definition lines_at (full : bool) (b : list ascii) (sp : option nat) (rest : option (list ascii)) : Prop :=
  if full then exists i s, sp = Some i /\ rest = Some s /\ drop i b = s /\ no_nul s else points b sp rest.

Definition left_lines (full : bool) (rest : option (list ascii)) : list (list ascii) :=
  match rest with None => [] | Some r => if full then removelast (tokens NL r) else tokens NL r end.

Definition coming (full : bool) (cur rest : option (list ascii)) : list (list ascii) :=
  match cur with None => [] | Some t => t :: left_lines full rest end.

Lemma removelast_tokens d s :
  removelast (tokens d s) = match strchr d s with Some k => take k s :: removelast (tokens d (drop (S k) s)) | None => [] end.
Proof.
  rw strsep_tokens strsep_strchr. destruct (strchr d s) as [k|]; cbn [fst snd]; [|done].
  cbn [removelast]. destruct (tokens d (drop (S k) s)) eqn:E; [|done]. by rw strsep_tokens in E.
Qed.

(** A line is cut off a full buffer. *)
Lemma cut_open b i d s k :
  drop i b = s -> no_nul s -> strchr d s = Some k ->
  c_str (drop i (<[(i + k)%nat := NUL]> b)) = Some (take k s) /\
  drop (i + k + 1) (<[(i + k)%nat := NUL]> b) = drop (S k) s /\ no_nul (drop (S k) s).
Proof.
  intros Hs Hn Hk. apply strchr_Some in Hk as (rest & Hrest & Hkr).
  assert (Hlen : (k < length s)%nat).
  { apply (f_equal length) in Hrest. rw length_app length_take /= in Hrest. lia. }
  assert (Hnt : no_nul (take k s)) by (intros Hin; apply Hn; rw -(take_drop k s); apply elem_of_app; by left).
  assert (Hnd : no_nul (drop (S k) s)) by (intros Hin; apply Hn; rw -(take_drop (S k) s); apply elem_of_app; by right).
  split_and!; [| |done].
  - rw drop_insert_ge; [|lia]. replace (i + k - i)%nat with k by lia. rw Hs insert_take_drop; [|done]. by apply c_str_app.
  - rw drop_insert_lt; [|lia]. replace (i + k + 1)%nat with (i + S k)%nat by lia. by rw -drop_drop Hs.
Qed.

Lemma wpu_next U full p b sp rest Φ :
  lines_at full b sp rest -> Forall no_nul (left_lines full rest) -> (full = true -> left_lines full rest = [] -> U) ->
  p ↦ b ∗ (∀ b' tok sp' cur rest',
      <affine> ⌜points b' tok cur /\ lines_at full b' sp' rest' /\ coming full cur rest' = left_lines full rest /\ (full = true -> cur <> None)⌝ -∗
      p ↦ b' -∗ Φ (tok, sp') tt)
  ⊢ wpu (fun _ => tt) U (strsep_at p sp NL) tt Φ.
Proof.
  iIntros (Hs Hn HU) "[Hp HΦ]". destruct full; cbn [lines_at] in Hs.
  - destruct Hs as (i & s & -> & -> & Hd & Hns). destruct (strchr NL s) as [k|] eqn:Hk.
    + destruct (cut_open b i NL s k Hd Hns Hk) as (H1 & H2 & H3).
      iApply wpu_wpv. iApply wpv_bind. iApply wpv_load. iFrame "Hp". iIntros "Hp". rw Hd.
      replace s with (s ++ []) at 1 by apply app_nil_r. rw (scan_hit _ _ _ _ Hns Hk). iApply wpv_bind. iApply wpv_store. iFrame "Hp".
      iIntros "Hp". iApply wpv_ret. iApply ("HΦ" $! _ _ _ (Some (take k s)) (Some (drop (S k) s)) with "[] Hp"). iPureIntro.
      split_and!; [done| | |done].
      * by eexists _, _.
      * cbn [coming left_lines]. by rw (removelast_tokens NL s) Hk.
    + iApply wpu_strsep_open; [done|done|done| |iFrame "Hp"; iAccu]. apply HU; [done|]. cbn [left_lines]. by rw removelast_tokens Hk.
  - iApply wpu_wpv. iApply wpt_strsep; [exact Hs|]. iFrame "Hp". iIntros (tok sp') "[%H1 %H2] Hp".
    iApply ("HΦ" with "[] Hp"). iPureIntro. split_and!; [exact H1|exact H2| |done]. exact (ahead_next NL rest).
Qed.

Lemma wpu_rule_lines U full fuel q bq p b line sp cur rest rules Φ :
  length bq = MAX_RULE_LINE_LEN -> points b line cur -> lines_at full b sp rest -> Forall no_nul (coming full cur rest) ->
  (length (coming full cur rest) < fuel)%nat -> (full = true -> cur <> None) ->
  (rule_lines_loop full (coming full cur rest) rules = None -> U) ->
  q ↦ bq ∗ p ↦ b ∗
  (∀ r bq b, <affine> ⌜rule_lines_loop full (coming full cur rest) rules = Some r⌝ -∗ q ↦ bq -∗ p ↦ b -∗ Φ r tt)
  ⊢ wpu (fun _ => tt) U (rule_lines fuel q p line sp rules) tt Φ.
Proof.
  revert bq b line sp cur rest rules. induction fuel as [|fuel IH]; intros bq b line sp cur rest rules Hq Hc Hs Hn Hf Hfull HU; [lia|].
  iIntros "(Hq & Hp & HΦ)". cbn [rule_lines]. destruct line as [i|], cur as [s|]; cbn [points] in Hc; try done.
  2: { iApply wpu_ret. iApply ("HΦ" with "[] Hq Hp"). iPureIntro. destruct full; [by destruct Hfull|done]. }
  iApply wpu_step. iApply wpt_text; [exact Hc|]. iFrame "Hp". iIntros "Hp". cbn [coming] in *. cbn [rule_lines_loop] in HU |- *.
  apply Forall_cons in Hn as [Hn Hrest]. destruct (length s =? 0)%nat.
  { iApply wpu_ret. by iApply ("HΦ" with "[] Hq Hp"). }
  iApply wpu_step. iApply wpv_load. iFrame "Hq". iIntros "Hq". iApply wpu_step. iApply wpv_store. iFrame "Hq". iIntros "Hq". rw Hq.
  iApply wpu_step. iApply wpt_copy_to. iFrame "Hq". destruct (Nat.ltb_spec MAX_RULE_LINE_LEN (length s)) as [|Hle].
  { iIntros (ret bq') "%Hret Hq". rw Hret. iApply wpu_ret. by iApply ("HΦ" with "[] Hq Hp"). }
  iIntros "Hq". cbn [negb]. iApply wpu_bind. iApply wpu_first_field; [done|done|intros Ht; apply HU; by rw Ht|].
  iFrame "Hq". iIntros (t bq' tok sp') "[%Ht [%Hq' %H1]] Hq". rw Ht in HU |- *. destruct tok as [j|]; [|done]. cbn in H1.
  iApply wpu_step. iApply wpt_text; [exact H1|]. iFrame "Hq". iIntros "Hq". cbv zeta in HU |- *.
  destruct (if _ =? 0 then None else _) as [rule|].
  2: { iApply wpu_undefined; [by apply HU|]. iAccu. }
  iApply wpu_step. iApply wpt_parse_fields; [exact Hn|]. rw rule_fields.
  change (LoginRule.parse_per_rule s rule) with (RET_OK, rule_fields_loop 0 (tokens ","%char s) rule) in HU |- *. cbv iota in HU |- *.
  iApply wpu_bind. iApply (wpu_next U full); [exact Hs|exact Hrest|intros -> E; apply HU; by rw E|]. iFrame "Hp".
  iIntros (b3 tok3 sp3 cur3 rest3) "[%H3 [%H4 [%H5 %H6]]] Hp".
  iApply (IH _ _ _ _ cur3 rest3); [exact Hq'|exact H3|exact H4|by rw H5|rw H5; cbn in Hf; lia|exact H6|by rw H5|].
  rw H5. iFrame.
Qed.

Lemma parse_rules_agrees filebuf rules :
  no_nul filebuf -> agrees (fun _ => tt) (parse_rules filebuf rules) (LoginRule.parse_rules filebuf rules) [] tt.
Proof.
  unfold LoginRule.parse_rules, parse_rules. intros Hn. apply wpu_run. iIntros (Φ) "HΦ". iApply wpu_step. iApply wpv_malloc. iIntros (q) "Hq".
  iApply wpu_step. iApply wpv_malloc. iIntros (p) "Hp". iApply wpu_step. iApply wpt_copy_to. iFrame "Hp".
  destruct (Nat.ltb_spec (MAX_RULE_LINE_LEN * 3) (length filebuf)) as [|Hle].
  { iIntros (ret b) "%Hret Hp". rw Hret. iApply wpu_step. iApply wpv_ret. iApply wpu_step. iApply wpt_free.
    iFrame "Hq". iApply wpu_step. iApply wpt_free. iFrame "Hp". iApply wpu_ret. iApply ("HΦ" with "[//]"). iApply leaked_nil. }
  iIntros "Hp". cbn [negb].
  set (full := (length filebuf =? MAX_RULE_LINE_LEN * 3)%nat).
  assert (Ho : (if full then rule_lines_loop true (removelast (tokens NL filebuf)) rules else rule_lines_loop false (tokens NL filebuf) rules)
               = rule_lines_loop full (left_lines full (Some filebuf)) rules) by (by destruct full).
  rw Ho. clear Ho.
  assert (Hlines : lines_at full (filebuf ++ replicate (MAX_RULE_LINE_LEN * 3 - length filebuf) NUL) (Some 0%nat) (Some filebuf)).
  { unfold full. destruct (Nat.eqb_spec (length filebuf) (MAX_RULE_LINE_LEN * 3)) as [E|E]; cbn [lines_at points].
    - exists 0%nat, filebuf. rw E Nat.sub_diag drop_0. cbn [replicate]. by rw app_nil_r.
    - rw drop_0. apply c_str_padded; [done|]. clear -E Hle. lia. }
  assert (Hleft : Forall no_nul (left_lines full (Some filebuf)) /\ (length (left_lines full (Some filebuf)) < 2 + length filebuf)%nat).
  { pose proof (tokens_no_nul NL filebuf Hn) as Ht. pose proof (tokens_length NL filebuf) as Hl. cbn [left_lines]. destruct full; [|split; [done|lia]].
    destruct (exists_last (l := tokens NL filebuf)) as (ts & t & E); [by rw strsep_tokens|]. rw E in Ht Hl |- *. rw removelast_last.
    apply Forall_app in Ht as [Ht _]. rw length_app in Hl. cbn in Hl. split; [done|lia]. }
  destruct Hleft as [Hln Hll]. iApply wpu_bind. iApply wpu_bind.
  iApply (wpu_next _ full); [exact Hlines|exact Hln|intros -> E; by rw E|]. iFrame "Hp".
  iIntros (b tok sp cur rest) "[%H1 [%H2 [%H3 %H4]]] Hp".
  iApply wpu_rule_lines; [apply length_replicate|exact H1|exact H2|by rw H3|by rw H3|exact H4|by rw H3|].
  rw H3. iFrame "Hq Hp". iIntros (r bq b' Hr) "Hq Hp". iApply wpu_step. iApply wpt_free.
  iFrame "Hq". iApply wpu_step. iApply wpt_free. iFrame "Hp". iApply wpu_ret. iApply ("HΦ" with "[//]"). iApply leaked_nil.
Qed.
End texts.

(** ** The claim *)

(** C38: the three parsers that take their text apart in place with [strsep] agree with the models on lists of fields: the
    line of a user id (PAM), the line of a user name (libuip), the rules of a text. They come to an end on every text, with the answer of the
    model; they are undefined exactly on the texts for which the model is, as libuip on a line without a colon (strcmp of
    NULL) and the rules when the last line of a full buffer is wanted, which has no terminator; the PAM module is always
    defined. libuip and the rules free every copy. The PAM module does not: for every line before the line it takes one
    block stays allocated, the copy of that line with its first delimiter overwritten. *)
Theorem parsers_memory `{PamCodes} data :
  no_nul data ->
  (forall errno uid u,
     runs_to (fun _ => tt) (pam_get_user errno uid data u) (PamLogin.get_user errno uid data u)
       (map cut_copy (passed uid errno (tokens NL data))) tt) /\
  (forall username u,
     agrees (fun _ => tt) (uip_get_user username data u) (UipUser.get_user username data u) [] tt) /\
  (forall rules,
     agrees (fun _ => tt) (parse_rules data rules) (LoginRule.parse_rules data rules) [] tt).
Proof.
  intros Hn. split_and!.
  - intros errno uid u. by apply pam_get_user_runs.
  - intros username u. by apply uip_get_user_agrees.
  - intros rules. by apply parse_rules_agrees.
Qed.

Definition two_users : list ascii := lit "2:Bob:x:1" ++ [NL] ++ lit "3:Eve:x:1" ++ [NL].
Definition two_rules : list ascii := lit "1,1,a,b,c,d" ++ [NL] ++ lit "2,0,e,f,g,h".

(** A login of user 3 leaves the copy of the line of user 2; the other parsers run on these texts, and libuip is undefined
    on the rules, which have no colon. *)
Lemma parsers_memory_witness :
  (exists u, PamLogin.get_user 0 3 two_users zero_user = (PAM_SUCCESS, u) /\ user_id u = 3 /\
     runs_to (fun _ => tt) (pam_get_user 0 3 two_users zero_user) (PAM_SUCCESS, u) [lit "2" ++ [NUL] ++ lit "Bob:x:1" ++ [NUL]] tt) /\
  (exists u, user_id u = 3 /\ runs_to (fun _ => tt) (uip_get_user (lit "Eve") two_users zero_user) (RET_OK, u) [] tt) /\
  (exists rules, (rule_enabled <$> rules) = [1; 0; 0] /\
     runs_to (fun _ => tt) (parse_rules two_rules zero_rules) (RET_OK, rules) [] tt) /\
  uip_get_user (lit "Eve") two_rules zero_user {| blocks := ∅; freed := []; env := tt |} = None.
Proof.
  assert (Hu : no_nul two_users) by (unfold no_nul; apply (bool_decide_eq_true_1 _); vm_compute; reflexivity).
  assert (Hr : no_nul two_rules) by (unfold no_nul; apply (bool_decide_eq_true_1 _); vm_compute; reflexivity).
  destruct (parsers_memory two_users Hu) as (H1 & H2 & _).
  destruct (parsers_memory two_rules Hr) as (_ & H4 & H3). split_and!.
  - eexists. split_and!; [vm_compute; reflexivity|reflexivity|exact (H1 0 3 zero_user)].
  - specialize (H2 (lit "Eve") zero_user). eexists. split; [|exact H2]. reflexivity.
  - specialize (H3 zero_rules). eexists. split; [|exact H3]. reflexivity.
  - exact (H4 (lit "Eve") zero_user ∅).
Defined.
