(* ===== verification/Lua.v ===== *)
(** * The C interface of Lua, as far as the bindings use it

    A binding is a C function on the Lua stack: it reads its arguments, converts them, calls the library
    and pushes results, or raises an error. Here it is a function from the list of arguments into the
    monad [LuaM], whose outcomes are the values returned, an error raised, or undefined behaviour.
    How Lua converts and indexes values is the record [lua_api]; what its manual promises of the values
    that are already of the type asked for is [lua_manual]. *)
From S2P Require Export CString.

Inductive lua_key := KInt (z : Z) | KStr (s : list ascii).
#[export] Instance lua_key_eq_dec : EqDecision lua_key.
Proof. solve_decision. Defined.

(** A string of Lua has a length and may hold NULs. [LuaOpaque] stands for the other values: floats,
    functions, userdata and threads. A table is the list of its assignments. *)
Inductive lua_value :=
| LuaNil
| LuaBoolean (b : bool)
| LuaInteger (z : Z)
| LuaString (s : list ascii)
| LuaTable (fields : list (lua_key * lua_value))
| LuaOpaque (n : nat).

(** ** Tables the bindings build: every key is set once *)
Definition lua_newtable : lua_value := LuaTable [].
Definition set_key (t : lua_value) (k : lua_key) (v : lua_value) : lua_value :=
  match t with LuaTable fs => LuaTable (fs ++ [(k, v)]) | _ => t end.
Definition lua_setfield (t : lua_value) (name : string) (v : lua_value) : lua_value := set_key t (KStr (lit name)) v.
Definition lua_seti (t : lua_value) (i : Z) (v : lua_value) : lua_value := set_key t (KInt i) v.

Fixpoint rawget (fs : list (lua_key * lua_value)) (k : lua_key) : lua_value :=
  match fs with
  | [] => LuaNil
  | (k', v) :: fs' => if decide (k' = k) then v else rawget fs' k
  end.

(** The array with the elements [vs] at 1, 2, .. *)
Fixpoint entries_from (i : Z) (vs : list lua_value) : list (lua_key * lua_value) :=
  match vs with
  | [] => []
  | v :: vs' => (KInt i, v) :: entries_from (i + 1) vs'
  end.
Definition array_of (vs : list lua_value) : lua_value := LuaTable (entries_from 1 vs).

(** ** Conversions. [None] of a checking function: it raises an error; of [lua_tolstring]: it gives NULL. *)
Record lua_api := {
  luaL_checkstring : lua_value -> option (list ascii);
  luaL_checkinteger : lua_value -> option Z;
  lua_tolstring : lua_value -> option (list ascii);
  lua_gettable : lua_value -> lua_key -> option lua_value
}.

Definition lua_integer (z : Z) : Prop := - 2 ^ 63 <= z < 2 ^ 63.

Record lua_manual (L : lua_api) : Prop := {
  checkstring_string s : luaL_checkstring L (LuaString s) = Some s;
  checkinteger_integer z : lua_integer z -> luaL_checkinteger L (LuaInteger z) = Some z;
  checkinteger_nil : luaL_checkinteger L LuaNil = None;
  tolstring_string s : lua_tolstring L (LuaString s) = Some s;
  gettable_table fs k : lua_gettable L (LuaTable fs) k = Some (rawget fs k)
}.

(** A pointer into a Lua string, read as a C string: up to the first NUL. *)
Definition to_c (s : list ascii) : list ascii := fst (span (fun c => negb (char_eqb c NUL)) s).

(** ** The monad of the bindings *)
Definition LuaM (S A : Type) : Type := S -> option ((list ascii + A) * S).

#[export] Instance LuaM_ret {S} : MRet (LuaM S) := fun A a s => Some (inr a, s).
#[export] Instance LuaM_bind {S} : MBind (LuaM S) := fun A B f m s =>
  match m s with
  | None => UB
  | Some (inl msg, s') => Some (inl msg, s')
  | Some (inr a, s') => f a s'
  end.

(** [luaL_error]; the position Lua puts in front of the message is left out. *)
Definition luaL_error {S A} (msg : list ascii) : LuaM S A := fun s => Some (inl msg, s).
Definition error_code (what : string) (ret : Z) : list ascii := lit what ++ show_int ret ++ lit "!".
Definition undefined {S A} : LuaM S A := fun _ => UB.
Definition or_ub {S A} (o : option A) : LuaM S A := fun s => match o with Some a => Some (inr a, s) | None => UB end.
Definition act {S A} (f : S -> A * S) : LuaM S A := fun s => let '(a, s') := f s in Some (inr a, s').

Definition bad_argument : list ascii := lit "bad argument".
Definition or_raise {S A} (o : option A) : LuaM S A := match o with Some a => mret a | None => luaL_error bad_argument end.

Lemma lua_assoc {S A B C} (m : LuaM S A) (f : A -> LuaM S B) (g : B -> LuaM S C) w :
  ((m ≫= f) ≫= g) w = (m ≫= (fun a => f a ≫= g)) w.
Proof. unfold mbind, LuaM_bind. by destruct (m w) as [[[msg|a] w']|]. Qed.

Lemma lua_ret {S A B} (a : A) (f : A -> LuaM S B) w : (mret a ≫= f) w = f a w.
Proof. done. Qed.

Lemma lua_bind_ext {S A B} (m : LuaM S A) (f g : A -> LuaM S B) w :
  (forall a w', f a w' = g a w') -> (m ≫= f) w = (m ≫= g) w.
Proof. intros Hfg. unfold mbind, LuaM_bind. destruct (m w) as [[[msg|a] w']|]; [done|apply Hfg|done]. Qed.

(** The stack at the call: index [n], and the top. *)
Definition arg (args : list lua_value) (n : nat) : lua_value := nth (n - 1) args LuaNil.

Section checks.
Context {S : Type} (L : lua_api).
Definition check_string (v : lua_value) : LuaM S (list ascii) := s ← or_raise (luaL_checkstring L v); mret (to_c s).
Definition check_integer (v : lua_value) : LuaM S Z := or_raise (luaL_checkinteger L v).
Definition gettable (t : lua_value) (k : lua_key) : LuaM S lua_value := or_raise (lua_gettable L t k).

Context (manual : lua_manual L).

Lemma check_string_ok s {B} (k : list ascii -> LuaM S B) w :
  (check_string (LuaString s) ≫= k) w = k (to_c s) w.
Proof. unfold check_string. cbn. by rewrite checkstring_string. Qed.

Lemma check_integer_ok z {B} (k : Z -> LuaM S B) w :
  lua_integer z -> (check_integer (LuaInteger z) ≫= k) w = k z w.
Proof. intros Hz. unfold check_integer. cbn. by rewrite checkinteger_integer. Qed.

Lemma gettable_ok fs key {B} (k : lua_value -> LuaM S B) w : (gettable (LuaTable fs) key ≫= k) w = k (rawget fs key) w.
Proof. unfold gettable. cbn. by rewrite gettable_table. Qed.
End checks.

(** ** Lemmas *)

Lemma to_c_no_nul s : no_nul s -> to_c s = s.
Proof.
  unfold to_c, no_nul. induction s as [|c s IH]; intros Hs; [done|]. rewrite not_elem_of_cons in Hs. destruct Hs as [Hc Hs].
  cbn [span]. rewrite (proj2 (char_eqb_neq c NUL)) by done. cbn [negb]. specialize (IH Hs).
  destruct (span _ s). cbn in *. by rewrite IH.
Qed.

Lemma to_c_clean s : no_nul (to_c s).
Proof.
  unfold to_c, no_nul. induction s as [|c s IH]; cbn [span]; [apply not_elem_of_nil|].
  destruct (char_eqb c NUL) eqn:Hc; cbn [negb fst]; [apply not_elem_of_nil|]. apply char_eqb_neq in Hc.
  destruct (span _ s). cbn [fst] in *. by apply not_elem_of_cons.
Qed.

Lemma entries_from_app i vs ws :
  entries_from i (vs ++ ws) = entries_from i vs ++ entries_from (i + Z.of_nat (length vs)) ws.
Proof.
  revert i. induction vs as [|v vs IH]; intros i; cbn; [by rewrite Z.add_0_r|]. rewrite IH.
  do 3 f_equal. lia.
Qed.

Lemma seti_array vs v : lua_seti (array_of vs) (Z.of_nat (length vs) + 1) v = array_of (vs ++ [v]).
Proof. unfold lua_seti, array_of, set_key. rewrite entries_from_app, Z.add_comm. done. Qed.

Lemma rawget_entries i vs n :
  rawget (entries_from i vs) (KInt (i + Z.of_nat n)) = default LuaNil (vs !! n).
Proof.
  revert i n. induction vs as [|v vs IH]; intros i n; [done|]. cbn [entries_from rawget].
  destruct (decide (KInt i = KInt (i + Z.of_nat n))) as [E|E].
  - injection E as E. by replace n with O by lia.
  - destruct n as [|n]; [exfalso; apply E; f_equal; lia|].
    replace (i + Z.of_nat (S n)) with (i + 1 + Z.of_nat n) by lia. by rewrite IH.
Qed.

(** ** A concrete interface: only values of the type asked for are converted *)
Definition strict_lua : lua_api := {|
  luaL_checkstring v := match v with LuaString s => Some s | _ => None end;
  luaL_checkinteger v := match v with LuaInteger z => Some z | _ => None end;
  lua_tolstring v := match v with LuaString s => Some s | _ => None end;
  lua_gettable t k := match t with LuaTable fs => Some (rawget fs k) | _ => None end
|}.

Lemma strict_manual : lua_manual strict_lua.
Proof. by split. Qed.
