(* ===== verification/CliSessions.v ===== *)
(** * iam_core/iam_lua_lib.c: the sessions of the command line

    Who is logged in on the command line and how a session is ended. The sources are the utmp file, the
    output of ps for the ssh sessions without a terminal, and /proc; they are the record [proc_env]. The
    table of the online users is built as the code does, one entry behind the other. *)
From S2P Require Export Lua.

Definition MAX_CLI_USER_CNT : Z := 20.
Definition SMALL_BUFFER_SIZE : nat := 256.
Definition BUFFER_SIZE : nat := 1024.
Definition USER_PROCESS : Z := 7.
Definition SIGKILL : Z := 9.
Definition SIGTERM : Z := 15.

(** An entry of utmp; the user and the host are arrays of characters. *)
Record utmp := { ut_type : Z; ut_pid : Z; ut_user : list ascii; ut_host : list ascii; ut_tv_sec : Z }.

Record proc_env := {
  p_utmp : list utmp;                                  (* what getutent gives, from setutent on *)
  p_ps : option (list ascii);                          (* the output of the pipe, [None] when popen fails *)
  p_stat : list ascii -> option bool;                  (* stat of a path: fails, or says whether it is a directory *)
  p_open : list ascii -> option (list ascii);          (* fopen for reading: fails, or the content *)
  p_readlink : list ascii -> option (list ascii);
  p_getpwuid : Z -> option (list ascii);               (* pw_name *)
  p_now : Z
}.

(** ** Reading numbers and lines *)

(** [sscanf_s(buffer, "Uid:\t%*u\t%u", &uid) == 1], with the value; white space matches any white space. *)
Definition scan_uid (buffer : list ascii) : option Z :=
  if has_prefix (lit "Uid:") buffer then
    match scan_unsigned (drop 4 buffer) with
    | inl (_, rest) => match scan_unsigned rest with inl (uid, _) => Some uid | inr _ => None end
    | inr _ => None
    end
  else None.

(** The buffers that [fgets(buffer, room + 1, fp)] delivers one after the other; [k] characters still fit. *)
Fixpoint fgets_from (room k : nat) (s : list ascii) : list (list ascii) :=
  match s with
  | [] => []
  | c :: s' =>
      if char_eqb c NL || (k <=? 1)%nat then [c] :: fgets_from room room s'
      else
        match fgets_from room (k - 1) s' with
        | [] => [[c]]
        | t :: ts => (c :: t) :: ts
        end
  end.
Definition fgets_all (size : nat) (s : list ascii) : list (list ascii) := fgets_from (size - 1) (size - 1) s.

(** ** Processes *)

Definition proc_path (size : nat) (pid : Z) (file : string) : list ascii :=
  snprintf_s size (lit "/proc/" ++ show_int pid ++ lit file).

Section sessions.
Context (e : proc_env).

Definition is_process_alive (pid : Z) : bool :=
  if pid <=? 0 then false
  else match p_stat e (proc_path 32 pid "") with Some true => true | _ => false end.

(** The first line that gives a uid; without one the uid stays 0. *)
Fixpoint uid_loop (buffers : list (list ascii)) (uid : Z) : Z :=
  match buffers with
  | [] => uid
  | buffer :: rest => match scan_uid (to_c buffer) with Some uid => uid | None => uid_loop rest uid end
  end.

Definition get_username_by_pid (pid : Z) : option (list ascii) :=
  match p_open e (proc_path SMALL_BUFFER_SIZE pid "/status") with
  | None => None
  | Some text => p_getpwuid e (uid_loop (fgets_all SMALL_BUFFER_SIZE text) 0)
  end.

(** ** The users online *)

Definition cli_user (pid : Z) (name host : list ascii) (login_time : Z) : lua_value :=
  let t := lua_newtable in
  let t := lua_setfield t "pid" (LuaInteger pid) in
  let t := lua_setfield t "username" (LuaString name) in
  let t := lua_setfield t "host" (LuaString host) in
  lua_setfield t "login_time" (LuaInteger login_time).

Definition localhost : list ascii := lit "127.0.0.1".

(** The loop over the output of the pipe. Its fuel counts the rounds; [None] when it runs out. *)
Fixpoint notty_loop (fuel : nat) (text : list ascii) (pid ppid : Z) (t : lua_value) (index : Z) : option (lua_value * Z) :=
  match fuel with
  | O => None
  | S fuel' =>
      match scan_pids text pid ppid with
      | None => Some (t, index)
      | Some (pid, ppid, text) =>
          if MAX_CLI_USER_CNT <? index then Some (t, index)
          else
            match get_username_by_pid (s32 pid) with
            | None => notty_loop fuel' text pid ppid t index
            | Some user_name =>
                if is_process_alive (s32 ppid)
                then notty_loop fuel' text pid ppid
                       (lua_seti t (index + 1) (cli_user ppid user_name localhost (p_now e))) (index + 1)
                else notty_loop fuel' text pid ppid t index
            end
      end
  end.

Definition get_notty_sshd (t : lua_value) (index : Z) : option (lua_value * Z) :=
  match p_ps e with
  | None => Some (t, index)
  | Some text => notty_loop (S (length text) + 22) text 0 0 t index
  end.

(** A session of utmp: [ut_user[0] != 0 && ut_type == 7] *)
Definition is_login (ut : utmp) : bool :=
  negb (char_eqb (nth 0 (ut_user ut) NUL) NUL) && (ut_type ut =? USER_PROCESS).

Fixpoint utmp_loop (uts : list utmp) (t : lua_value) (i : Z) : option (lua_value * Z) :=
  match uts with
  | [] => Some (t, i)
  | ut :: rest =>
      r ← (if is_login ut && is_process_alive (ut_pid ut) then
             user ← c_str (ut_user ut);
             host ← c_str (ut_host ut);
             Some (lua_seti t (i + 1) (cli_user (ut_pid ut) user host (ut_tv_sec ut)), i + 1)
           else Some (t, i));
      let '(t, i) := r in
      if MAX_CLI_USER_CNT <? i then Some (t, i) else utmp_loop rest t i
  end.

Definition l_get_cli_online_users : option lua_value :=
  '(t, i) ← utmp_loop (p_utmp e) lua_newtable 0;
  '(t, _) ← get_notty_sshd t i;
  Some t.

(** ** Ending a session *)

(** A path that cannot be read through leaves the verdict of the command line as it is. *)
Definition is_notty_sshd_session (pid : Z) : bool :=
  match p_open e (proc_path SMALL_BUFFER_SIZE pid "/cmdline") with
  | None => false
  | Some content =>
      let cmdline := map (fun c => if char_eqb c NUL then " "%char else c) (take (BUFFER_SIZE - 1) content) in
      if (length cmdline =? 0)%nat then false
      else
        let is_session := contains (lit "sshd:") cmdline && negb (contains (lit "@notty") cmdline)
                          && negb (contains (lit "listen") cmdline) in
        if is_session then
          match p_readlink e (proc_path SMALL_BUFFER_SIZE pid "/exe") with
          | None => is_session
          | Some target =>
              let buffer := take (BUFFER_SIZE - 1) target in
              if (length buffer =? 0)%nat then is_session
              else contains (lit "sshd") (to_c buffer) && negb (contains (lit "sshd: /usr/sbin/sshd") cmdline)
          end
        else false
  end.

(** The signal sent, if any: the process and the signal's number. *)
Definition l_kill (pid signal : Z) : list (Z * Z) :=
  if existsb (fun ut => is_login ut && (ut_pid ut =? pid)) (p_utmp e) then [(pid, signal)]
  else if is_process_alive pid && is_notty_sshd_session pid then [(pid, SIGTERM)]
  else [].
End sessions.

(** ** The users online *)

Section theorems.
Context (e : proc_env).

(** The entry a process of ps or of utmp is worth. *)
Definition notty_user (p : Z * Z) : option lua_value :=
  match get_username_by_pid e (s32 p.1) with
  | Some name => if is_process_alive e (s32 p.2) then Some (cli_user p.2 name localhost (p_now e)) else None
  | None => None
  end.

Definition login_user (ut : utmp) : option lua_value :=
  if is_login ut && is_process_alive e (ut_pid ut)
  then Some (cli_user (ut_pid ut) (default [] (c_str (ut_user ut))) (default [] (c_str (ut_host ut))) (ut_tv_sec ut))
  else None.

(** The arrays of an entry hold strings. *)
Definition terminated (ut : utmp) : Prop := is_Some (c_str (ut_user ut)) /\ is_Some (c_str (ut_host ut)).

Definition room (vs : list lua_value) : nat := 21 - length vs.

Lemma room_full (vs : list lua_value) :
  (MAX_CLI_USER_CNT <? Z.of_nat (length vs)) = true <-> room vs = 0%nat.
Proof. unfold MAX_CLI_USER_CNT, room. rewrite Z.ltb_lt. lia. Qed.

Lemma room_snoc vs v n : room vs = S n -> room (vs ++ [v]) = n.
Proof. unfold room. rewrite length_app. cbn. lia. Qed.

Lemma notty_full fuel text p q vs :
  room vs = 0%nat -> notty_loop e (S fuel) text p q (array_of vs) (Z.of_nat (length vs)) = Some (array_of vs, Z.of_nat (length vs)).
Proof.
  intros Hr. cbn [notty_loop]. destruct (scan_pids text p q) as [[[p' q'] text']|]; [|done]. by rewrite (proj2 (room_full vs) Hr).
Qed.

(** One round with a pair of numbers: the entry it is worth, if any, is added. *)
Lemma notty_round fuel text p q pq text' vs n :
  room vs = S n -> scan_pids text p q = Some (pq, text') ->
  let vs' := vs ++ match notty_user pq with Some v => [v] | None => [] end in
  notty_loop e (S fuel) text p q (array_of vs) (Z.of_nat (length vs)) =
  notty_loop e fuel text' pq.1 pq.2 (array_of vs') (Z.of_nat (length vs')).
Proof.
  intros Hroom Hscan. cbn [notty_loop]. rewrite Hscan. destruct pq as [p' q'].
  destruct (MAX_CLI_USER_CNT <? _) eqn:Hfull; [by apply room_full in Hfull; congruence|].
  unfold notty_user. cbn [fst snd]. destruct (get_username_by_pid e _) as [name|]; [destruct (is_process_alive e _)|];
    rewrite ?app_nil_r; [|done..].
  rewrite seti_array. f_equal. rewrite length_app. cbn [length]. lia.
Qed.

Lemma take_room_snoc vs v n l : room vs = S n -> vs ++ take (S n) (v :: l) = (vs ++ [v]) ++ take (room (vs ++ [v])) l.
Proof. intros Hr. rewrite (room_snoc _ _ n) by done. cbn [take]. by rewrite <- app_assoc. Qed.

(** The pair that is in the two variables after the lines. *)
Definition last_pair (pairs : list (Z * Z)) (pq : Z * Z) : Z * Z := default pq (last pairs).

(** The lines of processes one after the other, up to what follows them. *)
Lemma notty_loop_lines lines pairs tail :
  Forall2 ps_line lines pairs ->
  forall fuel text p q vs, skip_space text = skip_space (text_of lines ++ tail) ->
  exists text', skip_space text' = skip_space tail /\
    let vs' := vs ++ take (room vs) (omap notty_user pairs) in
    notty_loop e (length lines + S fuel) text p q (array_of vs) (Z.of_nat (length vs)) =
    notty_loop e (S fuel) text' (last_pair pairs (p, q)).1 (last_pair pairs (p, q)).2 (array_of vs') (Z.of_nat (length vs')).
Proof.
  induction 1 as [|line pq lines pairs Hl HF IH]; intros fuel text p q vs Htext; cbn [length Nat.add].
  - exists text. split; [done|]. cbn. by rewrite take_nil, app_nil_r.
  - destruct (room vs) as [|n] eqn:Hroom.
    { exists tail. split; [done|]. cbv zeta. rewrite take_0, app_nil_r. by rewrite !notty_full. }
    assert (Hscan : scan_pids text p q = Some (pq, NL :: text_of lines ++ tail)).
    { pose proof (scan_pids_line line pq (text_of lines ++ tail) p q Hl) as Hs. unfold scan_pids in *. cbn [text_of] in Htext.
      rewrite <- app_assoc in Htext. cbn [app] in Htext. rewrite Htext, Hs. by destruct pq. }
    rewrite (notty_round _ _ _ _ pq _ vs n) by done. cbv zeta.
    destruct (IH fuel (NL :: text_of lines ++ tail) pq.1 pq.2 (vs ++ match notty_user pq with Some v => [v] | None => [] end))
      as (text' & Ht & Hr); [done|]. exists text'. split; [done|]. cbv zeta in Hr. rewrite Hr.
    assert (Hp : last_pair pairs (pq.1, pq.2) = last_pair (pq :: pairs) (p, q)).
    { unfold last_pair. rewrite last_cons. destruct pq. by destruct (last pairs). }
    rewrite Hp. cbn [omap list_omap].
    assert (Hvs : (vs ++ match notty_user pq with Some v => [v] | None => [] end)
                    ++ take (room (vs ++ match notty_user pq with Some v => [v] | None => [] end)) (omap notty_user pairs)
                  = vs ++ take (S n) (match notty_user pq with Some v => v :: omap notty_user pairs | None => omap notty_user pairs end)).
    { destruct (notty_user pq) as [v|]; [by rewrite take_room_snoc|]. by rewrite app_nil_r, Hroom. }
    by rewrite Hvs.
Qed.

(** Where no number starts every round reads the same pair again: a process that is listed fills the table. *)
Lemma notty_repeat fuel text p q v vs :
  scan_pids text p q = Some (p, q, text) -> notty_user (p, q) = Some v -> (room vs < fuel)%nat ->
  notty_loop e fuel text p q (array_of vs) (Z.of_nat (length vs)) =
  let vs' := vs ++ replicate (room vs) v in Some (array_of vs', Z.of_nat (length vs')).
Proof.
  intros Hs Hv. revert vs. induction fuel as [|fuel IH]; intros vs Hf; [lia|].
  destruct (room vs) as [|n] eqn:Hroom; [cbn [replicate]; rewrite app_nil_r; by apply notty_full|].
  rewrite (notty_round _ _ _ _ (p, q) _ vs n) by done. rewrite Hv. cbn [fst snd]. pose proof (room_snoc vs v n Hroom) as Hr.
  rewrite IH by lia. rewrite Hr. cbn [replicate]. by rewrite <- app_assoc.
Qed.

(** The sessions of utmp that are shown when there is room for [n]. *)
Definition live_login (ut : utmp) : bool := is_login ut && is_process_alive e (ut_pid ut).

#[local] Instance terminated_dec ut : Decision (terminated ut).
Proof. unfold terminated. apply _. Defined.

(** The entries that are shown have to be terminated. *)
Lemma utmp_loop_spec uts : forall vs, room vs <> 0%nat ->
  utmp_loop e uts (array_of vs) (Z.of_nat (length vs)) =
  (let vs' := vs ++ take (room vs) (omap login_user uts) in
   if decide (Forall terminated (take (room vs) (filter live_login uts))) then Some (array_of vs', Z.of_nat (length vs')) else None).
Proof.
  induction uts as [|ut uts IH]; intros vs Hroom.
  { cbv zeta. cbn [utmp_loop omap list_omap]. change (filter live_login []) with (@nil utmp). rewrite !take_nil, app_nil_r.
    by rewrite decide_True by constructor. }
  destruct (room vs) as [|n] eqn:Hr; [done|]. cbv zeta. cbn [utmp_loop omap list_omap]. fold (live_login ut).
  assert (Hlu : login_user ut = if live_login ut then Some (cli_user (ut_pid ut) (default [] (c_str (ut_user ut)))
    (default [] (c_str (ut_host ut))) (ut_tv_sec ut)) else None) by done.
  destruct (live_login ut) eqn:E; rewrite !Hlu; [rewrite (filter_cons_True live_login) by (by rewrite E)
                                  |rewrite (filter_cons_False live_login) by (rewrite E; by intros [])].
  - cbn [take]. destruct (c_str (ut_user ut)) as [user|] eqn:Hu; cbn [mbind option_bind].
    2: { rewrite decide_False; [done|]. intros [[[? ?] _] _]%Forall_cons. congruence. }
    destruct (c_str (ut_host ut)) as [host|] eqn:Hh; cbn [mbind option_bind default].
    2: { rewrite decide_False; [done|]. intros [[_ [? ?]] _]%Forall_cons. congruence. }
    rewrite seti_array. change (id user) with user. change (id host) with host. set (v := cli_user _ user host _).
    pose proof (room_snoc vs v n Hr) as Hr'.
    replace (Z.of_nat (length vs) + 1) with (Z.of_nat (length (vs ++ [v]))) by (rewrite length_app; cbn; lia).
    assert (Hterm : terminated ut) by (split; by eexists).
    assert (Hdec : Forall terminated (ut :: take n (filter live_login uts)) <-> Forall terminated (take n (filter live_login uts))).
    { rewrite Forall_cons. tauto. }
    destruct (MAX_CLI_USER_CNT <? _) eqn:Hfull.
    + apply room_full in Hfull. replace n with O by congruence. cbn [take]. rewrite decide_True by (constructor; [done|constructor]). done.
    + rewrite IH by (intros H0; by rewrite (proj2 (room_full _) H0) in Hfull). rewrite Hr'. cbv zeta. rewrite <- app_assoc. cbn [app].
      destruct (decide (Forall terminated (take n _))) as [Hd|Hd].
      * by rewrite decide_True by (by apply Hdec).
      * by rewrite decide_False by (by rewrite Hdec).
  - cbn [mbind option_bind]. destruct (MAX_CLI_USER_CNT <? _) eqn:Hfull; [apply room_full in Hfull; congruence|].
    rewrite IH by congruence. by rewrite Hr.
Qed.

(** ** The owner of a process *)

Lemma fgets_line room line rest : forall k,
  NL ∉ line -> (length line < k)%nat -> fgets_from room k (line ++ NL :: rest) = (line ++ [NL]) :: fgets_from room room rest.
Proof.
  induction line as [|c line IH]; intros k Hn Hk; cbn [app fgets_from length] in *.
  - by rewrite char_eqb_refl.
  - apply not_elem_of_cons in Hn as [Hc Hn]. rewrite (proj2 (char_eqb_neq c NL)) by done.
    rewrite (proj2 (Nat.leb_gt k 1)) by lia. cbn [orb]. by rewrite IH by (done || lia).
Qed.

(** Lines that fit the buffer come one by one. *)
Lemma fgets_text size lines :
  Forall (fun l => NL ∉ l /\ (length l + 2 <= size)%nat) lines -> fgets_all size (text_of lines) = map (fun l => l ++ [NL]) lines.
Proof.
  unfold fgets_all. induction 1 as [|l lines [Hn Hl] HF IH]; [done|]. cbn [text_of map].
  rewrite fgets_line by (done || lia). by rewrite IH.
Qed.

(** A line of /proc/<pid>/status. *)
Definition status_line (l : list ascii) : Prop := NL ∉ l /\ no_nul l /\ (length l <= 254)%nat.

Lemma to_c_line l : status_line l -> to_c (l ++ [NL]) = l ++ [NL].
Proof.
  intros (_ & Hn & _). apply to_c_no_nul. unfold no_nul in *. rewrite elem_of_app. intros [H|H]; [done|].
  by apply list_elem_of_singleton in H.
Qed.

Lemma has_prefix_snoc p l c : c ∉ p -> has_prefix p (l ++ [c]) = has_prefix p l.
Proof.
  revert l. induction p as [|a p IH]; intros l Hp; [by destruct l|]. apply not_elem_of_cons in Hp as [Ha Hp].
  destruct l as [|b l]; cbn; [|by rewrite IH].
  by rewrite (proj2 (char_eqb_neq a c)) by congruence.
Qed.

Lemma uid_loop_skip lines rest uid :
  Forall (fun l => status_line l /\ has_prefix (lit "Uid:") l = false) lines ->
  uid_loop (map (fun l => l ++ [NL]) lines ++ rest) uid = uid_loop rest uid.
Proof.
  induction 1 as [|l lines [Hl Hp] HF IH]; [done|]. cbn [map app uid_loop]. rewrite to_c_line by done.
  unfold scan_uid. rewrite has_prefix_snoc, Hp; [done|]. vm_compute. set_solver.
Qed.

Definition TAB : ascii := "009"%char.

Lemma scan_uid_line r t tail :
  digits r (dec_value r) -> digits t (dec_value t) -> no_digit_first tail ->
  scan_uid (lit "Uid:" ++ TAB :: r ++ TAB :: t ++ tail) = Some (dec_value t).
Proof.
  intros (Hr1 & Hr2 & _ & Hr4) (Ht1 & Ht2 & _ & Ht4) Ht. unfold scan_uid. cbn [lit list_ascii_of_string app has_prefix drop].
  rewrite !char_eqb_refl. cbn [andb]. by rewrite scan_unsigned_space, scan_unsigned_digits, scan_unsigned_space, scan_unsigned_digits.
Qed.

(** The user a process is shown with is the one of its effective uid, the second number of the first Uid line of
    its status file; a process whose status file has no such line passes for root's. *)
Theorem effective_user pid before r t tail after :
  Forall (fun l => status_line l /\ has_prefix (lit "Uid:") l = false) before ->
  Forall status_line after ->
  digits r (dec_value r) -> digits t (dec_value t) -> no_digit_first tail ->
  let uid_line := lit "Uid:" ++ TAB :: r ++ TAB :: t ++ tail in
  status_line uid_line ->
  (p_open e (proc_path SMALL_BUFFER_SIZE pid "/status") = Some (text_of (before ++ uid_line :: after)) ->
   get_username_by_pid e pid = p_getpwuid e (dec_value t)) /\
  (p_open e (proc_path SMALL_BUFFER_SIZE pid "/status") = Some (text_of before) ->
   get_username_by_pid e pid = p_getpwuid e 0).
Proof.
  intros Hb Ha Hr Ht Htail uid_line Hu. unfold get_username_by_pid.
  assert (Hfit : forall ls, Forall status_line ls -> Forall (fun l => NL ∉ l /\ (length l + 2 <= SMALL_BUFFER_SIZE)%nat) ls).
  { intros ls Hls. eapply Forall_impl; [exact Hls|]. intros l (Hn & _ & Hl). split; [done|]. unfold SMALL_BUFFER_SIZE. lia. }
  assert (Hb' : Forall status_line before) by (eapply Forall_impl; [exact Hb|]; by intros l [? _]).
  split; intros ->; f_equal; rewrite fgets_text.
  - rewrite map_app, uid_loop_skip by done. cbn [map uid_loop]. rewrite to_c_line by done.
    unfold uid_line. rewrite <- app_assoc. cbn [app]. rewrite <- app_assoc. cbn [app]. rewrite <- app_assoc.
    rewrite scan_uid_line; [done..|]. by destruct tail.
  - apply Hfit, Forall_app. split; [done|]. by constructor.
  - rewrite <- (app_nil_r (map _ before)). by rewrite uid_loop_skip.
  - by apply Hfit.
Qed.

(** ** Ending sessions *)

(** What the checks of the command line and of the binary accept. *)
Definition ssh_session (pid : Z) : Prop :=
  exists content, p_open e (proc_path SMALL_BUFFER_SIZE pid "/cmdline") = Some content /\
    let cmdline := map (fun c => if char_eqb c NUL then " "%char else c) (take 1023 content) in
    contains (lit "sshd:") cmdline = true /\ contains (lit "@notty") cmdline = false /\
    contains (lit "listen") cmdline = false /\
    (forall target, p_readlink e (proc_path SMALL_BUFFER_SIZE pid "/exe") = Some target -> target <> [] ->
       contains (lit "sshd") (to_c (take 1023 target)) = true /\ contains (lit "sshd: /usr/sbin/sshd") cmdline = false).

Lemma notty_is_ssh pid : is_notty_sshd_session e pid = true <-> ssh_session pid.
Proof.
  unfold is_notty_sshd_session, ssh_session. destruct (p_open e _) as [content|]; [|split; [done|by intros (? & ? & _)]].
  change (BUFFER_SIZE - 1)%nat with 1023%nat. set (cmdline := map _ (take 1023 content)).
  assert (Hlen : (length cmdline =? 0)%nat = true -> contains (lit "sshd:") cmdline = false).
  { intros Hl. apply Nat.eqb_eq, length_zero_iff_nil in Hl. by rewrite Hl. }
  split.
  - intros H. exists content. split; [done|]. cbv zeta. fold cmdline. destruct (length cmdline =? 0)%nat; [done|].
    destruct (contains (lit "sshd:") cmdline), (contains (lit "@notty") cmdline), (contains (lit "listen") cmdline);
      cbn [andb negb] in H; try discriminate. do 3 (split; [done|]). intros target Ht Hne. rewrite Ht in H.
    destruct (length (take 1023 target) =? 0)%nat eqn:E.
    { by apply Nat.eqb_eq, length_zero_iff_nil in E; destruct target. }
    apply andb_true_iff in H as [H1 H2]. by apply negb_true_iff in H2.
  - intros (content' & [= <-] & H1 & H2 & H3 & H4). fold cmdline in H1, H2, H3, H4.
    destruct (length cmdline =? 0)%nat eqn:E; [by rewrite Hlen in H1|]. rewrite H1, H2, H3. cbn [andb negb].
    destruct (p_readlink e _) as [target|]; [|done].
    destruct (length (take 1023 target) =? 0)%nat eqn:E2; [done|].
    destruct (H4 target) as [-> ->]; [done| |done]. intros ->. discriminate.
Qed.

(** C7: only sessions are killed: a signal goes to the process asked for and to no other, and then that process is a
    session of utmp, which gets the signal asked for, or a live ssh process that is not the listening daemon, which
    gets SIGTERM; and every session of utmp shown online can be killed. *)
Theorem only_sessions_are_killed pid signal :
  (forall p s, (p, s) ∈ l_kill e pid signal -> p = pid /\
     ((s = signal /\ exists ut, ut ∈ p_utmp e /\ is_login ut = true /\ ut_pid ut = pid) \/
      (s = SIGTERM /\ 0 < pid /\ p_stat e (proc_path 32 pid "") = Some true /\ ssh_session pid))) /\
  (length (l_kill e pid signal) <= 1)%nat /\
  (forall ut v, ut ∈ p_utmp e -> login_user ut = Some v -> ut_pid ut = pid -> l_kill e pid signal = [(pid, signal)]).
Proof.
  unfold l_kill. destruct (existsb _ (p_utmp e)) eqn:E.
  - apply existsb_exists in E as (ut & Hin & Hut). apply list_elem_of_In in Hin. apply andb_true_iff in Hut as [Hlog Hpid].
    apply Z.eqb_eq in Hpid. split; [|split; [done|done]]. intros p s Hp. apply list_elem_of_singleton in Hp as [= -> ->].
    split; [done|]. left. split; [done|]. by exists ut.
  - split; [|split].
    + intros p s Hp. destruct (is_process_alive e pid && is_notty_sshd_session e pid) eqn:Ek; [|by apply elem_of_nil in Hp].
      apply list_elem_of_singleton in Hp as [= -> ->]. split; [done|]. right. apply andb_true_iff in Ek as [Ha Hn].
      apply notty_is_ssh in Hn. unfold is_process_alive in Ha. destruct (pid <=? 0) eqn:E0; [done|].
      split; [done|]. split; [lia|]. split; [|done]. by destruct (p_stat e _) as [[]|].
    + destruct (_ && _); cbn; lia.
    + intros ut v Hin Hl Hpid. exfalso. revert E. apply not_false_iff_true, existsb_exists.
      exists ut. split; [by apply list_elem_of_In|]. cbv beta. unfold login_user in Hl. destruct (is_login ut); [|done]. cbn [andb].
      by apply Z.eqb_eq.
Qed.
End theorems.

(** ** The fuel of the loop over the output of ps *)

(** A round that changes nothing and lists nobody is repeated for ever. *)
Lemma notty_stuck e s p q t index fuel :
  scan_pids s p q = Some (p, q, s) -> index <= MAX_CLI_USER_CNT ->
  get_username_by_pid e (s32 p) = None \/ is_process_alive e (s32 q) = false ->
  notty_loop e fuel s p q t index = None.
Proof.
  intros Hs Hi Hu. induction fuel as [|fuel IH]; [done|]. cbn [notty_loop]. rewrite Hs, (proj2 (Z.ltb_ge _ _)) by done.
  destruct (get_username_by_pid _ _); [|done]. destruct Hu as [ | ->]; done.
Qed.

(** The fuel given is enough: when the loop does not end within it, it never ends. *)
Lemma notty_fuel_enough e fuel s p q t index :
  (length s + Z.to_nat (MAX_CLI_USER_CNT + 2 - index) < fuel)%nat -> notty_loop e fuel s p q t index = None ->
  forall fuel', notty_loop e fuel' s p q t index = None.
Proof.
  revert s p q t index. induction fuel as [|fuel IH]; intros s p q t index Hf; [lia|]. cbn [notty_loop].
  destruct (scan_pids s p q) as [[[p' q'] s']|] eqn:Hs; [|done].
  destruct (Z.ltb_spec MAX_CLI_USER_CNT index) as [|Hi]; [done|].
  intros Hnone [|fuel']; [done|]. cbn [notty_loop]. rewrite Hs, (proj2 (Z.ltb_ge _ _)) by done.
  destruct (scan_pids_progress _ _ _ _ _ _ Hs) as [Hl|E]; [|injection E as -> -> ->].
  - destruct (get_username_by_pid _ _); [destruct (is_process_alive _ _)|]; (eapply IH; [|exact Hnone]; lia).
  - destruct (get_username_by_pid e (s32 p)) eqn:Hu; [destruct (is_process_alive e (s32 q)) eqn:Ha|].
    + eapply IH; [|exact Hnone]. unfold MAX_CLI_USER_CNT in *. lia.
    + apply notty_stuck; auto.
    + apply notty_stuck; auto.
Qed.

(** The loop over the output of ps does not look at the number of conversions: at a character that starts no number it
    never ends, unless the last process read is alive and known. *)
Lemma garbage_never_ends e t index fuel :
  index <= 20 -> get_username_by_pid e 0 = None -> notty_loop e fuel (lit "x") 0 0 t index = None.
Proof. intros Hi Hn. apply notty_stuck; [done|done|by left]. Qed.

(** ** The list as a whole *)

Section listed.
Context (e : proc_env).

(** What utmp contributes: the sessions of its users whose process is alive, 21 at most. *)
Definition shown : list utmp := take 21 (filter (live_login e) (p_utmp e)).

Lemma utmp_shown :
  utmp_loop e (p_utmp e) lua_newtable 0 =
  let vs := take 21 (omap (login_user e) (p_utmp e)) in
  if decide (Forall terminated shown) then Some (array_of vs, Z.of_nat (length vs)) else None.
Proof.
  assert (H0 : room (@nil lua_value) <> 0%nat) by done. exact (utmp_loop_spec e (p_utmp e) [] H0).
Qed.

Lemma room_shown : room (take 21 (omap (login_user e) (p_utmp e))) = (21 - length (omap (login_user e) (p_utmp e)))%nat.
Proof. unfold room. rewrite length_take. lia. Qed.

Lemma take_shown (l : list lua_value) :
  let vs := take 21 (omap (login_user e) (p_utmp e)) in vs ++ take (room vs) l = take 21 (omap (login_user e) (p_utmp e) ++ l).
Proof. cbv zeta. by rewrite take_app, room_shown. Qed.

(** After the lines: the loop goes on behind them, with fuel for the table to be filled. *)
Lemma listed_lines lines pairs tail :
  Forall terminated shown -> Forall2 ps_line lines pairs -> p_ps e = Some (text_of lines ++ tail) ->
  exists fuel text',
    let vs := take 21 (omap (login_user e) (p_utmp e) ++ omap (notty_user e) pairs) in
    skip_space text' = skip_space tail /\
    l_get_cli_online_users e =
      fst <$> notty_loop e (S (22 + fuel)) text' (last_pair pairs (0, 0)).1 (last_pair pairs (0, 0)).2 (array_of vs) (Z.of_nat (length vs)).
Proof.
  intros HT HL Hps. unfold l_get_cli_online_users, get_notty_sshd. rewrite Hps, utmp_shown.
  rewrite decide_True by done. cbv zeta. cbn [mbind option_bind]. set (vs := take 21 (omap (login_user e) (p_utmp e))).
  assert (Hf : (S (length (text_of lines ++ tail)) + 22 = length lines + S (22 + (length (text_of lines ++ tail) - length lines)))%nat).
  { pose proof (length_text_of lines). rewrite length_app. lia. }
  rewrite Hf. edestruct (notty_loop_lines e lines pairs tail HL) as (text' & Ht & Hr); [reflexivity|].
  exists (length (text_of lines ++ tail) - length lines)%nat, text'. split; [exact Ht|]. cbv zeta in Hr. rewrite Hr. clear Hr.
  assert (Hvs : vs ++ take (room vs) (omap (notty_user e) pairs) = take 21 (omap (login_user e) (p_utmp e) ++ omap (notty_user e) pairs))
    by apply take_shown.
  rewrite Hvs. destruct (notty_loop _ _ _ _ _ _ _) as [[]|]; reflexivity.
Qed.

(** Behind the lines: nothing, or a text in which no number starts. *)
Lemma notty_tail fuel text tail p q (vs : list lua_value) :
  (length vs <= 21)%nat -> skip_space text = skip_space tail ->
  (skip_space tail = [] -> notty_loop e (S (22 + fuel)) text p q (array_of vs) (Z.of_nat (length vs)) = Some (array_of vs, Z.of_nat (length vs))) /\
  (no_number tail ->
     fst <$> notty_loop e (S (22 + fuel)) text p q (array_of vs) (Z.of_nat (length vs)) =
     match notty_user e (p, q) with
     | Some v => Some (array_of (vs ++ replicate (room vs) v))
     | None => if (length vs <? 21)%nat then None else Some (array_of vs)
     end).
Proof.
  intros Hlen Ht. split.
  - intros H0. generalize (22 + fuel)%nat as n. intros n. cbn [notty_loop]. unfold scan_pids. by rewrite Ht, H0.
  - intros Hno. pose proof Hno as (_ & Hskip & _). rewrite Hskip in Ht. pose proof (scan_no_number text tail p q Hno Ht) as Hs.
    pose proof (scan_no_number tail tail p q Hno Hskip) as Hs2. destruct (room vs) as [|n] eqn:Hroom.
    + rewrite notty_full by done. cbn [replicate fmap option_fmap option_map fst]. rewrite app_nil_r.
      rewrite (proj2 (Nat.ltb_ge _ _)) by (unfold room in Hroom; lia). by destruct (notty_user e (p, q)).
    + rewrite (notty_round e _ text p q (p, q) tail vs n) by done. cbn [fst snd]. destruct (notty_user e (p, q)) as [v|] eqn:Hv.
      * pose proof (room_snoc vs v n Hroom) as Hr. rewrite (notty_repeat e _ tail p q v) by (done || unfold room; lia).
        cbn [fmap option_fmap option_map fst]. rewrite Hr. cbn [replicate]. by rewrite <- app_assoc.
      * rewrite app_nil_r. rewrite notty_stuck; [|done|unfold room, MAX_CLI_USER_CNT in *; lia|].
        { by rewrite (proj2 (Nat.ltb_lt _ _)) by (unfold room in Hroom; lia). }
        unfold notty_user in Hv. cbn [fst snd] in Hv. destruct (get_username_by_pid e _); [|by left]. right. by destruct (is_process_alive e _).
Qed.

(** C17: what the list of the online users is. The live sessions of utmp in their order, then the live ssh sessions
    without a terminal that belong to a known user, cut after 21 entries, whenever ps prints lines of two numbers. When it
    prints something else behind them the last process is read again and again: it fills the table if it is listed, and
    otherwise the call never returns as long as there is room. A user or a host of utmp that fills its array is read past
    its end when the session is shown. There is no other way for the call not to give a list. *)
Theorem online_users_listed :
  (~ Forall terminated shown -> l_get_cli_online_users e = UB) /\
  (Forall terminated shown ->
    (p_ps e = None -> l_get_cli_online_users e = Some (array_of (take 21 (omap (login_user e) (p_utmp e))))) /\
    (forall lines pairs tail, Forall2 ps_line lines pairs -> p_ps e = Some (text_of lines ++ tail) ->
       let listed := omap (login_user e) (p_utmp e) ++ omap (notty_user e) pairs in
       (skip_space tail = [] -> l_get_cli_online_users e = Some (array_of (take 21 listed))) /\
       (no_number tail -> l_get_cli_online_users e =
          match notty_user e (last_pair pairs (0, 0)) with
          | Some v => Some (array_of (take 21 (listed ++ replicate 21 v)))
          | None => if (length listed <? 21)%nat then None else Some (array_of (take 21 listed))
          end)) /\
    (l_get_cli_online_users e = None ->
       exists text t i, p_ps e = Some text /\ forall fuel, notty_loop e fuel text 0 0 t i = None)).
Proof.
  split; [|intros HT; split; [|split]].
  - intros HT. unfold l_get_cli_online_users. rewrite utmp_shown. by rewrite decide_False.
  - intros Hps. unfold l_get_cli_online_users, get_notty_sshd. rewrite Hps, utmp_shown. by rewrite decide_True.
  - intros lines pairs tail HL Hps listed. destruct (listed_lines lines pairs tail HT HL Hps) as (fuel & text & Ht & Hl).
    fold listed in Hl. destruct (last_pair pairs (0, 0)) as [p q]. cbn [fst snd] in Hl.
    destruct (notty_tail fuel text tail p q (take 21 listed)) as [H1 H2]; [rewrite length_take; lia|done|]. split.
    + intros H0. by rewrite Hl, H1.
    + intros Hno. rewrite Hl, H2 by done. rewrite length_take. destruct (notty_user e (p, q)) as [v|].
      * do 2 f_equal. unfold room. rewrite length_take, take_app, take_replicate. do 2 f_equal. lia.
      * destruct (Nat.ltb_spec (length listed) 21), (Nat.ltb_spec (Nat.min 21 (length listed)) 21); done || lia.
  - unfold l_get_cli_online_users, get_notty_sshd. rewrite utmp_shown, decide_True by done. cbv zeta. cbn [mbind option_bind].
    destruct (p_ps e) as [text|]; [|done]. destruct (notty_loop _ _ _ _ _ _ _) as [[]|] eqn:Hn; [done|]. intros _.
    eexists _, _, _. split; [done|]. eapply notty_fuel_enough; [|exact Hn]. unfold MAX_CLI_USER_CNT. lia.
Qed.
End listed.

(** ** The theorems at concrete inputs: alice on a terminal, bob over ssh without one. *)

Definition padded (n : nat) (s : string) : list ascii := lit s ++ replicate (n - length (lit s)) NUL.
Definition demo_proc : proc_env := {|
  p_utmp := [{| ut_type := 2; ut_pid := 1; ut_user := padded 32 "reboot"; ut_host := padded 256 ""; ut_tv_sec := 5 |};
             {| ut_type := 7; ut_pid := 210; ut_user := padded 32 "alice"; ut_host := padded 256 "10.0.0.9"; ut_tv_sec := 50 |}];
  p_ps := Some (text_of [lit "301 300"; lit "401 400"]);
  p_stat path := if bool_decide (path ∈ [lit "/proc/1"; lit "/proc/210"; lit "/proc/300"]) then Some true else None;
  p_open path :=
    if str_eqb path (lit "/proc/301/status")
    then Some (text_of [lit "Name:" ++ TAB :: lit "sshd"; lit "Uid:" ++ TAB :: lit "0" ++ TAB :: lit "501" ++ TAB :: lit "501"])
    else if str_eqb path (lit "/proc/401/status") then Some (text_of [lit "Name:" ++ TAB :: lit "sshd"])
    else if str_eqb path (lit "/proc/300/cmdline") then Some (lit "sshd: bob [priv]" ++ [NUL])
    else None;
  p_readlink path := if str_eqb path (lit "/proc/300/exe") then Some (lit "/usr/sbin/sshd") else None;
  p_getpwuid uid := if uid =? 501 then Some (lit "bob") else if uid =? 0 then Some (lit "root") else None;
  p_now := 77
|}.

Lemma demo_lines : Forall2 ps_line [lit "301 300"; lit "401 400"] [(301, 300); (401, 400)].
Proof.
  repeat constructor.
  - exists (lit "301"), (lit "300"). split; [done|]. split; (split; [done|]); (split; [by repeat constructor|done]).
  - exists (lit "401"), (lit "400"). split; [done|]. split; (split; [done|]); (split; [by repeat constructor|done]).
Qed.

(** The same with a complaint of ps at the end, and with a name that fills its array. *)
Definition demo_noise : proc_env := {|
  p_utmp := p_utmp demo_proc; p_ps := Some (text_of [lit "301 300"; lit "401 400"] ++ lit "error"); p_stat := p_stat demo_proc;
  p_open := p_open demo_proc; p_readlink := p_readlink demo_proc; p_getpwuid := p_getpwuid demo_proc; p_now := 77
|}.
Definition demo_long : proc_env := {|
  p_utmp := [{| ut_type := 7; ut_pid := 210; ut_user := replicate 32 "a"%char; ut_host := padded 256 "10.0.0.9"; ut_tv_sec := 50 |}];
  p_ps := None; p_stat := p_stat demo_proc;
  p_open := p_open demo_proc; p_readlink := p_readlink demo_proc; p_getpwuid := p_getpwuid demo_proc; p_now := 77
|}.

Lemma online_users_listed_witness :
  l_get_cli_online_users demo_proc =
    Some (array_of [cli_user 210 (lit "alice") (lit "10.0.0.9") 50; cli_user 300 (lit "bob") localhost 77]) /\
  l_get_cli_online_users demo_noise = None /\ l_get_cli_online_users demo_long = UB.
Proof.
  assert (Hshown : shown demo_proc = [nth 1 (p_utmp demo_proc) (nth 0 (p_utmp demo_proc) {| ut_type := 0; ut_pid := 0; ut_user := []; ut_host := []; ut_tv_sec := 0 |})])
    by (vm_compute; reflexivity).
  assert (Hterm : Forall terminated (shown demo_proc)).
  { rewrite Hshown. constructor; [split; vm_compute; by eexists|constructor]. }
  split; [|split].
  - destruct (proj2 (online_users_listed demo_proc) Hterm) as (_ & Hl & _).
    destruct (Hl _ _ [] demo_lines eq_refl) as [H _]. refine (eq_trans (H eq_refl) _). vm_compute. reflexivity.
  - destruct (proj2 (online_users_listed demo_noise) Hterm) as (_ & Hl & _).
    destruct (Hl _ _ (lit "error") demo_lines eq_refl) as [_ H]. refine (eq_trans (H _) _); [|vm_compute; reflexivity].
    split; [done|]. split; vm_compute; reflexivity.
  - apply (online_users_listed demo_long). assert (Hs : shown demo_long = p_utmp demo_long) by (vm_compute; reflexivity). rewrite Hs.
    intros [[[? Hu] _] _]%Forall_cons. vm_compute in Hu. discriminate.
Defined.

Lemma effective_user_witness :
  get_username_by_pid demo_proc 301 = Some (lit "bob") /\ get_username_by_pid demo_proc 401 = Some (lit "root").
Proof.
  assert (Hl : forall l, bool_decide (NL ∉ l) && bool_decide (NUL ∉ l) && (length l <=? 254)%nat = true -> status_line l).
  { intros l H. apply andb_true_iff in H as [H H3]. apply andb_true_iff in H as [H1 H2].
    split; [by apply bool_decide_eq_true in H1|]. split; [by apply bool_decide_eq_true in H2|by apply Nat.leb_le]. }
  assert (Hd : forall s, s <> [] -> forallb is_digit s = true -> dec_value s <? 2 ^ 32 = true -> digits s (dec_value s)).
  { intros s H1 H2 H3. split; [done|]. split; [|split; [done|by apply Z.ltb_lt]]. apply Forall_forall. intros c Hc.
    apply forallb_forall with (x := c) in H2; [done|by apply list_elem_of_In]. }
  assert (Hb : Forall (fun l => status_line l /\ has_prefix (lit "Uid:") l = false) [lit "Name:" ++ TAB :: lit "sshd"])
    by (repeat constructor; apply Hl; reflexivity).
  split.
  - refine (proj1 (effective_user demo_proc 301 [lit "Name:" ++ TAB :: lit "sshd"] (lit "0") (lit "501") (TAB :: lit "501") []
                     Hb _ _ _ _ _) _); [constructor|apply Hd; done|apply Hd; done|done|apply Hl; reflexivity|reflexivity].
  - refine (proj2 (effective_user demo_proc 401 [lit "Name:" ++ TAB :: lit "sshd"] (lit "0") (lit "501") (TAB :: lit "501") []
                     Hb _ _ _ _ _) _); [constructor|apply Hd; done|apply Hd; done|done|apply Hl; reflexivity|reflexivity].
Defined.

(** The ssh session gets SIGTERM whatever is asked, the terminal gets the signal asked for, another process none. *)
Lemma only_sessions_are_killed_witness :
  l_kill demo_proc 300 SIGKILL = [(300, SIGTERM)] /\ l_kill demo_proc 210 SIGKILL = [(210, SIGKILL)] /\
  l_kill demo_proc 1 SIGKILL = [] /\ ssh_session demo_proc 300.
Proof.
  split; [reflexivity|]. split.
  - eapply (proj2 (proj2 (only_sessions_are_killed demo_proc 210 SIGKILL)));
      [apply list_elem_of_further, list_elem_of_here|reflexivity|reflexivity].
  - split; [reflexivity|].
    destruct (proj1 (only_sessions_are_killed demo_proc 300 SIGKILL) 300 SIGTERM (list_elem_of_here _ _))
      as [_ [[H _]|(_ & _ & _ & H)]]; [discriminate H|exact H].
Defined.
