(* ===== verification/LuaLdap.v ===== *)
(** * iam_core/iam_lua_lib.c: authentication against LDAP, called from Lua

    [l_mscm_ldap_authenticate] copies the fields of a Lua table into an LDAP_AUTH_INFO, authenticates and
    hands back the code, the privilege and the groups; [l_check_username_divide_by_domain] splits
    user\@domain. The state of the monad is what the library has been asked so far, newest first. *)
From S2P Require Import LdapAuth.
From S2P Require Export Lua.

Definition USER_NAME_CONTAIN_DOMAIN : Z := 0.
Definition USER_NAME_NOT_CONTAIN_DOMAIN : Z := 1.
Definition LDAP_MAX_CIPHER_LEN : nat := 2048.

(** ** user@domain: the code with the two arrays, 256 bytes each *)

Definition divide_by_domain (user_name_remain : list ascii) : Z * list ascii * list ascii :=
  let nothing := (USER_NAME_NOT_CONTAIN_DOMAIN, [], []) in
  match strrchr "@"%char user_name_remain with
  | None => nothing
  | Some at_ =>
      let ptr := drop at_ user_name_remain in
      if (length ptr <=? 1)%nat then nothing
      else
        let domain := snd (strncpy_s LDAP_USER_NAME_MAX_LEN (drop 1 ptr) (length ptr - 1)) in
        let user_name := snd (strncpy_s LDAP_USER_NAME_MAX_LEN user_name_remain (length user_name_remain - length ptr)) in
        (USER_NAME_CONTAIN_DOMAIN, user_name, domain)
  end.

Definition l_check_username_divide_by_domain {S} (L : lua_api) (args : list lua_value) : LuaM S (list lua_value) :=
  user_name_remain ← check_string L (arg args 1);
  let '(has_domain, user_name, domain) := divide_by_domain user_name_remain in
  mret [LuaInteger has_domain; LuaString user_name; LuaString domain].

(** ** Filling the structure *)

Section fill.
Context {S : Type} (L : lua_api).

(** The array [str] after the call. *)
Definition lua_get_struct_string (t : lua_value) (str : list ascii) (field_name : string) : LuaM S (list ascii) :=
  v ← gettable L t (KStr (lit field_name));
  let field_str := default [] (lua_tolstring L v) in
  let field_len := length field_str in
  mret (snd (if negb (field_len =? 0)%nat then memcpy_s str field_str field_len else memcpy_s str [NUL] 1)).

Definition lua_get_struct_uint8 (t : lua_value) (field_name : string) : LuaM S Z :=
  v ← gettable L t (KStr (lit field_name));
  res ← check_integer L v;
  mret (u8 res).

(** A name of a group: NULL leaves the array alone. *)
Definition group_array (v : lua_value) (str : list ascii) : list ascii :=
  match lua_tolstring L v with
  | Some s => snd (memcpy_s str s (length s))
  | None => str
  end.

(** The group at [group_id] of the Lua array [groups], over the structure [group]. *)
Definition lua_get_struct_group (groups : lua_value) (group : LDAP_GROUP_INFO) (group_id : Z) : LuaM S LDAP_GROUP_INFO :=
  g ← gettable L groups (KInt group_id);
  inner_id ← gettable L g (KInt 1) ≫= check_integer L;
  name ← gettable L g (KInt 2);
  folder ← gettable L g (KInt 3);
  priv ← gettable L g (KInt 4) ≫= check_integer L;
  mret {| group_inner_id := u8 inner_id; group_name := group_array name (group_name group);
          group_folder := group_array folder (group_folder group); group_priv := u8 priv |}.

(** The loop over [n] groups from number [i] on; the array has [MAX_USER_GROUP] elements. *)
Fixpoint group_loop (groups : lua_value) (n i : nat) (group : list LDAP_GROUP_INFO) : LuaM S (list LDAP_GROUP_INFO) :=
  match n with
  | O => mret group
  | Datatypes.S n' =>
      match group !! i with
      | None => undefined
      | Some g =>
          g ← lua_get_struct_group groups g (u8 (Z.of_nat i + 1));
          group_loop groups n' (Datatypes.S i) (<[i := g]> group)
      end
  end.
End fill.

Definition zero_array (n : nat) : list ascii := replicate n NUL.
Definition zero_group : LDAP_GROUP_INFO := {|
  group_inner_id := 0; group_name := zero_array (LDAP_GROUPNAME_MAX_LEN + 1);
  group_folder := zero_array (LDAP_GROUPFOLDER_MAX_LEN + 1); group_priv := 0
|}.

(** The strings the arrays of the structure hold; an array without a NUL is read past its end. *)
Definition group_strings (g : LDAP_GROUP_INFO) : option LDAP_GROUP_INFO :=
  name ← c_str (group_name g); folder ← c_str (group_folder g);
  Some {| group_inner_id := group_inner_id g; group_name := name; group_folder := folder; group_priv := group_priv g |}.

Definition info_strings (i : LDAP_AUTH_INFO) : option LDAP_AUTH_INFO :=
  hostaddr' ← c_str (hostaddr i); user_domain' ← c_str (user_domain i); folder' ← c_str (auth_folder i);
  bind_dn' ← c_str (bind_dn i); bind_dn_pwd' ← c_str (bind_dn_pwd i); cert_inner_dir' ← c_str (cert_inner_dir i);
  scope' ← c_str (auth_scope i); tls_cipher' ← c_str (tls_cipher i); username' ← c_str (username i);
  password' ← c_str (password i); group' ← mapM group_strings (group i);
  Some {| serverid := serverid i; hostaddr := hostaddr'; auth_port := auth_port i; user_domain := user_domain';
          auth_folder := folder'; bind_dn := bind_dn'; bind_dn_pwd := bind_dn_pwd';
          cert_verify_enabled := cert_verify_enabled i; cert_verify_level := cert_verify_level i;
          cert_inner_dir := cert_inner_dir'; auth_scope := scope'; time_limit := time_limit i;
          bind_time_limit := bind_time_limit i; auth_version := auth_version i; tls_cipher := tls_cipher';
          group_cnt := group_cnt i; group := group'; username := username'; password := password' |}.

Section authenticate.
Context `{LdapCodes} (L : lua_api) (lib : openldap_lib) (calloc_ok : bool).

Definition fill_auth_info {S} (t : lua_value) : LuaM S LDAP_AUTH_INFO :=
  serverid ← lua_get_struct_uint8 L t "serverid";
  hostaddr ← lua_get_struct_string L t (zero_array (LDAP_USERDOMAIN_MAX_LEN + 1)) "hostaddr";
  port ← gettable L t (KStr (lit "port")) ≫= check_integer L;
  user_domain ← lua_get_struct_string L t (zero_array (LDAP_USERDOMAIN_MAX_LEN + 1)) "user_domain";
  folder ← lua_get_struct_string L t (zero_array (LDAP_USERFOLDER_MAX_LEN + 1)) "folder";
  bind_dn ← lua_get_struct_string L t (zero_array SMALL_BUFFER_SIZE) "bind_dn";
  bind_dn_pwd ← lua_get_struct_string L t (zero_array SMALL_BUFFER_SIZE) "bind_dn_pwd";
  cert_verify_enabled ← lua_get_struct_uint8 L t "cert_verify_enabled";
  cert_verify_level ← lua_get_struct_uint8 L t "cert_verify_level";
  cert_inner_dir ← lua_get_struct_string L t (zero_array SMALL_BUFFER_SIZE) "cert_inner_dir";
  scope ← lua_get_struct_string L t (zero_array (LDAP_USERDOMAIN_MAX_LEN + 1)) "scope";
  time_limit ← lua_get_struct_uint8 L t "time_limit";
  bind_time_limit ← lua_get_struct_uint8 L t "bind_time_limit";
  version ← lua_get_struct_uint8 L t "version";
  group_cnt ← lua_get_struct_uint8 L t "group_cnt";
  groups ← gettable L t (KStr (lit "group"));
  group ← group_loop L groups (Z.to_nat group_cnt) 0 (replicate MAX_USER_GROUP zero_group);
  tls_cipher ← lua_get_struct_string L t (zero_array LDAP_MAX_CIPHER_LEN) "tls_cipher";
  username ← lua_get_struct_string L t (zero_array (LDAP_USER_NAME_MAX_LEN + 1)) "username";
  password ← lua_get_struct_string L t (zero_array (LDAP_USER_NAME_MAX_LEN + 1)) "password";
  mret {| serverid := serverid; hostaddr := hostaddr; auth_port := s32 port; user_domain := user_domain;
          auth_folder := folder; bind_dn := bind_dn; bind_dn_pwd := bind_dn_pwd;
          cert_verify_enabled := cert_verify_enabled; cert_verify_level := cert_verify_level;
          cert_inner_dir := cert_inner_dir; auth_scope := scope; time_limit := time_limit;
          bind_time_limit := bind_time_limit; auth_version := version; tls_cipher := tls_cipher;
          group_cnt := group_cnt; group := group; username := username; password := password |}.

(** What the directory is asked during the call is added to the state. *)
Definition l_mscm_ldap_authenticate (args : list lua_value) : LuaM (list event) (list lua_value) :=
  arrays ← (if bool_decide (args = []) then undefined else fill_auth_info (arg args 1));
  ldap_auth_info ← or_ub (info_strings arrays);
  '(ret, user_pri, group_id, _, tr) ←
    or_ub (mscm_ldap_authenticate lib calloc_ok ldap_auth_info (Some 0) (Some (replicate MAX_USER_GROUP 255)));
  _ ← act (fun asked => (tt, tr ++ asked));
  mret [LuaInteger ret; LuaInteger (default 0 user_pri); array_of (map LuaInteger (default [] group_id))].
End authenticate.

(** ** user@domain *)

Lemma strrchr_none c s : c ∉ s -> strrchr c s = None.
Proof.
  induction s as [|a s IH]; intros Hs; [done|]. apply not_elem_of_cons in Hs as [Ha Hs]. cbn. rewrite IH by done.
  by rewrite (proj2 (char_eqb_neq a c)) by congruence.
Qed.

Lemma strrchr_last c s t : c ∉ t -> strrchr c (s ++ c :: t) = Some (length s).
Proof.
  intros Ht. induction s as [|a s IH]; cbn; [by rewrite strrchr_none, char_eqb_refl|by rewrite IH].
Qed.

(** What a part of a name becomes in an array copied to with room for 254 characters. *)
Definition fit (s : list ascii) : list ascii := if (length s <? LDAP_USER_NAME_MAX_LEN)%nat then s else [].

Lemma strncpy_fit src n s : take n src = s -> (n <= length src)%nat -> snd (strncpy_s LDAP_USER_NAME_MAX_LEN src n) = fit s.
Proof.
  intros <- Hn. unfold strncpy_s, fit. rewrite length_take, (Nat.min_comm (length src)). by destruct (_ <? _)%nat.
Qed.

(** A name is split at its last at sign when something follows it, and otherwise not at all: the parts are the two
    sides, which put together with the sign give the name back; but a side of 255 characters or more comes out empty,
    with the code for a name that has a domain all the same. *)
Theorem name_divided_at_last_at {S} (L : lua_api) (manual : lua_manual L) s (w : S) :
  exists has_domain user domain,
    l_check_username_divide_by_domain L [LuaString s] w = Some (inr [LuaInteger has_domain; LuaString user; LuaString domain], w) /\
    ((has_domain = USER_NAME_NOT_CONTAIN_DOMAIN /\ user = [] /\ domain = [] /\
        ("@"%char ∉ to_c s \/ exists u, to_c s = u ++ ["@"%char])) \/
     (exists u d, has_domain = USER_NAME_CONTAIN_DOMAIN /\ to_c s = u ++ "@"%char :: d /\ "@"%char ∉ d /\ d <> [] /\
        user = (if (length u <? 255)%nat then u else []) /\ domain = (if (length d <? 255)%nat then d else []))).
Proof.
  unfold l_check_username_divide_by_domain, arg. cbn [nth Nat.sub]. rewrite check_string_ok by done.
  set (n := to_c s). unfold divide_by_domain. destruct (decide ("@"%char ∈ n)) as [Hin|Hout].
  2: { rewrite strrchr_none by done. eexists _, _, _. split; [done|]. left. by auto. }
  apply list_elem_of_split_r in Hin as (u & d & Hn & Hd). rewrite Hn, strrchr_last by done.
  rewrite drop_app_length, length_app. cbn [length drop].
  destruct (Datatypes.S (length d) <=? 1)%nat eqn:E.
  - apply Nat.leb_le in E. destruct d; [|cbn in E; lia]. eexists _, _, _. split; [done|]. left. do 3 (split; [done|]).
    right. by exists u.
  - apply Nat.leb_gt in E. eexists _, _, _. split; [done|]. right. exists u, d. do 3 (split; [done|]).
    split; [by destruct d; cbn in *; [lia|]|]. split; apply strncpy_fit.
    + replace (length u + Datatypes.S (length d) - Datatypes.S (length d))%nat with (length u) by lia. by rewrite take_app_length.
    + rewrite length_app. lia.
    + cbn [length]. rewrite Nat.sub_succ, Nat.sub_0_r. by apply take_ge.
    + cbn. rewrite ?drop_0. lia.
Qed.

(** ** The table Lua passes, and what becomes of it *)

Definition group_table (g : LDAP_GROUP_INFO) : lua_value :=
  array_of [LuaInteger (group_inner_id g); LuaString (group_name g); LuaString (group_folder g); LuaInteger (group_priv g)].

Definition auth_fields (i : LDAP_AUTH_INFO) : list (lua_key * lua_value) :=
  map (fun p => (KStr (lit p.1), p.2))
    [("serverid"%string, LuaInteger (serverid i)); ("hostaddr"%string, LuaString (hostaddr i));
     ("port"%string, LuaInteger (auth_port i)); ("folder"%string, LuaString (auth_folder i));
     ("user_domain"%string, LuaString (user_domain i)); ("bind_dn"%string, LuaString (bind_dn i));
     ("bind_dn_pwd"%string, LuaString (bind_dn_pwd i)); ("cert_verify_enabled"%string, LuaInteger (cert_verify_enabled i));
     ("cert_verify_level"%string, LuaInteger (cert_verify_level i)); ("cert_inner_dir"%string, LuaString (cert_inner_dir i));
     ("scope"%string, LuaString (auth_scope i)); ("time_limit"%string, LuaInteger (time_limit i));
     ("bind_time_limit"%string, LuaInteger (bind_time_limit i)); ("version"%string, LuaInteger (auth_version i));
     ("group_cnt"%string, LuaInteger (group_cnt i)); ("group"%string, array_of (map group_table (groups i)));
     ("tls_cipher"%string, LuaString (tls_cipher i)); ("username"%string, LuaString (username i));
     ("password"%string, LuaString (password i))].
Definition auth_table (i : LDAP_AUTH_INFO) : lua_value := LuaTable (auth_fields i).

(** An array of [n] characters that holds [s]. *)
Definition string_array (n : nat) (s : list ascii) : list ascii := s ++ replicate (n - length s) NUL.

Lemma string_array_nil n : string_array n [] = zero_array n.
Proof. unfold string_array, zero_array. cbn. by rewrite Nat.sub_0_r. Qed.

Lemma c_str_array n s : no_nul s -> (length s < n)%nat -> c_str (string_array n s) = Some s.
Proof.
  intros Hs Hn. unfold string_array. replace (n - length s)%nat with (Datatypes.S (n - length s - 1)) by lia. by apply c_str_app.
Qed.

Lemma memcpy_array n s : (length s <= n)%nat -> snd (memcpy_s (zero_array n) s (length s)) = string_array n s.
Proof.
  intros Hn. unfold memcpy_s, zero_array. rewrite length_replicate, (proj2 (Nat.leb_le _ _)) by done. cbn [snd].
  by rewrite take_ge, drop_replicate.
Qed.

(** The values the arrays and the integers of the structure can hold. *)
Definition string_fits (s : list ascii) (size : nat) : Prop := no_nul s /\ (length s < size)%nat.
Definition is_byte (z : Z) : Prop := 0 <= z < 256.

Definition group_fits (g : LDAP_GROUP_INFO) : Prop :=
  is_byte (group_inner_id g) /\ is_byte (group_priv g) /\ string_fits (group_name g) 256 /\ string_fits (group_folder g) 256.

Definition no_group : LDAP_GROUP_INFO := {| group_inner_id := 0; group_name := []; group_folder := []; group_priv := 0 |}.

Definition group_array_of (g : LDAP_GROUP_INFO) : LDAP_GROUP_INFO := {|
  group_inner_id := group_inner_id g; group_name := string_array 256 (group_name g);
  group_folder := string_array 256 (group_folder g); group_priv := group_priv g
|}.

Lemma group_array_strings g : group_fits g -> group_strings (group_array_of g) = Some g.
Proof.
  intros (_ & _ & [Hn1 Hn2] & [Hf1 Hf2]). unfold group_strings, group_array_of. cbn [group_name group_folder group_inner_id group_priv].
  rewrite !c_str_array by done. by destruct g.
Qed.

Lemma byte_integer z : is_byte z -> lua_integer z.
Proof. unfold is_byte, lua_integer. lia. Qed.

Section fills.
Context {S : Type} (L : lua_api) (manual : lua_manual L).

Lemma get_uint8_ok fs name z {B} (k : Z -> LuaM S B) w :
  rawget fs (KStr (lit name)) = LuaInteger z -> is_byte z ->
  (lua_get_struct_uint8 L (LuaTable fs) name ≫= k) w = k z w.
Proof.
  intros Hf Hz. unfold lua_get_struct_uint8. rewrite lua_assoc, gettable_ok, Hf, lua_assoc by done.
  rewrite check_integer_ok by (done || by apply byte_integer). by rewrite lua_ret, u8_small.
Qed.

Lemma get_string_ok fs name s size {B} (k : list ascii -> LuaM S B) w :
  rawget fs (KStr (lit name)) = LuaString s -> (length s <= size)%nat -> (0 < size)%nat ->
  (lua_get_struct_string L (LuaTable fs) (zero_array size) name ≫= k) w = k (string_array size s) w.
Proof.
  intros Hf Hs Hsize. unfold lua_get_struct_string. rewrite lua_assoc, gettable_ok, Hf, lua_ret by done.
  rewrite (tolstring_string L manual). unfold default, id. destruct (length s =? 0)%nat eqn:E; cbn [negb].
  - apply Nat.eqb_eq, length_zero_iff_nil in E as ->. rewrite string_array_nil. by destruct size; [lia|].
  - by rewrite memcpy_array.
Qed.

Lemma get_integer_ok fs name z {B} (k : Z -> LuaM S B) w :
  rawget fs (KStr (lit name)) = LuaInteger z -> lua_integer z ->
  ((gettable L (LuaTable fs) (KStr (lit name)) ≫= check_integer L) ≫= k) w = k z w.
Proof.
  intros Hf Hz. by rewrite lua_assoc, gettable_ok, Hf, check_integer_ok.
Qed.

Lemma get_group (gs : list LDAP_GROUP_INFO) n g g0 {B} (k : LDAP_GROUP_INFO -> LuaM S B) w :
  gs !! n = Some g -> group_fits g ->
  (lua_get_struct_group L (array_of (map group_table gs)) g0 (Z.of_nat n + 1) ≫= k) w =
    k {| group_inner_id := group_inner_id g; group_name := snd (memcpy_s (group_name g0) (group_name g) (length (group_name g)));
         group_folder := snd (memcpy_s (group_folder g0) (group_folder g) (length (group_folder g)));
         group_priv := group_priv g |} w.
Proof.
  intros Hg (Hid & Hpr & _). unfold lua_get_struct_group, array_of at 1.
  rewrite lua_assoc, gettable_ok, Z.add_comm, rawget_entries, list_lookup_fmap, Hg by done. cbn [fmap option_fmap option_map default].
  unfold group_table, array_of, id. rewrite 2!lua_assoc, gettable_ok by done.
  change (rawget _ (KInt 1)) with (LuaInteger (group_inner_id g)).
  rewrite check_integer_ok by (done || by apply byte_integer). rewrite lua_assoc, gettable_ok, lua_assoc, gettable_ok, 2!lua_assoc, gettable_ok by done.
  change (rawget _ (KInt 2)) with (LuaString (group_name g)). change (rawget _ (KInt 3)) with (LuaString (group_folder g)).
  change (rawget _ (KInt 4)) with (LuaInteger (group_priv g)). rewrite check_integer_ok by (done || by apply byte_integer).
  rewrite lua_ret, !u8_small by done. unfold group_array. by rewrite !(tolstring_string L manual).
Qed.

Lemma get_group_ok (gs : list LDAP_GROUP_INFO) n g {B} (k : LDAP_GROUP_INFO -> LuaM S B) w :
  gs !! n = Some g -> group_fits g ->
  (lua_get_struct_group L (array_of (map group_table gs)) zero_group (Z.of_nat n + 1) ≫= k) w = k (group_array_of g) w.
Proof.
  intros Hg Hfit. rewrite (get_group gs n g) by done. destruct Hfit as (_ & _ & [_ Hn] & [_ Hf]).
  cbn [group_name group_folder zero_group].
  change (LDAP_GROUPNAME_MAX_LEN + 1)%nat with 256%nat. change (LDAP_GROUPFOLDER_MAX_LEN + 1)%nat with 256%nat.
  by rewrite !memcpy_array by lia.
Qed.

Lemma group_loop_ok (gs pre : list LDAP_GROUP_INFO) rest (w : S) :
  Forall group_fits gs -> (length pre + length gs <= 255)%nat ->
  group_loop L (array_of (map group_table (pre ++ gs))) (length gs) (length pre)
    (map group_array_of pre ++ replicate (length gs + rest) zero_group) w =
  Some (inr (map group_array_of (pre ++ gs) ++ replicate rest zero_group), w).
Proof.
  intros HF. revert pre. induction HF as [|g gs Hg HF IH]; intros pre Hlen; cbn [length group_loop Nat.add replicate] in *.
  { by rewrite app_nil_r. }
  rewrite list_lookup_middle by (by rewrite length_map). rewrite u8_small by lia.
  rewrite (get_group_ok (pre ++ g :: gs) (length pre) g); [|by rewrite list_lookup_middle|done].
  specialize (IH (pre ++ [g])).
  rewrite length_app, Nat.add_1_r, <- (app_assoc pre), (map_app group_array_of pre), <- app_assoc in IH. cbn [map app] in IH.
  rewrite insert_app_r_alt by (rewrite length_map; lia). rewrite length_map, Nat.sub_diag. cbn [insert list_insert].
  apply IH. lia.
Qed.

(** Past the last element of the array the loop writes outside it. *)
Lemma group_loop_overflow groups n (w : S) i (group : list LDAP_GROUP_INFO) :
  (forall j g (w' : S), (j < length group)%nat -> exists g', lua_get_struct_group L groups g (u8 (Z.of_nat j + 1)) w' = Some (inr g', w')) ->
  (length group < i + n)%nat -> (i <= length group)%nat -> group_loop L groups n i group w = UB.
Proof.
  revert i group. induction n as [|n IH]; intros i group Hok Hn Hi; [lia|]. cbn [group_loop].
  destruct (group !! i) as [g|] eqn:Hg; [|done]. destruct (Hok i g w) as (g' & Hg'); [by eapply lookup_lt_Some|].
  unfold mbind, LuaM_bind. rewrite Hg'. apply IH; rewrite length_insert; [done|lia|]. apply lookup_lt_Some in Hg. lia.
Qed.
End fills.

(** The values of an LDAP_AUTH_INFO whose strings end inside their arrays, except for those listed in [free]. *)
Definition numbers_fit (i : LDAP_AUTH_INFO) : Prop :=
  is_byte (serverid i) /\ - 2 ^ 31 <= auth_port i < 2 ^ 31 /\ is_byte (cert_verify_enabled i) /\ is_byte (cert_verify_level i) /\
  is_byte (time_limit i) /\ is_byte (bind_time_limit i) /\ is_byte (auth_version i) /\ is_byte (group_cnt i).

Section theorems.
Context `{LdapCodes} (L : lua_api) (manual : lua_manual L) (lib : openldap_lib).

Definition strings_of (i : LDAP_AUTH_INFO) : list (list ascii * nat) :=
  [(hostaddr i, 256); (user_domain i, 256); (auth_folder i, 256); (bind_dn i, SMALL_BUFFER_SIZE);
   (bind_dn_pwd i, SMALL_BUFFER_SIZE); (cert_inner_dir i, SMALL_BUFFER_SIZE); (auth_scope i, 256);
   (tls_cipher i, 2048); (username i, 256); (password i, 256)]%nat.

Definition info_fits (i : LDAP_AUTH_INFO) : Prop :=
  numbers_fit i /\ Forall (fun p => string_fits p.1 p.2) (strings_of i) /\ Forall group_fits (groups i) /\
  group i = groups i ++ replicate (MAX_USER_GROUP - Z.to_nat (group_cnt i)) no_group /\
  length (groups i) = Z.to_nat (group_cnt i) /\ group_cnt i <= 5.

(** The arrays the table is copied to. *)
Definition arrays_of (i : LDAP_AUTH_INFO) : LDAP_AUTH_INFO := {|
  serverid := serverid i; hostaddr := string_array 256 (hostaddr i); auth_port := auth_port i;
  user_domain := string_array 256 (user_domain i); auth_folder := string_array 256 (auth_folder i);
  bind_dn := string_array SMALL_BUFFER_SIZE (bind_dn i); bind_dn_pwd := string_array SMALL_BUFFER_SIZE (bind_dn_pwd i);
  cert_verify_enabled := cert_verify_enabled i; cert_verify_level := cert_verify_level i;
  cert_inner_dir := string_array SMALL_BUFFER_SIZE (cert_inner_dir i); auth_scope := string_array 256 (auth_scope i);
  time_limit := time_limit i; bind_time_limit := bind_time_limit i; auth_version := auth_version i;
  tls_cipher := string_array 2048 (tls_cipher i); group_cnt := group_cnt i;
  group := map group_array_of (groups i) ++ replicate (MAX_USER_GROUP - Z.to_nat (group_cnt i)) zero_group;
  username := string_array 256 (username i); password := string_array 256 (password i)
|}.

Ltac split_strings Hs :=
  repeat (apply Forall_cons in Hs; let Hd := fresh "Hd" in destruct Hs as [Hd Hs]); clear Hs.

Ltac field :=
  first [erewrite (get_uint8_ok L manual) by (done || reflexivity)
        |erewrite (get_string_ok L manual); [|reflexivity|done|first [done|apply Nat.ltb_lt; reflexivity]]
        |erewrite (get_integer_ok L manual) by (done || reflexivity)].

(** All fields are read as they are; the groups are left to [group_loop]. *)
Lemma fill_fields {S} i (w : S) :
  numbers_fit i -> Forall (fun p => (length p.1 <= p.2)%nat) (strings_of i) ->
  fill_auth_info L (auth_table i) w =
    (group ← group_loop L (array_of (map group_table (groups i))) (Z.to_nat (group_cnt i)) 0 (replicate MAX_USER_GROUP zero_group);
     mret {| serverid := serverid i; hostaddr := hostaddr (arrays_of i); auth_port := auth_port i;
             user_domain := user_domain (arrays_of i); auth_folder := auth_folder (arrays_of i);
             bind_dn := bind_dn (arrays_of i); bind_dn_pwd := bind_dn_pwd (arrays_of i);
             cert_verify_enabled := cert_verify_enabled i; cert_verify_level := cert_verify_level i;
             cert_inner_dir := cert_inner_dir (arrays_of i); auth_scope := auth_scope (arrays_of i);
             time_limit := time_limit i; bind_time_limit := bind_time_limit i; auth_version := auth_version i;
             tls_cipher := tls_cipher (arrays_of i); group_cnt := group_cnt i; group := group;
             username := username (arrays_of i); password := password (arrays_of i) |}) w.
Proof.
  intros (H1 & H2 & H3 & H4 & H5 & H6 & H7 & H8) Hs. unfold strings_of in Hs. split_strings Hs. cbn [fst snd] in *.
  assert (Hp : lua_integer (auth_port i)) by (unfold lua_integer; lia).
  change (auth_table i) with (LuaTable (auth_fields i)). unfold fill_auth_info.
  do 15 field. rewrite gettable_ok by done.
  change (rawget (auth_fields i) (KStr (lit "group"))) with (array_of (map group_table (groups i))).
  apply lua_bind_ext. intros group w'. cbv beta. do 3 field. by rewrite (s32_small (auth_port i)).
Qed.

Lemma array_strings i : info_fits i -> info_strings (arrays_of i) = Some i.
Proof.
  intros (_ & Hs & Hg & Hgroup & Hlen & _). unfold strings_of in Hs. split_strings Hs. unfold string_fits in *. cbn [fst snd] in *.
  repeat match goal with H : no_nul _ /\ _ |- _ => destruct H end.
  unfold info_strings. cbn [arrays_of hostaddr user_domain auth_folder bind_dn bind_dn_pwd cert_inner_dir auth_scope tls_cipher
    username password group]. rewrite !c_str_array by done. cbn [mbind option_bind].
  assert (Hmap : mapM group_strings (map group_array_of (groups i) ++ replicate (MAX_USER_GROUP - Z.to_nat (group_cnt i)) zero_group)
                 = Some (group i)).
  { rewrite Hgroup. apply mapM_Some, Forall2_app.
    - clear -Hg. induction Hg as [|g gs Hg _ IH]; constructor; [by apply group_array_strings|done].
    - apply Forall2_replicate. reflexivity. }
  rewrite Hmap. cbn. by destruct i.
Qed.

Lemma fill_ok {S} i (w : S) :
  info_fits i -> fill_auth_info L (auth_table i) w = Some (inr (arrays_of i), w).
Proof.
  intros (Hn & Hs & Hg & Hgroup & Hlen & Hcnt). rewrite fill_fields; [|done|].
  2: { eapply Forall_impl; [exact Hs|]. intros [s n] [_ Hl]. cbn in *. lia. }
  rewrite <- Hlen. unfold mbind, LuaM_bind.
  pose proof (group_loop_ok L manual (groups i) [] (MAX_USER_GROUP - length (groups i)) w Hg) as Hloop.
  replace (length (groups i) + (MAX_USER_GROUP - length (groups i)))%nat with MAX_USER_GROUP in Hloop
    by (rewrite Hlen; unfold MAX_USER_GROUP; lia).
  cbn [length app map] in Hloop. rewrite Hloop by (rewrite Hlen; lia).
  cbn -[string_array replicate]. unfold arrays_of. by rewrite Hlen.
Qed.

Lemma call_ok calloc_ok i asked :
  info_fits i ->
  l_mscm_ldap_authenticate L lib calloc_ok [auth_table i] asked =
    ('(ret, user_pri, group_id, _, tr) ←
       or_ub (mscm_ldap_authenticate lib calloc_ok i (Some 0) (Some (replicate MAX_USER_GROUP 255)));
     _ ← act (fun asked => (tt, tr ++ asked));
     mret [LuaInteger ret; LuaInteger (default 0 user_pri); array_of (map LuaInteger (default [] group_id))]) asked.
Proof.
  intros Hi. unfold l_mscm_ldap_authenticate, arg. rewrite bool_decide_eq_false_2 by done. cbn [nth Nat.sub].
  unfold mbind at 1, LuaM_bind at 1. rewrite fill_ok by done. by rewrite array_strings.
Qed.

(** C2: logging in over LDAP from Lua: the call with the fields of a login in a table, whose strings end inside the
    arrays they are copied to, always comes back with a code, a privilege and the groups; the code is zero only when the
    directory accepted a bind with the password of the table, and with any other code no privilege and no group comes
    back. *)
Theorem lua_login_needs_password i c asked :
  well_behaved lib -> read_ldap_config true None i = Some (LDAP_AUTH_SUCCESS, Some c) -> names_fit i -> info_fits i ->
  exists ret p out tr,
    l_mscm_ldap_authenticate L lib true [auth_table i] asked =
      Some (inr [LuaInteger ret; LuaInteger p; array_of (map LuaInteger out)], tr ++ asked) /\
    (ret <> RET_OK -> ret = USER_LDAP_LOGIN_FAIL /\ p = NO_PRIVILEGE /\ out = [255; 255; 255; 255; 255]) /\
    (ret = RET_OK ->
       (exists b tr' n ph cr, base c = Some b /\ tr = Unbind n :: tr' /\ trace_to (tls_policy c i) tr' ph /\
          bound ph = Some cr /\ login b i tr' cr) /\
       (p <> NO_PRIVILEGE -> exists g, g ∈ group i /\ group_priv g = p)).
Proof.
  intros laws Hc Hfit Hi.
  rewrite call_ok by done. destruct (mscm_of_session lib laws i c Hc Hfit 0 (replicate MAX_USER_GROUP 255))
    as (b & rc & g' & tr & Hb & (_ & _ & Hv) & ->).
  destruct (rc =? 0) eqn:E; (eexists _, _, _, tr; split; [reflexivity|]); (split; [by intros|]); [|done].
  intros _. apply Z.eqb_eq in E. destruct (Hv E) as (tr' & n & ph & cr & -> & Ht & Hcr & Hlog & _). split.
  - by exists b, tr', n, ph, cr.
  - intros Hp. destruct (proj2 (grant_privilege g' (group i) (replicate MAX_USER_GROUP 255)) Hp) as (g & Hg & _ & Hpr).
    by exists g.
Qed.

Lemma info_strings_none i : c_str (username i) = UB \/ c_str (password i) = UB -> info_strings i = UB.
Proof.
  unfold info_strings. intros [-> | ->];
    repeat match goal with |- context [c_str ?x ≫= _] => destruct (c_str x); cbn [mbind option_bind]; [|done] end; done.
Qed.

(** What comes from Lua is not checked against the arrays: with more than five groups the loop writes behind the
    array of the groups, and a name or a password of exactly 256 characters leaves its array without a NUL, so that
    reading it runs past its end. *)
Theorem lua_sizes_unchecked calloc_ok i asked :
  numbers_fit i -> Forall (fun p => (length p.1 <= p.2)%nat) (strings_of i) ->
  Forall group_fits (groups i) -> length (groups i) = Z.to_nat (group_cnt i) ->
  (5 < group_cnt i \/ (group_cnt i <= 5 /\ ((no_nul (username i) /\ length (username i) = 256%nat) \/
                                           (no_nul (password i) /\ length (password i) = 256%nat)))) ->
  l_mscm_ldap_authenticate L lib calloc_ok [auth_table i] asked = UB.
Proof.
  intros Hn Hs Hg Hlen Hcase. unfold l_mscm_ldap_authenticate, arg. rewrite bool_decide_eq_false_2 by done. cbn [nth Nat.sub].
  unfold mbind at 1, LuaM_bind at 1. rewrite fill_fields by done. rewrite <- Hlen. unfold mbind at 1, LuaM_bind at 1.
  destruct Hcase as [Hcnt|[Hcnt Hlong]].
  - rewrite group_loop_overflow; [done| |cbn; rewrite Hlen; lia|cbn; lia]. intros j g w Hj.
    destruct (lookup_lt_is_Some_2 (groups i) j) as [g0 Hg0]; [rewrite Hlen; cbn in Hj; lia|].
    pose proof (get_group L manual (groups i) j g0 g mret w Hg0 ltac:(by eapply Forall_lookup_1)) as Hget.
    cbn in Hj. rewrite u8_small by lia. eexists. unfold mbind, LuaM_bind in Hget.
    destruct (lua_get_struct_group L _ g _ w) as [[[msg|g1] w1]|]; [done| |done]. injection Hget as <- <-. done.
  - pose proof (group_loop_ok L manual (groups i) [] (MAX_USER_GROUP - length (groups i)) asked Hg) as Hloop.
    replace (length (groups i) + (MAX_USER_GROUP - length (groups i)))%nat with MAX_USER_GROUP in Hloop
      by (rewrite Hlen; unfold MAX_USER_GROUP; lia).
    cbn [length app map] in Hloop. rewrite Hloop by (rewrite Hlen; lia). unfold mret, LuaM_ret, mbind, LuaM_bind, or_ub.
    match goal with |- context [info_strings ?x] => assert (Hx : info_strings x = UB); [|by rewrite Hx] end.
    assert (Hlong' : forall s, no_nul s -> length s = 256%nat -> c_str (string_array 256 s) = UB).
    { intros s Hs1 Hs2. unfold string_array. rewrite Hs2, Nat.sub_diag, app_nil_r. by apply c_str_none. }
    apply info_strings_none. cbn [username password arrays_of].
    destruct Hlong as [[Hl1 Hl2]|[Hl1 Hl2]]; [left|right]; by apply Hlong'.
Qed.
End theorems.

(** ** The theorems at concrete inputs *)


Definition lua_demo : LDAP_AUTH_INFO := {|
  serverid := 1; hostaddr := lit "10.1.1.1"; auth_port := 636; user_domain := lit "it.huawei.com"; auth_folder := lit "Users";
  bind_dn := []; bind_dn_pwd := []; cert_verify_enabled := 0; cert_verify_level := 0; cert_inner_dir := [];
  auth_scope := lit "one"; time_limit := 0; bind_time_limit := 10; auth_version := 3; tls_cipher := [];
  username := lit "bob"; password := lit "secret"; group_cnt := 1;
  group := {| group_inner_id := 3; group_name := lit "adm"; group_folder := lit "OU=x"; group_priv := 4 |} ::
           replicate 4 no_group
|}.

Definition lua_demo_c : PAM_LDAP_CONFIG_S :=
  match read_ldap_config true None lua_demo with Some (_, Some c) => c | _ => zero_config end.
Lemma lua_demo_read : read_ldap_config true None lua_demo = Some (LDAP_AUTH_SUCCESS, Some lua_demo_c).
Proof. vm_compute. reflexivity. Qed.
Lemma lua_demo_names : names_fit lua_demo.
Proof. repeat constructor; vm_compute; lia. Qed.

Lemma numbers_of_demo : numbers_fit lua_demo.
Proof. unfold numbers_fit, is_byte. cbn. lia. Qed.
Lemma fits_string s n : bool_decide (NUL ∉ s) && (length s <? n)%nat = true -> string_fits s n.
Proof. intros [H1 H2]%andb_true_iff. split; [by apply bool_decide_eq_true in H1|by apply Nat.ltb_lt]. Qed.
Lemma groups_of_demo : Forall group_fits (groups lua_demo).
Proof.
  constructor; [|constructor]. unfold group_fits, is_byte. split; [cbn; lia|]. split; [cbn; lia|].
  split; apply fits_string; reflexivity.
Qed.
Lemma lua_demo_fits : info_fits lua_demo.
Proof.
  split; [exact numbers_of_demo|]. split; [do 10 (constructor; [apply fits_string; reflexivity|]); constructor|].
  split; [exact groups_of_demo|]. split; [reflexivity|]. split; [reflexivity|cbn; lia].
Qed.

Local Notation lua_run := (l_mscm_ldap_authenticate strict_lua demo_lib true [auth_table lua_demo] []).

Lemma lua_login_needs_password_witness :
  exists out tr, lua_run = Some (inr [LuaInteger 0; LuaInteger 4; array_of (map LuaInteger out)], tr) /\
    exists b tr' n ph cr, base lua_demo_c = Some b /\ tr = Unbind n :: tr' /\
      trace_to (tls_policy lua_demo_c lua_demo) tr' ph /\ bound ph = Some cr /\ login b lua_demo tr' cr.
Proof.
  destruct (lua_login_needs_password strict_lua strict_manual demo_lib lua_demo lua_demo_c [] demo_laws lua_demo_read
              lua_demo_names lua_demo_fits) as (ret & p & out & tr & E & _ & Hok).
  assert (Ha : match lua_run with Some (inr (LuaInteger r :: LuaInteger q :: _), _) => r = 0 /\ q = 4 | _ => False end)
    by (vm_compute; by split).
  rewrite E in Ha. destruct Ha as [-> ->]. exists out, tr. rewrite app_nil_r in E. split; [exact E|].
  exact (proj1 (Hok eq_refl)).
Defined.

(** A password of 256 characters. *)
Lemma lua_sizes_unchecked_witness :
  l_mscm_ldap_authenticate strict_lua demo_lib true
    [auth_table (with_names [] [] (lit "bob") (replicate 256 "p"%char) lua_demo)] [] = UB.
Proof.
  apply (lua_sizes_unchecked strict_lua strict_manual demo_lib true).
  - exact numbers_of_demo.
  - do 10 (constructor; [apply Nat.leb_le; reflexivity|]). constructor.
  - exact groups_of_demo.
  - reflexivity.
  - right. split; [cbn; lia|]. right. split; [|reflexivity]. apply (bool_decide_eq_true_1 _). reflexivity.
Defined.

Lemma name_divided_at_last_at_witness :
  l_check_username_divide_by_domain strict_lua [LuaString (lit "a@b@it.huawei.com")] tt =
    Some (inr [LuaInteger USER_NAME_CONTAIN_DOMAIN; LuaString (lit "a@b"); LuaString (lit "it.huawei.com")], tt) /\
  (forall w : unit, exists has_domain user domain,
     l_check_username_divide_by_domain strict_lua [LuaString (lit "bob")] w =
       Some (inr [LuaInteger has_domain; LuaString user; LuaString domain], w) /\ has_domain = USER_NAME_NOT_CONTAIN_DOMAIN).
Proof.
  split; [reflexivity|]. intros w.
  destruct (name_divided_at_last_at strict_lua strict_manual (lit "bob") w) as (h & u & d & He & [Hc|Hc]).
  - exists h, u, d. split; [exact He|]. exact (proj1 Hc).
  - exfalso. destruct Hc as (u' & d' & _ & Hs & _). assert (Hin : "@"%char ∈ lit "bob").
    { change (lit "bob") with (to_c (lit "bob")). rewrite Hs. apply elem_of_app. right. apply list_elem_of_here. }
    revert Hin. apply (bool_decide_eq_true_1 (_ ∉ _)). reflexivity.
Defined.
