(* ===== verification/LuaUsers.v ===== *)
(** * iam_core/iam_lua_lib.c: the LDAP users of the command line, seen from Lua

    The bindings over the table of uip_user.c. The state of the monad is the file system. *)
From S2P Require Import LdapUsers.
From S2P Require Export Lua.

(** What Lua sees of an entry; the role is the first one. *)
Definition user_table (u : LDAP_USER) (name : list ascii) : lua_value :=
  let t := lua_newtable in
  let t := lua_setfield t "used" (LuaInteger (used u)) in
  let t := lua_setfield t "uid" (LuaInteger (uid u)) in
  let t := lua_setfield t "username" (LuaString name) in
  let t := lua_setfield t "serverid" (LuaInteger (serverid u)) in
  let t := lua_setfield t "groupid" (LuaInteger (groupid u)) in
  lua_setfield t "roleid" (LuaInteger (nth 0 (roleid u) 0)).

Section users.
Context (L : lua_api) (e : os_env).

(** [luaL_checkinteger(L, -1)]: the value on top of the stack. *)
Definition check_top (args : list lua_value) : LuaM fs Z :=
  match last args with
  | Some v => z ← check_integer L v; mret (s32 z)
  | None => undefined
  end.

Definition l_get_ldap_user_info (args : list lua_value) : LuaM fs (list lua_value) :=
  uid ← check_top args;
  '(ret, user) ← act (fun f => (uip_read_ldap_user e f uid (Some zero_ldap_user), f));
  if ret =? RET_ERR then mret [LuaInteger ret]
  else
    user ← or_ub user;
    name ← or_ub (c_str (LdapUsers.username user));
    mret [LuaInteger ret; user_table user name].

(** The loop over the file from the position on; [inr tt] when reading fails, which is told from the end of the file
    by feof. The fuel counts the structures. *)
Fixpoint authed_loop (fuel : nat) (bs : list ascii) (t : lua_value) (user_num : Z) : option (lua_value + unit) :=
  match fuel with
  | O => UB
  | S fuel' =>
      if user_num <? LDAP_USER_MAX_COUNT then
        let '(read_size, ldap_user) := fread_user e bs zero_ldap_user in
        let bs' := drop (rec_size LDAP_USER) bs in
        if negb (read_size =? 1) then (if fread_ret e 1 =? 1 then Some (inl t) else Some (inr tt))
        else if used ldap_user =? 0 then authed_loop fuel' bs' t user_num
        else
          name ← c_str (username ldap_user);
          authed_loop fuel' bs' (lua_seti t (user_num + 1) (user_table ldap_user name)) (user_num + 1)
      else Some (inl t)
  end.

Definition l_get_authed_ldap_user (args : list lua_value) : LuaM fs (list lua_value) :=
  file ← act (fun f => (files f !! LDAP_USER_FILE, f));
  match file with
  | None => mret [LuaInteger RET_ERR]
  | Some bs =>
      if negb (fopen_ok e) then mret [LuaInteger RET_ERR]
      else
        r ← or_ub (authed_loop (S (length bs / rec_size LDAP_USER)) bs lua_newtable 0);
        match r with
        | inl t => mret [t]
        | inr _ => mret [LuaInteger RET_ERR]
        end
  end.

(** The entry of a user whose session was ended: empty but for the uid. *)
Definition ended_user (id : Z) : LDAP_USER := {|
  used := 0; pad1 := replicate 3 NUL; uid := id; username := replicate LDAP_USER_NAME_LEN NUL;
  fromip := replicate LDAP_USER_FROM_IP NUL; serverid := 0; groupid := 0; privilege := 0;
  roleid := replicate LDAP_USER_ROLE_ID_NUM 0; pad2 := 0
|}.

Definition l_uip_renew_ldap_user (args : list lua_value) : LuaM fs (list lua_value) :=
  uid ← check_top args;
  ret ← act (fun f => uip_renew_ldap_user e f (Some (ended_user uid)));
  mret [LuaInteger ret].

Definition l_uip_alloc_ldap_uid (args : list lua_value) : LuaM fs (list lua_value) :=
  uid ← act (uip_alloc_ldap_uid e);
  mret [LuaInteger uid].
End users.

(** ** The users Lua sees *)

Definition is_used (u : LDAP_USER) : bool := negb (used u =? 0).
Definition name_of (u : LDAP_USER) : list ascii := default [] (c_str (username u)).
Definition lua_user (u : LDAP_USER) : lua_value := user_table u (name_of u).

(** The names in the table are strings. *)
Definition named (u : LDAP_USER) : Prop := is_Some (c_str (username u)).

Lemma authed_loop_spec t us :
  Forall user_wf us -> Forall named us -> forall fuel vs, (length us < fuel)%nat -> (length vs <= 32)%nat ->
  authed_loop (nominal t) fuel (encode_array us) (array_of vs) (Z.of_nat (length vs)) =
    Some (inl (array_of (vs ++ take (32 - length vs) (map lua_user (filter is_used us))))).
Proof.
  induction 1 as [|u us Hu HF IH]; intros Hnames [|fuel] vs Hfuel Hvs; cbn [length] in Hfuel; try lia; cbn [authed_loop].
  - rewrite fread_user_end by apply zero_user_wf. change (negb (0 =? 1)) with true. cbv iota. cbn [nominal fread_ret].
    rewrite Z.eqb_refl. change (map lua_user (filter is_used [])) with (@nil lua_value). rewrite take_nil, app_nil_r. by destruct (_ <? _).
  - apply Forall_cons in Hnames as [[name Hname] Hnames]. unfold LDAP_USER_MAX_COUNT.
    destruct (Z.ltb_spec (Z.of_nat (length vs)) 32) as [Hlt|Hge].
    2: { replace (32 - length vs)%nat with O by lia. by rewrite take_0, app_nil_r. }
    rewrite fread_user_cons, drop_encode by (done || apply zero_user_wf). change (negb (1 =? 1)) with false. cbv iota.
    destruct (used u =? 0) eqn:E.
    + rewrite IH by (done || lia). rewrite filter_cons_False; [done|]. unfold is_used. rewrite E. cbn. tauto.
    + rewrite Hname. cbn [mbind option_bind]. rewrite seti_array.
      replace (Z.of_nat (length vs) + 1) with (Z.of_nat (length (vs ++ [user_table u name]))) by (rewrite length_app; cbn; lia).
      rewrite IH by (done || lia || (rewrite length_app; cbn; lia)). rewrite filter_cons_True by (unfold is_used; by rewrite E).
      cbn [map]. replace (32 - length vs)%nat with (S (32 - length (vs ++ [user_table u name]))) by (rewrite length_app; cbn; lia).
      cbn [take]. rewrite <- app_assoc. replace (lua_user u) with (user_table u name); [done|].
      unfold lua_user, name_of. by rewrite Hname.
Qed.

Lemma named_nul u : head (username u) = Some NUL -> named u.
Proof. unfold named. destruct (username u) as [|c s]; [done|]. intros [= ->]. cbn. by eexists. Qed.

Lemma ended_wf id : - 2 ^ 31 <= id < 2 ^ 31 -> user_wf (ended_user id).
Proof. intros Hid. unfold user_wf, byte; cbn. repeat split; try lia. repeat (constructor; [lia|]). constructor. Qed.

Lemma filter_ext_in {A} (P Q : A -> bool) (l : list A) :
  (forall x, x ∈ l -> P x = Q x) -> filter P l = filter Q l.
Proof.
  induction l as [|x l IH]; intros H; [done|]. rewrite !filter_cons, (H x) by apply list_elem_of_here.
  rewrite IH; [done|]. intros y Hy. by apply H, list_elem_of_further.
Qed.

(** The used entries that do not belong to the uid. *)
Definition other_users (id : Z) (us : list LDAP_USER) : list LDAP_USER :=
  filter (fun u => is_used u && negb (uid u =? id)) us.

Lemma filter_put_ended us (n : nat) id :
  uids_match us -> id = 1000 + Z.of_nat n -> filter is_used (put us n (ended_user id)) = other_users id us.
Proof.
  intros Hm Hid. unfold other_users.
  assert (Hne : forall i u, us !! i = Some u -> i <> n -> is_used u = is_used u && negb (uid u =? id)).
  { intros i u Hi Hin. destruct (is_used u) eqn:E; [|done]. unfold is_used in E. apply negb_true_iff, Z.eqb_neq in E.
    rewrite (Hm i u Hi E). symmetry. apply negb_true_iff, Z.eqb_neq. lia. }
  unfold put. destruct (Nat.ltb_spec n (length us)) as [Hlt|Hge].
  - destruct (lookup_lt_is_Some_2 us n Hlt) as [u0 Hu0].
    rewrite insert_take_drop by done. rewrite <- (take_drop_middle us n u0 Hu0) at 3. rewrite !filter_app.
    rewrite filter_cons_False by (cbn; tauto). f_equal.
    + apply filter_ext_in. intros u Hu. apply list_elem_of_lookup in Hu as [i Hi]. apply lookup_take_Some in Hi as [Hi Hlt'].
      apply (Hne i); [done|lia].
    + rewrite filter_cons_False.
      2: { destruct (is_used u0) eqn:E; [|cbn; tauto]. unfold is_used in E. apply negb_true_iff, Z.eqb_neq in E.
           rewrite (Hm n u0 Hu0 E), Hid, Z.eqb_refl. cbn. tauto. }
      apply filter_ext_in. intros u Hu. apply list_elem_of_lookup in Hu as [i Hi]. rewrite lookup_drop in Hi.
      apply (Hne (S n + i)%nat); [done|lia].
  - rewrite !filter_app, (filter_none _ (replicate _ _)), (filter_none _ [_]), !app_nil_r.
    + apply filter_ext_in. intros u Hu. apply list_elem_of_lookup in Hu as [i Hi]. apply (Hne i); [done|].
      apply lookup_lt_Some in Hi. lia.
    + constructor; [cbn; tauto|constructor].
    + apply Forall_replicate. cbn. tauto.
Qed.

Lemma file_of_table f us : holds f us -> is_Some (files f !! LDAP_USER_FILE) -> files f !! LDAP_USER_FILE = Some (encode_array us).
Proof. intros [Hc _] [bs Hbs]. unfold content in Hc. rewrite Hbs in Hc |- *. cbn in Hc. by subst. Qed.

Lemma authed_of_table t f us args :
  holds f us -> is_Some (files f !! LDAP_USER_FILE) -> Forall named us ->
  l_get_authed_ldap_user (nominal t) args f = Some (inr [array_of (take 32 (map lua_user (filter is_used us)))], f).
Proof.
  intros Hh Hex Hn. unfold l_get_authed_ldap_user. unfold act at 1, mbind at 1, LuaM_bind at 1.
  rewrite (file_of_table f us) by done. cbn [nominal fopen_ok negb]. destruct Hh as [_ HF].
  rewrite length_encode_array, Nat.div_mul by done. unfold or_ub, mbind, LuaM_bind.
  pose proof (authed_loop_spec t us HF Hn (S (length us)) []) as Hl. cbn [length array_of entries_from app Nat.sub] in Hl.
  change (array_of []) with lua_newtable in Hl. change (Z.of_nat 0) with 0 in Hl. by rewrite Hl by lia.
Qed.

Section theorems.
Context (L : lua_api) (manual : lua_manual L).

Lemma check_top_ok z {B} (k : Z -> LuaM fs B) f :
  - 2 ^ 31 <= z < 2 ^ 31 -> (check_top L [LuaInteger z] ≫= k) f = k z f.
Proof.
  intros Hz. unfold check_top. cbn [last]. rewrite lua_assoc, check_integer_ok by (done || (unfold lua_integer; lia)).
  by rewrite lua_ret, s32_small.
Qed.

(** C13: Lua and the table of the LDAP users: the list Lua gets is that of the used entries, in their order; looking one
    of them up by its uid gives the same entry; and once a user's session is ended his entry, and no other, is gone from
    the list. *)
Theorem authed_users_listed t f us :
  table_inv f us -> is_Some (files f !! LDAP_USER_FILE) -> Forall named us ->
  l_get_authed_ldap_user (nominal t) [] f = Some (inr [array_of (take 32 (map lua_user (filter is_used us)))], f) /\
  (forall u, u ∈ us -> used u <> 0 ->
     l_get_ldap_user_info L (nominal t) [LuaInteger (uid u)] f = Some (inr [LuaInteger RET_OK; lua_user u], f)) /\
  (forall id, 1000 <= id < 2 ^ 31 ->
     exists f', l_uip_renew_ldap_user L (nominal t) [LuaInteger id] f = Some (inr [LuaInteger RET_OK], f') /\
       l_get_authed_ldap_user (nominal t) [] f' =
         Some (inr [array_of (take 32 (map lua_user (other_users id us)))], f')).
Proof.
  intros (Hh & _ & Hlen & Hm) Hex Hn. split; [by apply authed_of_table|]. split.
  - intros u Hu Hused. apply list_elem_of_lookup in Hu as [i Hi]. pose proof (Hm i u Hi Hused) as Hid.
    pose proof (lookup_lt_Some _ _ _ Hi) as Hlt. unfold l_get_ldap_user_info. rewrite check_top_ok by lia.
    unfold act, mbind, LuaM_bind. rewrite (read_on_table t f us) by (done || apply zero_user_wf || (unfold LDAP_USER_ID_BASE; lia)).
    replace (Z.to_nat (uid u - LDAP_USER_ID_BASE)) with i by (unfold LDAP_USER_ID_BASE; lia). rewrite Hi.
    change (RET_OK =? RET_ERR) with false. cbv iota. destruct (Forall_lookup_1 _ _ _ _ Hn Hi) as [name Hname].
    unfold or_ub. cbn beta iota. rewrite Hname. unfold lua_user, name_of. by rewrite Hname.
  - intros id Hid. pose proof (ended_wf id ltac:(lia)) as Hwf. pose proof Hid as [Hge _].
    pose proof (renew_exists t f us (ended_user id) Hh Hex Hwf Hge) as Hex'.
    destruct (renew_on_table t f us (ended_user id) Hh Hex Hwf Hge) as (Hr & Hh' & _).
    unfold l_uip_renew_ldap_user. rewrite check_top_ok by lia. unfold act, mbind, LuaM_bind.
    destruct (uip_renew_ldap_user _ f _) as [ret f']. cbn [fst snd] in *. subst ret. exists f'. split; [done|].
    rewrite (authed_of_table t f' _ [] Hh' Hex').
    + cbn [uid ended_user]. rewrite filter_put_ended by (done || (unfold LDAP_USER_ID_BASE; lia)). done.
    + unfold put. destruct (_ <? _)%nat; [apply Forall_insert; [done|by apply named_nul]|].
      apply Forall_app. split; [done|]. apply Forall_app. split; [apply Forall_replicate|constructor; [|constructor]]; by apply named_nul.
Qed.
End theorems.

Lemma authed_users_listed_witness :
  l_get_authed_ldap_user (nominal 7) [] one_user = Some (inr [array_of [lua_user alice]], one_user) /\
  l_get_ldap_user_info strict_lua (nominal 7) [LuaInteger 1000] one_user = Some (inr [LuaInteger 0; lua_user alice], one_user) /\
  exists f', l_uip_renew_ldap_user strict_lua (nominal 7) [LuaInteger 1000] one_user = Some (inr [LuaInteger 0], f') /\
    l_get_authed_ldap_user (nominal 7) [] f' = Some (inr [array_of []], f').
Proof.
  destruct (authed_users_listed strict_lua strict_manual 7 one_user [alice]) as (H1 & H2 & H3).
  - split; [exact one_user_holds|]. split; [discriminate|]. split; [cbn; lia|]. intros [|i] u [= <-] _; reflexivity.
  - by eexists.
  - constructor; [by eexists|constructor].
  - split; [exact H1|]. split; [apply (H2 alice); [apply list_elem_of_here|discriminate]|].
    apply (H3 1000). lia.
Defined.
