(* ===== verification/LuaBindings.v ===== *)
(** * The functions Lua calls: iam_lua_lib.c, account_lua_lib.c and ip_lock_lua_lib.c

    Every binding converts its arguments, calls the library and pushes results; together with the three
    tables of functions that the modules register. The state [world] is what they all act on. *)
From S2P Require Import TallyLog IpLock Password Network LdapUsers LdapAuth.
From S2P Require Export Lua CliSessions LuaLdap LuaUsers.

(** ** The state and the environment *)

Record world := {
  locks : lock_state;                     (* the files, the addresses counted, the bus *)
  signals : list (Z * Z);                 (* sent so far, newest first *)
  directory : list event;                 (* what the LDAP library was asked *)
  wiped : list (list ascii)               (* Lua strings overwritten with NULs in place *)
}.

Record host := {
  h_os : os_env;
  h_bus : bus_env;
  h_ssl : openssl;
  h_proc : proc_env;
  h_ldap : openldap_lib;
  h_calloc : bool;
  h_readdir : list ascii -> option (list (list ascii));               (* opendir and readdir *)
  h_realpath : list ascii -> list ascii * bool * Z;                   (* the buffer, whether the path exists, errno *)
  h_arp : list Z -> list ascii -> option (Z * list Z);                (* ioctl(SIOCGARP) *)
  h_GRegex : Type;
  h_regex_new : list ascii -> option h_GRegex;
  h_regex_match : h_GRegex -> list ascii -> bool;
  BUILD_TYPE_RELEASE : bool;                                          (* compile-time settings *)
  G_BUILD_MANUFACTURE : bool
}.

Definition binding : Type := list lua_value -> LuaM world (list lua_value).

Definition set_locks (w : world) (s : lock_state) : world :=
  {| locks := s; signals := signals w; directory := directory w; wiped := wiped w |}.

Definition on_locks {A} (f : lock_state -> A * lock_state) : LuaM world A :=
  act (fun w => let '(a, s) := f (locks w) in (a, set_locks w s)).
Definition on_fs {A} (f : fs -> A * fs) : LuaM world A :=
  on_locks (fun s => let '(a, f') := f (ls_fs s) in (a, set_ls_fs s f')).

(** The bindings of LuaUsers and LuaLdap in this state. *)
Definition lift_fs {A} (m : LuaM fs A) : LuaM world A := fun w =>
  match m (ls_fs (locks w)) with
  | None => UB
  | Some (r, f) => Some (r, set_locks w (set_ls_fs (locks w) f))
  end.
Definition lift_directory {A} (m : LuaM (list event) A) : LuaM world A := fun w =>
  match m (directory w) with
  | None => UB
  | Some (r, d) => Some (r, {| locks := locks w; signals := signals w; directory := d; wiped := wiped w |})
  end.

(** [memset_s] on the characters of a Lua string, up to its first NUL. *)
Definition wipe (s : list ascii) : LuaM world unit :=
  act (fun w => (tt, {| locks := locks w; signals := signals w; directory := directory w; wiped := s :: wiped w |})).

Definition push_integer (z : Z) : lua_value := LuaInteger (s64 z).
Definition zero_tally : TallyLog := {| fail_cnt := 0; fail_time := 0 |}.
Definition VNC_CHALLENGESIZE : nat := 24.

(** [n] bytes at a pointer to the characters of a Lua string, which end with a NUL. *)
Definition bytes_at (s : list ascii) (n : Z) : option (list Z) :=
  if (0 <=? n) && (n <=? Z.of_nat (length s) + 1) then Some (map code (take (Z.to_nat n) (s ++ [NUL]))) else UB.
Definition chars (bs : list Z) : list ascii := map chr bs.

Section bindings.
Context `{LdapCodes} (L : lua_api) (h : host).
Local Notation string v := (check_string L v).
Local Notation integer v := (check_integer L v).
Local Notation raw v := (or_raise (luaL_checkstring L v)).

(** ** Failures of users *)

Definition tally_answer_of (r : Z * option TallyLog) : LuaM world (list lua_value) :=
  let '(ret, tally) := r in
  if negb (ret =? RET_OK) then luaL_error (error_code "get_pam_tally failed! ret code: " ret)
  else
    tally ← or_ub tally;
    mret [push_integer (fail_time tally); push_integer (fail_cnt tally)].

Definition l_get_pam_tally : binding := fun args =>
  username ← string (arg args 1);
  tally_dir ← string (arg args 2);
  unlock_time ← integer (arg args 3);
  r ← on_fs (fun f => get_pam_tally (h_os h) f username (Some tally_dir) (u64 unlock_time) (Some zero_tally));
  tally_answer_of r.

Definition l_get_pam_tally_with_fail_interval : binding := fun args =>
  username ← string (arg args 1);
  tally_dir ← string (arg args 2);
  unlock_time ← integer (arg args 3);
  fail_interval ← integer (arg args 4);
  r ← on_fs (fun f => get_pam_tally_with_fail_interval (h_os h) f username (Some tally_dir) (u64 unlock_time)
                        fail_interval (Some zero_tally));
  tally_answer_of r.

Definition l_reset_pam_tally : binding := fun args =>
  username ← string (arg args 1);
  tally_dir ← string (arg args 2);
  ret ← on_fs (fun f => reset_pam_tally (h_os h) f (Some username) (Some tally_dir));
  if negb (ret =? RET_OK) then luaL_error (error_code "reset_pam_tally failed! ret code: " ret) else mret [].

Definition l_increment_pam_tally : binding := fun args =>
  username ← string (arg args 1);
  tally_dir ← string (arg args 2);
  ret ← on_fs (fun f => increment_pam_tally (h_os h) f (Some username) (Some tally_dir));
  if negb (ret =? RET_OK) then luaL_error (error_code "increment_pam_tally failed! ret code: " ret) else mret [].

(** ** Passwords *)

Definition l_is_pass_complexity_check_pass : binding := fun args =>
  name ← string (arg args 1);
  pwd ← string (arg args 2);
  min_pwd_length ← integer (arg args 3);
  mret [LuaBoolean (negb (is_pass_complexity_check_pass (h_ssl h) (Some name) (Some pwd) (u32 min_pwd_length) =? FALSE))].

(** iam_core overwrites the password in the Lua string itself. *)
Definition l_is_vnc_password_complexity_check_pass : binding := fun args =>
  pwd ← string (arg args 1);
  let ret := is_vnc_password_complexity_check_pass (Some pwd) in
  _ ← wipe pwd;
  mret [LuaBoolean (negb (ret =? FALSE))].

(** The answer of [vnc_encrypt_bytes] in an array of [VNC_CHALLENGESIZE + 1] bytes. *)
Definition vnc_answer (key challenge : list Z) : LuaM world (list lua_value) :=
  let '(ret, output) := vnc_encrypt_bytes (h_ssl h) key challenge in
  if (VNC_CHALLENGESIZE + 1 <? length output)%nat then undefined
  else mret [LuaInteger ret; LuaString (chars output)].

Definition l_vnc_encrypt_bytes : binding := fun args =>
  plaintext_luaL ← string (arg args 1);
  auth_challenge ← raw (arg args 2);
  authen_challenge_len ← integer (arg args 3);
  let '(ret_safe, plaintext) := strncpy_s (KEYLENS + 1) plaintext_luaL (length plaintext_luaL) in
  if negb (ret_safe =? EOK) then luaL_error (lit "vnc_encrypt_bytes failed!")
  else
    challenge ← or_ub (bytes_at auth_challenge (s32 authen_challenge_len));
    out ← vnc_answer (map code (plaintext ++ replicate (KEYLENS + 1 - length plaintext) NUL)) challenge;
    _ ← wipe plaintext_luaL;
    mret out.

Definition l_generate_requested_key_pair : binding := fun args =>
  let buffer := Some (replicate (Z.to_nat KEY_MAX_SIZE) NUL) in
  let '(ret, public_key, private_key) := generate_key_pair (h_ssl h) buffer buffer in
  if ret =? RET_ERR then luaL_error (error_code "generate_key_pair failed! ret code: " ret)
  else
    public_key ← or_ub public_key;
    private_key ← or_ub private_key;
    mret [LuaString (to_c public_key); LuaString (to_c private_key)].

Definition text_answer (r : Z * option (list Z)) : LuaM world (list lua_value) :=
  let '(len, text) := r in
  if len <=? 0 then mret [LuaString []]
  else text ← or_ub text; mret [LuaString (chars (take (Z.to_nat len) text))].

Definition l_encrypt_with_public_key : binding := fun args =>
  pub_key ← string (arg args 1);
  pub_key_len ← integer (arg args 2);
  plaintext ← raw (arg args 3);
  plaintext_len ← integer (arg args 4);
  input ← or_ub (bytes_at plaintext (s32 plaintext_len));
  text_answer (encrypt_with_public_key (h_ssl h) (Some pub_key) (s32 pub_key_len) input None).

Definition l_decrypt_with_private_key : binding := fun args =>
  priv_key ← string (arg args 1);
  priv_key_len ← integer (arg args 2);
  cipher_text ← raw (arg args 3);
  cipher_len ← integer (arg args 4);
  input ← or_ub (bytes_at cipher_text (s32 cipher_len));
  text_answer (decrypt_with_private_key (h_ssl h) (Some priv_key) (s32 priv_key_len) input None).

(** ** Paths, addresses, settings *)

Definition l_format_realpath : binding := fun args =>
  path ← string (arg args 1);
  let '(real_path_str, path_str, errno) := h_realpath h path in
  if (length real_path_str =? 0)%nat then luaL_error (error_code "format path failed! err code: " errno)
  else mret [LuaString real_path_str; LuaInteger (if path_str then 1 else 0)].

(** NULL is pushed as nil. *)
Definition l_get_mac_by_socket : binding := fun args =>
  ip ← string (arg args 1);
  eth ← string (arg args 2);
  mret [match get_mac_by_socket (h_arp h) ip eth with Some mac => LuaString mac | None => LuaNil end].

Definition l_vos_ipv4_addr_valid_check : binding := fun args =>
  ntp_server ← string (arg args 1);
  mret [LuaInteger (vos_ipv4_addr_valid_check (Some ntp_server))].

Definition l_vos_ipv6_addr_valid_check : binding := fun args =>
  ntp_server ← string (arg args 1);
  mret [LuaInteger (vos_ipv6_addr_valid_check (Some ntp_server))].

Definition l_is_ip_in_subnet : binding := fun args =>
  ip_str ← string (arg args 1);
  subnet_str ← string (arg args 2);
  mret [LuaBoolean (is_ip_in_subnet ip_str subnet_str =? RET_OK)].

Definition l_is_ipv6_in_subnet : binding := fun args =>
  ip_str ← string (arg args 1);
  subnet_str ← string (arg args 2);
  mret [LuaBoolean (is_ipv6_in_subnet ip_str subnet_str =? RET_OK)].

Definition l_get_user_shell : binding := fun args =>
  mret [LuaString (lit (if BUILD_TYPE_RELEASE h then "/usr/bin/clp_commands" else "/bin/bash"))].

Definition l_is_manufacture_mode : binding := fun args => mret [LuaBoolean (G_BUILD_MANUFACTURE h)].

(** ** Sessions *)

Definition get_cli_online_users_binding : binding := fun args =>
  t ← or_ub (l_get_cli_online_users (h_proc h));
  mret [t].

Definition kill_binding : binding := fun args =>
  pid ← integer (arg args 1);
  singnal ← integer (arg args 2);
  _ ← act (fun w => (tt, {| locks := locks w; signals := l_kill (h_proc h) (s32 pid) (s32 singnal) ++ signals w;
                            directory := directory w; wiped := wiped w |}));
  mret [].

(** ** Failures of addresses: ip_lock_lua_lib.c *)

Definition l_increase_ip_fail_record : binding := fun args =>
  dir ← string (arg args 1);
  ip_str ← string (arg args 2);
  is_check_lock ← integer (arg args 3);
  ret ← on_locks (fun s => increase_fail_record (h_os h) (h_bus h) s dir (Some ip_str) (u8 is_check_lock));
  mret [LuaInteger ret].

Definition l_clean_ip_fail_record : binding := fun args =>
  dir ← string (arg args 1);
  ip_str ← string (arg args 2);
  ret ← on_locks (fun s => clean_fail_record (h_os h) s dir (Some ip_str));
  mret [LuaInteger ret].

Definition zero_status : IpLockStatus := {| ip := []; lock_status := false; lock_start_time := 0 |}.

Definition l_get_one_ip_lock_status : binding := fun args =>
  dir ← string (arg args 1);
  ip_str ← string (arg args 2);
  lock_threshold ← integer (arg args 3);
  fail_interval ← integer (arg args 4);
  unlock_time ← integer (arg args 5);
  '(res, status) ← on_fs (fun f => get_one_lock_status (h_os h) f dir (Some ip_str) (u8 lock_threshold) (u64 fail_interval)
                                     (u64 unlock_time) zero_status);
  if negb (res =? RET_OK) then luaL_error (lit "get ip lock records failed!")
  else mret [LuaBoolean (lock_status status)].

Definition status_table (record : IpLockStatus) : lua_value :=
  let t := lua_newtable in
  let t := lua_setfield t "ip" (LuaString (ip record)) in
  let t := lua_setfield t "lock_status" (LuaBoolean (lock_status record)) in
  lua_setfield t "lock_start_time" (push_integer (lock_start_time record)).

(** The loop that puts record [i] at [i + 1] of the table. *)
Fixpoint push_records (t : lua_value) (i : Z) (records : list IpLockStatus) : lua_value :=
  match records with
  | [] => t
  | record :: rest => push_records (lua_seti t (i + 1) (status_table record)) (i + 1) rest
  end.

Definition l_get_all_ip_lock_status : binding := fun args =>
  dir ← string (arg args 1);
  lock_threshold ← integer (arg args 2);
  fail_interval ← integer (arg args 3);
  unlock_time ← integer (arg args 4);
  '(res, records) ← on_fs (fun f => get_all_lock_status (h_os h) f dir (h_readdir h dir) (u8 lock_threshold)
                                      (u64 fail_interval) (u64 unlock_time));
  if negb (res =? RET_OK) then luaL_error (lit "get all ip lock records failed!")
  else mret [LuaInteger (u32 (Z.of_nat (length records))); push_records lua_newtable 0 records].

Definition l_clean_all_fail_record : binding := fun args =>
  dir ← string (arg args 1);
  res ← on_locks (fun s => clean_all_fail_record (h_os h) s dir (h_readdir h dir));
  mret [LuaInteger res].

(** ** The tables of functions *)

Definition luaopen_iam_core : list (String.string * binding) := [
  ("is_pass_complexity_check_pass"%string, l_is_pass_complexity_check_pass);
  ("is_vnc_password_complexity_check_pass"%string, l_is_vnc_password_complexity_check_pass);
  ("get_cli_online_users"%string, get_cli_online_users_binding);
  ("kill"%string, kill_binding);
  ("increment_pam_tally"%string, l_increment_pam_tally);
  ("reset_pam_tally"%string, l_reset_pam_tally);
  ("get_pam_tally"%string, l_get_pam_tally);
  ("get_pam_tally_with_fail_interval"%string, l_get_pam_tally_with_fail_interval);
  ("format_realpath"%string, l_format_realpath);
  ("get_mac_by_socket"%string, l_get_mac_by_socket);
  ("mscm_ldap_authenticate"%string, fun args => lift_directory (l_mscm_ldap_authenticate L (h_ldap h) (h_calloc h) args));
  ("check_username_divide_by_domain"%string, l_check_username_divide_by_domain L);
  ("vos_ipv4_addr_valid_check"%string, l_vos_ipv4_addr_valid_check);
  ("vos_ipv6_addr_valid_check"%string, l_vos_ipv6_addr_valid_check);
  ("get_user_shell"%string, l_get_user_shell);
  ("vnc_encrypt_bytes"%string, l_vnc_encrypt_bytes);
  ("is_manufacture_mode"%string, l_is_manufacture_mode);
  ("get_ldap_user_info"%string, fun args => lift_fs (l_get_ldap_user_info L (h_os h) args));
  ("get_authed_ldap_user"%string, fun args => lift_fs (l_get_authed_ldap_user (h_os h) args));
  ("uip_renew_ldap_user"%string, fun args => lift_fs (l_uip_renew_ldap_user L (h_os h) args));
  ("uip_alloc_ldap_uid"%string, fun args => lift_fs (l_uip_alloc_ldap_uid (h_os h) args));
  ("generate_requested_key_pair"%string, l_generate_requested_key_pair);
  ("encrypt_with_public_key"%string, l_encrypt_with_public_key);
  ("decrypt_with_private_key"%string, l_decrypt_with_private_key);
  ("is_ip_in_subnet"%string, l_is_ip_in_subnet);
  ("is_ipv6_in_subnet"%string, l_is_ipv6_in_subnet)].

Definition luaopen_ip_lock : list (String.string * binding) := [
  ("increase_ip_fail_record"%string, l_increase_ip_fail_record);
  ("clean_ip_fail_record"%string, l_clean_ip_fail_record);
  ("get_one_ip_lock_status"%string, l_get_one_ip_lock_status);
  ("get_all_ip_lock_status"%string, l_get_all_ip_lock_status);
  ("clean_all_ip_fail_record"%string, l_clean_all_fail_record)].
End bindings.

Section theorems.
Context `{LdapCodes} (L : lua_api) (manual : lua_manual L) (h : host).

(** *** Failures counted through Lua *)

(** The environment at the time [t], without failing system calls. *)
Definition at_time (t : Z) : host := {|
  h_os := nominal t; h_bus := h_bus h; h_ssl := h_ssl h; h_proc := h_proc h; h_ldap := h_ldap h; h_calloc := h_calloc h;
  h_readdir := h_readdir h; h_realpath := h_realpath h; h_arp := h_arp h; h_GRegex := h_GRegex h;
  h_regex_new := h_regex_new h; h_regex_match := h_regex_match h; BUILD_TYPE_RELEASE := BUILD_TYPE_RELEASE h;
  G_BUILD_MANUFACTURE := G_BUILD_MANUFACTURE h
|}.

(** What the services call after an attempt of a user to log in: a failure counts, a success clears. *)
Inductive attempt := Failed (user : list ascii) (t : Z) | Succeeded (user : list ascii) (t : Z).

Definition who (a : attempt) : list ascii := match a with Failed user _ | Succeeded user _ => user end.
Definition call_of (dir : list ascii) (a : attempt) : LuaM world (list lua_value) :=
  match a with
  | Failed user t => l_increment_pam_tally L (at_time t) [LuaString user; LuaString dir]
  | Succeeded user t => l_reset_pam_tally L (at_time t) [LuaString user; LuaString dir]
  end.

(** The world after the calls, whether they return or raise an error. *)
Fixpoint run_attempts (dir : list ascii) (attempts : list attempt) (w : world) : option world :=
  match attempts with
  | [] => Some w
  | a :: rest => match call_of dir a w with Some (_, w') => run_attempts dir rest w' | None => UB end
  end.

(** The failures on a record file since the last success. *)
Definition count_attempt (dir path : list ascii) (ts : list Z) (a : attempt) : list Z :=
  if decide (tally_path (who a) dir = path) then match a with Failed _ t => ts ++ [t] | Succeeded _ _ => [] end else ts.
Definition failures_since (dir path : list ascii) (attempts : list attempt) : list Z :=
  fold_left (count_attempt dir path) attempts [].

Definition good_attempt (a : attempt) : Prop :=
  no_nul (who a) /\ good_user (who a) /\ match a with Failed _ t => 0 <= t < 2 ^ 64 | Succeeded _ _ => True end.

Definition file_of (w : world) (path : list ascii) : list ascii := content (ls_fs (locks w)) path.

Lemma reset_clears t f user dir :
  dir <> [] -> good_user user ->
  exists f', reset_pam_tally (nominal t) f (Some user) (Some dir) = (RET_OK, f') /\
    content f' (tally_path user dir) = [] /\ (forall q, q <> tally_path user dir -> content f' q = content f q).
Proof.
  intros Hd Hu. unfold reset_pam_tally. destruct (open_tally_nominal t f user dir Hd Hu) as (f1 & -> & Hc).
  cbn [nominal ftruncate_err]. eexists. split; [done|]. split; [by rewrite content_set|].
  intros q Hq. by rewrite content_set_ne.
Qed.

(** The calls act on the files alone. *)
Lemma call_of_files dir a w :
  no_nul dir -> no_nul (who a) ->
  exists r f, call_of dir a w = Some (r, set_locks w (set_ls_fs (locks w) f)) /\
    f = snd (match a with
             | Failed user t => increment_pam_tally (nominal t) (ls_fs (locks w)) (Some user) (Some dir)
             | Succeeded user t => reset_pam_tally (nominal t) (ls_fs (locks w)) (Some user) (Some dir)
             end).
Proof.
  intros Hnd Hn. destruct a as [user t|user t]; cbn [who call_of] in *.
  - unfold l_increment_pam_tally, arg. cbn [nth Nat.sub]. rewrite !check_string_ok, !to_c_no_nul by done.
    unfold on_fs, on_locks, act, mbind, LuaM_bind. cbn [at_time h_os]. destruct (increment_pam_tally _ _ _ _) as [ret f].
    cbn [snd]. destruct (negb (ret =? RET_OK)); by eexists _, f.
  - unfold l_reset_pam_tally, arg. cbn [nth Nat.sub]. rewrite !check_string_ok, !to_c_no_nul by done.
    unfold on_fs, on_locks, act, mbind, LuaM_bind. cbn [at_time h_os]. destruct (reset_pam_tally _ _ _ _) as [ret f].
    cbn [snd]. destruct (negb (ret =? RET_OK)); by eexists _, f.
Qed.

Lemma attempt_step dir a w ts path :
  dir <> [] -> no_nul dir -> good_attempt a -> represents (file_of w path) (log_run 1024 [] ts) ->
  exists r w', call_of dir a w = Some (r, w') /\
    represents (file_of w' path) (log_run 1024 [] (count_attempt dir path ts a)).
Proof.
  intros Hd Hnd (Hn & Hu & Ht) Hrep. destruct (call_of_files dir a w Hnd Hn) as (r & f & -> & ->).
  eexists r, _. split; [done|]. unfold file_of in *. cbn [locks set_locks set_ls_fs ls_fs].
  destruct a as [user t|user t]; unfold count_attempt; cbn [who] in *; (destruct (decide (tally_path user dir = path)) as [<-|Hne]).
  - destruct (increment_adds t _ user dir _ Ht Hd Hu Hrep) as (f' & -> & Hr & _). unfold log_run. by rewrite fold_left_app.
  - destruct (increment_frame (nominal t) (ls_fs (locks w)) (Some user) dir) as [Hq|(u & [= <-] & Hq)]; by rewrite Hq.
  - destruct (reset_clears t (ls_fs (locks w)) user dir Hd Hu) as (f' & -> & Hc & _). cbn [snd]. rewrite Hc. apply represents_empty.
  - destruct (reset_clears t (ls_fs (locks w)) user dir Hd Hu) as (f' & -> & _ & Hq). cbn [snd]. by rewrite Hq.
Qed.

Lemma attempts_run dir attempts path : dir <> [] -> no_nul dir -> Forall good_attempt attempts -> forall w ts,
  represents (file_of w path) (log_run 1024 [] ts) ->
  exists w', run_attempts dir attempts w = Some w' /\
    represents (file_of w' path) (log_run 1024 [] (fold_left (count_attempt dir path) attempts ts)).
Proof.
  intros Hd Hnd. induction 1 as [|a attempts Ha HF IH]; intros w ts Hrep; [by exists w|].
  destruct (attempt_step dir a w ts path Hd Hnd Ha Hrep) as (r & w1 & Hc & Hrep1).
  cbn [run_attempts fold_left]. rewrite Hc. by apply IH.
Qed.

(** C5: the count Lua sees: after any attempts of any users to log in, each reported by its call, the query for a user
    gives the time of the last failure and the number of the failures inside the window, among the last 1024 since his
    last success. *)
Theorem lua_failures_counted dir attempts user w q unlock interval :
  dir <> [] -> no_nul dir -> no_nul user -> good_user user -> Forall good_attempt attempts ->
  file_of w (tally_path user dir) = [] -> lua_integer unlock -> lua_integer interval ->
  StronglySorted Z.le (failures_since dir (tally_path user dir) attempts) ->
  let answer := tally_answer q (u64 unlock) (window_of (u64 unlock) interval)
                  (last_n 1024 (failures_since dir (tally_path user dir) attempts)) in
  exists w' w'', run_attempts dir attempts w = Some w' /\
    l_get_pam_tally_with_fail_interval L (at_time q)
      [LuaString user; LuaString dir; LuaInteger unlock; LuaInteger interval] w' =
      Some (inr [push_integer (fail_time answer); push_integer (fail_cnt answer)], w'').
Proof.
  intros Hd Hnd Hn Hu HF He Hunlock Hint Hs answer. set (path := tally_path user dir) in *.
  destruct (attempts_run dir attempts path Hd Hnd HF w []) as (w' & Hrun & Hrep); [rewrite He; apply represents_empty|].
  fold (failures_since dir path attempts) in Hrep. unfold file_of in Hrep. exists w'.
  destruct (open_tally_nominal q (ls_fs (locks w')) user dir Hd Hu) as (f1 & Ho & Hc). fold path in Ho. rewrite <- Hc in Hrep.
  destruct (read_represents q _ _ Hrep) as (rs & Hr & _ & _ & Hv & Hts).
  eexists. split; [done|]. unfold l_get_pam_tally_with_fail_interval, arg. cbn [nth Nat.sub].
  rewrite !check_string_ok, !check_integer_ok, !to_c_no_nul by done.
  unfold on_fs, on_locks, act, mbind, LuaM_bind, get_pam_tally_with_fail_interval. cbn [at_time h_os].
  rewrite (get_user_info_exact _ _ _ _ _ _ _ _ _ _ _ Ho Hr). cbn [tally_answer_of negb RET_OK Z.eqb]. unfold or_ub, mbind, LuaM_bind.
  cbn [now nominal]. rewrite (valid_times_all rs Hv), Hts.
  rewrite (tally_answer_perm _ _ _ _ (last_n 1024 (failures_since dir path attempts))); [reflexivity|].
  by apply log_keeps_last; [lia|].
Qed.
End theorems.

(** ** The theorems at concrete inputs *)


Definition block_ssl : openssl := {|
  EVP_PKEY := Z; SHA256 := SHA256 toy; cipher_ctx_new := true; des_init := fun _ => true;
  des_update := fun k m => Some (map (fun b => (nth 0 k 0 + b) mod 256) (take (8 * (length m / 8)) m));
  des_final := fun k m => Some (replicate 8 (nth 0 k 0));
  pkey_ctx_new := true; keygen_init := 1; keygen := (1, Some 5); bio_new := true;
  pem_write_private := fun _ => Some (lit "private 5"); pem_write_public := fun _ => Some (lit "public 5");
  pem_read_private := fun _ => Some 5; pem_read_public := fun _ => Some 5; malloc_ok := fun _ => true;
  encrypt_init := 1; encrypt_size := fun _ _ => (1, 9); pkey_encrypt := fun k m => (1, map (Z.add k) m);
  decrypt_init := 1; decrypt_size := fun _ _ => (1, 9); pkey_decrypt := fun k c => (1, map (fun b => b - k) c)
|}.

Definition demo_host : host := {|
  h_os := nominal 100; h_bus := conf_bus 300 2 60; h_ssl := block_ssl; h_proc := demo_proc; h_ldap := demo_lib; h_calloc := true;
  h_readdir _ := Some []; h_realpath p := (p, true, 0); h_arp _ _ := None; h_GRegex := unit; h_regex_new _ := None;
  h_regex_match _ _ := false; BUILD_TYPE_RELEASE := true; G_BUILD_MANUFACTURE := false
|}.
Definition world0 : world := {| locks := state0; signals := []; directory := []; wiped := [] |}.

(** A failure, a success, two failures of admin and one of bob: two failures count. *)
Lemma lua_failures_counted_witness :
  let attempts := [Failed (lit "admin") 80; Succeeded (lit "admin") 85; Failed (lit "admin") 90; Failed (lit "bob") 95;
                   Failed (lit "admin") 100] in
  exists w' w'', run_attempts strict_lua demo_host (lit "/dev/shm/tallylog") attempts world0 = Some w' /\
    l_get_pam_tally_with_fail_interval strict_lua (at_time demo_host 110)
      [LuaString (lit "admin"); LuaString (lit "/dev/shm/tallylog"); LuaInteger 60; LuaInteger 30] w' =
      Some (inr [LuaInteger 100; LuaInteger 2], w'').
Proof.
  intros attempts.
  assert (Hn : forall s, bool_decide (NUL ∉ s) = true -> no_nul s) by (intros s H; by apply bool_decide_eq_true in H).
  destruct (lua_failures_counted strict_lua strict_manual demo_host (lit "/dev/shm/tallylog") attempts (lit "admin") world0
              110 60 30) as (w' & w'' & H1 & H2).
  - discriminate.
  - by apply Hn.
  - by apply Hn.
  - reflexivity.
  - repeat constructor; first [by apply Hn|lia].
  - reflexivity.
  - unfold lua_integer. lia.
  - unfold lua_integer. lia.
  - vm_compute. repeat constructor; discriminate.
  - exists w', w''. split; [exact H1|]. exact H2.
Defined.
