(* ===== verification/LuaAccount.v ===== *)
(** * account_core/account_lua_lib.c: the functions the account service calls

    The file repeats bindings of iam_lua_lib.c, most of them word for word: those are the same definitions
    here. Different are the two functions on the VNC password; the two on patterns are its own. *)
From S2P Require Import TallyLog IpLock Password Network LdapUsers LdapAuth.
From S2P Require Export LuaBindings.

Section account.
Context (L : lua_api) (h : host).

Definition l_format_realpath : binding := LuaBindings.l_format_realpath L h.
Definition l_is_manufacture_mode : binding := LuaBindings.l_is_manufacture_mode h.
Definition l_generate_requested_key_pair : binding := LuaBindings.l_generate_requested_key_pair h.
Definition l_encrypt_with_public_key : binding := LuaBindings.l_encrypt_with_public_key L h.
Definition l_decrypt_with_private_key : binding := LuaBindings.l_decrypt_with_private_key L h.
Definition l_get_mac_by_socket : binding := LuaBindings.l_get_mac_by_socket L h.
Definition l_is_pass_complexity_check_pass : binding := LuaBindings.l_is_pass_complexity_check_pass L h.
Definition l_get_user_shell : binding := LuaBindings.l_get_user_shell h.
Definition l_get_pam_tally : binding := LuaBindings.l_get_pam_tally L h.
Definition l_get_pam_tally_with_fail_interval : binding := LuaBindings.l_get_pam_tally_with_fail_interval L h.
Definition l_reset_pam_tally : binding := LuaBindings.l_reset_pam_tally L h.
Definition l_increment_pam_tally : binding := LuaBindings.l_increment_pam_tally L h.
Definition l_is_ip_in_subnet : binding := LuaBindings.l_is_ip_in_subnet L.
Definition l_is_ipv6_in_subnet : binding := LuaBindings.l_is_ipv6_in_subnet L.

(** Here the password stays as it is. *)
Definition l_is_vnc_password_complexity_check_pass : binding := fun args =>
  pwd ← check_string L (arg args 1);
  mret [LuaBoolean (negb (is_vnc_password_complexity_check_pass (Some pwd) =? FALSE))].

(** Here the key is not copied: eight bytes are read at the Lua string. *)
Definition l_vnc_encrypt_bytes : binding := fun args =>
  plaintext ← or_raise (luaL_checkstring L (arg args 1));
  auth_challenge ← or_raise (luaL_checkstring L (arg args 2));
  authen_challenge_len ← check_integer L (arg args 3);
  key ← or_ub (bytes_at plaintext (Z.of_nat KEYLENS));
  challenge ← or_ub (bytes_at auth_challenge (s32 authen_challenge_len));
  vnc_answer h key challenge.

Definition l_check_pattern : binding := fun args =>
  pattern ← check_string L (arg args 1);
  mret [LuaBoolean (check_pattern (h_regex_new h) pattern =? RET_OK)].

Definition l_verify_passwd_with_pattern : binding := fun args =>
  pattern ← check_string L (arg args 1);
  passwd ← check_string L (arg args 2);
  mret [LuaBoolean (verify_passwd_with_pattern (h_regex_new h) (h_regex_match h) pattern passwd =? RET_OK)].

Definition luaopen_account_core : list (String.string * binding) := [
  ("format_realpath"%string, l_format_realpath);
  ("is_manufacture_mode"%string, l_is_manufacture_mode);
  ("generate_requested_key_pair"%string, l_generate_requested_key_pair);
  ("encrypt_with_public_key"%string, l_encrypt_with_public_key);
  ("decrypt_with_private_key"%string, l_decrypt_with_private_key);
  ("get_mac_by_socket"%string, l_get_mac_by_socket);
  ("is_pass_complexity_check_pass"%string, l_is_pass_complexity_check_pass);
  ("is_vnc_password_complexity_check_pass"%string, l_is_vnc_password_complexity_check_pass);
  ("vnc_encrypt_bytes"%string, l_vnc_encrypt_bytes);
  ("get_user_shell"%string, l_get_user_shell);
  ("increment_pam_tally"%string, l_increment_pam_tally);
  ("reset_pam_tally"%string, l_reset_pam_tally);
  ("get_pam_tally"%string, l_get_pam_tally);
  ("get_pam_tally_with_fail_interval"%string, l_get_pam_tally_with_fail_interval);
  ("is_ip_in_subnet"%string, l_is_ip_in_subnet);
  ("is_ipv6_in_subnet"%string, l_is_ipv6_in_subnet);
  ("check_pattern"%string, l_check_pattern);
  ("verify_passwd_with_pattern"%string, l_verify_passwd_with_pattern)].
End account.

Section theorems.
Context `{LdapCodes} (L : lua_api) (manual : lua_manual L) (h : host).

(** *** The DES step of VNC *)

(** DES in ECB mode with padding: whole blocks of eight bytes first, one more block at the end. *)
Record ecb (o : openssl) : Prop := {
  ecb_ctx : cipher_ctx_new o = true;
  ecb_init key : des_init o key = true;
  ecb_update key input : exists out, des_update o key input = Some out /\ length out = (8 * (length input / 8))%nat;
  ecb_final key input : exists last, des_final o key input = Some last /\ length last = 8%nat
}.

Lemma vnc_output (o : openssl) key input :
  ecb o -> exists out, vnc_encrypt_bytes o key input = (RET_OK, out) /\ length out = (8 * (length input / 8) + 8)%nat.
Proof.
  intros Ho. unfold vnc_encrypt_bytes. rewrite (ecb_ctx o Ho), (ecb_init o Ho). cbn [negb].
  destruct (ecb_update o Ho (map Password.reverse (take KEYLENS key)) input) as (out & -> & Hout).
  destruct (ecb_final o Ho (map Password.reverse (take KEYLENS key)) input) as (last & -> & Hlast).
  eexists. split; [done|]. by rewrite length_app, Hout, Hlast.
Qed.

Lemma bytes_at_length s n bs : bytes_at s n = Some bs -> length bs = Z.to_nat n.
Proof.
  unfold bytes_at. destruct ((0 <=? n) && (n <=? Z.of_nat (length s) + 1)) eqn:E; [|done]. intros [= <-]. bool_hyps.
  rewrite length_map, length_take, length_app. cbn [length]. lia.
Qed.

Lemma bytes_at_all s : exists bs, bytes_at s (Z.of_nat (length s)) = Some bs.
Proof. unfold bytes_at. rewrite !(proj2 (Z.leb_le _ _)) by lia. by eexists. Qed.

(** C12: the memory of the VNC step: a password of up to eight characters and a challenge of at most 23 bytes give 0 and
    the encrypted challenge, of at most 24 bytes, and overwrite the password in Lua; a challenge of 24 bytes or more is
    written past the end of the array for the answer; a longer password is an error. The function of account_core
    reads past the end of a password of six characters or fewer. *)
Theorem vnc_bindings_bounds p s w :
  ecb (h_ssl h) -> Z.of_nat (length s) < 2 ^ 31 ->
  let args := [LuaString p; LuaString s; LuaInteger (Z.of_nat (length s))] in
  ((length (to_c p) <= 8)%nat -> (length s <= 23)%nat -> exists out,
     LuaBindings.l_vnc_encrypt_bytes L h args w =
       Some (inr [LuaInteger RET_OK; LuaString out],
             {| locks := locks w; signals := signals w; directory := directory w; wiped := to_c p :: wiped w |}) /\
     (length s < length out <= 24)%nat) /\
  ((length (to_c p) <= 8)%nat -> (24 <= length s)%nat -> LuaBindings.l_vnc_encrypt_bytes L h args w = UB) /\
  ((9 <= length (to_c p))%nat -> LuaBindings.l_vnc_encrypt_bytes L h args w = Some (inl (lit "vnc_encrypt_bytes failed!"), w)) /\
  ((length p <= 6)%nat -> l_vnc_encrypt_bytes L h args w = UB).
Proof.
  intros Hecb Hs args.
  assert (Hraw : forall (v : list ascii) B (k : list ascii -> LuaM world B) w', (or_raise (luaL_checkstring L (LuaString v)) ≫= k) w' = k v w').
  { intros v B k w'. by rewrite (checkstring_string L manual). }
  assert (Hint : lua_integer (Z.of_nat (length s))) by (unfold lua_integer; lia).
  pose proof (vnc_output (h_ssl h)) as Hout. destruct (bytes_at_all s) as [bs Hbs].
  assert (Hblocks : length bs = length s) by (apply bytes_at_length in Hbs; by rewrite Nat2Z.id in Hbs).
  assert (Hiam : forall out, (length (to_c p) <= 8)%nat ->
            vnc_answer h (map code (to_c p ++ replicate (KEYLENS + 1 - length (to_c p)) NUL)) bs w = out ->
            LuaBindings.l_vnc_encrypt_bytes L h args w =
              match out with
              | Some (inr r, w') => Some (inr r, {| locks := locks w'; signals := signals w'; directory := directory w'; wiped := to_c p :: wiped w' |})
              | Some (inl msg, w') => Some (inl msg, w')
              | None => UB
              end).
  { intros out Hp Ho. unfold LuaBindings.l_vnc_encrypt_bytes, args, arg. cbn [nth Nat.sub]. rewrite check_string_ok, Hraw, check_integer_ok by done.
    unfold strncpy_s. rewrite Nat.min_id, (proj2 (Nat.ltb_lt _ _)) by (unfold KEYLENS; lia). cbn [negb EOK Z.eqb].
    rewrite take_ge, s32_small by lia. unfold mbind at 1, LuaM_bind at 1, or_ub. rewrite Hbs.
    unfold mbind, LuaM_bind. rewrite Ho. by destruct out as [[[msg|r] w']|]. }
  destruct (Hout (map code (to_c p ++ replicate (KEYLENS + 1 - length (to_c p)) NUL)) bs Hecb) as (out & Hv & Hl).
  rewrite Hblocks in Hl. pose proof (Nat.div_mod_eq (length s) 8) as Hdm. pose proof (Nat.mod_upper_bound (length s) 8 ltac:(lia)) as Hmod.
  split; [|split; [|split]].
  - intros Hp H23. exists (chars out). split.
    + erewrite Hiam; [|done|unfold vnc_answer; rewrite Hv; reflexivity].
      rewrite (proj2 (Nat.ltb_ge _ _)) by (unfold VNC_CHALLENGESIZE; lia). done.
    + unfold chars. rewrite length_map. lia.
  - intros Hp H24. erewrite Hiam; [|done|unfold vnc_answer; rewrite Hv; reflexivity].
    by rewrite (proj2 (Nat.ltb_lt _ _)) by (unfold VNC_CHALLENGESIZE; lia).
  - intros Hp. unfold LuaBindings.l_vnc_encrypt_bytes, args, arg. cbn [nth Nat.sub]. rewrite check_string_ok, Hraw, check_integer_ok by done.
    unfold strncpy_s. rewrite Nat.min_id, (proj2 (Nat.ltb_ge _ _)) by (unfold KEYLENS; lia). done.
  - intros Hp. unfold l_vnc_encrypt_bytes, args, arg. cbn [nth Nat.sub]. rewrite !Hraw, check_integer_ok by done.
    assert (Hkey : bytes_at p (Z.of_nat KEYLENS) = UB).
    { unfold bytes_at. rewrite (proj2 (Z.leb_gt (Z.of_nat KEYLENS) (Z.of_nat (length p) + 1))) by (unfold KEYLENS; lia).
      by rewrite andb_false_r. }
    by rewrite Hkey.
Qed.

End theorems.

(** ** The theorems at concrete inputs *)


Lemma block_ecb : ecb block_ssl.
Proof.
  split; [done|done| |].
  - intros key input. eexists. split; [done|]. rewrite length_map, length_take.
    pose proof (Nat.div_mod_eq (length input) 8). lia.
  - intros key input. by eexists.
Qed.

(** A challenge of 16 bytes and one of 24, with the password secret12; a password of three characters. *)
Lemma vnc_bindings_bounds_witness :
  (exists out, LuaBindings.l_vnc_encrypt_bytes strict_lua demo_host
     [LuaString (lit "secret12"); LuaString (replicate 16 "c"%char); LuaInteger 16] world0 =
     Some (inr [LuaInteger 0; LuaString out],
           {| locks := state0; signals := []; directory := []; wiped := [lit "secret12"] |}) /\ (16 < length out <= 24)%nat) /\
  LuaBindings.l_vnc_encrypt_bytes strict_lua demo_host
    [LuaString (lit "secret12"); LuaString (replicate 24 "c"%char); LuaInteger 24] world0 = UB /\
  l_vnc_encrypt_bytes strict_lua demo_host
    [LuaString (lit "abc"); LuaString (replicate 16 "c"%char); LuaInteger 16] world0 = UB.
Proof.
  pose proof (fun p n => vnc_bindings_bounds strict_lua strict_manual demo_host p (replicate n "c"%char) world0 block_ecb) as Hb.
  split; [|split].
  - refine (proj1 (Hb (lit "secret12") 16%nat _) _ _); [reflexivity|apply Nat.leb_le; reflexivity..].
  - refine (proj1 (proj2 (Hb (lit "secret12") 24%nat _)) _ _); [reflexivity|apply Nat.leb_le; reflexivity..].
  - refine (proj2 (proj2 (proj2 (Hb (lit "abc") 16%nat _))) _); [reflexivity|apply Nat.leb_le; reflexivity].
Defined.

