(* ===== verification/LuaTypes.v ===== *)
(** * The types of the functions registered with Lua

    What a caller in Lua may rely on: for every name of the three modules the types of its arguments and
    results, the errors it raises, what it changes, and what has to hold for it to come back at all.
    [bindings_keep_signatures] shows that the functions of LuaBindings and LuaAccount are as the
    signatures say. *)
From S2P Require Import TallyLog IpLock Password Network LdapUsers LdapAuth.
From S2P Require Import LuaAccount.

(** ** Signatures *)

Inductive lua_type := TNil | TBoolean | TInteger | TString | TTable.

Definition has_type (v : lua_value) (t : lua_type) : Prop :=
  match t, v with
  | TNil, LuaNil | TBoolean, LuaBoolean _ | TInteger, LuaInteger _ | TString, LuaString _ | TTable, LuaTable _ => True
  | _, _ => False
  end.

(** An argument of a type; an integer of Lua has 64 bits. *)
Definition argument (v : lua_value) (t : lua_type) : Prop :=
  has_type v t /\ match v with LuaInteger z => lua_integer z | _ => True end.

(** The parts of the state a function may change. *)
Inductive part := Files | Counted | Bus | Signals | Directory | Strings.

Definition unchanged (w w' : world) (p : part) : Prop :=
  match p with
  | Files => ls_fs (locks w') = ls_fs (locks w)
  | Counted => g_ip_map (locks w') = g_ip_map (locks w)
  | Bus => ls_bus (locks w') = ls_bus (locks w)
  | Signals => signals w' = signals w
  | Directory => directory w' = directory w
  | Strings => wiped w' = wiped w
  end.

Record signature := {
  sg_name : String.string;
  sg_arguments : list lua_type;
  sg_results : list (list lua_type);                    (* one of these lists comes back *)
  sg_errors : list String.string;                       (* or an error that begins with one of these *)
  sg_changes : list part;
  sg_needs : list lua_value -> world -> Prop            (* to come back at all *)
}.

Definition sig (name : String.string) (ts : list lua_type) (alts : list (list lua_type)) : signature := {|
  sg_name := name; sg_arguments := ts; sg_results := alts; sg_errors := []; sg_changes := []; sg_needs := fun _ _ => True
|}.
Definition raising (errors : list String.string) (s : signature) : signature := {|
  sg_name := sg_name s; sg_arguments := sg_arguments s; sg_results := sg_results s; sg_errors := errors;
  sg_changes := sg_changes s; sg_needs := sg_needs s
|}.
Definition changing (parts : list part) (s : signature) : signature := {|
  sg_name := sg_name s; sg_arguments := sg_arguments s; sg_results := sg_results s; sg_errors := sg_errors s;
  sg_changes := parts; sg_needs := sg_needs s
|}.
Definition needing (P : list lua_value -> world -> Prop) (s : signature) : signature := {|
  sg_name := sg_name s; sg_arguments := sg_arguments s; sg_results := sg_results s; sg_errors := sg_errors s;
  sg_changes := sg_changes s; sg_needs := P
|}.

(** The outcome of a call. *)
Definition outcome (s : signature) (w : world) (r : list ascii + list lua_value) (w' : world) : Prop :=
  match r with
  | inl msg => Exists (fun e => lit e `prefix_of` msg) (sg_errors s)
  | inr rs => Exists (Forall2 has_type rs) (sg_results s)
  end /\
  forall p, p ∉ sg_changes s -> unchanged w w' p.

(** Called with arguments of its types, and what it needs given, the function registered under a name comes back as
    its signature says. *)
Definition keeps (entry : String.string * binding) (s : signature) : Prop :=
  fst entry = sg_name s /\
  forall args w, Forall2 argument args (sg_arguments s) -> sg_needs s args w ->
    exists r w', snd entry args w = Some (r, w') /\ outcome s w r w'.

(** ** What some functions need *)

(** Every whole structure in the file of the LDAP users has a name that is a string. *)
Definition names_readable (f : fs) : Prop :=
  forall bs n, files f !! LDAP_USER_FILE = Some bs -> ((S n) * rec_size LDAP_USER <= length bs)%nat ->
    named (rec_dec (take (rec_size LDAP_USER) (drop (n * rec_size LDAP_USER) bs))).

(** A length given with a string: within it, its NUL included. *)
Definition within (s : lua_value) (n : lua_value) (most : Z) : Prop :=
  match s, n with
  | LuaString s, LuaInteger n => 0 <= s32 n <= Z.min most (Z.of_nat (length s) + 1)
  | _, _ => False
  end.

Section signatures.
Context `{LdapCodes} (h : host).

(** The arrays of the sessions of utmp that are shown hold strings, and ps prints lines of two numbers. *)
Definition sessions_readable : Prop :=
  Forall terminated (shown (h_proc h)) /\
  (p_ps (h_proc h) = None \/
   exists lines pairs, Forall2 ps_line lines pairs /\ p_ps (h_proc h) = Some (text_of lines)).

(** The table of a login whose strings end inside the arrays they are copied to. *)
Definition login_table (v : lua_value) : Prop :=
  exists i c, v = auth_table i /\ info_fits i /\ names_fit i /\
    read_ldap_config true None i = Some (LDAP_AUTH_SUCCESS, Some c) /\ well_behaved (h_ldap h) /\ h_calloc h = true.

Definition shared_signatures : list signature := [
  raising ["format path failed! err code: "] (sig "format_realpath" [TString] [[TString; TInteger]]);
  sig "is_manufacture_mode" [] [[TBoolean]];
  raising ["generate_key_pair failed! ret code: "] (sig "generate_requested_key_pair" [] [[TString; TString]]);
  needing (fun args _ => within (arg args 3) (arg args 4) (2 ^ 31))
    (sig "encrypt_with_public_key" [TString; TInteger; TString; TInteger] [[TString]]);
  needing (fun args _ => within (arg args 3) (arg args 4) (2 ^ 31))
    (sig "decrypt_with_private_key" [TString; TInteger; TString; TInteger] [[TString]]);
  sig "get_mac_by_socket" [TString; TString] [[TString]; [TNil]];
  sig "is_pass_complexity_check_pass" [TString; TString; TInteger] [[TBoolean]];
  sig "get_user_shell" [] [[TString]];
  changing [Files] (raising ["increment_pam_tally failed! ret code: "] (sig "increment_pam_tally" [TString; TString] [[]]));
  changing [Files] (raising ["reset_pam_tally failed! ret code: "] (sig "reset_pam_tally" [TString; TString] [[]]));
  changing [Files] (raising ["get_pam_tally failed! ret code: "]
    (sig "get_pam_tally" [TString; TString; TInteger] [[TInteger; TInteger]]));
  changing [Files] (raising ["get_pam_tally failed! ret code: "]
    (sig "get_pam_tally_with_fail_interval" [TString; TString; TInteger; TInteger] [[TInteger; TInteger]]));
  sig "is_ip_in_subnet" [TString; TString] [[TBoolean]];
  sig "is_ipv6_in_subnet" [TString; TString] [[TBoolean]]]%string.

Definition iam_signatures : list signature := [
  changing [Strings] (sig "is_vnc_password_complexity_check_pass" [TString] [[TBoolean]]);
  needing (fun _ _ => sessions_readable) (sig "get_cli_online_users" [] [[TTable]]);
  changing [Signals] (sig "kill" [TInteger; TInteger] [[]]);
  changing [Directory] (needing (fun args _ => login_table (arg args 1))
    (sig "mscm_ldap_authenticate" [TTable] [[TInteger; TInteger; TTable]]));
  sig "check_username_divide_by_domain" [TString] [[TInteger; TString; TString]];
  sig "vos_ipv4_addr_valid_check" [TString] [[TInteger]];
  sig "vos_ipv6_addr_valid_check" [TString] [[TInteger]];
  changing [Strings] (raising ["vnc_encrypt_bytes failed!"]
    (needing (fun args _ => ecb (h_ssl h) /\ within (arg args 2) (arg args 3) 23)
      (sig "vnc_encrypt_bytes" [TString; TString; TInteger] [[TInteger; TString]])));
  needing (fun _ w => names_readable (ls_fs (locks w))) (sig "get_ldap_user_info" [TInteger] [[TInteger]; [TInteger; TTable]]);
  needing (fun _ w => names_readable (ls_fs (locks w))) (sig "get_authed_ldap_user" [] [[TTable]; [TInteger]]);
  changing [Files] (sig "uip_renew_ldap_user" [TInteger] [[TInteger]]);
  changing [Files] (sig "uip_alloc_ldap_uid" [] [[TInteger]])]%string.

Definition account_signatures : list signature := [
  sig "is_vnc_password_complexity_check_pass" [TString] [[TBoolean]];
  needing (fun args _ => ecb (h_ssl h) /\ within (arg args 2) (arg args 3) 23 /\
                         match arg args 1 with LuaString s => (KEYLENS <= length s + 1)%nat | _ => False end)
    (sig "vnc_encrypt_bytes" [TString; TString; TInteger] [[TInteger; TString]]);
  sig "check_pattern" [TString] [[TBoolean]];
  sig "verify_passwd_with_pattern" [TString; TString] [[TBoolean]]]%string.

Definition ip_lock_signatures : list signature := [
  changing [Files; Counted; Bus] (sig "increase_ip_fail_record" [TString; TString; TInteger] [[TInteger]]);
  changing [Files; Counted] (sig "clean_ip_fail_record" [TString; TString] [[TInteger]]);
  changing [Files] (raising ["get ip lock records failed!"]
    (sig "get_one_ip_lock_status" [TString; TString; TInteger; TInteger; TInteger] [[TBoolean]]));
  changing [Files] (raising ["get all ip lock records failed!"]
    (sig "get_all_ip_lock_status" [TString; TInteger; TInteger; TInteger] [[TInteger; TTable]]));
  changing [Files; Counted] (sig "clean_all_ip_fail_record" [TString] [[TInteger]])]%string.
End signatures.

(** A module keeps its signatures: each of its functions has one, and keeps it. *)
Definition module_keeps (table : list (String.string * binding)) (signatures : list signature) : Prop :=
  map fst table ≡ₚ map sg_name signatures /\ Forall (fun entry => Exists (keeps entry) signatures) table.

(** ** Running a function: total weakest preconditions in [LuaM] *)
Definition lwp {S A} (m : LuaM S A) (Q : list ascii + A -> S -> Prop) (w : S) : Prop :=
  exists r w', m w = Some (r, w') /\ Q r w'.

Section lwp.
Context {S : Type}.

Lemma lwp_ret {A} (a : A) Q (w : S) : Q (inr a) w -> lwp (mret a) Q w.
Proof. intros HQ. by exists (inr a), w. Qed.
Lemma lwp_error {A} msg (Q : list ascii + A -> S -> Prop) w : Q (inl msg) w -> lwp (luaL_error msg) Q w.
Proof. intros HQ. by exists (inl msg), w. Qed.
Lemma lwp_bind {A B} (m : LuaM S A) (f : A -> LuaM S B) Q w :
  lwp m (fun r w' => match r with inl msg => Q (inl msg) w' | inr a => lwp (f a) Q w' end) w -> lwp (m ≫= f) Q w.
Proof.
  intros ([msg|a] & w' & Hm & HQ); unfold lwp, mbind, LuaM_bind; rewrite Hm; [by exists (inl msg), w'|exact HQ].
Qed.
Lemma lwp_or_ub {A} (o : option A) a Q (w : S) : o = Some a -> Q (inr a) w -> lwp (or_ub o) Q w.
Proof. intros -> HQ. by exists (inr a), w. Qed.
Lemma lwp_act {A} (f : S -> A * S) Q w : (forall a w', f w = (a, w') -> Q (inr a) w') -> lwp (act f) Q w.
Proof. intros HQ. unfold lwp, act. destruct (f w) as [a w'] eqn:E. exists (inr a), w'. split; [done|by apply HQ]. Qed.
Lemma lwp_act_pair {A} (g : S -> A) (k : S -> S) Q w : Q (inr (g w)) (k w) -> lwp (act (fun s => (g s, k s))) Q w.
Proof. intros HQ. by exists (inr (g w)), (k w). Qed.

Context (L : lua_api) (manual : lua_manual L).
Lemma lwp_string s Q (w : S) : Q (inr (to_c s)) w -> lwp (check_string L (LuaString s)) Q w.
Proof. intros HQ. exists (inr (to_c s)), w. split; [|done]. unfold check_string. by rewrite (checkstring_string L manual). Qed.
Lemma lwp_raw s Q (w : S) : Q (inr s) w -> lwp (or_raise (luaL_checkstring L (LuaString s))) Q w.
Proof. intros HQ. exists (inr s), w. split; [|done]. by rewrite (checkstring_string L manual). Qed.
Lemma lwp_integer z Q (w : S) : lua_integer z -> Q (inr z) w -> lwp (check_integer L (LuaInteger z)) Q w.
Proof. intros Hz HQ. exists (inr z), w. split; [|done]. unfold check_integer. by rewrite (checkinteger_integer L manual). Qed.
End lwp.

Lemma lwp_top L (manual : lua_manual L) z Q f :
  lua_integer z -> Q (inr (s32 z)) f -> lwp (check_top L [LuaInteger z]) Q f.
Proof. intros Hz HQ. apply lwp_bind, lwp_integer; [done..|]. by apply lwp_ret. Qed.

Section lifting.
Context {A : Type} (Q : list ascii + A -> world -> Prop) (w : world).

Lemma lwp_on_locks f :
  (forall a s, f (locks w) = (a, s) -> Q (inr a) (set_locks w s)) -> lwp (on_locks f) Q w.
Proof. intros HQ. apply lwp_act. intros a w'. destruct (f (locks w)) as [b s] eqn:E. intros [= <- <-]. by apply HQ. Qed.
Lemma lwp_on_fs f :
  (forall a g, f (ls_fs (locks w)) = (a, g) -> Q (inr a) (set_locks w (set_ls_fs (locks w) g))) -> lwp (on_fs f) Q w.
Proof.
  intros HQ. apply lwp_on_locks. intros a s. destruct (f (ls_fs (locks w))) as [b g] eqn:E. intros [= <- <-]. by apply HQ.
Qed.
Lemma lwp_lift_fs (m : LuaM fs A) :
  lwp m (fun r g => Q r (set_locks w (set_ls_fs (locks w) g))) (ls_fs (locks w)) -> lwp (lift_fs m) Q w.
Proof. intros (r & g & Hm & HQ). unfold lwp, lift_fs. rewrite Hm. by eexists _, _. Qed.
Lemma lwp_lift_directory (m : LuaM (list event) A) :
  lwp m (fun r d => Q r {| locks := locks w; signals := signals w; directory := d; wiped := wiped w |}) (directory w) ->
  lwp (lift_directory m) Q w.
Proof. intros (r & d & Hm & HQ). unfold lwp, lift_directory. rewrite Hm. by eexists _, _. Qed.
End lifting.

(** ** The functions that need something *)

(** The structures the count of failures is read into. *)
Lemma tally_given e f user dir unlock t r f' :
  get_pam_tally e f user (Some dir) unlock (Some t) = (r, f') -> exists ret t', r = (ret, Some t').
Proof. unfold get_pam_tally. destruct (get_user_info _ _ _ _ _ _ _) as [[ret t'] g]. intros [= <- <-]. by eexists _, _. Qed.
Lemma tally_given_interval e f user dir unlock interval t r f' :
  get_pam_tally_with_fail_interval e f user (Some dir) unlock interval (Some t) = (r, f') -> exists ret t', r = (ret, Some t').
Proof.
  unfold get_pam_tally_with_fail_interval. destruct (get_user_info _ _ _ _ _ _ _) as [[ret t'] g]. intros [= <- <-].
  by eexists _, _.
Qed.

(** The buffers of the keys stay. *)
Lemma key_buffers o b1 b2 : exists ret p q, generate_key_pair o (Some b1) (Some b2) = (ret, Some p, Some q).
Proof.
  assert (Hprivate : forall k b, exists ret p, convert_private_key_to_string o k (Some b) = (ret, Some p)).
  { intros [k|] b; [|by eexists _, _]. cbn. destruct (convert_key_to_string _ _ _). by eexists _, _. }
  assert (Hpublic : forall k b, exists ret p, convert_public_key_to_string o k (Some b) = (ret, Some p)).
  { intros [k|] b; [|by eexists _, _]. cbn. destruct (convert_key_to_string _ _ _). by eexists _, _. }
  unfold generate_key_pair. destruct (negb _); [by eexists _, _, _|]. destruct (_ =? _); [by eexists _, _, _|].
  destruct (keygen o) as [ret k]. destruct (ret =? _); [by eexists _, _, _|].
  destruct (Hprivate k b2) as (r1 & p & ->). destruct (negb (r1 =? _)); [by eexists _, _, _|].
  destruct (Hpublic k b1) as (r2 & q & ->). destruct (negb (r2 =? _)); by eexists _, _, _.
Qed.

Lemma crypt_text o k init size op input len text :
  crypt o k init size op input None = (len, text) -> len <= 0 \/ is_Some text.
Proof.
  unfold crypt. intros Hc. repeat case_match; simplify_eq/=; first [by left|by right].
Qed.

Lemma bytes_within s n most : within (LuaString s) (LuaInteger n) most ->
  exists bs, bytes_at s (s32 n) = Some bs /\ Z.of_nat (length bs) <= most.
Proof.
  cbn [within]. intros Hn. assert (Hb : is_Some (bytes_at s (s32 n))).
  { unfold bytes_at. rewrite !(proj2 (Z.leb_le _ _)) by lia. by eexists. }
  destruct Hb as [bs Hbs]. exists bs. split; [done|]. rewrite (bytes_at_length _ _ _ Hbs). lia.
Qed.

(** The sessions: a list comes back. *)
Lemma sessions_come h : sessions_readable h -> exists vs, l_get_cli_online_users (h_proc h) = Some (array_of vs).
Proof.
  intros [HT [Hps|(lines & pairs & HL & Hps)]].
  - unfold l_get_cli_online_users, get_notty_sshd. rewrite Hps, utmp_shown, decide_True by done. by eexists.
  - rewrite <- (app_nil_r (text_of lines)) in Hps.
    destruct (listed_lines (h_proc h) lines pairs [] HT HL Hps) as (fuel & text & Ht & Hl).
    destruct (last_pair pairs (0, 0)) as [p q]. cbn [fst snd] in Hl.
    edestruct (notty_tail (h_proc h) fuel text [] p q) as [Htail _]; [|exact Ht|].
    2: { rewrite Hl, Htail by done. by eexists. }
    rewrite length_take. lia.
Qed.

(** One structure read from the file has its name. *)
Lemma read_named e f bs n r u :
  names_readable f -> files f !! LDAP_USER_FILE = Some bs ->
  fread_user e (drop (n * rec_size LDAP_USER) bs) zero_ldap_user = (r, u) -> r = 1 -> is_Some (c_str (LdapUsers.username u)).
Proof.
  intros Hf Hbs. unfold fread_user. destruct (fread_ret e 1 =? 1); [|intros [= <- <-]; done].
  intros Hu ->. case_match eqn:Hlen; [|done]. apply Nat.eqb_eq in Hlen. apply (f_equal snd) in Hu. cbn [snd] in Hu. subst u.
  rewrite (drop_ge (rec_enc zero_ldap_user)), app_nil_r.
  - apply (Hf bs n Hbs). rewrite length_take, length_drop in Hlen. pose proof (rec_size_pos (R:=LDAP_USER)). lia.
  - rewrite Hlen, (rec_enc_length (R:=LDAP_USER)) by exact zero_user_wf. done.
Qed.

(** The table of LdapUsers is such a file. *)
Lemma table_named f us : LdapUsers.holds f us -> Forall named us -> names_readable f.
Proof.
  intros [Hc HF] Hn bs n Hbs Hlen. unfold content in Hc. rewrite Hbs in Hc. cbn in Hc. subst bs.
  rewrite length_encode_array in Hlen by done.
  assert (Hlt : (n < length us)%nat) by (pose proof (rec_size_pos (R:=LDAP_USER)); nia).
  pose proof (decode_array_lookup (R:=LDAP_USER) (length us) (encode_array (R:=LDAP_USER) us ++ []) n Hlt) as Hu.
  rewrite decode_encode_array, app_nil_r in Hu by done. exact (Forall_lookup_1 _ _ _ _ Hn Hu).
Qed.

Lemma user_read_named e f z r u :
  names_readable f -> uip_read_ldap_user e f z (Some zero_ldap_user) = (r, u) -> (r =? RET_ERR) = false ->
  exists u' name, u = Some u' /\ c_str (LdapUsers.username u') = Some name.
Proof.
  intros Hf. unfold uip_read_ldap_user. destruct (_ <? _); [by intros [= <- _]|].
  destruct (files f !! LDAP_USER_FILE) as [bs|] eqn:Hbs; [|by intros [= <- _]].
  destruct (negb _); [by intros [= <- _]|]. destruct (_ =? -1); [by intros [= <- _]|].
  destruct (fread_user _ _ _) as [r1 u1] eqn:Hr. destruct (negb (r1 =? 1)) eqn:E; [by intros [= <- _]|].
  intros [= <- <-] _. apply negb_false_iff, Z.eqb_eq in E.
  destruct (read_named _ _ _ _ _ _ Hf Hbs Hr E) as [name Hn]. by exists u1, name.
Qed.

(** The loop over the file comes to an end within its fuel. *)
Lemma authed_comes e f bs : names_readable f -> files f !! LDAP_USER_FILE = Some bs ->
  forall fuel n vs, (length (drop (n * rec_size LDAP_USER) bs) < fuel * rec_size LDAP_USER)%nat ->
  exists r, authed_loop e fuel (drop (n * rec_size LDAP_USER) bs) (array_of vs) (Z.of_nat (length vs)) = Some r /\
    match r with inl t => has_type t TTable | inr _ => True end.
Proof.
  intros Hf Hbs. induction fuel as [|fuel IH]; intros n vs Hfuel; [lia|]. cbn [authed_loop].
  destruct (_ <? _); [|by eexists]. destruct (fread_user _ _ _) as [r u] eqn:Hr.
  destruct (negb (r =? 1)) eqn:E; [case_match; (eexists; split; [reflexivity|done])|]. apply negb_false_iff, Z.eqb_eq in E.
  rewrite drop_drop. replace (n * rec_size LDAP_USER + rec_size LDAP_USER)%nat with (S n * rec_size LDAP_USER)%nat by lia.
  assert (Hfuel' : (length (drop (S n * rec_size LDAP_USER) bs) < fuel * rec_size LDAP_USER)%nat).
  { pose proof (rec_size_pos (R:=LDAP_USER)). rewrite !length_drop in *. cbn [Nat.mul] in *.
    assert (Hle : (rec_size LDAP_USER <= length bs - n * rec_size LDAP_USER)%nat); [|lia].
    revert Hr. unfold fread_user. rewrite length_take, length_drop. destruct (fread_ret e 1 =? 1); [|intros [= <- _]; done].
    intros Hr%(f_equal fst). cbn [fst] in Hr. case_match eqn:Hl; [apply Nat.eqb_eq in Hl; lia|]. congruence. }
  destruct (used u =? 0); [by apply IH|]. destruct (read_named _ _ _ _ _ _ Hf Hbs Hr E) as [name ->].
  cbn [mbind option_bind]. rewrite seti_array.
  replace (Z.of_nat (length vs) + 1) with (Z.of_nat (length (vs ++ [user_table u name]))) by (rewrite length_app; cbn; lia).
  by apply IH.
Qed.

Lemma lwp_text_answer len text s w :
  len <= 0 \/ is_Some text -> (forall t, outcome s w (inr [LuaString t]) w) -> lwp (text_answer (len, text)) (outcome s w) w.
Proof.
  intros Ht HQ. unfold text_answer. destruct (Z.leb_spec len 0); [by apply lwp_ret|]. destruct Ht as [?|[t ->]]; [lia|].
  eapply lwp_bind, lwp_or_ub; [done|]. by apply lwp_ret.
Qed.

(** The answer fits its array when the challenge has at most 23 bytes. *)
Lemma lwp_vnc_answer h key challenge Q w :
  ecb (h_ssl h) -> Z.of_nat (length challenge) <= 23 -> (forall out, Q (inr [LuaInteger RET_OK; LuaString out]) w) ->
  lwp (vnc_answer h key challenge) Q w.
Proof.
  intros Hecb Hlen HQ. unfold vnc_answer. destruct (vnc_output (h_ssl h) key challenge Hecb) as (out & -> & Hout).
  pose proof (Nat.div_mod_eq (length challenge) 8). rewrite (proj2 (Nat.ltb_ge _ _)) by (unfold VNC_CHALLENGESIZE; lia).
  by apply lwp_ret.
Qed.

Lemma clean_bus e s dir ip a s' : clean_fail_record e s dir ip = (a, s') -> ls_bus s' = ls_bus s.
Proof. unfold clean_fail_record. destruct (remove_port_from_ip _ _); by intros [= <- <-]. Qed.
Lemma clean_loop_bus e dir entries : forall s, ls_bus (clean_loop e s dir entries) = ls_bus s.
Proof.
  induction entries as [|d entries IH]; intros s; cbn [clean_loop]; [done|]. destruct (_ || _); [apply IH|]. rewrite IH.
  destruct (clean_fail_record _ _ _ _) as [a s'] eqn:E. by apply clean_bus in E.
Qed.
Lemma clean_all_bus e s dir entries a s' : clean_all_fail_record e s dir entries = (a, s') -> ls_bus s' = ls_bus s.
Proof. unfold clean_all_fail_record. destruct entries; intros [= <- <-]; [apply clean_loop_bus|done]. Qed.

Lemma push_records_table records : forall t i, has_type t TTable -> has_type (push_records t i records) TTable.
Proof. induction records as [|r records IH]; intros t i Ht; [done|]. apply IH. by destruct t. Qed.

(** ** Every function keeps its signature *)

Ltac take_arguments :=
  repeat match goal with
  | H : Forall2 argument ?a (_ :: _) |- _ =>
      let v := fresh "v" in let Hv := fresh "Hv" in
      apply Forall2_cons_inv_r in H as (v & ? & Hv & H & ->); destruct v; destruct Hv as [[] Hv]
  | H : Forall2 argument ?a [] |- _ => apply Forall2_nil_inv_r in H as ->
  end.

Ltac result_types :=
  first [apply Exists_cons_hd; repeat constructor; solve [done | by apply push_records_table] | apply Exists_cons_tl; result_types].
Ltac error_text := first [apply Exists_cons_hd; eexists; unfold error_code; reflexivity | apply Exists_cons_tl; error_text].
Ltac frame :=
  let p := fresh in let Hp := fresh in intros p Hp; destruct p;
  first [reflexivity | eapply clean_bus; eassumption | eapply clean_all_bus; eassumption
        | exfalso; apply Hp; cbn; repeat constructor].

Ltac lwp_step :=
  match goal with
  | |- outcome _ _ (inr _) _ => split; [cbn; try case_match; result_types|frame]
  | |- outcome _ _ (inl _) _ => split; [cbn -[lit error_code]; error_text|frame]
  | |- lwp (mret _) _ _ => apply lwp_ret
  | |- lwp (luaL_error _) _ _ => apply lwp_error
  | |- lwp (check_string _ (LuaString _)) _ _ => eapply lwp_string; [eassumption|]
  | |- lwp (or_raise (luaL_checkstring _ _)) _ _ => eapply lwp_raw; [eassumption|]
  | |- lwp (check_integer _ (LuaInteger _)) _ _ => eapply lwp_integer; [eassumption..|]
  | |- lwp (check_top _ _) _ _ => eapply lwp_top; [eassumption..|]
  | |- lwp (act _) _ _ => first [apply lwp_act_pair; cbv beta | apply lwp_act; intros ? ? ?]
  | |- lwp (on_fs _) _ _ => apply lwp_on_fs; intros ? ? ?
  | |- lwp (on_locks _) _ _ => apply lwp_on_locks; intros ? ? ?
  | |- lwp (lift_fs _) _ _ => apply lwp_lift_fs
  | |- lwp (wipe _) _ _ => apply lwp_act_pair; cbv beta
  | |- lwp (_ ≫= _) _ _ => apply lwp_bind
  | H : get_pam_tally _ _ _ _ _ _ = _ |- _ => apply tally_given in H as (? & ? & ->)
  | H : get_pam_tally_with_fail_interval _ _ _ _ _ _ _ = _ |- _ => apply tally_given_interval in H as (? & ? & ->)
  | |- lwp (or_ub (l_get_cli_online_users _)) _ _ =>
      let Hv := fresh in edestruct sessions_come as [? Hv]; [eassumption|]; eapply lwp_or_ub; [exact Hv|]
  | H : within (LuaString ?s) (LuaInteger ?n) _ |- lwp (or_ub (bytes_at ?s (s32 ?n))) _ _ =>
      let Hv := fresh in destruct (bytes_within _ _ _ H) as (? & Hv & ?); eapply lwp_or_ub; [exact Hv|]
  | |- lwp (text_answer _) _ _ =>
      unfold encrypt_with_public_key, decrypt_with_private_key;
      match goal with |- lwp (text_answer ?r) _ _ => let E := fresh in destruct r eqn:E; apply crypt_text in E end;
      apply lwp_text_answer; [assumption|intros ?]
  | |- lwp (vnc_answer _ _ _) _ _ => apply lwp_vnc_answer; [assumption..|intros ?]
  | |- context [generate_key_pair _ (Some _) (Some _)] =>
      let Hv := fresh in edestruct key_buffers as (? & ? & ? & Hv); rewrite Hv; clear Hv
  | H : uip_read_ldap_user _ _ _ _ = (?r, _), E : (?r =? RET_ERR) = false |- _ =>
      let Hn := fresh in apply user_read_named in H as (? & ? & -> & Hn); [|assumption|assumption]
  | H : c_str ?u = Some _ |- lwp (or_ub (c_str ?u)) _ _ => eapply lwp_or_ub; [exact H|]
  | |- lwp (or_ub (Some _)) _ _ => eapply lwp_or_ub; [reflexivity|]
  | |- lwp (if ?b then _ else _) _ _ => destruct b eqn:?
  | |- lwp (let '(_, _) := ?x in _) _ _ => destruct x eqn:?
  end.

Ltac unfold_bindings :=
  unfold LuaAccount.l_format_realpath, LuaAccount.l_is_manufacture_mode, LuaAccount.l_generate_requested_key_pair,
    LuaAccount.l_encrypt_with_public_key, LuaAccount.l_decrypt_with_private_key, LuaAccount.l_get_mac_by_socket,
    LuaAccount.l_is_pass_complexity_check_pass, LuaAccount.l_get_user_shell, LuaAccount.l_get_pam_tally,
    LuaAccount.l_get_pam_tally_with_fail_interval, LuaAccount.l_reset_pam_tally, LuaAccount.l_increment_pam_tally,
    LuaAccount.l_is_ip_in_subnet, LuaAccount.l_is_ipv6_in_subnet, LuaAccount.l_is_vnc_password_complexity_check_pass,
    l_check_pattern, l_verify_passwd_with_pattern,
    LuaBindings.l_format_realpath, LuaBindings.l_is_manufacture_mode, LuaBindings.l_get_mac_by_socket,
    LuaBindings.l_is_pass_complexity_check_pass, LuaBindings.l_get_user_shell, LuaBindings.l_get_pam_tally,
    LuaBindings.l_get_pam_tally_with_fail_interval, LuaBindings.l_reset_pam_tally, LuaBindings.l_increment_pam_tally,
    LuaBindings.l_is_ip_in_subnet, LuaBindings.l_is_ipv6_in_subnet, LuaBindings.l_is_vnc_password_complexity_check_pass,
    l_vos_ipv4_addr_valid_check, l_vos_ipv6_addr_valid_check, kill_binding, l_check_username_divide_by_domain,
    l_uip_renew_ldap_user, l_uip_alloc_ldap_uid, l_increase_ip_fail_record, l_clean_ip_fail_record,
    l_get_one_ip_lock_status, l_get_all_ip_lock_status, l_clean_all_fail_record, tally_answer_of,
    LuaAccount.l_generate_requested_key_pair, LuaBindings.l_generate_requested_key_pair,
    LuaAccount.l_encrypt_with_public_key, LuaBindings.l_encrypt_with_public_key, LuaAccount.l_decrypt_with_private_key,
    LuaBindings.l_decrypt_with_private_key, get_cli_online_users_binding, l_get_ldap_user_info.

(** The call with its arguments; then the steps of the body. *)
Ltac call :=
  split; [reflexivity|]; intros args w Hargs Hneeds; cbn [snd sg_arguments sg_needs raising changing needing sig] in *;
  take_arguments;
  match goal with |- exists r w', ?m ?w = _ /\ outcome ?s ?w0 _ _ => change (lwp m (outcome s w0) w) end;
  unfold_bindings; unfold arg in *; cbn [nth Nat.sub] in *.
Ltac keep_signature := call; repeat (lwp_step; cbv beta iota).

(** The signature is the one of the name. *)
Ltac by_name tac := first [apply Exists_cons_hd; solve [tac] | apply Exists_cons_tl; by_name tac].

Section theorems.
Context `{LdapCodes} (L : lua_api) (manual : lua_manual L) (h : host).

Lemma ip_lock_keeps : Forall (fun entry => Exists (keeps entry) ip_lock_signatures) (luaopen_ip_lock L h).
Proof. unfold luaopen_ip_lock, ip_lock_signatures. repeat (apply Forall_cons_2; [by_name keep_signature|]). apply Forall_nil_2. Qed.

(** *** The functions with memory of their own or an environment to rely on *)

Lemma account_vnc_keeps : Exists (keeps ("vnc_encrypt_bytes"%string, l_vnc_encrypt_bytes L h)) (account_signatures h).
Proof.
  apply Exists_cons_tl, Exists_cons_hd. call. destruct Hneeds as (Hecb & Hn & Hp). unfold l_vnc_encrypt_bytes, arg.
  cbn [nth Nat.sub]. repeat (lwp_step; cbv beta iota).
  assert (Hkey : is_Some (bytes_at s (Z.of_nat KEYLENS))).
  { unfold bytes_at. rewrite !(proj2 (Z.leb_le _ _)) by (unfold KEYLENS in *; lia). by eexists. }
  destruct Hkey as [key Hkey]. eapply lwp_or_ub; [exact Hkey|]. repeat (lwp_step; cbv beta iota).
Qed.

Lemma iam_vnc_keeps : Exists (keeps ("vnc_encrypt_bytes"%string, LuaBindings.l_vnc_encrypt_bytes L h)) (iam_signatures h).
Proof.
  do 7 apply Exists_cons_tl. apply Exists_cons_hd. call. destruct Hneeds as (Hecb & Hn).
  unfold LuaBindings.l_vnc_encrypt_bytes, arg. cbn [nth Nat.sub]. repeat (lwp_step; cbv beta iota).
Qed.

Lemma login_keeps :
  Exists (keeps ("mscm_ldap_authenticate"%string,
                 fun args => lift_directory (l_mscm_ldap_authenticate L (h_ldap h) (h_calloc h) args))) (iam_signatures h).
Proof.
  do 3 apply Exists_cons_tl. apply Exists_cons_hd. split; [done|]. intros args w Hargs (i & c & Hi & Hfit & Hn & Hc & laws & Hcalloc).
  cbn [sg_arguments sig changing needing snd] in *. apply Forall2_cons_inv_r in Hargs as (v & l & _ & Hl & ->).
  apply Forall2_nil_inv_r in Hl as ->. cbn [arg nth Nat.sub] in Hi. subst v. apply lwp_lift_directory.
  unfold lwp. rewrite Hcalloc, (call_ok L manual) by done.
  destruct (mscm_of_session (h_ldap h) laws i c Hc Hn 0 (replicate MAX_USER_GROUP 255)) as (b & rc & g & tr & _ & _ & ->).
  destruct (rc =? 0); (eexists _, _; split; [reflexivity|]; lwp_step).
Qed.

Lemma authed_keeps :
  Exists (keeps ("get_authed_ldap_user"%string, fun args => lift_fs (l_get_authed_ldap_user (h_os h) args))) (iam_signatures h).
Proof.
  do 9 apply Exists_cons_tl. apply Exists_cons_hd. call. apply lwp_lift_fs. unfold l_get_authed_ldap_user.
  apply lwp_bind, lwp_act_pair. cbv beta iota. destruct (files _ !! LDAP_USER_FILE) as [bs|] eqn:Hbs; [|by repeat lwp_step].
  destruct (negb _); [by repeat lwp_step|].
  destruct (authed_comes (h_os h) _ bs Hneeds Hbs (S (length bs / rec_size LDAP_USER)) 0 []) as (r & Hr & Ht).
  { pose proof (rec_size_pos (R:=LDAP_USER)). rewrite drop_0. pose proof (Nat.div_mod_eq (length bs) (rec_size LDAP_USER)).
    pose proof (Nat.mod_upper_bound (length bs) (rec_size LDAP_USER)). lia. }
  rewrite drop_0 in Hr. eapply lwp_bind, lwp_or_ub; [exact Hr|]. destruct r as [t|]; [|by repeat lwp_step].
  apply lwp_ret. destruct t; try done. by lwp_step.
Qed.

Lemma account_keeps :
  Forall (fun entry => Exists (keeps entry) (account_signatures h ++ shared_signatures)) (luaopen_account_core L h).
Proof.
  unfold luaopen_account_core.
  repeat (apply Forall_cons_2;
    [first [by apply Exists_app; left; apply account_vnc_keeps
           |unfold account_signatures, shared_signatures; cbn [app]; by_name keep_signature]|]).
  apply Forall_nil_2.
Qed.

Lemma iam_keeps : Forall (fun entry => Exists (keeps entry) (iam_signatures h ++ shared_signatures)) (luaopen_iam_core L h).
Proof.
  unfold luaopen_iam_core.
  repeat (apply Forall_cons_2;
    [first [apply Exists_app; left; first [exact iam_vnc_keeps | exact login_keeps | exact authed_keeps]
           |unfold iam_signatures, shared_signatures; cbn [app]; by_name keep_signature]|]).
  apply Forall_nil_2.
Qed.

Lemma names_agree (table : list (String.string * binding)) ss :
  bool_decide (map fst table ≡ₚ map sg_name ss) = true -> map fst table ≡ₚ map sg_name ss.
Proof. by intros H0%bool_decide_eq_true. Qed.

End theorems.

