(* ===== verification/Lockout.v ===== *)
(** * The lock of a user, across the libraries

    The failures are recorded by one library and judged by another: the service calls the Lua bindings of
    iam_core (iam_core/iam_lua_lib.c), the programs that ask whether a user is locked call libuip
    (iam_core/uip/uip_user.c). What they share are the record files of pam_tally_ext.c. *)
From S2P Require Import Common TallyLog LdapAuth IpLock LuaBindings UipUser.

(** Locked at [t]: a threshold is set, the unlock time since the last failure has not passed, and the failures in the
    window before it reach the threshold. *)
Definition locked_by (conf : lockout_conf) (t : Z) (ts : list Z) : Prop :=
  threshold conf <> 0 /\ t <= latest ts + duration conf /\
  threshold conf <= Z.of_nat (recent (latest ts) (time_interval conf) ts).

#[export] Instance locked_by_dec conf t ts : Decision (locked_by conf t ts).
Proof. unfold locked_by. apply _. Defined.

#[export] Instance locked_by_perm conf t : Proper ((≡ₚ) ==> iff) (locked_by conf t).
Proof. intros ts ts' Hp. unfold locked_by. by rewrite (latest_perm _ _ Hp), (recent_perm _ _ _ _ Hp). Qed.

(** A configuration whose numbers are in the range of their use. *)
Definition good_conf (conf : lockout_conf) : Prop :=
  0 <= threshold conf /\ 0 <= time_interval conf < 2 ^ 31 /\ 0 <= duration conf.

Section lockout.
Context `{LdapCodes} (L : lua_api) (manual : lua_manual L) (h : host).

(** C21: after any attempts of any users to log in that the service reports through Lua, libuip says that a user is
    locked exactly when the failures since his last success, of which the last 1024 are kept, are a reason to: a threshold
    is set, they reach it inside the window, and the unlock time has not passed. Asking changes no record. *)
Theorem lua_failures_lock_user dir attempts user w t b bs bs1 conf :
  dir <> [] -> no_nul dir -> good_user user -> Forall good_attempt attempts ->
  file_of w (tally_path user dir) = [] ->
  StronglySorted Z.le (failures_since dir (tally_path user dir) attempts) ->
  dbus_get_auth_lockout_conf b bs {| duration := 0; threshold := 0; time_interval := 0 |} = (RET_OK, conf, bs1) ->
  good_conf conf -> 0 <= t < 2 ^ 64 ->
  let ts := last_n 1024 (failures_since dir (tally_path user dir) attempts) in
  0 <= latest ts -> latest ts + duration conf < 2 ^ 64 ->
  exists w' f', run_attempts L h dir attempts w = Some w' /\
    uip_get_user_is_lock_by_username (nominal t) b bs (ls_fs (locks w')) (Some dir) user
      = (bool_decide (locked_by conf t ts), bs1, f') /\
    forall q, content f' q = file_of w' q.
Proof.
  intros Hd Hnd Hu HF He Hs Hb (Hth & Hti & Hdu) Ht ts Hl0 Hl. set (path := tally_path user dir) in *.
  destruct (attempts_run L manual h dir attempts path Hd Hnd HF w []) as (w' & Hrun & Hrep);
    [rewrite He; apply represents_empty|].
  fold (failures_since dir path attempts) in Hrep. unfold file_of in Hrep.
  pose proof (log_keeps_last 1024 (failures_since dir path attempts) ltac:(lia) Hs) as Hp. fold ts in Hp.
  destruct (user_lock_status t b bs bs1 (ls_fs (locks w')) dir user _ conf Hd Hu Hrep Hb Ht Hth Hti Hdu) as (f' & Hq & Hc);
    [by rewrite Hp|by rewrite Hp|].
  exists w', f'. split; [done|]. split; [|done]. rewrite Hq. do 2 f_equal.
  apply bool_decide_ext. exact (locked_by_perm conf t _ _ Hp).
Qed.
End lockout.

(** ** The theorem at concrete inputs: a failure, a success, two failures of admin and one of bob. *)


Lemma lua_failures_lock_user_witness :
  let attempts := [Failed (lit "admin") 80; Succeeded (lit "admin") 85; Failed (lit "admin") 90; Failed (lit "bob") 95;
                   Failed (lit "admin") 100] in
  let bus0 := {| g_dbus_conn := true; bus_address := None; bus_pid := None |} in
  exists w', run_attempts strict_lua demo_host (lit "/dev/shm/tallylog") attempts world0 = Some w' /\
    fst (fst (uip_get_user_is_lock_by_username (nominal 110) (conf_bus 300 2 60) bus0 (ls_fs (locks w'))
      (Some (lit "/dev/shm/tallylog")) (lit "admin"))) = true.
Proof.
  intros attempts bus0.
  assert (Hn : forall s, bool_decide (NUL ∉ s) = true -> no_nul s) by (intros s E; by apply bool_decide_eq_true in E).
  destruct (lua_failures_lock_user strict_lua strict_manual demo_host (lit "/dev/shm/tallylog") attempts (lit "admin") world0
              110 (conf_bus 300 2 60) bus0 bus0 {| duration := 300; threshold := 2; time_interval := 60 |})
    as (w' & f' & H1 & H2 & _).
  - discriminate.
  - by apply Hn.
  - reflexivity.
  - repeat constructor; first [by apply Hn|lia].
  - reflexivity.
  - vm_compute. repeat constructor; discriminate.
  - reflexivity.
  - unfold good_conf. cbn. lia.
  - lia.
  - vm_compute. discriminate.
  - vm_compute. reflexivity.
  - exists w'. split; [exact H1|]. rewrite H2. reflexivity.
Defined.
